(** * LRNG: entropy pool, stuck test and DRNG seeding logic of [lrng_base.c]

    A shallow embedding of the entropy-accounting and seeding engine of the
    Linux Random Number Generator (LRNG).  Every definition below is the
    translation of the C function of the same name; kernel integers are
    carried as [Z] with their wrap-around written out. *)

From Stdlib Require Import ZArith Lia Bool List.
From stdpp Require Import base list.

Local Open Scope Z_scope.

(** ** Machine integers *)

(** [(u32)x]: reduction to the unsigned 32-bit range. *)
Definition u32 (x : Z) : Z := x mod 2 ^ 32.

(** [(int)x]: reduction to the signed 32-bit range (two's complement; the
    kernel is compiled with wrapping signed arithmetic). *)
Definition s32 (x : Z) : Z := (x + 2 ^ 31) mod 2 ^ 32 - 2 ^ 31.

(** [min_t(u32, a, b)]: both operands are first cast to u32. *)
Definition min_u32 (a b : Z) : Z := Z.min (u32 a) (u32 b).

(** [rol32(word, shift)] of <linux/bitops.h>:
    [(word << (shift & 31)) | (word >> ((-shift) & 31))] on u32. *)
Definition rol32 (word shift : Z) : Z :=
  Z.lor (u32 (Z.shiftl word (Z.land shift 31)))
        (Z.shiftr word (Z.land (- shift) 31)).

(** An [atomic_t] holds an [int]; the helpers mirror the kernel API. *)
Definition atomic_read (v : Z) : Z := v.
Definition atomic_read_u32 (v : Z) : Z := u32 (atomic_read v).
Definition atomic_set (x : Z) : Z := s32 x.
Definition atomic_add (i v : Z) : Z := s32 (v + i).
(** [atomic_add_return] yields the new value, which is also stored. *)
Definition atomic_add_return (i v : Z) : Z := s32 (v + i).

(** ** Constants *)

Definition LRNG_DRNG_SECURITY_STRENGTH_BYTES : Z := 32.
Definition LRNG_DRNG_SECURITY_STRENGTH_BITS : Z :=
  LRNG_DRNG_SECURITY_STRENGTH_BYTES * 8.
Definition LRNG_DRNG_MAX_REQSIZE : Z := Z.shiftl 1 12.
Definition LRNG_DRNG_RESEED_THRESH : Z := Z.shiftl 1 20.
Definition LRNG_FIPS_CRNGT : Z := 3.
Definition LRNG_POOL_SIZE : Z := 128.
Definition LRNG_POOL_WORD_BYTES : Z := 4.
Definition LRNG_POOL_SIZE_BYTES : Z := LRNG_POOL_SIZE * LRNG_POOL_WORD_BYTES.
Definition LRNG_POOL_SIZE_BITS : Z := LRNG_POOL_SIZE_BYTES * 8.
Definition LRNG_POOL_WORD_BITS : Z := LRNG_POOL_WORD_BYTES * 8.
Definition LRNG_IRQ_ENTROPY_BYTES : Z := LRNG_DRNG_SECURITY_STRENGTH_BYTES.
Definition LRNG_IRQ_ENTROPY_BITS : Z := LRNG_IRQ_ENTROPY_BYTES * 8.
Definition LRNG_EMERG_ENTROPY : Z := LRNG_DRNG_SECURITY_STRENGTH_BITS * 2.
Definition LRNG_MIN_SEED_ENTROPY_BITS : Z := 128.
Definition LRNG_INIT_ENTROPY_BITS : Z := 32.
Definition LRNG_IRQ_OVERSAMPLING_FACTOR : Z := 10.
Definition INT_MAX : Z := 2 ^ 31 - 1.
Definition EINVAL : Z := 22.
Definition EINPROGRESS : Z := 115.
Definition EFAULT : Z := 14.

(** [lrng_lfsr_polynomial]: the taps of the 128-word LFSR. *)
Definition lrng_lfsr_polynomial : list Z := [127; 28; 26; 1].

(** [lrng_twist_table]. *)
Definition lrng_twist_table : list Z :=
  [ 0x00000000; 0x3b6e20c8; 0x76dc4190; 0x4db26158;
    0xedb88320; 0xd6d6a3e8; 0x9b64c2b0; 0xa00ae278 ].

(** ** Data model *)

(** [struct lrng_irq_info].  The [atomic_t] members hold signed values. *)
Record lrng_irq_info := mk_irq_info {
  num_events : Z;
  num_events_thresh : Z;
  last_time : Z;
  last_delta : Z;
  last_delta2 : Z;
  reseed_in_progress : Z;
  crngt_ctr : Z;
  irq_highres_timer : bool;
  stuck_test : bool;
  irq_entropy_bits : Z
}.

(** [struct lrng_pool].  The pool words are only ever accessed through
    [atomic_read_u32] and [atomic_set] of a u32, so the list carries their
    u32 view.  [lrng_hash] is the opaque hash handle. *)
Record lrng_pool := mk_pool {
  pool : list Z;
  pool_ptr : Z;
  input_rotate : Z;
  numa_drngs : Z;
  all_online_numa_node_seeded : bool;
  lrng_hash : Z;
  irq_info : lrng_irq_info
}.

(** Array read [a[i]]; every index used by the code is masked into range. *)
Definition word_at (a : list Z) (i : Z) : Z := default 0 (a !! Z.to_nat i).

(** ** Entropy pool: LFSR mixing *)

(** [lrng_pool_lfsr_u32]. *)
Definition lrng_pool_lfsr_u32 (value : Z) (p : lrng_pool) : lrng_pool :=
  let new_ptr := atomic_add_return 67 (pool_ptr p) in
  let ptr := Z.land (u32 new_ptr) (LRNG_POOL_SIZE - 1) in
  let new_rot :=
    atomic_add_return (if ptr =? 0 then 14 else 7) (input_rotate p) in
  let input_rotate' := Z.land (u32 new_rot) 31 in
  let word := rol32 value input_rotate' in
  let word := Z.lxor word (word_at (pool p) ptr) in
  let word := Z.lxor word (word_at (pool p)
    (Z.land (ptr + word_at lrng_lfsr_polynomial 0) (LRNG_POOL_SIZE - 1))) in
  let word := Z.lxor word (word_at (pool p)
    (Z.land (ptr + word_at lrng_lfsr_polynomial 1) (LRNG_POOL_SIZE - 1))) in
  let word := Z.lxor word (word_at (pool p)
    (Z.land (ptr + word_at lrng_lfsr_polynomial 2) (LRNG_POOL_SIZE - 1))) in
  let word := Z.lxor word (word_at (pool p)
    (Z.land (ptr + word_at lrng_lfsr_polynomial 3) (LRNG_POOL_SIZE - 1))) in
  let word :=
    Z.lxor (Z.shiftr word 3) (word_at lrng_twist_table (Z.land word 7)) in
  mk_pool (<[Z.to_nat ptr := word]> (pool p)) new_ptr new_rot
          (numa_drngs p) (all_online_numa_node_seeded p) (lrng_hash p)
          (irq_info p).

(** [lrng_pool_lfsr]: whole little-endian words first, then the remaining
    bytes one by one.  [buf] is a list of bytes. *)
Definition le_word (b0 b1 b2 b3 : Z) : Z :=
  Z.lor (Z.lor b0 (Z.shiftl b1 8)) (Z.lor (Z.shiftl b2 16) (Z.shiftl b3 24)).

Fixpoint lrng_pool_lfsr_bytes (buf : list Z) (p : lrng_pool) : lrng_pool :=
  match buf with
  | [] => p
  | b :: rest => lrng_pool_lfsr_bytes rest (lrng_pool_lfsr_u32 b p)
  end.

Fixpoint lrng_pool_lfsr (buf : list Z) (p : lrng_pool) : lrng_pool :=
  match buf with
  | b0 :: b1 :: b2 :: b3 :: rest =>
      lrng_pool_lfsr rest (lrng_pool_lfsr_u32 (le_word b0 b1 b2 b3) p)
  | _ => lrng_pool_lfsr_bytes buf p
  end.

(** [lrng_pool_lfsr_nonaligned]; [aligned] tells whether the buffer address
    is a multiple of [sizeof(u32)]. *)
Definition lrng_pool_lfsr_nonaligned (aligned : bool) (buf : list Z)
    (p : lrng_pool) : lrng_pool :=
  if aligned then lrng_pool_lfsr buf p else lrng_pool_lfsr_bytes buf p.

(** ** Stuck test *)

(** A kernel function returns, or ends in [panic()] or [BUG()]; a loop of
    the model that is cut off by its iteration budget yields [OutOfFuel]. *)
Inductive outcome (A : Type) : Type :=
| Returns (a : A)
| Panics
| OutOfFuel.
Arguments Returns {A} a.
Arguments Panics {A}.
Arguments OutOfFuel {A}.

Definition outcome_bind {A B : Type} (k : A -> outcome B) (m : outcome A)
    : outcome B :=
  match m with
  | Returns a => k a
  | Panics => Panics
  | OutOfFuel => OutOfFuel
  end.

#[global] Instance outcome_mbind : MBind outcome := @outcome_bind.
#[global] Instance outcome_mret : MRet outcome := @Returns.

Definition set_stuck_state (t d d2 : Z) (i : lrng_irq_info) : lrng_irq_info :=
  mk_irq_info (num_events i) (num_events_thresh i) t d d2
    (reseed_in_progress i) (crngt_ctr i) (irq_highres_timer i)
    (stuck_test i) (irq_entropy_bits i).

Definition set_crngt_ctr (c : Z) (i : lrng_irq_info) : lrng_irq_info :=
  mk_irq_info (num_events i) (num_events_thresh i) (last_time i)
    (last_delta i) (last_delta2 i) (reseed_in_progress i) c
    (irq_highres_timer i) (stuck_test i) (irq_entropy_bits i).

Definition set_num_events (n : Z) (i : lrng_irq_info) : lrng_irq_info :=
  mk_irq_info n (num_events_thresh i) (last_time i)
    (last_delta i) (last_delta2 i) (reseed_in_progress i) (crngt_ctr i)
    (irq_highres_timer i) (stuck_test i) (irq_entropy_bits i).

Definition set_num_events_thresh (n : Z) (i : lrng_irq_info) : lrng_irq_info :=
  mk_irq_info (num_events i) n (last_time i)
    (last_delta i) (last_delta2 i) (reseed_in_progress i) (crngt_ctr i)
    (irq_highres_timer i) (stuck_test i) (irq_entropy_bits i).

Definition set_reseed_in_progress (n : Z) (i : lrng_irq_info) : lrng_irq_info :=
  mk_irq_info (num_events i) (num_events_thresh i) (last_time i)
    (last_delta i) (last_delta2 i) n (crngt_ctr i)
    (irq_highres_timer i) (stuck_test i) (irq_entropy_bits i).

(** The three time derivatives computed by [lrng_irq_stuck]:
    [delta] is a u32, [delta2] and [delta3] are ints. *)
Definition stuck_delta (i : lrng_irq_info) (now_time : Z) : Z :=
  u32 (now_time - atomic_read_u32 (last_time i)).
Definition stuck_delta2 (i : lrng_irq_info) (now_time : Z) : Z :=
  s32 (stuck_delta i now_time - atomic_read_u32 (last_delta i)).
Definition stuck_delta3 (i : lrng_irq_info) (now_time : Z) : Z :=
  s32 (stuck_delta2 i now_time - atomic_read (last_delta2 i)).

(** [lrng_irq_stuck].  [fips] stands for [CONFIG_CRYPTO_FIPS] being compiled
    in and [fips_enabled] being set.  The result is the returned int and the
    updated [irq_info]. *)
Definition lrng_irq_stuck (fips : bool) (i : lrng_irq_info) (now_time : Z)
    : outcome (Z * lrng_irq_info) :=
  let delta := stuck_delta i now_time in
  let delta2 := stuck_delta2 i now_time in
  let delta3 := stuck_delta3 i now_time in
  let i1 := set_stuck_state (atomic_set now_time) (atomic_set delta)
                            (atomic_set delta2) i in
  if negb (stuck_test i1) then Returns (0, i1)
  else
    let verdict (i' : lrng_irq_info) :=
      if (delta =? 0) || (delta2 =? 0) || (delta3 =? 0)
      then Returns (1, i') else Returns (0, i') in
    if fips then
      if delta =? 0 then
        (* atomic_dec_and_test *)
        let c := atomic_add (-1) (crngt_ctr i1) in
        if c =? 0 then Panics else verdict (set_crngt_ctr c i1)
      else verdict (set_crngt_ctr (atomic_set LRNG_FIPS_CRNGT) i1)
    else verdict i1.

(** ** DRNG handles and the global state *)

(** [struct lrng_pdrng] (work item and mutex left out).  [pdrng] is the
    opaque DRNG handle, [pdrng_crypto_cb] the address of the callback set. *)
Record lrng_pdrng := mk_pdrng {
  pdrng : Z;
  pdrng_crypto_cb : Z;
  pdrng_fully_seeded : bool;
  pdrng_min_seeded : bool;
  pdrng_entropy_bits : Z
}.

(** [struct lrng_sdrng] (locks left out). *)
Record lrng_sdrng := mk_sdrng {
  sdrng : Z;
  sdrng_crypto_cb : Z;
  requests : Z;
  last_seeded : Z;
  fully_seeded : bool;
  force_reseed : bool
}.

(** Addresses of the statically allocated objects. *)
Definition lrng_cc20_crypto_cb : Z := 0.
Definition primary_chacha20 : Z := 1.
Definition secondary_chacha20 : Z := 2.

(** [IS_ERR]: error pointers are the negative handles. *)
Definition IS_ERR (h : Z) : bool := h <? 0.

(** A pointer to a [struct lrng_sdrng]: one of the two static instances or
    the heap object of a NUMA node. *)
Inductive sdrng_ref : Type :=
| Ref_init
| Ref_atomic
| Ref_node (n : nat).

(** An entry of the [lrng_sdrng] table: [&lrng_sdrng_init] for the first
    online node, an own heap object for every other one. *)
Inductive sdrng_slot : Type :=
| Slot_init
| Slot_own (s : lrng_sdrng).

(** Observable steps in program order: the calls out of the core, the
    entries into [lrng_sdrng_seed] ([Ev_sdrng_seed]) and the log line
    "seeding atomic/secondary DRNG with n bytes" of [lrng_sdrng_inject]
    ([Ev_seeding]). *)
Inductive event : Type :=
| Ev_wake_readers
| Ev_wake_writers
| Ev_wake_init_wait
| Ev_schedule_seed_work
| Ev_ready_func (rdy : Z)
| Ev_invalidate_batched_entropy
| Ev_hash_buffer (cb h : Z)
| Ev_hash_alloc (cb : Z)
| Ev_hash_dealloc (cb h : Z)
| Ev_drng_alloc (cb : Z)
| Ev_drng_dealloc (cb h : Z)
| Ev_drng_seed (cb h len : Z)
| Ev_drng_generate (cb h len : Z)
| Ev_sdrng_seed (r : sdrng_ref)
| Ev_seeding (r : sdrng_ref) (len : Z).

(** The environment: the answers of the calls that leave the core (crypto
    callbacks, CPU and jitter noise sources, cycle counter).  The [n]-th such
    call of a run returns [x_ret n] and writes the bytes [x_buf n]; when it
    is a DRNG generate call for [len] bytes it returns [x_gen n len];
    [x_digestsize cb h] is the digest size of hash [h] of callback set [cb];
    [x_HZ] is the configured tick rate [HZ]. *)
Record extern := mk_extern {
  x_ret : nat -> Z;
  x_gen : nat -> Z -> Z;
  x_buf : nat -> list Z;
  x_digestsize : Z -> Z -> Z;
  x_HZ : Z
}.

(** The global variables of [lrng_base.c]. *)
Record lrng_state := mk_state {
  st_pool : lrng_pool; (* lrng_pool *)
  st_pdrng : lrng_pdrng; (* lrng_pdrng *)
  st_sdrng_init : lrng_sdrng; (* lrng_sdrng_init *)
  st_sdrng_atomic : lrng_sdrng; (* lrng_sdrng_atomic *)
  st_sdrng : option (list (option sdrng_slot)); (* lrng_sdrng, NULL = None *)
  st_ready_list : list Z; (* lrng_ready_list *)
  st_pdrng_avail : Z; (* lrng_pdrng_avail *)
  st_reseed_max_time : Z; (* lrng_sdrng_reseed_max_time *)
  st_write_wakeup_bits : Z; (* lrng_write_wakeup_bits *)
  st_read_wakeup_bits : Z; (* lrng_read_wakeup_bits *)
  st_archrandom : Z; (* archrandom *)
  st_jitterrng : Z; (* jitterrng *)
  st_jent_initialized : Z; (* lrng_jent_initialized of lrng_get_jent *)
  st_reg_idx : Z; (* reg_idx of add_interrupt_randomness *)
  st_jiffies : Z; (* jiffies *)
  st_read_sleeper : bool; (* wq_has_sleeper(&lrng_read_wait) *)
  st_online : list nat; (* the online NUMA nodes *)
  st_tick : nat; (* calls made into the environment *)
  st_trace : list event (* observable steps so far *)
}.

Definition with_pool (f : lrng_pool -> lrng_pool) (s : lrng_state) : lrng_state :=
  mk_state (f (st_pool s)) (st_pdrng s) (st_sdrng_init s) (st_sdrng_atomic s)
    (st_sdrng s) (st_ready_list s) (st_pdrng_avail s) (st_reseed_max_time s)
    (st_write_wakeup_bits s) (st_read_wakeup_bits s) (st_archrandom s)
    (st_jitterrng s) (st_jent_initialized s) (st_reg_idx s) (st_jiffies s)
    (st_read_sleeper s) (st_online s) (st_tick s) (st_trace s).

Definition with_pdrng (f : lrng_pdrng -> lrng_pdrng) (s : lrng_state) : lrng_state :=
  mk_state (st_pool s) (f (st_pdrng s)) (st_sdrng_init s) (st_sdrng_atomic s)
    (st_sdrng s) (st_ready_list s) (st_pdrng_avail s) (st_reseed_max_time s)
    (st_write_wakeup_bits s) (st_read_wakeup_bits s) (st_archrandom s)
    (st_jitterrng s) (st_jent_initialized s) (st_reg_idx s) (st_jiffies s)
    (st_read_sleeper s) (st_online s) (st_tick s) (st_trace s).

Definition with_sdrng_init (f : lrng_sdrng -> lrng_sdrng) (s : lrng_state) : lrng_state :=
  mk_state (st_pool s) (st_pdrng s) (f (st_sdrng_init s)) (st_sdrng_atomic s)
    (st_sdrng s) (st_ready_list s) (st_pdrng_avail s) (st_reseed_max_time s)
    (st_write_wakeup_bits s) (st_read_wakeup_bits s) (st_archrandom s)
    (st_jitterrng s) (st_jent_initialized s) (st_reg_idx s) (st_jiffies s)
    (st_read_sleeper s) (st_online s) (st_tick s) (st_trace s).

Definition with_sdrng_atomic (f : lrng_sdrng -> lrng_sdrng) (s : lrng_state) : lrng_state :=
  mk_state (st_pool s) (st_pdrng s) (st_sdrng_init s) (f (st_sdrng_atomic s))
    (st_sdrng s) (st_ready_list s) (st_pdrng_avail s) (st_reseed_max_time s)
    (st_write_wakeup_bits s) (st_read_wakeup_bits s) (st_archrandom s)
    (st_jitterrng s) (st_jent_initialized s) (st_reg_idx s) (st_jiffies s)
    (st_read_sleeper s) (st_online s) (st_tick s) (st_trace s).

Definition with_sdrng_table (v : option (list (option sdrng_slot))) (s : lrng_state) : lrng_state :=
  mk_state (st_pool s) (st_pdrng s) (st_sdrng_init s) (st_sdrng_atomic s) v
    (st_ready_list s) (st_pdrng_avail s) (st_reseed_max_time s)
    (st_write_wakeup_bits s) (st_read_wakeup_bits s) (st_archrandom s)
    (st_jitterrng s) (st_jent_initialized s) (st_reg_idx s) (st_jiffies s)
    (st_read_sleeper s) (st_online s) (st_tick s) (st_trace s).

Definition with_ready_list (v : list Z) (s : lrng_state) : lrng_state :=
  mk_state (st_pool s) (st_pdrng s) (st_sdrng_init s) (st_sdrng_atomic s)
    (st_sdrng s) v (st_pdrng_avail s) (st_reseed_max_time s)
    (st_write_wakeup_bits s) (st_read_wakeup_bits s) (st_archrandom s)
    (st_jitterrng s) (st_jent_initialized s) (st_reg_idx s) (st_jiffies s)
    (st_read_sleeper s) (st_online s) (st_tick s) (st_trace s).

Definition with_pdrng_avail (v : Z) (s : lrng_state) : lrng_state :=
  mk_state (st_pool s) (st_pdrng s) (st_sdrng_init s) (st_sdrng_atomic s)
    (st_sdrng s) (st_ready_list s) v (st_reseed_max_time s)
    (st_write_wakeup_bits s) (st_read_wakeup_bits s) (st_archrandom s)
    (st_jitterrng s) (st_jent_initialized s) (st_reg_idx s) (st_jiffies s)
    (st_read_sleeper s) (st_online s) (st_tick s) (st_trace s).

Definition with_reseed_max_time (v : Z) (s : lrng_state) : lrng_state :=
  mk_state (st_pool s) (st_pdrng s) (st_sdrng_init s) (st_sdrng_atomic s)
    (st_sdrng s) (st_ready_list s) (st_pdrng_avail s) v
    (st_write_wakeup_bits s) (st_read_wakeup_bits s) (st_archrandom s)
    (st_jitterrng s) (st_jent_initialized s) (st_reg_idx s) (st_jiffies s)
    (st_read_sleeper s) (st_online s) (st_tick s) (st_trace s).

Definition with_archrandom (v : Z) (s : lrng_state) : lrng_state :=
  mk_state (st_pool s) (st_pdrng s) (st_sdrng_init s) (st_sdrng_atomic s)
    (st_sdrng s) (st_ready_list s) (st_pdrng_avail s) (st_reseed_max_time s)
    (st_write_wakeup_bits s) (st_read_wakeup_bits s) v (st_jitterrng s)
    (st_jent_initialized s) (st_reg_idx s) (st_jiffies s) (st_read_sleeper s)
    (st_online s) (st_tick s) (st_trace s).

Definition with_jitterrng (v : Z) (s : lrng_state) : lrng_state :=
  mk_state (st_pool s) (st_pdrng s) (st_sdrng_init s) (st_sdrng_atomic s)
    (st_sdrng s) (st_ready_list s) (st_pdrng_avail s) (st_reseed_max_time s)
    (st_write_wakeup_bits s) (st_read_wakeup_bits s) (st_archrandom s) v
    (st_jent_initialized s) (st_reg_idx s) (st_jiffies s) (st_read_sleeper s)
    (st_online s) (st_tick s) (st_trace s).

Definition with_jent_initialized (v : Z) (s : lrng_state) : lrng_state :=
  mk_state (st_pool s) (st_pdrng s) (st_sdrng_init s) (st_sdrng_atomic s)
    (st_sdrng s) (st_ready_list s) (st_pdrng_avail s) (st_reseed_max_time s)
    (st_write_wakeup_bits s) (st_read_wakeup_bits s) (st_archrandom s)
    (st_jitterrng s) v (st_reg_idx s) (st_jiffies s) (st_read_sleeper s)
    (st_online s) (st_tick s) (st_trace s).

Definition with_reg_idx (v : Z) (s : lrng_state) : lrng_state :=
  mk_state (st_pool s) (st_pdrng s) (st_sdrng_init s) (st_sdrng_atomic s)
    (st_sdrng s) (st_ready_list s) (st_pdrng_avail s) (st_reseed_max_time s)
    (st_write_wakeup_bits s) (st_read_wakeup_bits s) (st_archrandom s)
    (st_jitterrng s) (st_jent_initialized s) v (st_jiffies s)
    (st_read_sleeper s) (st_online s) (st_tick s) (st_trace s).

Definition with_jiffies (v : Z) (s : lrng_state) : lrng_state :=
  mk_state (st_pool s) (st_pdrng s) (st_sdrng_init s) (st_sdrng_atomic s)
    (st_sdrng s) (st_ready_list s) (st_pdrng_avail s) (st_reseed_max_time s)
    (st_write_wakeup_bits s) (st_read_wakeup_bits s) (st_archrandom s)
    (st_jitterrng s) (st_jent_initialized s) (st_reg_idx s) v
    (st_read_sleeper s) (st_online s) (st_tick s) (st_trace s).

Definition with_trace (v : list event) (s : lrng_state) : lrng_state :=
  mk_state (st_pool s) (st_pdrng s) (st_sdrng_init s) (st_sdrng_atomic s)
    (st_sdrng s) (st_ready_list s) (st_pdrng_avail s) (st_reseed_max_time s)
    (st_write_wakeup_bits s) (st_read_wakeup_bits s) (st_archrandom s)
    (st_jitterrng s) (st_jent_initialized s) (st_reg_idx s) (st_jiffies s)
    (st_read_sleeper s) (st_online s) (st_tick s) v.

(** One more call into the environment has been made. *)
Definition step_tick (s : lrng_state) : lrng_state :=
  mk_state (st_pool s) (st_pdrng s) (st_sdrng_init s) (st_sdrng_atomic s)
    (st_sdrng s) (st_ready_list s) (st_pdrng_avail s) (st_reseed_max_time s)
    (st_write_wakeup_bits s) (st_read_wakeup_bits s) (st_archrandom s)
    (st_jitterrng s) (st_jent_initialized s) (st_reg_idx s) (st_jiffies s)
    (st_read_sleeper s) (st_online s) (Datatypes.S (st_tick s)) (st_trace s).

(** Record an observable step. *)
Definition emit (e : event) (s : lrng_state) : lrng_state :=
  mk_state (st_pool s) (st_pdrng s) (st_sdrng_init s) (st_sdrng_atomic s)
    (st_sdrng s) (st_ready_list s) (st_pdrng_avail s) (st_reseed_max_time s)
    (st_write_wakeup_bits s) (st_read_wakeup_bits s) (st_archrandom s)
    (st_jitterrng s) (st_jent_initialized s) (st_reg_idx s) (st_jiffies s)
    (st_read_sleeper s) (st_online s) (st_tick s) (st_trace s ++ [e]).

Definition with_irq_info (f : lrng_irq_info -> lrng_irq_info) (p : lrng_pool) :=
  mk_pool (pool p) (pool_ptr p) (input_rotate p) (numa_drngs p)
    (all_online_numa_node_seeded p) (lrng_hash p) (f (irq_info p)).

Definition set_lrng_hash (h : Z) (p : lrng_pool) :=
  mk_pool (pool p) (pool_ptr p) (input_rotate p) (numa_drngs p)
    (all_online_numa_node_seeded p) h (irq_info p).

Definition set_all_online_numa_node_seeded (b : bool) (p : lrng_pool) :=
  mk_pool (pool p) (pool_ptr p) (input_rotate p) (numa_drngs p)
    b (lrng_hash p) (irq_info p).

(** ** Entropy accounting *)

(** [lrng_entropy_to_data]; u32 arithmetic. *)
Definition lrng_entropy_to_data (p : lrng_pool) (entropy_bits : Z) : Z :=
  u32 (entropy_bits * irq_entropy_bits (irq_info p))
    / LRNG_DRNG_SECURITY_STRENGTH_BITS.

(** [lrng_data_to_entropy]; u32 arithmetic.  The C code divides by
    [irq_entropy_bits], which [lrng_drngs_init_cc20] sets to a positive
    value before any caller can run. *)
Definition lrng_data_to_entropy (p : lrng_pool) (irqnum : Z) : Z :=
  u32 (irqnum * LRNG_DRNG_SECURITY_STRENGTH_BITS)
    / irq_entropy_bits (irq_info p).

(** [lrng_avail_entropy]. *)
Definition lrng_avail_entropy (p : lrng_pool) : Z :=
  min_u32 LRNG_POOL_SIZE_BITS
    (lrng_data_to_entropy p (atomic_read_u32 (num_events (irq_info p)))).

(** [lrng_set_entropy_thresh]. *)
Definition lrng_set_entropy_thresh (new : Z) (p : lrng_pool) : lrng_pool :=
  with_irq_info
    (set_num_events_thresh (atomic_set (lrng_entropy_to_data p new))) p.

(** [lrng_need_entropy]. *)
Definition lrng_need_entropy (s : lrng_state) : bool :=
  (lrng_avail_entropy (st_pool s) <? st_write_wakeup_bits s) &&
  (pdrng_entropy_bits (st_pdrng s) <? LRNG_DRNG_SECURITY_STRENGTH_BITS).

(** [lrng_have_entropy_full]. *)
Definition lrng_have_entropy_full (s : lrng_state) : bool :=
  (st_read_wakeup_bits s <=? lrng_avail_entropy (st_pool s)) ||
  (LRNG_DRNG_SECURITY_STRENGTH_BITS <=? pdrng_entropy_bits (st_pdrng s)).

(** [round_down(x, 8)] on a u32. *)
Definition round_down8 (x : Z) : Z := Z.land x (u32 (Z.lnot 7)).

(** The digest delivered by the hash callback, [digestsize] bytes long. *)
Definition digest_bytes (X : extern) (n : nat) (digestsize : Z) : list Z :=
  take (Z.to_nat digestsize) (x_buf X n ++ replicate (Z.to_nat digestsize) 0).

(** The [for] loop of [lrng_hash_pool].  It carries [i], the bytes still
    available, the bytes generated and the part of [outbuf] written so far,
    and returns the generated byte count with the bytes written. *)
Fixpoint lrng_hash_pool_loop (X : extern) (fuel : nat)
    (digestsize i avail_entropy_bytes generated_bytes : Z) (outbuf : list Z)
    (s : lrng_state) : outcome (Z * list Z * lrng_state) :=
  if (i <? LRNG_DRNG_SECURITY_STRENGTH_BYTES) && (0 <? avail_entropy_bytes)
  then
    match fuel with
    | O => OutOfFuel
    | Datatypes.S fuel' =>
        let tocopy :=
          Z.min (Z.min avail_entropy_bytes digestsize)
                (u32 (LRNG_DRNG_SECURITY_STRENGTH_BYTES - i)) in
        let cb := pdrng_crypto_cb (st_pdrng s) in
        let n := st_tick s in
        let s1 :=
          emit (Ev_hash_buffer cb (lrng_hash (st_pool s))) (step_tick s) in
        if negb (x_ret X n =? 0) then Returns (generated_bytes, outbuf, s1)
        else
          let digest := digest_bytes X n digestsize in
          let s2 := with_pool (lrng_pool_lfsr digest) s1 in
          lrng_hash_pool_loop X fuel' digestsize (u32 (i + digestsize))
            (u32 (avail_entropy_bytes - tocopy))
            (u32 (generated_bytes + tocopy))
            (outbuf ++ take (Z.to_nat tocopy) digest) s2
    end
  else Returns (generated_bytes, outbuf, s).

(** [lrng_hash_pool]; the result is the generated entropy in bits, the
    bytes written to [outbuf] and the new state. *)
Definition lrng_hash_pool (X : extern) (fuel : nat) (avail_entropy_bits : Z)
    (s : lrng_state) : outcome (Z * list Z * lrng_state) :=
  let digestsize :=
    u32 (x_digestsize X (pdrng_crypto_cb (st_pdrng s)) (lrng_hash (st_pool s))) in
  let avail_entropy_bytes := Z.shiftr avail_entropy_bits 3 in
  if 64 <? digestsize then Panics (* BUG_ON *)
  else
    let avail_entropy_bytes :=
      if LRNG_DRNG_SECURITY_STRENGTH_BYTES <? avail_entropy_bytes
      then LRNG_DRNG_SECURITY_STRENGTH_BYTES else avail_entropy_bytes in
    '(generated_bytes, outbuf, s') ←
      lrng_hash_pool_loop X fuel digestsize 0 avail_entropy_bytes 0 [] s;
    Returns (u32 (Z.shiftl generated_bytes 3), outbuf, s').

(** The tail of [lrng_get_pool] after label [out]: the events counted while
    the pool was read are an answer of the environment. *)
Definition lrng_get_pool_out (X : extern) (irq_num_events avail_entropy_bits : Z)
    (outbuf : list Z) (s : lrng_state) : Z * list Z * lrng_state :=
  let arrived := atomic_set (x_ret X (st_tick s)) in
  let s := step_tick s in
  let irq_num_events := u32 (irq_num_events + atomic_read_u32 arrived) in
  let s := with_pool (with_irq_info (set_num_events 0)) s in
  let irq_num_events_used :=
    lrng_entropy_to_data (st_pool s) avail_entropy_bits in
  let irq_num_event_back :=
    min_u32 (irq_num_events - irq_num_events_used)
            (lrng_entropy_to_data (st_pool s) LRNG_POOL_SIZE_BITS
               - irq_num_events_used) in
  let s :=
    with_pool (with_irq_info (fun i =>
      set_num_events (atomic_add irq_num_event_back (num_events i)) i)) s in
  (avail_entropy_bits, outbuf, s).

(** [lrng_get_pool]. *)
Definition lrng_get_pool (X : extern) (fuel : nat)
    (requested_entropy_bits : Z) (drain : bool) (s : lrng_state)
    : outcome (Z * list Z * lrng_state) :=
  let irq_num_events := atomic_read_u32 (num_events (irq_info (st_pool s))) in
  let s := with_pool (with_irq_info (set_num_events 0)) s in
  let avail_entropy_bits := lrng_data_to_entropy (st_pool s) irq_num_events in
  let avail_entropy_bits := min_u32 avail_entropy_bits LRNG_POOL_SIZE_BITS in
  let hash (avail_entropy_bits : Z) :=
    let avail_entropy_bits := round_down8 avail_entropy_bits in
    '(avail_entropy_bits, outbuf, s') ←
      lrng_hash_pool X fuel avail_entropy_bits s;
    Returns (lrng_get_pool_out X irq_num_events avail_entropy_bits outbuf s') in
  if drain then hash (min_u32 avail_entropy_bits requested_entropy_bits)
  else if avail_entropy_bits <? u32 (requested_entropy_bits + LRNG_EMERG_ENTROPY)
  then Returns (lrng_get_pool_out X irq_num_events 0 [] s)
  else hash requested_entropy_bits.

(** ** Primary DRNG *)

Definition set_pdrng_entropy_bits (v : Z) (d : lrng_pdrng) : lrng_pdrng :=
  mk_pdrng (pdrng d) (pdrng_crypto_cb d) (pdrng_fully_seeded d)
    (pdrng_min_seeded d) v.

Definition set_pdrng_seeded (fully min : bool) (d : lrng_pdrng) : lrng_pdrng :=
  mk_pdrng (pdrng d) (pdrng_crypto_cb d) fully min (pdrng_entropy_bits d).

Definition set_pdrng_handle (h cb : Z) (d : lrng_pdrng) : lrng_pdrng :=
  mk_pdrng h cb (pdrng_fully_seeded d) (pdrng_min_seeded d)
    (pdrng_entropy_bits d).

(** A call of a crypto callback or noise source: the environment's answer
    as an [int], the event being recorded. *)
Definition call_env (X : extern) (e : event) (s : lrng_state)
    : Z * lrng_state :=
  (s32 (x_ret X (st_tick s)), emit e (step_tick s)).

(** A generate call of a DRNG callback for [len] bytes. *)
Definition call_generate (X : extern) (cb h len : Z) (s : lrng_state)
    : Z * lrng_state :=
  (s32 (x_gen X (st_tick s) len), emit (Ev_drng_generate cb h len) (step_tick s)).

(** [lrng_process_ready_list]: every queued callback is unlinked and run. *)
Definition lrng_process_ready_list (s : lrng_state) : lrng_state :=
  with_ready_list []
    (fold_left (fun s' rdy => emit (Ev_ready_func rdy) s') (st_ready_list s) s).

(** [invalidate_batched_entropy]: the per-CPU batches live outside the
    modelled state, the call is recorded. *)
Definition invalidate_batched_entropy (s : lrng_state) : lrng_state :=
  emit Ev_invalidate_batched_entropy s.

(** [wake_up_all(&lrng_pdrng_init_wait)]. *)
Definition wake_up_init_wait (s : lrng_state) : lrng_state :=
  emit Ev_wake_init_wait s.

(** [lrng_pdrng_init_ops]. *)
Definition lrng_pdrng_init_ops (entropy_bits : Z) (s : lrng_state)
    : lrng_state :=
  if pdrng_fully_seeded (st_pdrng s) then s
  else if LRNG_DRNG_SECURITY_STRENGTH_BITS <=? entropy_bits then
    let s := invalidate_batched_entropy s in
    let s := with_pdrng (set_pdrng_seeded true true) s in
    let s :=
      with_pool (lrng_set_entropy_thresh LRNG_DRNG_SECURITY_STRENGTH_BITS) s in
    let s := lrng_process_ready_list s in
    wake_up_init_wait s
  else if negb (pdrng_min_seeded (st_pdrng s)) then
    if LRNG_MIN_SEED_ENTROPY_BITS <=? entropy_bits then
      let s := invalidate_batched_entropy s in
      let s :=
        with_pdrng (fun d => set_pdrng_seeded (pdrng_fully_seeded d) true d) s in
      let s :=
        with_pool (lrng_set_entropy_thresh LRNG_DRNG_SECURITY_STRENGTH_BITS) s in
      let s := lrng_process_ready_list s in
      wake_up_init_wait s
    else if LRNG_INIT_ENTROPY_BITS <=? entropy_bits then
      with_pool (lrng_set_entropy_thresh LRNG_MIN_SEED_ENTROPY_BITS) s
    else s
  else s.

(** [lrng_pdrng_generate]; the result is the returned [int]. *)
Definition lrng_pdrng_generate (X : extern) (outbuflen : Z)
    (fullentropy : bool) (s : lrng_state) : Z * lrng_state :=
  let d := st_pdrng s in
  if fullentropy && negb (pdrng_fully_seeded d) then (0, s)
  else
    let outbuflen :=
      if pdrng_min_seeded d
      then min_u32 outbuflen (Z.shiftr (pdrng_entropy_bits d) 3)
      else min_u32 outbuflen (Z.shiftr LRNG_MIN_SEED_ENTROPY_BITS 3) in
    if outbuflen =? 0 then (0, s)
    else
      let '(ret, s) :=
        call_generate X (pdrng_crypto_cb d) (pdrng d) outbuflen s in
      if negb (u32 ret =? outbuflen) then (ret, s)
      else
        let bits := u32 (Z.shiftl ret 3) in
        let s :=
          with_pdrng (fun d =>
            set_pdrng_entropy_bits
              (if bits <? pdrng_entropy_bits d
               then u32 (pdrng_entropy_bits d - Z.shiftl ret 3) else 0) d) s in
        (ret, s).

(** The reader wake-up at the end of [lrng_pdrng_inject]. *)
Definition wake_readers_if_full (s : lrng_state) : lrng_state :=
  if lrng_have_entropy_full s && st_read_sleeper s
  then emit Ev_wake_readers s else s.

(** [lrng_pdrng_inject]; [outbuf] tells whether an output buffer is given. *)
Definition lrng_pdrng_inject (X : extern) (inbuflen entropy_bits : Z)
    (outbuf : bool) (outbuflen : Z) (fullentropy : bool) (s : lrng_state)
    : Z * lrng_state :=
  let entropy_bits := min_u32 entropy_bits (Z.shiftl inbuflen 3) in
  let d := st_pdrng s in
  let '(ret, s) :=
    call_env X (Ev_drng_seed (pdrng_crypto_cb d) (pdrng d) inbuflen) s in
  if ret <? 0 then (ret, wake_readers_if_full s)
  else
    let s :=
      with_pdrng (fun d =>
        set_pdrng_entropy_bits
          (min_u32 (pdrng_entropy_bits d + entropy_bits)
                   LRNG_DRNG_SECURITY_STRENGTH_BITS) d) s in
    let s := lrng_pdrng_init_ops (pdrng_entropy_bits (st_pdrng s)) s in
    let '(ret, s) :=
      if outbuf && negb (outbuflen =? 0)
      then lrng_pdrng_generate X outbuflen fullentropy s else (ret, s) in
    (ret, wake_readers_if_full s).

(** The loop of [lrng_get_arch] over the [unsigned long]s of the buffer:
    [arch_get_random_seed_long], then [arch_get_random_long]. *)
Fixpoint lrng_get_arch_loop (X : extern) (n : nat) (s : lrng_state)
    : bool * lrng_state :=
  match n with
  | O => (true, s)
  | Datatypes.S n' =>
      let seed_long := x_ret X (st_tick s) in
      let s := step_tick s in
      if negb (seed_long =? 0) then lrng_get_arch_loop X n' s
      else
        let random_long := x_ret X (st_tick s) in
        let s := step_tick s in
        if negb (random_long =? 0) then lrng_get_arch_loop X n' s
        else (false, with_archrandom 0 s)
  end.

(** [lrng_get_arch]. *)
Definition lrng_get_arch (X : extern) (s : lrng_state) : Z * lrng_state :=
  let ent_bits := st_archrandom s in
  if ent_bits =? 0 then (0, s)
  else
    let '(ok, s) :=
      lrng_get_arch_loop X
        (Z.to_nat (LRNG_DRNG_SECURITY_STRENGTH_BYTES / 8)) s in
    if ok then (min_u32 ent_bits LRNG_DRNG_SECURITY_STRENGTH_BITS, s)
    else (0, s).

(** [lrng_get_jent] with [CONFIG_CRYPTO_JITTERENTROPY]. *)
Definition lrng_get_jent (X : extern) (outbuflen : Z) (s : lrng_state)
    : Z * lrng_state :=
  let ent_bits := st_jitterrng s in
  if (ent_bits =? 0) || (st_jent_initialized s =? -1) then (0, s)
  else
    let init (s : lrng_state) : bool * lrng_state :=
      if st_jent_initialized s =? 0 then
        let state := x_ret X (st_tick s) in
        let s := step_tick s in
        if state =? 0
        then (false, with_jent_initialized (-1) (with_jitterrng 0 s))
        else (true, with_jent_initialized 1 s)
      else (true, s) in
    let '(ok, s) := init s in
    if negb ok then (0, s)
    else
      let ret := s32 (x_ret X (st_tick s)) in
      let s := step_tick s in
      if negb (ret =? 0) then (0, s)
      else
        let ent_bits :=
          if negb (outbuflen =? LRNG_DRNG_SECURITY_STRENGTH_BYTES)
          then u32 (Z.shiftl (ent_bits * outbuflen) 3)
                 / LRNG_DRNG_SECURITY_STRENGTH_BITS
          else ent_bits in
        (min_u32 ent_bits (Z.shiftl outbuflen 3), s).

(** [lrng_pdrng_seed_locked]; the output buffer is always supplied. *)
Definition lrng_pdrng_seed_locked (X : extern) (fuel : nat) (outbuflen : Z)
    (fullentropy drain : bool) (s : lrng_state) : outcome (Z * lrng_state) :=
  let release (s : lrng_state) :=
    with_pool (with_irq_info (set_reseed_in_progress (atomic_set 0))) s in
  (* Get available entropy in primary DRNG *)
  let '(retrieved, served, outbuflen, s) :=
    if negb (Z.shiftr (pdrng_entropy_bits (st_pdrng s)) 3 =? 0) then
      let '(ret, s) := lrng_pdrng_generate X outbuflen fullentropy s in
      if 0 <? ret then
        if u32 ret =? outbuflen then (ret, true, outbuflen, s)
        else (ret, false, u32 (outbuflen - ret), s)
      else (0, false, outbuflen, s)
    else (0, false, outbuflen, s) in
  if served then Returns (retrieved, release s)
  else
    '(total_entropy_bits, _, s) ←
      lrng_get_pool X fuel LRNG_DRNG_SECURITY_STRENGTH_BITS drain s;
    let '(arch_bits, s) := lrng_get_arch X s in
    let total_entropy_bits := u32 (total_entropy_bits + arch_bits) in
    let '(jent_bits, s) :=
      lrng_get_jent X LRNG_DRNG_SECURITY_STRENGTH_BYTES s in
    let total_entropy_bits := u32 (total_entropy_bits + jent_bits) in
    (* entropy_buf.now = random_get_entropy() *)
    let s := step_tick s in
    let '(ret, s) :=
      lrng_pdrng_inject X (3 * LRNG_DRNG_SECURITY_STRENGTH_BYTES + 4)
        total_entropy_bits true outbuflen fullentropy s in
    let retrieved := if 0 <? ret then s32 (retrieved + ret) else retrieved in
    let s := if lrng_need_entropy s then emit Ev_wake_writers s else s in
    Returns (if 0 <=? ret then retrieved else ret, release s).

(** [lrng_pdrng_seed]: the single-flight gate on [reseed_in_progress]. *)
Definition lrng_pdrng_seed (X : extern) (fuel : nat) (outbuflen : Z)
    (fullentropy drain : bool) (s : lrng_state) : outcome (Z * lrng_state) :=
  if negb (atomic_read (reseed_in_progress (irq_info (st_pool s))) =? 0)
  then Returns (- EINPROGRESS, s)
  else
    lrng_pdrng_seed_locked X fuel outbuflen fullentropy drain
      (with_pool (with_irq_info (set_reseed_in_progress (atomic_set 1))) s).

(** ** Secondary DRNGs *)

Definition set_requests (v : Z) (d : lrng_sdrng) : lrng_sdrng :=
  mk_sdrng (sdrng d) (sdrng_crypto_cb d) v (last_seeded d) (fully_seeded d)
    (force_reseed d).

Definition set_last_seeded (v : Z) (d : lrng_sdrng) : lrng_sdrng :=
  mk_sdrng (sdrng d) (sdrng_crypto_cb d) (requests d) v (fully_seeded d)
    (force_reseed d).

Definition set_fully_seeded (b : bool) (d : lrng_sdrng) : lrng_sdrng :=
  mk_sdrng (sdrng d) (sdrng_crypto_cb d) (requests d) (last_seeded d) b
    (force_reseed d).

Definition set_force_reseed (b : bool) (d : lrng_sdrng) : lrng_sdrng :=
  mk_sdrng (sdrng d) (sdrng_crypto_cb d) (requests d) (last_seeded d)
    (fully_seeded d) b.

Definition set_sdrng_handle (h cb : Z) (d : lrng_sdrng) : lrng_sdrng :=
  mk_sdrng h cb (requests d) (last_seeded d) (fully_seeded d) (force_reseed d).

(** [lrng_sdrng[node]] as a pointer; [None] is the NULL entry. *)
Definition node_ref (s : lrng_state) (node : nat) : option sdrng_ref :=
  match st_sdrng s with
  | Some tab =>
      match tab !! node with
      | Some (Some Slot_init) => Some Ref_init
      | Some (Some (Slot_own _)) => Some (Ref_node node)
      | _ => None
      end
  | None => None
  end.

(** Dereference of a pointer obtained from the statics or from [node_ref]. *)
Definition get_sdrng (r : sdrng_ref) (s : lrng_state) : lrng_sdrng :=
  match r with
  | Ref_init => st_sdrng_init s
  | Ref_atomic => st_sdrng_atomic s
  | Ref_node n =>
      match st_sdrng s with
      | Some tab =>
          match tab !! n with
          | Some (Some (Slot_own d)) => d
          | _ => st_sdrng_init s
          end
      | None => st_sdrng_init s
      end
  end.

(** Update through such a pointer. *)
Definition upd_sdrng (r : sdrng_ref) (f : lrng_sdrng -> lrng_sdrng)
    (s : lrng_state) : lrng_state :=
  match r with
  | Ref_init => with_sdrng_init f s
  | Ref_atomic => with_sdrng_atomic f s
  | Ref_node n =>
      match st_sdrng s with
      | Some tab =>
          match tab !! n with
          | Some (Some (Slot_own d)) =>
              with_sdrng_table (Some (<[n := Some (Slot_own (f d))]> tab)) s
          | _ => s
          end
      | None => s
      end
  end.

Definition sdrng_ref_eqb (a b : sdrng_ref) : bool :=
  match a, b with
  | Ref_init, Ref_init => true
  | Ref_atomic, Ref_atomic => true
  | Ref_node n, Ref_node m => Nat.eqb n m
  | _, _ => false
  end.

(** [(long)x] on a 64-bit kernel. *)
Definition s64 (x : Z) : Z := (x + 2 ^ 63) mod 2 ^ 64 - 2 ^ 63.

(** [time_after(a, b)] of <linux/jiffies.h>: [(long)(b - a) < 0]. *)
Definition time_after (a b : Z) : bool := s64 (b - a) <? 0.

(** [lrng_sdrng_reseed_max_time * HZ], an [int] product. *)
Definition reseed_interval (X : extern) (s : lrng_state) : Z :=
  s32 (st_reseed_max_time s * x_HZ X).

(** [lrng_sdrng_is_atomic]. *)
Definition lrng_sdrng_is_atomic (r : sdrng_ref) (s : lrng_state) : bool :=
  sdrng (get_sdrng r s) =? sdrng (st_sdrng_atomic s).

(** [lrng_sdrng_inject]. *)
Definition lrng_sdrng_inject (X : extern) (r : sdrng_ref) (inbuflen : Z)
    (internal : bool) (s : lrng_state) : lrng_state :=
  let s := emit (Ev_seeding r inbuflen) s in
  let d := get_sdrng r s in
  let '(ret, s) :=
    call_env X (Ev_drng_seed (sdrng_crypto_cb d) (sdrng d) inbuflen) s in
  if ret <? 0 then upd_sdrng r (set_requests (atomic_set 1)) s
  else if internal then
    upd_sdrng r (fun d =>
      set_requests (atomic_set LRNG_DRNG_RESEED_THRESH)
        (set_last_seeded (st_jiffies s) d)) s
  else s.

(** [lrng_sdrng_reset]. *)
Definition lrng_sdrng_reset (jiffies : Z) (d : lrng_sdrng) : lrng_sdrng :=
  set_force_reseed true
    (set_fully_seeded false
      (set_last_seeded jiffies
        (set_requests (atomic_set LRNG_DRNG_RESEED_THRESH) d))).

(** [lrng_pdrng_reset]. *)
Definition lrng_pdrng_reset (d : lrng_pdrng) : lrng_pdrng :=
  mk_pdrng (pdrng d) (pdrng_crypto_cb d) false false 0.

Definition set_irq_timer (highres stuck : bool) (bits : Z)
    (i : lrng_irq_info) : lrng_irq_info :=
  mk_irq_info (num_events i) (num_events_thresh i) (last_time i)
    (last_delta i) (last_delta2 i) (reseed_in_progress i) (crngt_ctr i)
    highres stuck bits.

(** [lrng_drngs_init_cc20]; the two [random_get_entropy] probes are calls
    into the environment, the second one made only if the first gave 0. *)
Definition lrng_drngs_init_cc20 (X : extern) (s : lrng_state) : lrng_state :=
  if negb (atomic_read (st_pdrng_avail s) =? 0) then s
  else
    let t1 := x_ret X (st_tick s) in
    let s := step_tick s in
    let '(highres, s) :=
      if negb (t1 =? 0) then (true, s)
      else (negb (x_ret X (st_tick s) =? 0), step_tick s) in
    let s :=
      if highres then
        with_pool (with_irq_info (fun i =>
          set_irq_timer true (stuck_test i) LRNG_IRQ_ENTROPY_BITS i)) s
      else
        with_pool (with_irq_info (fun i =>
          set_irq_timer (irq_highres_timer i) false
            (LRNG_IRQ_ENTROPY_BITS * LRNG_IRQ_OVERSAMPLING_FACTOR) i)) s in
    let s := with_sdrng_init (lrng_sdrng_reset (st_jiffies s)) s in
    let s := with_sdrng_atomic (lrng_sdrng_reset (st_jiffies s)) s in
    let s := with_pdrng lrng_pdrng_reset s in
    with_pdrng_avail (atomic_set 1) s.

(** The context of a call: [in_atomic() || in_interrupt()] and
    [numa_node_id()]. *)
Record call_ctx := mk_ctx {
  ctx_atomic : bool;
  ctx_node : nat
}.

(** The instance [lrng_sdrng_get] serves the request from; a NULL table
    entry would be dereferenced, which the model renders as [None]. *)
Definition lrng_sdrng_select (ctx : call_ctx) (s : lrng_state)
    : option sdrng_ref :=
  if ctx_atomic ctx then Some Ref_atomic
  else
    match st_sdrng s with
    | Some _ =>
        match node_ref s (ctx_node ctx) with
        | Some r =>
            if fully_seeded (get_sdrng r s) then Some r else Some Ref_init
        | None => None
        end
    | None => Some Ref_init
    end.

(** The reseed condition inside the loop of [lrng_sdrng_get]:
    [atomic_dec_and_test(&sdrng->requests) || sdrng->force_reseed ||
     time_after(jiffies, sdrng->last_seeded + lrng_sdrng_reseed_max_time * HZ)].
    The decrement always takes place. *)
Definition lrng_sdrng_reseed_due (X : extern) (r : sdrng_ref) (s : lrng_state)
    : bool * lrng_state :=
  let s := upd_sdrng r (fun d => set_requests (atomic_add (-1) (requests d)) d) s in
  let d := get_sdrng r s in
  ((atomic_read (requests d) =? 0) || force_reseed d ||
   time_after (st_jiffies s) (last_seeded d + reseed_interval X s), s).

(** The condition under which [lrng_sdrng_seed] also reseeds the atomic
    DRNG from the secondary DRNG [r] it has just seeded. *)
Definition lrng_atomic_reseed_due (X : extern) (r : sdrng_ref)
    (s : lrng_state) : bool :=
  negb (sdrng (get_sdrng r s) =? sdrng (st_sdrng_atomic s)) &&
  (force_reseed (st_sdrng_atomic s) ||
   (atomic_read (requests (st_sdrng_atomic s)) <=? 0) ||
   time_after (st_jiffies s)
     (last_seeded (st_sdrng_atomic s) + reseed_interval X s)).

(** [lrng_sdrng_seed], [lrng_sdrng_get] and the [while] loop of the latter.
    [seed_func] is the function pointer handed to [lrng_sdrng_seed].  The C
    functions call each other; [fuel] bounds the depth of that recursion and
    the number of loop iterations. *)
Fixpoint lrng_sdrng_seed (X : extern) (fuel : nat) (ctx : call_ctx)
    (r : sdrng_ref)
    (seed_func : Z -> bool -> bool -> lrng_state -> outcome (Z * lrng_state))
    (s : lrng_state) {struct fuel} : outcome lrng_state :=
  match fuel with
  | O => OutOfFuel
  | Datatypes.S fuel' =>
      let s := emit (Ev_sdrng_seed r) s in
      '(ret, s) ← seed_func LRNG_DRNG_SECURITY_STRENGTH_BYTES false
                    (negb (fully_seeded (get_sdrng r s))) s;
      if ret <? 0 then
        if negb (ret =? - EINPROGRESS)
        then Returns (upd_sdrng r (set_requests (atomic_set 1)) s)
        else Returns s
      else
        let s := lrng_sdrng_inject X r ret true s in
        let s := upd_sdrng r (set_force_reseed false) s in
        let s :=
          if LRNG_DRNG_SECURITY_STRENGTH_BYTES <=? ret
          then upd_sdrng r (set_fully_seeded true) s else s in
        if lrng_atomic_reseed_due X r s then
          '(ret, s) ← lrng_sdrng_get X fuel' ctx
                        LRNG_DRNG_SECURITY_STRENGTH_BYTES s;
          if ret <? 0 then Returns s
          else
            let s := lrng_sdrng_inject X Ref_atomic ret true s in
            Returns (with_sdrng_atomic (set_force_reseed false) s)
        else Returns s
  end
with lrng_sdrng_get_loop (X : extern) (fuel : nat) (ctx : call_ctx)
    (r : sdrng_ref) (outbuflen processed : Z) (s : lrng_state)
    {struct fuel} : outcome (Z * lrng_state) :=
  if outbuflen =? 0 then Returns (s32 processed, s)
  else
    match fuel with
    | O => OutOfFuel
    | Datatypes.S fuel' =>
        let todo := min_u32 outbuflen LRNG_DRNG_MAX_REQSIZE in
        (* All but the atomic DRNG are seeded during generation *)
        let '(due, s) := lrng_sdrng_reseed_due X r s in
        s ← (if due && negb (sdrng_ref_eqb r Ref_atomic)
             then lrng_sdrng_seed X fuel' ctx r (lrng_pdrng_seed X fuel') s
             else Returns s);
        let d := get_sdrng r s in
        let '(ret, s) :=
          call_generate X (sdrng_crypto_cb d) (sdrng d) todo s in
        if ret <=? 0 then Returns (- EFAULT, s)
        else
          lrng_sdrng_get_loop X fuel' ctx r (u32 (outbuflen - ret))
            (u32 (processed + ret)) s
    end
with lrng_sdrng_get (X : extern) (fuel : nat) (ctx : call_ctx)
    (outbuflen : Z) (s : lrng_state) {struct fuel} : outcome (Z * lrng_state) :=
  match fuel with
  | O => OutOfFuel
  | Datatypes.S fuel' =>
      if outbuflen =? 0 then Returns (0, s)
      else
        let outbuflen := Z.min outbuflen INT_MAX in
        let s := lrng_drngs_init_cc20 X s in
        match lrng_sdrng_select ctx s with
        | None => Panics
        | Some r => lrng_sdrng_get_loop X fuel' ctx r outbuflen 0 s
        end
  end.

(** [lrng_pdrng_get]. *)
Definition lrng_pdrng_get (X : extern) (fuel : nat) (outbuflen : Z)
    (s : lrng_state) : outcome (Z * lrng_state) :=
  if outbuflen =? 0 then Returns (0, s)
  else
    let s := lrng_drngs_init_cc20 X s in
    '(ret, s) ← lrng_pdrng_seed X fuel outbuflen true true s;
    if 0 <? ret then Returns (ret, s)
    else if ret =? - EINPROGRESS then Returns (0, s)
    else Returns (ret, s).

(** ** Interrupt path *)

(** What the environment supplies to one run of [add_interrupt_randomness]:
    the cycle counter [random_get_entropy()], the verdict of the raw-entropy
    test hook [lrng_raw_entropy_store], the register words of
    [get_irq_regs()] (NULL = [None]) and the instruction pointer. *)
Record irq_event := mk_irq_event {
  ev_now_time : Z;
  ev_raw_store : bool;
  ev_regs : option (list Z);
  ev_ip : Z
}.

(** [lrng_pool_mixin]. *)
Definition lrng_pool_mixin (irq_num : Z) (s : lrng_state) : lrng_state :=
  let s :=
    if (Z.land (atomic_read_u32 (pool_ptr (st_pool s))) 0x3f =? 0) &&
       (lrng_entropy_to_data (st_pool s) (st_read_wakeup_bits s) <=? irq_num) &&
       st_read_sleeper s
    then emit Ev_wake_readers s else s in
  let i := irq_info (st_pool s) in
  if all_online_numa_node_seeded (st_pool s) then s
  else if atomic_read (st_pdrng_avail s) =? 0 then s
  else if atomic_read_u32 (num_events i) <? atomic_read_u32 (num_events_thresh i)
  then s
  else if negb (atomic_read (reseed_in_progress i) =? 0) then s
  else
    emit Ev_schedule_seed_work
      (with_pool (with_irq_info (set_reseed_in_progress (atomic_set 1))) s).

(** The extra mixing of [add_interrupt_randomness] without a
    high-resolution timer. *)
Definition irq_lowres_mix (e : irq_event) (irq irq_flags : Z) (s : lrng_state)
    : lrng_state :=
  let s := with_pool (lrng_pool_lfsr_u32 (u32 (st_jiffies s))) s in
  let s := with_pool (lrng_pool_lfsr_u32 (u32 irq)) s in
  let s := with_pool (lrng_pool_lfsr_u32 (u32 irq_flags)) s in
  let s :=
    match ev_regs e with
    | Some regs =>
        let reg_ptr := atomic_add_return 1 (st_reg_idx s) in
        let s := with_reg_idx reg_ptr s in
        let '(reg_ptr, s) :=
          if (reg_ptr <? 0) || (Z.of_nat (length regs) <=? reg_ptr)
          then (0, with_reg_idx (atomic_set 0) s) else (reg_ptr, s) in
        with_pool (lrng_pool_lfsr_u32 (u32 (word_at regs reg_ptr))) s
    | None => s
    end in
  let s := with_pool (lrng_pool_lfsr_u32 (u32 (Z.shiftr (ev_ip e) 32))) s in
  with_pool (lrng_pool_lfsr_u32 (u32 (ev_ip e))) s.

(** [add_interrupt_randomness]. *)
Definition add_interrupt_randomness (fips : bool) (e : irq_event)
    (irq irq_flags : Z) (s : lrng_state) : outcome lrng_state :=
  let now_time := u32 (ev_now_time e) in
  if ev_raw_store e then Returns s
  else
    let s := with_pool (lrng_pool_lfsr_u32 now_time) s in
    let s :=
      if negb (irq_highres_timer (irq_info (st_pool s)))
      then irq_lowres_mix e irq irq_flags s else s in
    '(stuck, i) ← lrng_irq_stuck fips (irq_info (st_pool s)) now_time;
    let s := with_pool (with_irq_info (fun _ => i)) s in
    if stuck =? 0 then
      let n := atomic_add_return 1 (num_events (irq_info (st_pool s))) in
      let s := with_pool (with_irq_info (set_num_events n)) s in
      Returns (lrng_pool_mixin (u32 n) s)
    else Returns s.

(** ** Switching the crypto callbacks *)

(** A pointer-valued answer of the environment (an allocation). *)
Definition call_env_ptr (X : extern) (e : event) (s : lrng_state)
    : Z * lrng_state :=
  (x_ret X (st_tick s), emit e (step_tick s)).

(** [lrng_sdrng_switch]. *)
Definition lrng_sdrng_switch (X : extern) (sdrng_store : sdrng_ref) (cb : Z)
    (s : lrng_state) : lrng_state :=
  let '(new_sdrng, s) := call_env_ptr X (Ev_drng_alloc cb) s in
  let reset_sdrng := atomic_read (st_pdrng_avail s) =? 0 in
  if IS_ERR new_sdrng then s
  else
    let d := get_sdrng sdrng_store s in
    let '(ret, s) :=
      call_generate X (sdrng_crypto_cb d) (sdrng d)
        LRNG_DRNG_SECURITY_STRENGTH_BYTES s in
    let '(reset_sdrng, s) :=
      if ret <? 0 then (true, s)
      else
        let '(ret, s) := call_env X (Ev_drng_seed cb new_sdrng ret) s in
        if ret <? 0 then (true, s) else (reset_sdrng, s) in
    let s :=
      if reset_sdrng
      then upd_sdrng sdrng_store (lrng_sdrng_reset (st_jiffies s)) s else s in
    let old := get_sdrng sdrng_store s in
    let s := upd_sdrng sdrng_store (set_sdrng_handle new_sdrng cb) s in
    if negb (sdrng old =? secondary_chacha20)
    then emit (Ev_drng_dealloc (sdrng_crypto_cb old) (sdrng old)) s else s.

(** The [for_each_online_node] loop of [lrng_drngs_switch]. *)
Fixpoint lrng_sdrng_switch_nodes (X : extern) (nodes : list nat) (cb : Z)
    (s : lrng_state) : lrng_state :=
  match nodes with
  | [] => s
  | node :: rest =>
      let s :=
        match node_ref s node with
        | Some r => lrng_sdrng_switch X r cb s
        | None => s
        end in
      lrng_sdrng_switch_nodes X rest cb s
  end.

(** [lrng_drngs_switch]; the result is the returned [int]. *)
Definition lrng_drngs_switch (X : extern) (cb : Z) (s : lrng_state)
    : Z * lrng_state :=
  let '(new_pdrng, s) := call_env_ptr X (Ev_drng_alloc cb) s in
  if IS_ERR new_pdrng then (new_pdrng, s)
  else
    let '(hash, s) := call_env_ptr X (Ev_hash_alloc cb) s in
    if IS_ERR hash then (hash, emit (Ev_drng_dealloc cb new_pdrng) s)
    else
      let d := st_pdrng s in
      let '(ret, s) :=
        call_generate X (pdrng_crypto_cb d) (pdrng d)
          LRNG_DRNG_SECURITY_STRENGTH_BYTES s in
      let s :=
        if ret <? 0 then with_pdrng lrng_pdrng_reset s
        else
          let '(ret, s) := call_env X (Ev_drng_seed cb new_pdrng ret) s in
          if ret <? 0 then with_pdrng lrng_pdrng_reset s else s in
      let s :=
        emit (Ev_hash_dealloc (pdrng_crypto_cb d) (lrng_hash (st_pool s))) s in
      let s := with_pool (set_lrng_hash hash) s in
      let s :=
        if atomic_read (st_pdrng_avail s) =? 0
        then with_pdrng lrng_pdrng_reset s else s in
      let s := emit (Ev_drng_dealloc (pdrng_crypto_cb d) (pdrng d)) s in
      let s := with_pdrng (set_pdrng_handle new_pdrng cb) s in
      let s :=
        match st_sdrng s with
        | Some _ => lrng_sdrng_switch_nodes X (st_online s) cb s
        | None => lrng_sdrng_switch X Ref_init cb s
        end in
      (0, with_pdrng_avail (atomic_set 1) s).

(** [lrng_set_drng_cb]; a NULL argument is [None]. *)
Definition lrng_set_drng_cb (X : extern) (cb : option Z) (s : lrng_state)
    : Z * lrng_state :=
  let cb := default lrng_cc20_crypto_cb cb in
  if negb (cb =? lrng_cc20_crypto_cb) &&
     negb (pdrng_crypto_cb (st_pdrng s) =? lrng_cc20_crypto_cb)
  then (- EINVAL, s)
  else lrng_drngs_switch X cb s.

(** ** Readiness callbacks *)

Definition EALREADY : Z := 114.
Definition ENOENT : Z := 2.

(** [add_random_ready_callback]; [module_alive] is [try_module_get]. *)
Definition add_random_ready_callback (module_alive : bool) (rdy : Z)
    (s : lrng_state) : Z * lrng_state :=
  if pdrng_min_seeded (st_pdrng s) then (- EALREADY, s)
  else if negb module_alive then (- ENOENT, s)
  else (0, with_ready_list (rdy :: st_ready_list s) s).


(** ** Reference formulations used by the statements *)

(** The insertion pointer and the rotation counter as positions: the raw
    counters masked the way [lrng_pool_lfsr_u32] uses them. *)
Definition ptr_of (p : lrng_pool) : Z :=
  Z.land (atomic_read_u32 (pool_ptr p)) (LRNG_POOL_SIZE - 1).
Definition rot_of (p : lrng_pool) : Z :=
  Z.land (atomic_read_u32 (input_rotate p)) 31.

(** The twist step: table entry of the low three bits, XOR the word shifted
    right by three. *)
Definition twist (x : Z) : Z :=
  Z.lxor (x / 8) (word_at lrng_twist_table (x mod 8)).

(** The word a mixing step stores when it XORs the rotated input with the
    four pool words at the tap offsets only. *)
Definition four_tap_word (value : Z) (p : lrng_pool) (ptr rot : Z) : Z :=
  twist (Z.lxor (Z.lxor (Z.lxor (Z.lxor (rol32 value rot)
    (word_at (pool p) ((ptr + 127) mod 128)))
    (word_at (pool p) ((ptr + 28) mod 128)))
    (word_at (pool p) ((ptr + 26) mod 128)))
    (word_at (pool p) ((ptr + 1) mod 128))).

(** The word a mixing step stores when the pool word at the pointer slot
    takes part in the XOR as well. *)
Definition five_word (value : Z) (p : lrng_pool) (ptr rot : Z) : Z :=
  twist (Z.lxor (Z.lxor (Z.lxor (Z.lxor (Z.lxor (rol32 value rot)
    (word_at (pool p) ptr))
    (word_at (pool p) ((ptr + 127) mod 128)))
    (word_at (pool p) ((ptr + 28) mod 128)))
    (word_at (pool p) ((ptr + 26) mod 128)))
    (word_at (pool p) ((ptr + 1) mod 128))).

(** A pool whose words all hold [w], pointer and rotation at zero. *)
Definition uniform_pool (w : Z) : lrng_pool :=
  mk_pool (replicate 128 w) 0 0 1 false 0
    (mk_irq_info 0 LRNG_INIT_ENTROPY_BITS 0 0 0 0 LRNG_FIPS_CRNGT
       false true 0).

(** ** Initial state and runs *)

(** The globals as their static initialisers leave them. *)
Definition lrng_boot_state (jiffies : Z) : lrng_state :=
  mk_state
    (mk_pool (replicate 128 0) 0 0 1 false 0
       (mk_irq_info 0 LRNG_INIT_ENTROPY_BITS 0 0 0 0 LRNG_FIPS_CRNGT
          false true 0))
    (mk_pdrng primary_chacha20 lrng_cc20_crypto_cb false false 0)
    (mk_sdrng secondary_chacha20 lrng_cc20_crypto_cb 0 0 false false)
    (mk_sdrng secondary_chacha20 lrng_cc20_crypto_cb 0 0 false false)
    None [] 0 600
    (LRNG_EMERG_ENTROPY + 2 * LRNG_DRNG_SECURITY_STRENGTH_BITS)
    (LRNG_POOL_WORD_BITS * 2)
    (Z.shiftr LRNG_DRNG_SECURITY_STRENGTH_BITS 5)
    (Z.shiftr LRNG_DRNG_SECURITY_STRENGTH_BITS 4)
    0 0 jiffies false [0%nat] 0 [].

(** An environment whose every call answers [r] and delivers the bytes
    [bytes], with digests of [ds] bytes; generate calls deliver all the
    bytes asked for.  [HZ] is 250. *)
Definition const_extern (r : Z) (bytes : list Z) (ds : Z) : extern :=
  mk_extern (fun _ => r) (fun _ len => len) (fun _ => bytes) (fun _ _ => ds) 250.

(** A timing event that carries the time stamp [t] only. *)
Definition irq_at (t : Z) : irq_event := mk_irq_event t false None 0.

(** A run of interrupts at the given time stamps. *)
Fixpoint irq_sequence (fips : bool) (stamps : list Z) (s : lrng_state)
    : outcome lrng_state :=
  match stamps with
  | [] => Returns s
  | t :: rest =>
      s' ← add_interrupt_randomness fips (irq_at t) 0 0 s;
      irq_sequence fips rest s'
  end.

(** The booted system with a high-resolution timer found. *)
Definition lrng_online_state : lrng_state :=
  lrng_drngs_init_cc20 (const_extern 1 [] 64) (lrng_boot_state 0).

(** ** The stuck test in the words of its description *)

(** The verdict of the stuck test as a proposition on the three derivatives
    taken modulo 2^32. *)
Definition stuck_verdict (i : lrng_irq_info) (t : Z) : Prop :=
  let d1 := (t - last_time i) mod 2 ^ 32 in
  let d2 := (d1 - last_delta i) mod 2 ^ 32 in
  let d3 := (d2 - last_delta2 i) mod 2 ^ 32 in
  d1 = 0 \/ d2 = 0 \/ d3 = 0.

(** The stored stuck-test state after an event at time [t]: the time stamp
    and the first and second derivative, everything else but the FIPS counter
    as before. *)
Definition stuck_state_updated (i i' : lrng_irq_info) (t : Z) : Prop :=
  let d1 := (t - last_time i) mod 2 ^ 32 in
  let d2 := (d1 - last_delta i) mod 2 ^ 32 in
  u32 (last_time i') = u32 t /\
  u32 (last_delta i') = d1 /\
  u32 (last_delta2 i') = d2 /\
  num_events i' = num_events i /\
  num_events_thresh i' = num_events_thresh i /\
  reseed_in_progress i' = reseed_in_progress i /\
  irq_highres_timer i' = irq_highres_timer i /\
  stuck_test i' = stuck_test i /\
  irq_entropy_bits i' = irq_entropy_bits i.



(** The state an outcome returns; the boot state stands in for a run that
    does not return. *)
Definition state_after (o : outcome lrng_state) : lrng_state :=
  match o with
  | Returns s => s
  | _ => lrng_boot_state 0
  end.

(** A run has returned. *)
Definition returned {A : Type} (o : outcome A) : bool :=
  match o with
  | Returns _ => true
  | _ => false
  end.

(** The online system with [n] interrupts counted. *)
Definition lrng_state_with_events (n : Z) : lrng_state :=
  with_pool (with_irq_info (set_num_events n)) lrng_online_state.

(** The bits and the event counter a pool read ends with. *)
Definition pool_read_summary (o : outcome (Z * list Z * lrng_state))
    : option (Z * Z) :=
  match o with
  | Returns (bits, _, s) => Some (bits, num_events (irq_info (st_pool s)))
  | _ => None
  end.

(** ** The seeding state *)

(** The four stages of the primary DRNG.  The code keeps the two flags
    [pdrng_fully_seeded] and [pdrng_min_seeded]; the initial stage leaves
    its mark in the reseed threshold only, which it sets to the event
    equivalent of [LRNG_MIN_SEED_ENTROPY_BITS]. *)
Inductive seeding_state : Type :=
| Unseeded
| Initial
| MinimallySeeded
| FullySeeded.

Definition seeding_state_of (s : lrng_state) : seeding_state :=
  if pdrng_fully_seeded (st_pdrng s) then FullySeeded
  else if pdrng_min_seeded (st_pdrng s) then MinimallySeeded
  else if num_events_thresh (irq_info (st_pool s))
          =? atomic_set (lrng_entropy_to_data (st_pool s)
                           LRNG_MIN_SEED_ENTROPY_BITS)
       then Initial
       else Unseeded.

Definition seed_rank (q : seeding_state) : Z :=
  match q with
  | Unseeded => 0
  | Initial => 1
  | MinimallySeeded => 2
  | FullySeeded => 3
  end.

(** The readiness callbacks run so far, in order. *)
Definition ready_funcs (tr : list event) : list Z :=
  flat_map (fun e => match e with Ev_ready_func rdy => [rdy] | _ => [] end) tr.

(** [lrng_pdrng_init_ops] run on one entropy level after the other. *)
Fixpoint init_ops_sequence (levels : list Z) (s : lrng_state) : lrng_state :=
  match levels with
  | [] => s
  | e :: rest => init_ops_sequence rest (lrng_pdrng_init_ops e s)
  end.


(** The online system with a fully seeded primary DRNG. *)
Definition lrng_fully_seeded_state : lrng_state :=
  lrng_pdrng_init_ops LRNG_DRNG_SECURITY_STRENGTH_BITS lrng_online_state.

(** The online system after a successful switch to the callback set at
    address 7. *)
Definition lrng_switched_state : lrng_state :=
  snd (lrng_set_drng_cb (const_extern 5 [] 64) (Some 7) lrng_online_state).

(** ** Traces *)

(** The events that do not belong to the seeding of a secondary or the
    atomic DRNG. *)
Definition is_core_event (e : event) : bool :=
  match e with
  | Ev_sdrng_seed _ | Ev_seeding _ _ => false
  | _ => true
  end.

Definition is_generate_event (e : event) : bool :=
  match e with
  | Ev_drng_generate _ _ _ => true
  | _ => false
  end.

(** [s'] continues the trace of [s] by events that satisfy [Q]. *)
Definition trace_ext (Q : event -> bool) (s s' : lrng_state) : Prop :=
  exists evs, st_trace s' = st_trace s ++ evs /\ forallb Q evs = true.

(** Every seeding of the atomic DRNG in [evs] comes after the seeding of a
    secondary DRNG; [seen] tells whether one has been seen already. *)
Fixpoint atomic_seeding_ok (seen : bool) (evs : list event) : bool :=
  match evs with
  | [] => true
  | Ev_seeding Ref_atomic _ :: rest => seen && atomic_seeding_ok seen rest
  | Ev_seeding _ _ :: rest => atomic_seeding_ok true rest
  | _ :: rest => atomic_seeding_ok seen rest
  end.

(** The context of an interrupt handler and that of a process, both on
    NUMA node 0. *)
Definition irq_context : call_ctx := mk_ctx true 0.
Definition process_context : call_ctx := mk_ctx false 0.

(** The return value and the trace a DRNG request ends with. *)
Definition request_summary (o : outcome (Z * lrng_state))
    : option (Z * list event) :=
  match o with
  | Returns (ret, s) => Some (ret, st_trace s)
  | _ => None
  end.

(** The pointer [r] refers to an object that exists in [s]. *)
Definition valid_ref (r : sdrng_ref) (s : lrng_state) : bool :=
  match r with
  | Ref_node n =>
      match st_sdrng s with
      | Some tab =>
          match tab !! n with
          | Some (Some (Slot_own _)) => true
          | _ => false
          end
      | None => false
      end
  | _ => true
  end.

(** The online system whose boot-time secondary DRNG has [req] requests
    left, no forced reseed pending and was last seeded at tick [last], with
    the clock at tick [now]. *)
Definition lrng_idle_state (req last now : Z) : lrng_state :=
  with_jiffies now
    (with_sdrng_init
       (fun d => set_force_reseed false
                   (set_requests req (set_last_seeded last d)))
       lrng_online_state).

(** * Further operations of [lrng_base.c] and [lrng_kcapi.c] *)

(** The pool words are u32 values. *)
Definition pool_words_u32 (p : lrng_pool) : Prop :=
  Forall (fun w => 0 <= w < 2 ^ 32) (pool p).

(** [buf] holds bytes. *)
Definition is_bytes (buf : list Z) : Prop :=
  Forall (fun b => 0 <= b < 256) buf.

(** ** Interrupt runs and the reseed work *)

(** A run of interrupts, each with its event data, interrupt number and
    flags. *)
Fixpoint irq_run (fips : bool) (evs : list (irq_event * Z * Z))
    (s : lrng_state) : outcome lrng_state :=
  match evs with
  | [] => Returns s
  | (e, irq, irq_flags) :: rest =>
      s' ← add_interrupt_randomness fips e irq irq_flags s;
      irq_run fips rest s'
  end.

Definition is_schedule_event (e : event) : bool :=
  match e with
  | Ev_schedule_seed_work => true
  | _ => false
  end.

(** How often the reseed work has been scheduled in a trace. *)
Definition scheduled_count (tr : list event) : nat :=
  length (filter (fun e => is_schedule_event e = true) tr).

(** [(unsigned long)x] on a 64-bit kernel. *)
Definition u64 (x : Z) : Z := x mod 2 ^ 64.

(** [_lrng_sdrng_seed_work]; the work item runs with
    [reseed_in_progress] taken, hence seeds through
    [lrng_pdrng_seed_locked].  [node * 100 * HZ] is a u32 product added to
    the [unsigned long] time stamp. *)
Definition _lrng_sdrng_seed_work (X : extern) (fuel : nat) (ctx : call_ctx)
    (r : sdrng_ref) (node : Z) (s : lrng_state) : outcome lrng_state :=
  s ← lrng_sdrng_seed X fuel ctx r (lrng_pdrng_seed_locked X fuel) s;
  if fully_seeded (get_sdrng r s) then
    (* Prevent reseed storm *)
    let s :=
      upd_sdrng r (fun d =>
        set_last_seeded (u64 (last_seeded d + u32 (node * 100 * x_HZ X))) d) s in
    (* Prevent draining of pool on idle systems *)
    Returns (with_reseed_max_time (s32 (st_reseed_max_time s + 100)) s)
  else Returns s.

(** The first online node whose table entry is set and not fully seeded. *)
Fixpoint first_unseeded_node (nodes : list nat) (s : lrng_state)
    : option (sdrng_ref * nat) :=
  match nodes with
  | [] => None
  | node :: rest =>
      match node_ref s node with
      | Some r =>
          if negb (fully_seeded (get_sdrng r s)) then Some (r, node)
          else first_unseeded_node rest s
      | None => first_unseeded_node rest s
      end
  end.

(** [lrng_sdrng_seed_work]. *)
Definition lrng_sdrng_seed_work (X : extern) (fuel : nat) (ctx : call_ctx)
    (s : lrng_state) : outcome lrng_state :=
  s ← match st_sdrng s with
      | Some _ =>
          match first_unseeded_node (st_online s) s with
          | Some (r, node) =>
              _lrng_sdrng_seed_work X fuel ctx r (Z.of_nat node) s
          | None =>
              Returns (with_pool (set_all_online_numa_node_seeded true) s)
          end
      | None =>
          if negb (fully_seeded (st_sdrng_init s))
          then _lrng_sdrng_seed_work X fuel ctx Ref_init 0 s
          else Returns s
      end;
  (* Allow the seeding operation to be called again *)
  Returns (with_pool (with_irq_info (set_reseed_in_progress (atomic_set 0))) s).

(** The reseed gate [lrng_pool.irq_info.reseed_in_progress]. *)
Definition reseed_gate (s : lrng_state) : Z :=
  atomic_read (reseed_in_progress (irq_info (st_pool s))).

(** [atomic_set(&lrng_pool.irq_info.reseed_in_progress, 0)]. *)
Definition release_reseed_gate (s : lrng_state) : lrng_state :=
  with_pool (with_irq_info (set_reseed_in_progress (atomic_set 0))) s.

(** The value and state an outcome returns; 0 and the boot state stand in
    for a run that does not return. *)
Definition result_of (o : outcome (Z * lrng_state)) : Z * lrng_state :=
  match o with
  | Returns p => p
  | _ => (0, lrng_boot_state 0)
  end.

(** The entropy estimate of the primary DRNG lies between 0 and the
    security strength. *)
Definition pdrng_budget_ok (s : lrng_state) : Prop :=
  0 <= pdrng_entropy_bits (st_pdrng s) <= LRNG_DRNG_SECURITY_STRENGTH_BITS.

(** The configuration the seeding and generating paths work under: the
    reseed interval, the clock, the online nodes, the NUMA bookkeeping of
    the pool, the wake-up thresholds, and the handles of the pool hash and
    the primary DRNG with its callback set. *)
Definition config_of (s : lrng_state) :=
  (st_reseed_max_time s, st_jiffies s, st_online s,
   all_online_numa_node_seeded (st_pool s), numa_drngs (st_pool s),
   st_write_wakeup_bits s, st_read_wakeup_bits s, st_read_sleeper s,
   lrng_hash (st_pool s), pdrng (st_pdrng s), pdrng_crypto_cb (st_pdrng s)).

Definition pool_config (p : lrng_pool) :=
  (numa_drngs p, all_online_numa_node_seeded p, lrng_hash p).

(** [del_random_ready_callback]: the entry is unlinked if it is linked. *)
Definition del_random_ready_callback (rdy : Z) (s : lrng_state) : lrng_state :=
  with_ready_list (filter (fun r => r <> rdy) (st_ready_list s)) s.

(** ** The device interface *)

Definition EAGAIN : Z := 11.
Definition EPERM : Z := 1.
Definition ERESTARTSYS : Z := 512.

(** The [while] loop of [lrng_drng_write_common].  [copy_from_user] is a
    call into the environment; when it fails the function returns
    [-EFAULT] at once, which the loop reports as [None].  Otherwise the
    result is the number of bytes written. *)
Fixpoint lrng_drng_write_loop (X : extern) (fuel : nat)
    (count entropy_bits ret : Z) (s : lrng_state)
    : outcome (option Z * lrng_state) :=
  if 0 <? count then
    match fuel with
    | O => OutOfFuel
    | Datatypes.S fuel' =>
        let bytes := Z.min count 64 in
        let ent := min_u32 (Z.shiftl bytes 3) entropy_bits in
        let fault := x_ret X (st_tick s) in
        let s := step_tick s in
        if negb (fault =? 0) then Returns (None, s)
        else
          (* Inject data into primary DRNG *)
          let s := snd (lrng_pdrng_inject X bytes ent false 0 false s) in
          lrng_drng_write_loop X fuel' (count - bytes)
            (u32 (entropy_bits - ent)) (ret + bytes) s
    end
  else Returns (Some ret, s).

(** The [for_each_online_node] loop of [lrng_drng_write_common]. *)
Fixpoint force_reseed_nodes (nodes : list nat) (s : lrng_state) : lrng_state :=
  match nodes with
  | [] => s
  | node :: rest =>
      let s :=
        match node_ref s node with
        | Some r => upd_sdrng r (set_force_reseed true) s
        | None => s
        end in
      force_reseed_nodes rest s
  end.

(** [lrng_drng_write_common]; [count] is a [size_t]. *)
Definition lrng_drng_write_common (X : extern) (fuel : nat)
    (count entropy_bits : Z) (s : lrng_state) : outcome (Z * lrng_state) :=
  if atomic_read (st_pdrng_avail s) =? 0 then Returns (- EAGAIN, s)
  else
    let count := Z.min count INT_MAX in
    '(written, s) ← lrng_drng_write_loop X fuel count entropy_bits 0 s;
    match written with
    | None => Returns (- EFAULT, s)
    | Some ret =>
        (* Force reseed of secondary DRNG during next data request *)
        if entropy_bits =? 0 then
          match st_sdrng s with
          | None => Returns (ret, with_sdrng_init (set_force_reseed true) s)
          | Some _ =>
              Returns (ret,
                       with_sdrng_atomic (set_force_reseed true)
                         (force_reseed_nodes (st_online s) s))
          end
        else Returns (ret, s)
    end.

(** [lrng_drng_write], the [write] of both devices. *)
Definition lrng_drng_write (X : extern) (fuel : nat) (count : Z)
    (s : lrng_state) : outcome (Z * lrng_state) :=
  lrng_drng_write_common X fuel count 0 s.

(** The commands of [lrng_ioctl]. *)
Inductive ioctl_cmd : Type :=
| RNDGETENTCNT
| RNDADDTOENTCNT
| RNDADDENTROPY
| RNDZAPENTCNT
| RNDCLEARPOOL
| RNDRESEEDCRNG
| RND_other (cmd : Z).

(** The user memory behind [arg]: the two [int]s [get_user] reads ([None]
    when the access faults) and whether [put_user] succeeds. *)
Record ioctl_arg := mk_ioctl_arg {
  arg_int0 : option Z;
  arg_int1 : option Z;
  arg_writable : bool
}.

(** [lrng_ioctl]; [capable] is [capable(CAP_SYS_ADMIN)].  The result is the
    returned value, the [int] stored through [put_user], and the state. *)
Definition lrng_ioctl (X : extern) (fuel : nat) (capable : bool)
    (cmd : ioctl_cmd) (a : ioctl_arg) (s : lrng_state)
    : outcome (Z * option Z * lrng_state) :=
  match cmd with
  | RNDGETENTCNT =>
      let ent_count_bits := s32 (lrng_avail_entropy (st_pool s)) in
      if arg_writable a then Returns (0, Some ent_count_bits, s)
      else Returns (- EFAULT, None, s)
  | RNDADDTOENTCNT =>
      if negb capable then Returns (- EPERM, None, s)
      else
        match arg_int0 a with
        | None => Returns (- EFAULT, None, s)
        | Some v =>
            let ent_count_bits :=
              s32 (s32 (lrng_avail_entropy (st_pool s)) + s32 v) in
            let ent_count_bits :=
              if ent_count_bits <? 0 then 0 else ent_count_bits in
            let ent_count_bits :=
              if LRNG_POOL_SIZE_BITS <? ent_count_bits
              then LRNG_POOL_SIZE_BITS else ent_count_bits in
            Returns (0, None,
                     with_pool (fun p =>
                       with_irq_info
                         (set_num_events
                            (atomic_set (lrng_entropy_to_data p ent_count_bits)))
                         p) s)
        end
  | RNDADDENTROPY =>
      if negb capable then Returns (- EPERM, None, s)
      else
        match arg_int0 a with
        | None => Returns (- EFAULT, None, s)
        | Some v =>
            let ent_count_bits := s32 v in
            if ent_count_bits <? 0 then Returns (- EINVAL, None, s)
            else
              match arg_int1 a with
              | None => Returns (- EFAULT, None, s)
              | Some sz =>
                  let size := s32 sz in
                  if size <? 0 then Returns (- EINVAL, None, s)
                  else
                    (* there cannot be more entropy than data *)
                    let ent_count_bits :=
                      Z.min ent_count_bits (s32 (Z.shiftl size 3)) in
                    '(ret, s) ← lrng_drng_write_common X fuel size
                                  (u32 ent_count_bits) s;
                    Returns (ret, None, s)
              end
        end
  | RNDZAPENTCNT | RNDCLEARPOOL =>
      if negb capable then Returns (- EPERM, None, s)
      else
        Returns (0, None,
                 with_pool (with_irq_info (set_num_events (atomic_set 0))) s)
  | RNDRESEEDCRNG =>
      if negb capable then Returns (- EPERM, None, s)
      else
        '(ret, s) ← lrng_drng_write_common X fuel 0 0 s;
        Returns (ret, None, s)
  | RND_other _ => Returns (- EINVAL, None, s)
  end.

(** The secondary DRNGs and what selects among them. *)
Definition sdrngs_of (s : lrng_state) :=
  (st_sdrng_init s, st_sdrng_atomic s, st_sdrng s, st_online s,
   st_pdrng_avail s).

(** [clamp_t]-style limiting of [x] to the range from 0 to the pool size in
    bits, as [RNDADDTOENTCNT] does it. *)
Definition clamp_pool_bits (x : Z) : Z :=
  Z.min LRNG_POOL_SIZE_BITS (Z.max 0 x).

(** ** Auxiliary interfaces *)

Definition ULONG_MAX : Z := 2 ^ 64 - 1.

(** The page macros of <linux/mm.h>; [PAGE_SHIFT] depends on the
    architecture and is a parameter here. *)
Definition PAGE_SIZE (page_shift : Z) : Z := Z.shiftl 1 page_shift.
Definition PAGE_MASK (page_shift : Z) : Z :=
  u64 (Z.lnot (PAGE_SIZE page_shift - 1)).
Definition PAGE_ALIGNED (page_shift x : Z) : bool :=
  Z.land x (PAGE_SIZE page_shift - 1) =? 0.
Definition PAGE_ALIGN (page_shift x : Z) : Z :=
  Z.land (u64 (x + (PAGE_SIZE page_shift - 1))) (PAGE_MASK page_shift).

(** [randomize_page]; [random_long] is the value of [get_random_long()]. *)
Definition randomize_page (page_shift random_long start range : Z) : Z :=
  let '(start, range) :=
    if negb (PAGE_ALIGNED page_shift start)
    then (PAGE_ALIGN page_shift start,
          u64 (range - u64 (PAGE_ALIGN page_shift start - start)))
    else (start, range) in
  let range :=
    if u64 (ULONG_MAX - range) <? start then u64 (ULONG_MAX - start)
    else range in
  let range := Z.shiftr range page_shift in
  if range =? 0 then start
  else u64 (start + u64 (Z.shiftl (random_long mod range) page_shift)).

(** ** Stirring the pool *)

(** [add_input_randomness].  [last_value] is the function's static
    [unsigned char]; the result carries its new value. *)
Definition add_input_randomness (type code value last_value : Z)
    (s : lrng_state) : Z * lrng_state :=
  if u32 value =? last_value then (last_value, s)
  else
    (u32 value mod 256,
     with_pool
       (lrng_pool_lfsr_u32
          (Z.lxor (Z.lxor (Z.lxor (u32 (Z.shiftl (u32 type) 4)) (u32 code))
                          (Z.shiftr (u32 code) 4))
                  (u32 value))) s).

(** [add_device_randomness]; [aligned] tells whether [buf] sits at a
    multiple of four. *)
Definition add_device_randomness (X : extern) (aligned : bool)
    (buf : list Z) (s : lrng_state) : lrng_state :=
  let s := with_pool (lrng_pool_lfsr_nonaligned aligned buf) s in
  let now := x_ret X (st_tick s) in
  let s := step_tick s in
  let s := with_pool (lrng_pool_lfsr_u32 (u32 now)) s in
  with_pool (lrng_pool_lfsr_u32 (u32 (st_jiffies s))) s.

(** The [unsigned int] an architecture random call stores. *)
Definition env_word (X : extern) (n : nat) : Z :=
  match x_buf X n with
  | b0 :: b1 :: b2 :: b3 :: _ => u32 (le_word b0 b1 b2 b3)
  | _ => 0
  end.

(** The loop of [rand_initialize]: [arch_get_random_seed_int], then
    [arch_get_random_int], then [random_get_entropy]. *)
Fixpoint rand_initialize_loop (X : extern) (n : nat) (s : lrng_state)
    : lrng_state :=
  match n with
  | O => s
  | Datatypes.S n' =>
      let seed_ok := negb (x_ret X (st_tick s) =? 0) in
      let seed_word := env_word X (st_tick s) in
      let s := step_tick s in
      let '(rand, s) :=
        if seed_ok then (seed_word, s)
        else
          let ok := negb (x_ret X (st_tick s) =? 0) in
          let word := env_word X (st_tick s) in
          let s := step_tick s in
          if ok then (word, s)
          else (u32 (x_ret X (st_tick s)), step_tick s) in
      rand_initialize_loop X n' (with_pool (lrng_pool_lfsr_u32 rand) s)
  end.

(** [rand_initialize]; [utsname] is the image of [struct new_utsname]. *)
Definition rand_initialize (X : extern) (utsname_aligned : bool)
    (utsname : list Z) (s : lrng_state) : Z * lrng_state :=
  let now_time := x_ret X (st_tick s) in
  let s := step_tick s in
  let s := with_pool (lrng_pool_lfsr_u32 (u32 now_time)) s in
  let s := rand_initialize_loop X (Z.to_nat LRNG_POOL_SIZE) s in
  (0, with_pool (lrng_pool_lfsr_nonaligned utsname_aligned utsname) s).

(** Everything that carries entropy credit or seed status, and the trace. *)
Definition credit_of (s : lrng_state) :=
  (irq_info (st_pool s), st_pdrng s, sdrngs_of s, st_ready_list s, st_trace s).

(** The number of LFSR steps [lrng_pool_lfsr_nonaligned] makes. *)
Definition lfsr_steps (aligned : bool) (buf : list Z) : Z :=
  if aligned
  then Z.of_nat (length buf) / 4 + Z.of_nat (length buf) mod 4
  else Z.of_nat (length buf).

(** ** Kernel interfaces *)


(** The [while] loop of [get_random_bytes_arch]; it returns what is left of
    [nbytes].  [arch_get_random_long] is a call into the environment. *)
Fixpoint get_random_bytes_arch_loop (X : extern) (fuel : nat) (nbytes : Z)
    (s : lrng_state) : outcome (Z * lrng_state) :=
  if nbytes =? 0 then Returns (nbytes, s)
  else
    match fuel with
    | O => OutOfFuel
    | Datatypes.S fuel' =>
        let chunk := Z.min nbytes 8 in
        let ok := x_ret X (st_tick s) in
        let s := step_tick s in
        if ok =? 0 then Returns (nbytes, s)
        else get_random_bytes_arch_loop X fuel' (s32 (nbytes - chunk)) s
    end.

(** [get_random_bytes_arch]. *)
Definition get_random_bytes_arch (X : extern) (fuel : nat) (ctx : call_ctx)
    (nbytes : Z) (s : lrng_state) : outcome (Z * lrng_state) :=
  '(nbytes, s) ← get_random_bytes_arch_loop X fuel nbytes s;
  s ← (if negb (nbytes =? 0)
       then '(_, s) ← lrng_sdrng_get X fuel ctx (u32 nbytes) s; Returns s
       else Returns s);
  Returns (nbytes, s).

Definition LRNG_DRNG_BLOCKSIZE : Z := 64.

(** The [while] loop of [lrng_read_common].  [lrng_read_random] is the
    function pointer; [need_resched], [signal_pending] and [copy_to_user]
    are calls into the environment. *)
Fixpoint lrng_read_common_loop (X : extern) (fuel : nat)
    (lrng_read_random : Z -> lrng_state -> outcome (Z * lrng_state))
    (tmp_large : bool) (tmplen nbytes ret : Z) (s : lrng_state)
    : outcome (Z * lrng_state) :=
  if nbytes =? 0 then Returns (ret, s)
  else
    match fuel with
    | O => OutOfFuel
    | Datatypes.S fuel' =>
        let todo := min_u32 nbytes tmplen in
        (* Reschedule if we received a large request. *)
        let '(interrupted, s) :=
          if tmp_large then
            let resched := x_ret X (st_tick s) in
            let s := step_tick s in
            if negb (resched =? 0) then
              let pending := x_ret X (st_tick s) in
              (negb (pending =? 0), step_tick s)
            else (false, s)
          else (false, s) in
        if interrupted
        then Returns (if ret =? 0 then - ERESTARTSYS else ret, s)
        else
          '(rc, s) ← lrng_read_random todo s;
          if rc <=? 0 then Returns (if rc <? 0 then rc else ret, s)
          else
            let fault := x_ret X (st_tick s) in
            let s := step_tick s in
            if negb (fault =? 0) then Returns (- EFAULT, s)
            else
              lrng_read_common_loop X fuel' lrng_read_random tmp_large tmplen
                (u64 (nbytes - rc)) (ret + rc) s
    end.

(** [lrng_read_common]; [kmalloc] is a call into the environment. *)
Definition lrng_read_common (X : extern) (fuel : nat)
    (lrng_read_random : Z -> lrng_state -> outcome (Z * lrng_state))
    (nbytes : Z) (s : lrng_state) : outcome (Z * lrng_state) :=
  if nbytes =? 0 then Returns (0, s)
  else
    let '(tmp_large, tmplen, s) :=
      if LRNG_DRNG_BLOCKSIZE <? nbytes then
        let tmplen := min_u32 nbytes LRNG_DRNG_MAX_REQSIZE in
        let mem := x_ret X (st_tick s) in
        let s := step_tick s in
        if mem =? 0 then (false, LRNG_DRNG_BLOCKSIZE, s)
        else (true, tmplen, s)
      else (false, LRNG_DRNG_BLOCKSIZE, s) in
    lrng_read_common_loop X fuel lrng_read_random tmp_large tmplen nbytes 0 s.

(** [lrng_sdrng_read], the [read] of /dev/urandom (its log lines left
    out). *)
Definition lrng_sdrng_read (X : extern) (fuel : nat) (ctx : call_ctx)
    (nbytes : Z) (s : lrng_state) : outcome (Z * lrng_state) :=
  lrng_read_common X fuel (lrng_sdrng_get X fuel ctx) nbytes s.

(** * The kernel crypto API backend ([lrng_kcapi.c]) *)

From Stdlib Require String.
Import String.StringSyntax.
Delimit Scope string_scope with string.

Definition ENOMEM : Z := 12.

(** What the backend holds: the [struct lrng_drng_info], a DRNG handle of
    the crypto API, a hash transform, and the [struct lrng_hash_info]
    around a transform. *)
Inductive kc_res : Type :=
| Res_drng_info
| Res_rng (h : Z)
| Res_shash (tfm : Z)
| Res_hash_info (tfm : Z).

Inductive kc_event : Type :=
| Acquire (r : kc_res)
| Release (r : kc_res).

Definition kc_res_eqb (a b : kc_res) : bool :=
  match a, b with
  | Res_drng_info, Res_drng_info => true
  | Res_rng x, Res_rng y => x =? y
  | Res_shash x, Res_shash y => x =? y
  | Res_hash_info x, Res_hash_info y => x =? y
  | _, _ => false
  end.

Fixpoint remove_first (r : kc_res) (l : list kc_res) : list kc_res :=
  match l with
  | [] => []
  | x :: rest => if kc_res_eqb r x then rest else x :: remove_first r rest
  end.

(** The resources held after a run of acquisitions and releases. *)
Fixpoint held_after (evs : list kc_event) (acc : list kc_res) : list kc_res :=
  match evs with
  | [] => acc
  | Acquire r :: rest => held_after rest (r :: acc)
  | Release r :: rest => held_after rest (remove_first r acc)
  end.

(** The crypto API and the allocator as the backend sees them: whether the
    two [kmalloc]s succeed, the handles [crypto_alloc_rng] and
    [crypto_alloc_shash] return for a name (negative: [ERR_PTR]), the seed
    size of a DRNG, the digest size of a transform, and the results of
    [crypto_rng_get_bytes], [crypto_shash_digest] and [crypto_rng_reset]. *)
Record kcapi_env := mk_kcapi_env {
  kc_kmalloc_info : bool;
  kc_kmalloc_hash : bool;
  kc_alloc_rng : String.string -> Z;
  kc_alloc_shash : String.string -> Z;
  kc_seedsize : Z -> Z;
  kc_digestsize : Z -> Z;
  kc_get_bytes : Z -> Z -> Z;
  kc_digest : Z -> Z -> Z;
  kc_reset : Z -> Z -> Z
}.

(** [struct lrng_hash_info] and [struct lrng_drng_info]. *)
Record lrng_hash_info := mk_hash_info { shash_tfm : Z }.
Record lrng_drng_info := mk_drng_info {
  kcapi_rng : Z;
  info_lrng_hash : option lrng_hash_info
}.

(** [_lrng_kcapi_hash_alloc]; the result is the error or the object. *)
Definition _lrng_kcapi_hash_alloc (E : kcapi_env)
    (name : option String.string) : (Z + lrng_hash_info) * list kc_event :=
  match name with
  | None => (inl (- EINVAL), [])
  | Some name =>
      let tfm := kc_alloc_shash E name in
      if IS_ERR tfm then (inl tfm, [])
      else if negb (kc_kmalloc_hash E)
      then (inl (- ENOMEM), [Acquire (Res_shash tfm); Release (Res_shash tfm)])
      else (inr (mk_hash_info tfm),
            [Acquire (Res_shash tfm); Acquire (Res_hash_info tfm)])
  end.

(** [_lrng_kcapi_hash_digestsize] and [_lrng_kcapi_hash_free]. *)
Definition _lrng_kcapi_hash_digestsize (E : kcapi_env) (h : lrng_hash_info)
    : Z :=
  u32 (kc_digestsize E (shash_tfm h)).

Definition _lrng_kcapi_hash_free (h : lrng_hash_info) : list kc_event :=
  [Release (Res_shash (shash_tfm h)); Release (Res_hash_info (shash_tfm h))].

(** The [switch] of [lrng_kcapi_drng_alloc] over the seed size. *)
Definition default_seed_hash (seedsize : Z) : option String.string :=
  if seedsize =? 32 then Some "sha256"%string
  else if seedsize =? 48 then Some "sha384"%string
  else if seedsize =? 64 then Some "sha512"%string
  else None.

(** [lrng_kcapi_drng_alloc].  [drng_name] and [seed_hash] are the module
    parameters; the function may set [seed_hash], whose new value is part of
    the result. *)
Definition lrng_kcapi_drng_alloc (E : kcapi_env)
    (drng_name seed_hash : option String.string) (sec_strength : Z)
    : (Z + lrng_drng_info) * option String.string * list kc_event :=
  match drng_name with
  | None => (inl (- EINVAL), seed_hash, [])
  | Some name =>
      if String.prefix "drbg"%string name
      then (inl (- EINVAL), seed_hash, [])
      else if String.prefix "stdrng"%string name
      then (inl (- EINVAL), seed_hash, [])
      else if negb (kc_kmalloc_info E) then (inl (- ENOMEM), seed_hash, [])
      else
        let rng := kc_alloc_rng E name in
        if IS_ERR rng
        then (inl rng, seed_hash,
              [Acquire Res_drng_info; Release Res_drng_info])
        else
          let got := [Acquire Res_drng_info; Acquire (Res_rng rng)] in
          let dealloc := [Release (Res_rng rng); Release Res_drng_info] in
          let seedsize := s32 (kc_seedsize E rng) in
          if negb (seedsize =? 0) then
            let chosen :=
              match seed_hash with
              | Some h => Some h
              | None => default_seed_hash seedsize
              end in
            match chosen with
            | None => (inl (- ENOMEM), seed_hash, got ++ dealloc)
            | Some h =>
                match _lrng_kcapi_hash_alloc E (Some h) with
                | (inl err, evs) => (inl err, Some h, got ++ evs ++ dealloc)
                | (inr lrng_hash, evs) =>
                    if negb (u32 seedsize
                             =? _lrng_kcapi_hash_digestsize E lrng_hash)
                    then (inl (- EINVAL), Some h,
                          got ++ evs ++ _lrng_kcapi_hash_free lrng_hash
                            ++ dealloc)
                    else (inr (mk_drng_info rng (Some lrng_hash)), Some h,
                          got ++ evs)
                end
            end
          else (inr (mk_drng_info rng None), seed_hash, got)
  end.

(** [lrng_kcapi_drng_dealloc]. *)
Definition lrng_kcapi_drng_dealloc (d : lrng_drng_info) : list kc_event :=
  Release (Res_rng (kcapi_rng d))
  :: match info_lrng_hash d with
     | Some h => _lrng_kcapi_hash_free h
     | None => []
     end
  ++ [Release Res_drng_info].

(** [lrng_kcapi_drng_generate_helper]: the [int] returned. *)
Definition lrng_kcapi_drng_generate_helper (E : kcapi_env)
    (d : lrng_drng_info) (outbuflen : Z) : Z :=
  let ret := s32 (kc_get_bytes E (kcapi_rng d) outbuflen) in
  if ret <? 0 then ret else s32 outbuflen.

(** [lrng_kcapi_drng_seed_helper]: the [int] returned and the number of
    bytes the DRNG is reset with, if it is reset at all. *)
Definition lrng_kcapi_drng_seed_helper (E : kcapi_env) (d : lrng_drng_info)
    (inbuflen : Z) : outcome (Z * option Z) :=
  match info_lrng_hash d with
  | Some lrng_hash =>
      let digestsize := _lrng_kcapi_hash_digestsize E lrng_hash in
      if 64 <? digestsize then Panics (* BUG_ON *)
      else
        let ret := s32 (kc_digest E (shash_tfm lrng_hash) inbuflen) in
        if negb (ret =? 0) then Returns (ret, None)
        else
          let ret := s32 (kc_reset E (kcapi_rng d) digestsize) in
          if negb (ret =? 0) then Returns (ret, Some digestsize)
          else Returns (0, Some digestsize)
  | None =>
      Returns (s32 (kc_reset E (kcapi_rng d) inbuflen), Some inbuflen)
  end.

(** The resources a DRNG object stands for. *)
Definition resources_of (d : lrng_drng_info) : list kc_res :=
  match info_lrng_hash d with
  | Some h =>
      [Res_hash_info (shash_tfm h); Res_shash (shash_tfm h);
       Res_rng (kcapi_rng d); Res_drng_info]
  | None => [Res_rng (kcapi_rng d); Res_drng_info]
  end.

(** A crypto API in which every allocation succeeds and the DRNG has a seed
    of 32 bytes, used to instantiate the statements below. *)
Definition kcapi_sha256_env : kcapi_env :=
  mk_kcapi_env true true (fun _ => 7) (fun _ => 9) (fun _ => 32)
    (fun _ => 32) (fun _ _ => 0) (fun _ _ => 0) (fun _ _ => 0).

(** * Allocation of the per-node secondary DRNGs *)

Definition set_numa_drngs (v : Z) (p : lrng_pool) : lrng_pool :=
  mk_pool (pool p) (pool_ptr p) (input_rotate p) v
    (all_online_numa_node_seeded p) (lrng_hash p) (irq_info p).

(** The first [for_each_online_node] loop of [_lrng_drngs_numa_alloc] over
    the local table [sdrngs]; the flag of the result is false when the loop
    is left by [goto err].  All fields of the new object that the model
    keeps are assigned before it is entered into the table, so the content
    of the fresh memory does not matter. *)
Fixpoint numa_alloc_nodes (X : extern) (nodes : list nat)
    (init_sdrng_used : bool) (sdrngs : list (option sdrng_slot))
    (s : lrng_state) : bool * list (option sdrng_slot) * lrng_state :=
  match nodes with
  | [] => (true, sdrngs, s)
  | node :: rest =>
      if negb init_sdrng_used
      then numa_alloc_nodes X rest true (<[node := Some Slot_init]> sdrngs) s
      else
        let cb := sdrng_crypto_cb (st_sdrng_init s) in
        let '(h, s) := call_env_ptr X (Ev_drng_alloc cb) s in
        if IS_ERR h then (false, sdrngs, s)
        else
          let d :=
            lrng_sdrng_reset (st_jiffies s) (mk_sdrng h cb 0 0 false false) in
          let s :=
            with_pool (fun p => set_numa_drngs (u32 (numa_drngs p + 1)) p) s in
          numa_alloc_nodes X rest true (<[node := Some (Slot_own d)]> sdrngs) s
  end.

(** The loop after the label [err]. *)
Fixpoint numa_dealloc_nodes (nodes : list nat)
    (sdrngs : list (option sdrng_slot)) (s : lrng_state) : lrng_state :=
  match nodes with
  | [] => s
  | node :: rest =>
      let s :=
        match sdrngs !! node with
        | Some (Some (Slot_own d)) =>
            emit (Ev_drng_dealloc (sdrng_crypto_cb d) (sdrng d)) s
        | _ => s
        end in
      numa_dealloc_nodes rest sdrngs s
  end.

(** [_lrng_drngs_numa_alloc]; [nr_node_ids] is the number of possible
    nodes. *)
Definition _lrng_drngs_numa_alloc (X : extern) (nr_node_ids : nat)
    (s : lrng_state) : lrng_state :=
  let s := lrng_drngs_init_cc20 X s in
  match st_sdrng s with
  | Some _ => s
  | None =>
      let '(ok, sdrngs, s) :=
        numa_alloc_nodes X (st_online s) false
          (replicate nr_node_ids None) s in
      if ok then
        match st_sdrng s with (* cmpxchg(&lrng_sdrng, NULL, sdrngs) *)
        | None => with_sdrng_table (Some sdrngs) s
        | Some _ => numa_dealloc_nodes (st_online s) sdrngs s
        end
      else numa_dealloc_nodes (st_online s) sdrngs s
  end.

(** The DRNG handles of the own objects the table holds for [nodes]. *)
Fixpoint own_handles (nodes : list nat) (sdrngs : list (option sdrng_slot))
    : list (Z * Z) :=
  match nodes with
  | [] => []
  | node :: rest =>
      match sdrngs !! node with
      | Some (Some (Slot_own d)) =>
          (sdrng_crypto_cb d, sdrng d) :: own_handles rest sdrngs
      | _ => own_handles rest sdrngs
      end
  end.

(** A secondary DRNG as the allocation loop leaves it. *)
Definition fresh_sdrng (cb jiffies : Z) (d : lrng_sdrng) : Prop :=
  0 <= sdrng d /\ sdrng_crypto_cb d = cb
  /\ requests d = LRNG_DRNG_RESEED_THRESH /\ last_seeded d = jiffies
  /\ fully_seeded d = false /\ force_reseed d = true.

(** The boot state of a machine with two online nodes. *)
Definition lrng_two_node_state : lrng_state :=
  let s := lrng_boot_state 0 in
  mk_state (st_pool s) (st_pdrng s) (st_sdrng_init s) (st_sdrng_atomic s)
    (st_sdrng s) (st_ready_list s) (st_pdrng_avail s) (st_reseed_max_time s)
    (st_write_wakeup_bits s) (st_read_wakeup_bits s) (st_archrandom s)
    (st_jitterrng s) (st_jent_initialized s) (st_reg_idx s) (st_jiffies s)
    (st_read_sleeper s) [0%nat; 1%nat] (st_tick s) (st_trace s).

(** An environment whose calls answer 0 up to call [t] and 1 from then on:
    user memory that can be read for a while and then faults. *)
Definition short_copy_extern (t : nat) : extern :=
  mk_extern (fun n => if (n <? t)%nat then 0 else 1) (fun _ len => len)
    (fun _ => []) (fun _ _ => 64) 250.

(** ** Forward movement of the seeding state *)

(** What the seeding state is read from, with the flag that tells whether
    the LRNG has been initialised. *)
Definition seed_key (s : lrng_state) :=
  (pdrng_fully_seeded (st_pdrng s), pdrng_min_seeded (st_pdrng s),
   num_events_thresh (irq_info (st_pool s)),
   irq_entropy_bits (irq_info (st_pool s)), st_pdrng_avail s).

(** From [s] to [s'] the seeding state has not moved back. *)
Definition seed_forward (s s' : lrng_state) : Prop :=
  seed_rank (seeding_state_of s) <= seed_rank (seeding_state_of s').


(** A step that keeps the initialisation flag and does not move the
    seeding state back. *)
Definition seed_step (s s' : lrng_state) : Prop :=
  st_pdrng_avail s' = st_pdrng_avail s /\ seed_forward s s'.
(** * Properties *)

(** Closed arithmetic side conditions, by evaluation. *)
Ltac by_evaluation :=
  vm_compute; repeat split; solve [reflexivity | discriminate | lia].

(** ** Machine integer facts *)

Lemma u32_range x : 0 <= u32 x < 2 ^ 32.
Proof. unfold u32. apply Z.mod_pos_bound. lia. Qed.

Lemma u32_small x : 0 <= x < 2 ^ 32 -> u32 x = x.
Proof. intros H. unfold u32. apply Z.mod_small. exact H. Qed.

Lemma s32_range x : - 2 ^ 31 <= s32 x < 2 ^ 31.
Proof.
  unfold s32. pose proof (Z.mod_pos_bound (x + 2 ^ 31) (2 ^ 32)). lia.
Qed.

Lemma s32_small x : - 2 ^ 31 <= x < 2 ^ 31 -> s32 x = x.
Proof. intros H. unfold s32. rewrite Z.mod_small; lia. Qed.

Lemma u32_s32 x : u32 (s32 x) = u32 x.
Proof.
  unfold u32, s32.
  rewrite Zminus_mod, Z.mod_mod by lia.
  rewrite <- Zminus_mod. replace (x + 2 ^ 31 - 2 ^ 31) with x by lia.
  reflexivity.
Qed.

Lemma u32_idem x : u32 (u32 x) = u32 x.
Proof. unfold u32. apply Z.mod_mod. lia. Qed.

Lemma s32_eq_0 x : s32 x = 0 <-> u32 x = 0.
Proof.
  split; intros H.
  - rewrite <- u32_s32, H. reflexivity.
  - pose proof (s32_range x) as R. rewrite <- u32_s32 in H.
    unfold u32 in H.
    destruct (Z_lt_le_dec (s32 x) 0) as [Hn | Hp].
    + assert (E : (s32 x) mod 2 ^ 32 = s32 x + 2 ^ 32).
      { symmetry. apply (Z.mod_unique_pos _ _ (-1)); lia. }
      lia.
    + rewrite Z.mod_small in H; lia.
Qed.

Lemma land_mask x n : 0 <= n -> Z.land x (2 ^ n - 1) = x mod 2 ^ n.
Proof.
  intros H. replace (2 ^ n - 1) with (Z.ones n).
  - apply Z.land_ones. exact H.
  - rewrite Z.ones_equiv. lia.
Qed.

Lemma u32_mod_pow2 x n : 0 <= n <= 32 -> u32 x mod 2 ^ n = x mod 2 ^ n.
Proof.
  intros H. unfold u32. apply Z.mod_mod_divide.
  exists (2 ^ (32 - n)). rewrite <- Z.pow_add_r by lia. f_equal. lia.
Qed.

(** ** The LFSR step *)

Lemma ptr_of_step value p :
  ptr_of (lrng_pool_lfsr_u32 value p) = (ptr_of p + 67) mod 128.
Proof.
  unfold ptr_of, lrng_pool_lfsr_u32, atomic_read_u32, atomic_read,
    atomic_add_return, LRNG_POOL_SIZE. cbn [pool_ptr].
  change (128 - 1) with (2 ^ 7 - 1). rewrite !land_mask by lia.
  rewrite u32_s32, !u32_mod_pow2 by lia.
  change (2 ^ 7) with 128. rewrite Zplus_mod_idemp_l. reflexivity.
Qed.

Lemma rot_of_step value p :
  rot_of (lrng_pool_lfsr_u32 value p) =
  (rot_of p + (if ptr_of (lrng_pool_lfsr_u32 value p) =? 0 then 14 else 7))
    mod 32.
Proof.
  unfold rot_of, ptr_of, lrng_pool_lfsr_u32, atomic_read_u32, atomic_read,
    atomic_add_return, LRNG_POOL_SIZE. cbn [pool_ptr input_rotate].
  change 31 with (2 ^ 5 - 1). rewrite !(land_mask _ 5) by lia.
  rewrite u32_s32, !u32_mod_pow2 by lia.
  change (2 ^ 5) with 32. rewrite Zplus_mod_idemp_l. reflexivity.
Qed.

Lemma stored_word_eq value p :
  pool (lrng_pool_lfsr_u32 value p) =
  <[Z.to_nat (ptr_of (lrng_pool_lfsr_u32 value p)) :=
      five_word value p (ptr_of (lrng_pool_lfsr_u32 value p))
        (rot_of (lrng_pool_lfsr_u32 value p))]> (pool p).
Proof.
  unfold five_word, twist, rot_of, ptr_of.
  unfold lrng_pool_lfsr_u32 at 1 2 3 4 5 6 7 8 9.
  cbn [pool pool_ptr input_rotate].
  unfold atomic_read_u32, atomic_read, LRNG_POOL_SIZE.
  change (128 - 1) with (2 ^ 7 - 1). rewrite !land_mask by lia.
  change (2 ^ 7) with 128.
  change (word_at lrng_lfsr_polynomial 0) with 127.
  change (word_at lrng_lfsr_polynomial 1) with 28.
  change (word_at lrng_lfsr_polynomial 2) with 26.
  change (word_at lrng_lfsr_polynomial 3) with 1.
  rewrite Z.shiftr_div_pow2 by lia.
  change 7 with (2 ^ 3 - 1) at 3. rewrite land_mask by lia.
  reflexivity.
Qed.

Lemma rol32_bits v r i :
  0 <= v < 2 ^ 32 -> 0 <= r < 32 -> 0 <= i < 32 ->
  Z.testbit (rol32 v r) i = Z.testbit v ((i - r) mod 32).
Proof.
  intros Hv Hr Hi. unfold rol32, u32.
  change 31 with (2 ^ 5 - 1). rewrite !land_mask by lia.
  change (2 ^ 5) with 32. rewrite (Z.mod_small r 32) by lia.
  rewrite Z.lor_spec, Z.mod_pow2_bits_low, Z.shiftl_spec, Z.shiftr_spec by lia.
  destruct (Z.eq_dec r 0) as [-> | Hr0].
  - change (- 0) with 0. rewrite Z.mod_0_l, Z.sub_0_r, Z.add_0_r by lia.
    rewrite Z.mod_small by lia. apply orb_diag.
  - assert (E : (- r) mod 32 = 32 - r).
    { symmetry. apply (Z.mod_unique_pos _ _ (-1)); lia. }
    rewrite E.
    destruct (Z_lt_le_dec i r) as [Hlt | Hge].
    + rewrite (Z.testbit_neg_r v (i - r)) by lia.
      assert (E2 : (i - r) mod 32 = i + (32 - r)).
      { symmetry. apply (Z.mod_unique_pos _ _ (-1)); lia. }
      rewrite E2. reflexivity.
    + rewrite (Z.mod_small (i - r)) by lia.
      assert (Hhi : Z.testbit v (i + (32 - r)) = false).
      { rewrite <- (Z.mod_small v (2 ^ 32)) by lia.
        apply Z.mod_pow2_bits_high. lia. }
      rewrite Hhi. apply orb_false_r.
Qed.

(** C9, counterexample: on a pool whose words are all 1, mixing the word 0
    stores 0x3b6e20c8 at slot 67, whereas XORing the rotated input with the
    four tap words alone would store 0. *)
Lemma lfsr_four_tap_counterexample :
  ptr_of (lrng_pool_lfsr_u32 0 (uniform_pool 1)) = 67 /\
  rot_of (lrng_pool_lfsr_u32 0 (uniform_pool 1)) = 7 /\
  pool (lrng_pool_lfsr_u32 0 (uniform_pool 1)) !! 67%nat = Some 0x3b6e20c8 /\
  four_tap_word 0 (uniform_pool 1) 67 7 = 0 /\
  pool (lrng_pool_lfsr_u32 0 (uniform_pool 1)) !! 67%nat <>
    Some (four_tap_word 0 (uniform_pool 1) 67 7).
Proof. vm_compute. repeat split; congruence. Qed.

(** C9 (amended): one call of [lrng_pool_lfsr_u32] moves the insertion
    pointer by 67 modulo 128, moves the rotation by 7, or by 14 when the
    pointer has come to 0, modulo 32, rotates the input left by the new
    rotation, XORs it with the pool word at the pointer slot and with the
    four words at tap offsets 127, 28, 26 and 1 from it, twists the result
    through the 8-entry table and stores it at the pointer slot; no other
    pool word changes. *)
Theorem lrng_pool_lfsr_u32_step (value : Z) (p : lrng_pool) :
  length (pool p) = 128%nat ->
  0 <= value < 2 ^ 32 ->
  let p' := lrng_pool_lfsr_u32 value p in
  let ptr := (ptr_of p + 67) mod 128 in
  let rot := (rot_of p + (if ptr =? 0 then 14 else 7)) mod 32 in
  ptr_of p' = ptr /\
  rot_of p' = rot /\
  (forall i, 0 <= i < 32 ->
     Z.testbit (rol32 value rot) i = Z.testbit value ((i - rot) mod 32)) /\
  pool p' !! Z.to_nat ptr = Some (five_word value p ptr rot) /\
  (forall j : nat, j <> Z.to_nat ptr -> pool p' !! j = pool p !! j).
Proof.
  intros Hlen Hv p' ptr rot.
  assert (Hptr : ptr_of p' = ptr) by apply ptr_of_step.
  assert (Hrot : rot_of p' = rot).
  { unfold rot. rewrite <- Hptr. apply rot_of_step. }
  assert (Hpr : 0 <= ptr < 128) by (apply Z.mod_pos_bound; lia).
  assert (Hrr : 0 <= rot < 32) by (apply Z.mod_pos_bound; lia).
  split; [exact Hptr|]. split; [exact Hrot|].
  split; [intros i Hi; apply rol32_bits; lia|].
  subst p'. rewrite stored_word_eq, Hptr, Hrot. split.
  - apply list_lookup_insert_eq. lia.
  - intros j Hj. apply list_lookup_insert_ne. congruence.
Qed.

Lemma lrng_pool_lfsr_u32_step_witness :
  ptr_of (lrng_pool_lfsr_u32 5 (uniform_pool 1)) = 67 /\
  rot_of (lrng_pool_lfsr_u32 5 (uniform_pool 1)) = 7.
Proof.
  destruct (lrng_pool_lfsr_u32_step 5 (uniform_pool 1)) as (H1 & H2 & _).
  - reflexivity.
  - lia.
  - split; [exact H1 | exact H2].
Defined.

(** ** The stuck test *)

Lemma u32_sub_idem_l a b : u32 (u32 a - b) = u32 (a - b).
Proof. unfold u32. apply Zminus_mod_idemp_l. Qed.

Lemma u32_sub_idem_r a b : u32 (a - u32 b) = u32 (a - b).
Proof. unfold u32. apply Zminus_mod_idemp_r. Qed.

Lemma u32_sub_s32_l a b : u32 (s32 a - b) = u32 (a - b).
Proof. rewrite <- u32_sub_idem_l, u32_s32. apply u32_sub_idem_l. Qed.

Lemma stuck_delta_eq i t : stuck_delta i t = (t - last_time i) mod 2 ^ 32.
Proof.
  unfold stuck_delta, atomic_read_u32, atomic_read. apply u32_sub_idem_r.
Qed.

Lemma stuck_delta2_eq i t :
  u32 (stuck_delta2 i t) = (stuck_delta i t - last_delta i) mod 2 ^ 32.
Proof.
  unfold stuck_delta2, atomic_read_u32, atomic_read.
  rewrite u32_s32. apply u32_sub_idem_r.
Qed.

Lemma stuck_delta3_eq i t :
  u32 (stuck_delta3 i t) =
  (u32 (stuck_delta2 i t) - last_delta2 i) mod 2 ^ 32.
Proof.
  unfold stuck_delta3, atomic_read. rewrite u32_s32.
  fold (u32 (u32 (stuck_delta2 i t) - last_delta2 i)).
  rewrite u32_sub_idem_l. reflexivity.
Qed.

Lemma stuck_delta2_zero i t :
  (stuck_delta2 i t =? 0) = (u32 (stuck_delta2 i t) =? 0).
Proof.
  unfold stuck_delta2. rewrite u32_s32.
  destruct (Z.eqb_spec (s32 (stuck_delta i t - atomic_read_u32 (last_delta i))) 0)
    as [E | E]; symmetry.
  - apply Z.eqb_eq. apply s32_eq_0. exact E.
  - apply Z.eqb_neq. intros E'. apply E. apply s32_eq_0. exact E'.
Qed.

Lemma stuck_delta3_zero i t :
  (stuck_delta3 i t =? 0) = (u32 (stuck_delta3 i t) =? 0).
Proof.
  unfold stuck_delta3. rewrite u32_s32.
  destruct (Z.eqb_spec (s32 (stuck_delta2 i t - atomic_read (last_delta2 i))) 0)
    as [E | E]; symmetry.
  - apply Z.eqb_eq. apply s32_eq_0. exact E.
  - apply Z.eqb_neq. intros E'. apply E. apply s32_eq_0. exact E'.
Qed.

Lemma stuck_verdict_eqb i t :
  ((stuck_delta i t =? 0) || (stuck_delta2 i t =? 0) || (stuck_delta3 i t =? 0))
    = true <-> stuck_verdict i t.
Proof.
  unfold stuck_verdict.
  rewrite stuck_delta2_zero, stuck_delta3_zero.
  rewrite stuck_delta3_eq, stuck_delta2_eq, stuck_delta_eq.
  rewrite !orb_true_iff, !Z.eqb_eq. tauto.
Qed.

Lemma irq_info_lowres e irq fl s :
  irq_info (st_pool (irq_lowres_mix e irq fl s)) = irq_info (st_pool s).
Proof.
  unfold irq_lowres_mix. destruct (ev_regs e) as [regs|]; [|reflexivity].
  destruct ((atomic_add_return 1 (st_reg_idx _) <? 0) || _); reflexivity.
Qed.

Lemma set_stuck_state_updated i t :
  stuck_state_updated i
    (set_stuck_state (atomic_set t) (atomic_set (stuck_delta i t))
       (atomic_set (stuck_delta2 i t)) i) t.
Proof.
  unfold stuck_state_updated, atomic_set; cbn.
  rewrite !u32_s32, stuck_delta2_eq, stuck_delta_eq.
  assert (E : u32 ((t - last_time i) mod 2 ^ 32) = (t - last_time i) mod 2 ^ 32)
    by apply u32_idem.
  rewrite E. repeat split; reflexivity.
Qed.

Lemma set_crngt_ctr_updated i i' t c :
  stuck_state_updated i i' t -> stuck_state_updated i (set_crngt_ctr c i') t.
Proof. intros H. exact H. Qed.

(** The three ways [lrng_irq_stuck] can end. *)
Lemma lrng_irq_stuck_cases fips i t :
  (lrng_irq_stuck fips i t = Panics /\
   fips = true /\ stuck_test i = true /\ (t - last_time i) mod 2 ^ 32 = 0 /\
   atomic_add (-1) (crngt_ctr i) = 0)
  \/ (exists i', lrng_irq_stuck fips i t = Returns (1, i') /\
        stuck_test i = true /\ stuck_verdict i t /\ stuck_state_updated i i' t)
  \/ (exists i', lrng_irq_stuck fips i t = Returns (0, i') /\
        ~ (stuck_test i = true /\ stuck_verdict i t) /\
        stuck_state_updated i i' t).
Proof.
  pose proof (stuck_verdict_eqb i t) as V.
  pose proof (stuck_delta_eq i t) as D1.
  unfold lrng_irq_stuck. cbn [stuck_test set_stuck_state crngt_ctr].
  destruct (stuck_test i) eqn:St; cbn [negb].
  2:{ right; right. eexists; split; [reflexivity|]. split.
      - intros [? _]; discriminate.
      - apply set_stuck_state_updated. }
  destruct ((stuck_delta i t =? 0) || (stuck_delta2 i t =? 0)
            || (stuck_delta3 i t =? 0)) eqn:Vb.
  - assert (Hv : stuck_verdict i t) by (apply V; reflexivity).
    destruct fips.
    + destruct (stuck_delta i t =? 0) eqn:Z1.
      * destruct (atomic_add (-1) (crngt_ctr i) =? 0) eqn:C.
        -- left. apply Z.eqb_eq in Z1. apply Z.eqb_eq in C.
           rewrite <- D1. repeat split; assumption.
        -- right; left. eexists; split; [reflexivity|].
           split; [reflexivity|]. split; [exact Hv|].
           apply set_crngt_ctr_updated, set_stuck_state_updated.
      * right; left. eexists; split; [reflexivity|].
        split; [reflexivity|]. split; [exact Hv|].
        apply set_crngt_ctr_updated, set_stuck_state_updated.
    + right; left. eexists; split; [reflexivity|].
      split; [reflexivity|]. split; [exact Hv|].
      apply set_stuck_state_updated.
  - assert (Hv : ~ stuck_verdict i t).
    { intros Hv. apply V in Hv. congruence. }
    apply orb_false_iff in Vb as [Vb _]. apply orb_false_iff in Vb as [Z1 _].
    rewrite Z1. right; right.
    destruct fips; (eexists; split; [reflexivity|]); (split; [tauto|]);
      try apply set_crngt_ctr_updated; apply set_stuck_state_updated.
Qed.

Lemma lrng_pool_mixin_keeps n s :
  pool (st_pool (lrng_pool_mixin n s)) = pool (st_pool s) /\
  num_events (irq_info (st_pool (lrng_pool_mixin n s)))
    = num_events (irq_info (st_pool s)) /\
  last_time (irq_info (st_pool (lrng_pool_mixin n s)))
    = last_time (irq_info (st_pool s)) /\
  last_delta (irq_info (st_pool (lrng_pool_mixin n s)))
    = last_delta (irq_info (st_pool s)) /\
  last_delta2 (irq_info (st_pool (lrng_pool_mixin n s)))
    = last_delta2 (irq_info (st_pool s)).
Proof.
  unfold lrng_pool_mixin.
  repeat match goal with
         | |- context [if ?b then _ else _] => destruct b
         end; cbn; repeat split; reflexivity.
Qed.

(** C4 (amended): for every timing event the stuck test forms the three
    derivatives modulo 2^32 and stores the new time stamp and the first two
    derivatives.  The event is rejected exactly when the stuck test is
    enabled and one of the derivatives is zero: it is then not counted in
    [num_events] and triggers no wake-up or reseed, but its time stamp has
    been mixed into the pool all the same, like that of any other event.
    Only the FIPS failure case ends in a panic. *)
Theorem add_interrupt_randomness_stuck
    (fips : bool) (e : irq_event) (irq irq_flags : Z) (s : lrng_state) :
  ev_raw_store e = false ->
  let i := irq_info (st_pool s) in
  let t := u32 (ev_now_time e) in
  let rejected := stuck_test i = true /\ stuck_verdict i t in
  (add_interrupt_randomness fips e irq irq_flags s = Panics /\
   fips = true /\ rejected)
  \/ exists s',
       add_interrupt_randomness fips e irq irq_flags s = Returns s' /\
       u32 (last_time (irq_info (st_pool s'))) = t /\
       u32 (last_delta (irq_info (st_pool s')))
         = (t - last_time i) mod 2 ^ 32 /\
       u32 (last_delta2 (irq_info (st_pool s')))
         = ((t - last_time i) mod 2 ^ 32 - last_delta i) mod 2 ^ 32 /\
       (rejected ->
          num_events (irq_info (st_pool s')) = num_events i /\
          st_trace s' = st_trace s) /\
       (~ rejected ->
          num_events (irq_info (st_pool s')) = s32 (num_events i + 1)) /\
       (irq_highres_timer i = true ->
          pool (st_pool s') = pool (lrng_pool_lfsr_u32 t (st_pool s))).
Proof.
  intros Hraw i t rejected.
  unfold add_interrupt_randomness. rewrite Hraw. fold t.
  set (s1 := with_pool (lrng_pool_lfsr_u32 t) s).
  set (s2 := if negb (irq_highres_timer (irq_info (st_pool s1)))
             then irq_lowres_mix e irq irq_flags s1 else s1).
  assert (Hi2 : irq_info (st_pool s2) = i).
  { subst s2. destruct (negb _); [rewrite irq_info_lowres|]; reflexivity. }
  assert (Hp2 : irq_highres_timer i = true ->
                pool (st_pool s2) = pool (lrng_pool_lfsr_u32 t (st_pool s))).
  { intros Hh. subst s2. change (irq_info (st_pool s1)) with i.
    rewrite Hh. reflexivity. }
  assert (Htr2 : st_trace s2 = st_trace s).
  { subst s2. destruct (negb _); [|reflexivity].
    unfold irq_lowres_mix. destruct (ev_regs e); [|reflexivity].
    destruct ((_ <? 0) || _); reflexivity. }
  rewrite Hi2.
  destruct (lrng_irq_stuck_cases fips i t)
    as [(E & Hf & Hst & Hd & _) | [(i' & E & Hst & Hv & U) | (i' & E & Hn & U)]];
    rewrite E; cbn [mbind outcome_mbind outcome_bind].
  - left. split; [reflexivity|]. split; [exact Hf|].
    split; [exact Hst|]. left. exact Hd.
  - right. eexists. split; [reflexivity|].
    destruct U as (U1 & U2 & U3 & U4 & _). cbn.
    rewrite U1, U2, U3, U4. unfold t at 1. rewrite u32_idem. fold t.
    repeat split; try reflexivity; try assumption.
    intros Hn. exfalso. apply Hn. split; assumption.
  - right. eexists. split; [reflexivity|].
    destruct U as (U1 & U2 & U3 & U4 & _).
    change (0 =? 0) with true. cbv iota.
    match goal with
    | |- context [lrng_pool_mixin ?n ?x] =>
        destruct (lrng_pool_mixin_keeps n x) as (K1 & K2 & K3 & K4 & K5)
    end.
    rewrite K1, K2, K3, K4, K5. cbn.
    rewrite U1, U2, U3, U4. unfold t at 1. rewrite u32_idem. fold t.
    repeat split; try reflexivity; try assumption;
      exfalso; apply Hn; assumption.
Qed.

(** C4, counterexample: with the stuck test enabled, a second interrupt at
    the same time stamp 5 is rejected (first derivative zero, event counter
    unchanged), and yet the pool words have changed: the rejected event has
    been mixed into the pool. *)
Lemma stuck_event_is_mixed_counterexample :
  returned (irq_sequence false [5] lrng_online_state) = true /\
  returned (irq_sequence false [5; 5] lrng_online_state) = true /\
  stuck_test (irq_info (st_pool
    (state_after (irq_sequence false [5] lrng_online_state)))) = true /\
  stuck_verdict (irq_info (st_pool
    (state_after (irq_sequence false [5] lrng_online_state)))) 5 /\
  num_events (irq_info (st_pool
    (state_after (irq_sequence false [5; 5] lrng_online_state))))
  = num_events (irq_info (st_pool
    (state_after (irq_sequence false [5] lrng_online_state)))) /\
  pool (st_pool (state_after (irq_sequence false [5; 5] lrng_online_state)))
  <> pool (st_pool (state_after (irq_sequence false [5] lrng_online_state))).
Proof.
  split; [reflexivity|]. split; [reflexivity|]. split; [reflexivity|].
  split; [left; reflexivity|]. split; [reflexivity|].
  vm_compute. discriminate.
Qed.

Lemma add_interrupt_randomness_stuck_witness :
  ev_raw_store (irq_at 5) = false /\
  exists s',
    add_interrupt_randomness false (irq_at 5) 0 0 lrng_online_state
      = Returns s' /\
    num_events (irq_info (st_pool s')) = 1.
Proof.
  split; [reflexivity|].
  destruct (add_interrupt_randomness_stuck false (irq_at 5) 0 0
              lrng_online_state eq_refl)
    as [(_ & F & _) | (s' & E & _ & _ & _ & _ & Hn & _)].
  - discriminate F.
  - exists s'. split; [exact E|]. rewrite Hn; [reflexivity|].
    intros [_ [V | [V | V]]]; vm_compute in V; discriminate V.
Defined.

(** ** The FIPS continuous test *)

Section SameStamp.
Variable t : Z.




End SameStamp.













(** ** Reading the pool *)

Lemma irq_info_lfsr_bytes buf p :
  irq_info (lrng_pool_lfsr_bytes buf p) = irq_info p.
Proof.
  revert p. induction buf as [|b rest IH]; intros p; cbn; [reflexivity|].
  rewrite IH. reflexivity.
Qed.

Lemma irq_info_lfsr buf p : irq_info (lrng_pool_lfsr buf p) = irq_info p.
Proof.
  remember (length buf) as n eqn:Hn. revert buf p Hn.
  induction n as [n IH] using lt_wf_ind. intros buf p Hn.
  destruct buf as [|b0 [|b1 [|b2 [|b3 rest]]]];
    try (apply irq_info_lfsr_bytes).
  cbn [lrng_pool_lfsr].
  rewrite (IH (length rest)); [reflexivity | | reflexivity].
  subst n. cbn. lia.
Qed.

Lemma lrng_hash_pool_loop_unfold X fuel ds i avail gen out s :
  lrng_hash_pool_loop X fuel ds i avail gen out s =
  if (i <? LRNG_DRNG_SECURITY_STRENGTH_BYTES) && (0 <? avail) then
    match fuel with
    | O => OutOfFuel
    | Datatypes.S fuel' =>
        let tocopy :=
          Z.min (Z.min avail ds) (u32 (LRNG_DRNG_SECURITY_STRENGTH_BYTES - i)) in
        let n := st_tick s in
        let s1 :=
          emit (Ev_hash_buffer (pdrng_crypto_cb (st_pdrng s))
                  (lrng_hash (st_pool s))) (step_tick s) in
        if negb (x_ret X n =? 0) then Returns (gen, out, s1)
        else
          lrng_hash_pool_loop X fuel' ds (u32 (i + ds)) (u32 (avail - tocopy))
            (u32 (gen + tocopy))
            (out ++ take (Z.to_nat tocopy) (digest_bytes X n ds))
            (with_pool (lrng_pool_lfsr (digest_bytes X n ds)) s1)
    end
  else Returns (gen, out, s).
Proof. destruct fuel; reflexivity. Qed.

(** The loop hands out no more bytes than are available and touches
    neither the interrupt bookkeeping nor the primary DRNG. *)
Lemma lrng_hash_pool_loop_bound X fuel :
  forall ds i avail gen out s r out' s',
    0 <= ds -> 0 <= i -> 0 <= avail -> 0 <= gen -> gen + avail <= 32 ->
    lrng_hash_pool_loop X fuel ds i avail gen out s = Returns (r, out', s') ->
    gen <= r <= gen + avail /\
    irq_info (st_pool s') = irq_info (st_pool s) /\
    st_pdrng s' = st_pdrng s.
Proof.
  induction fuel as [|fuel IH]; intros ds i avail gen out s r out' s'
    Hds Hi Ha Hg Hsum; rewrite lrng_hash_pool_loop_unfold;
    unfold LRNG_DRNG_SECURITY_STRENGTH_BYTES;
    destruct ((i <? 32) && (0 <? avail)) eqn:C.
  - discriminate.
  - intros [= <- <- <-]. repeat split; lia.
  - cbv zeta. apply andb_true_iff in C as [Ci Cav].
    apply Z.ltb_lt in Ci, Cav.
    destruct (negb (x_ret X (st_tick s) =? 0)).
    + intros [= <- <- <-]. repeat split; lia.
    + rewrite (u32_small (32 - i)) by lia.
      set (tocopy := Z.min (Z.min avail ds) (32 - i)).
      assert (Ht : 0 <= tocopy <= avail) by (unfold tocopy; lia).
      rewrite (u32_small (avail - tocopy)), (u32_small (gen + tocopy)) by lia.
      intros E. apply IH in E; try lia.
      * destruct E as (E1 & E2 & E3). split; [lia|]. split.
        -- rewrite E2. cbn. apply irq_info_lfsr.
        -- rewrite E3. reflexivity.
      * pose proof (u32_range (i + ds)). lia.
  - intros [= <- <- <-]. repeat split; lia.
Qed.

(** With a digest size between 1 and 64 the loop comes to its end within 32
    rounds. *)
Lemma lrng_hash_pool_loop_returns X fuel :
  forall ds i avail gen out s,
    0 < ds <= 64 -> 0 <= i -> (Z.to_nat (32 - i) <= fuel)%nat ->
    returned (lrng_hash_pool_loop X fuel ds i avail gen out s) = true.
Proof.
  induction fuel as [|fuel IH]; intros ds i avail gen out s Hds Hi Hf;
    rewrite lrng_hash_pool_loop_unfold;
    unfold LRNG_DRNG_SECURITY_STRENGTH_BYTES;
    destruct ((i <? 32) && (0 <? avail)) eqn:C; try reflexivity.
  - apply andb_true_iff in C as [Ci _]. apply Z.ltb_lt in Ci. lia.
  - cbv zeta. apply andb_true_iff in C as [Ci _]. apply Z.ltb_lt in Ci.
    destruct (negb (x_ret X (st_tick s) =? 0)); [reflexivity|].
    apply IH; try lia.
    + pose proof (u32_range (i + ds)). lia.
    + rewrite (u32_small (i + ds)) by lia. lia.
Qed.

Lemma lrng_hash_pool_bound X fuel bits s r out s' :
  0 <= bits < 2 ^ 32 ->
  lrng_hash_pool X fuel bits s = Returns (r, out, s') ->
  0 <= r <= bits /\ r mod 8 = 0 /\ r <= 256 /\
  irq_info (st_pool s') = irq_info (st_pool s) /\
  st_pdrng s' = st_pdrng s.
Proof.
  intros Hb. unfold lrng_hash_pool.
  set (ds := u32 (x_digestsize X _ _)).
  destruct (64 <? ds); [discriminate|].
  rewrite Z.shiftr_div_pow2 by lia. change (2 ^ 3) with 8.
  unfold LRNG_DRNG_SECURITY_STRENGTH_BYTES.
  set (avail := if 32 <? bits / 8 then 32 else bits / 8).
  assert (Hav : 0 <= avail <= 32 /\ avail <= bits / 8).
  { unfold avail. pose proof (Z.div_pos bits 8).
    destruct (Z.ltb_spec 32 (bits / 8)); lia. }
  destruct (lrng_hash_pool_loop X fuel ds 0 avail 0 [] s)
    as [[[g o] s1]| |] eqn:L; cbn [mbind outcome_mbind outcome_bind];
    try discriminate.
  intros [= <- <- <-].
  apply lrng_hash_pool_loop_bound in L; try lia.
  2:{ unfold ds. apply u32_range. }
  destruct L as (Hg & Hi & Hp).
  rewrite Z.shiftl_mul_pow2 by lia. change (2 ^ 3) with 8.
  rewrite u32_small by lia.
  split; [|split; [|split; [|split]]]; try assumption.
  - pose proof (Z.mul_div_le bits 8). lia.
  - apply Z_mod_mult.
  - lia.
Qed.

Lemma lrng_hash_pool_returns X fuel bits s :
  0 < u32 (x_digestsize X (pdrng_crypto_cb (st_pdrng s)) (lrng_hash (st_pool s)))
    <= 64 ->
  (32 <= fuel)%nat ->
  returned (lrng_hash_pool X fuel bits s) = true.
Proof.
  intros Hds Hf. unfold lrng_hash_pool.
  destruct (Z.ltb_spec 64
    (u32 (x_digestsize X (pdrng_crypto_cb (st_pdrng s)) (lrng_hash (st_pool s)))));
    [lia|].
  match goal with
  | |- context [lrng_hash_pool_loop X fuel ?ds ?i ?a ?g ?o ?st] =>
      pose proof (lrng_hash_pool_loop_returns X fuel ds i a g o st Hds) as R;
      destruct (lrng_hash_pool_loop X fuel ds i a g o st) as [[[g' o'] s1]| |]
  end; cbn [mbind outcome_mbind outcome_bind returned] in *;
    try reflexivity; apply R; lia.
Qed.

(** The event counter after the tail of [lrng_get_pool]. *)
Lemma lrng_get_pool_out_counter X n bits out s :
  0 < irq_entropy_bits (irq_info (st_pool s)) < 2 ^ 20 ->
  0 <= bits <= 256 ->
  fst (fst (lrng_get_pool_out X n bits out s)) = bits /\
  snd (fst (lrng_get_pool_out X n bits out s)) = out /\
  0 <= num_events (irq_info (st_pool (snd (lrng_get_pool_out X n bits out s))))
    <= lrng_entropy_to_data (st_pool (snd (lrng_get_pool_out X n bits out s)))
         LRNG_POOL_SIZE_BITS.
Proof.
  intros Hieb Hb. unfold lrng_get_pool_out. cbn.
  split; [reflexivity|]. split; [reflexivity|].
  unfold lrng_entropy_to_data. cbn.
  set (ieb := irq_entropy_bits (irq_info (st_pool s))) in *.
  unfold LRNG_DRNG_SECURITY_STRENGTH_BITS, LRNG_DRNG_SECURITY_STRENGTH_BYTES,
    LRNG_POOL_SIZE_BITS, LRNG_POOL_SIZE_BYTES, LRNG_POOL_SIZE,
    LRNG_POOL_WORD_BYTES.
  change (32 * 8) with 256. change (128 * 4 * 8) with 4096.
  rewrite (u32_small (bits * ieb)) by nia.
  rewrite (u32_small (4096 * ieb)) by nia.
  assert (Hcap : 4096 * ieb / 256 = 16 * ieb).
  { replace (4096 * ieb) with (16 * ieb * 256) by lia. apply Z.div_mul. lia. }
  assert (Hused : 0 <= bits * ieb / 256 <= ieb).
  { split; [apply Z.div_pos; nia|]. apply Z.div_le_upper_bound; nia. }
  rewrite Hcap. set (used := bits * ieb / 256) in *.
  unfold atomic_add, min_u32.
  rewrite (u32_small (16 * ieb - used)) by lia.
  match goal with |- context [Z.min (u32 ?a) ?b] =>
    pose proof (u32_range a); set (m := Z.min (u32 a) b);
    assert (Hm : 0 <= m <= b) by (unfold m; lia)
  end.
  rewrite s32_small by lia. lia.
Qed.

Lemma round_down8_spec x : 0 <= x < 2 ^ 32 -> round_down8 x = x - x mod 8.
Proof.
  intros Hx. unfold round_down8, u32.
  assert (E : Z.lnot 7 mod 2 ^ 32 = Z.land (Z.lnot 7) (Z.ones 32))
    by (symmetry; apply Z.land_ones; lia).
  rewrite E, Z.land_assoc, (Z.land_comm x), <- Z.land_assoc.
  rewrite (Z.land_ones x 32), (Z.mod_small x) by lia.
  rewrite Z.land_comm, <- Z.ldiff_land.
  change 7 with (Z.ones 3). rewrite Z.ldiff_ones_r by lia.
  rewrite Z.shiftr_div_pow2, Z.shiftl_mul_pow2 by lia.
  change (2 ^ 3) with 8. pose proof (Z.div_mod x 8). lia.
Qed.

Lemma round_down8_bounds x :
  0 <= x < 2 ^ 32 -> 0 <= round_down8 x <= x /\ round_down8 x mod 8 = 0.
Proof.
  intros Hx. rewrite round_down8_spec by exact Hx.
  assert (0 <= x mod 8 < 8) by (apply Z.mod_pos_bound; lia).
  assert (x mod 8 <= x) by (apply Z.mod_le; lia).
  split; [lia|].
  rewrite Zminus_mod, Z.mod_mod, Z.sub_diag by lia. reflexivity.
Qed.

(** What [lrng_get_pool] does once it has decided to hash [bits0] bits. *)
Lemma lrng_get_pool_hash_step X fuel n bits0 s bits out s' :
  0 < irq_entropy_bits (irq_info (st_pool s)) < 2 ^ 20 ->
  0 <= bits0 < 2 ^ 32 ->
  (' (b, o, s1) ← lrng_hash_pool X fuel (round_down8 bits0) s;
   Returns (lrng_get_pool_out X n b o s1)) = Returns (bits, out, s') ->
  0 <= bits <= bits0 /\ bits mod 8 = 0 /\
  0 <= num_events (irq_info (st_pool s'))
    <= lrng_entropy_to_data (st_pool s') LRNG_POOL_SIZE_BITS.
Proof.
  intros Hieb Hb.
  destruct (round_down8_bounds bits0 Hb) as (R1 & R2).
  destruct (lrng_hash_pool X fuel (round_down8 bits0) s)
    as [[[b o] s1]| |] eqn:Hh; cbn [mbind outcome_mbind outcome_bind];
    try discriminate.
  apply lrng_hash_pool_bound in Hh; [|lia].
  destruct Hh as (B1 & B2 & B3 & B4 & _).
  intros E.
  destruct (lrng_get_pool_out_counter X n b o s1) as (O1 & O2 & O3).
  { rewrite B4. exact Hieb. }
  { lia. }
  assert (E' : lrng_get_pool_out X n b o s1 = (bits, out, s')) by congruence.
  rewrite E' in O1, O2, O3. cbn [fst snd] in O1, O2, O3.
  subst b. split; [lia|]. split; [exact B2|]. exact O3.
Qed.

Lemma lrng_avail_entropy_range p : 0 <= lrng_avail_entropy p <= 4096.
Proof.
  unfold lrng_avail_entropy, min_u32.
  change (u32 LRNG_POOL_SIZE_BITS) with 4096.
  match goal with |- context [Z.min 4096 (u32 ?a)] => pose proof (u32_range a) end.
  lia.
Qed.

(** Everything [lrng_get_pool] guarantees about a returned result. *)
Lemma lrng_get_pool_spec X fuel requested drain s bits out s' :
  0 < irq_entropy_bits (irq_info (st_pool s)) < 2 ^ 20 ->
  0 <= requested < 2 ^ 32 ->
  (drain = false -> requested + LRNG_EMERG_ENTROPY < 2 ^ 32) ->
  lrng_get_pool X fuel requested drain s = Returns (bits, out, s') ->
  0 <= bits <= lrng_avail_entropy (st_pool s) /\
  bits mod 8 = 0 /\
  (drain = true -> bits <= Z.min (lrng_avail_entropy (st_pool s)) requested) /\
  (drain = false ->
     (lrng_avail_entropy (st_pool s) < requested + LRNG_EMERG_ENTROPY ->
        bits = 0 /\ out = [] /\ st_trace s' = st_trace s) /\
     (requested + LRNG_EMERG_ENTROPY <= lrng_avail_entropy (st_pool s) ->
        bits <= requested)) /\
  0 <= num_events (irq_info (st_pool s'))
    <= lrng_entropy_to_data (st_pool s') LRNG_POOL_SIZE_BITS.
Proof.
  intros Hieb Hreq Hwrap. unfold lrng_get_pool. cbv zeta.
  set (n := atomic_read_u32 (num_events (irq_info (st_pool s)))).
  set (s0 := with_pool (with_irq_info (set_num_events 0)) s).
  assert (EA : min_u32 (lrng_data_to_entropy (st_pool s0) n) LRNG_POOL_SIZE_BITS
               = lrng_avail_entropy (st_pool s)).
  { unfold lrng_avail_entropy, min_u32. rewrite Z.min_comm. reflexivity. }
  rewrite EA. pose proof (lrng_avail_entropy_range (st_pool s)) as RA.
  set (A := lrng_avail_entropy (st_pool s)) in *.
  assert (Hieb0 : 0 < irq_entropy_bits (irq_info (st_pool s0)) < 2 ^ 20)
    by exact Hieb.
  change LRNG_EMERG_ENTROPY with 512 in *.
  destruct drain.
  - intros E.
    assert (Hm : min_u32 A requested = Z.min A requested).
    { unfold min_u32. rewrite !u32_small by lia. reflexivity. }
    rewrite Hm in E.
    apply lrng_get_pool_hash_step in E; [|exact Hieb0|lia].
    destruct E as (E1 & E2 & E3).
    split; [lia|]. split; [exact E2|]. split; [lia|].
    split; [discriminate|exact E3].
  - specialize (Hwrap eq_refl). rewrite (u32_small (requested + 512)) by lia.
    destruct (Z.ltb_spec A (requested + 512)) as [Hlt | Hge].
    + intros E.
      destruct (lrng_get_pool_out_counter X n 0 [] s0 Hieb0) as (O1 & O2 & O3);
        [lia|].
      assert (E' : lrng_get_pool_out X n 0 [] s0 = (bits, out, s'))
        by congruence.
      assert (Tr : st_trace (snd (lrng_get_pool_out X n 0 [] s0)) = st_trace s)
        by reflexivity.
      rewrite E' in O1, O2, O3, Tr. cbn [fst snd] in O1, O2, O3, Tr.
      subst bits out.
      split; [lia|]. split; [reflexivity|]. split; [discriminate|].
      split; [|exact O3]. intros _. split; [auto|lia].
    + intros E.
      apply lrng_get_pool_hash_step in E; [|exact Hieb0|lia].
      destruct E as (E1 & E2 & E3).
      split; [lia|]. split; [exact E2|]. split; [discriminate|].
      split; [|exact E3]. intros _. split; [lia|lia].
Qed.

(** With a digest size between 1 and 64 and 32 rounds of budget
    [lrng_get_pool] returns. *)
Lemma lrng_get_pool_returns X fuel requested drain s :
  0 < u32 (x_digestsize X (pdrng_crypto_cb (st_pdrng s)) (lrng_hash (st_pool s)))
    <= 64 ->
  (32 <= fuel)%nat ->
  returned (lrng_get_pool X fuel requested drain s) = true.
Proof.
  intros Hds Hf. unfold lrng_get_pool. cbv zeta.
  set (s0 := with_pool (with_irq_info (set_num_events 0)) s).
  assert (R : forall b, returned
    (' (b', o, s1) ← lrng_hash_pool X fuel (round_down8 b) s0;
     Returns (lrng_get_pool_out X
       (atomic_read_u32 (num_events (irq_info (st_pool s)))) b' o s1)) = true).
  { intros b.
    pose proof (lrng_hash_pool_returns X fuel (round_down8 b) s0 Hds Hf) as R.
    destruct (lrng_hash_pool X fuel (round_down8 b) s0) as [[[b' o] s1]| |];
      [reflexivity | discriminate R | discriminate R]. }
  destruct drain; [apply R|].
  match goal with |- context [if ?c then _ else _] => destruct c end;
    [reflexivity | apply R].
Qed.

(** C1: whenever [lrng_get_pool] returns, the entropy it reports does not
    exceed the entropy available before the call, and the event counter it
    leaves behind is neither negative nor above the event equivalent of the
    pool size; and it does return for every digest size between 1 and 64.
    The request is a u32 whose sum with the emergency reserve does not wrap,
    as is the case for the security strength the callers ask for. *)
Theorem lrng_get_pool_accounting
    (X : extern) (fuel : nat) (requested : Z) (drain : bool) (s : lrng_state) :
  0 < irq_entropy_bits (irq_info (st_pool s)) < 2 ^ 20 ->
  0 <= requested < 2 ^ 32 ->
  (drain = false -> requested + LRNG_EMERG_ENTROPY < 2 ^ 32) ->
  (forall bits out s',
     lrng_get_pool X fuel requested drain s = Returns (bits, out, s') ->
     bits <= lrng_avail_entropy (st_pool s) /\
     0 <= num_events (irq_info (st_pool s')) /\
     num_events (irq_info (st_pool s'))
       <= lrng_entropy_to_data (st_pool s') LRNG_POOL_SIZE_BITS) /\
  (0 < u32 (x_digestsize X (pdrng_crypto_cb (st_pdrng s))
             (lrng_hash (st_pool s))) <= 64 ->
   (32 <= fuel)%nat ->
   returned (lrng_get_pool X fuel requested drain s) = true).
Proof.
  intros Hieb Hreq Hwrap. split.
  - intros bits out s' E.
    destruct (lrng_get_pool_spec X fuel requested drain s bits out s'
                Hieb Hreq Hwrap E) as (B & _ & _ & _ & C).
    split; [apply B|exact C].
  - apply lrng_get_pool_returns.
Qed.

Lemma lrng_get_pool_accounting_witness :
  pool_read_summary
    (lrng_get_pool (const_extern 0 [1; 2; 3] 64) 32
       LRNG_DRNG_SECURITY_STRENGTH_BITS false (lrng_state_with_events 1000))
  = Some (256, 744) /\
  256 <= lrng_avail_entropy (st_pool (lrng_state_with_events 1000)).
Proof.
  split; [reflexivity|].
  destruct (lrng_get_pool_accounting (const_extern 0 [1; 2; 3] 64) 32
              LRNG_DRNG_SECURITY_STRENGTH_BITS false
              (lrng_state_with_events 1000)) as (H & _).
  - by_evaluation.
  - by_evaluation.
  - intros _. by_evaluation.
  - destruct (lrng_get_pool (const_extern 0 [1; 2; 3] 64) 32
                LRNG_DRNG_SECURITY_STRENGTH_BITS false
                (lrng_state_with_events 1000)) as [[[b o] s1]| |] eqn:E.
    + assert (Hb : b = 256).
      { apply (f_equal pool_read_summary) in E. vm_compute in E.
        injection E as E1 _. symmetry. exact E1. }
      destruct (H b o s1 eq_refl) as (H1 & _). rewrite Hb in H1. exact H1.
    + vm_compute in E. discriminate E.
    + vm_compute in E. discriminate E.
Defined.

(** C3: without [drain], [lrng_get_pool] returns zero bits and no output
    unless the available entropy is at least the request plus the emergency
    reserve; with [drain] the result is bounded by the smaller of available
    and requested entropy; either way the result is a whole number of
    bytes.  The call returns for every digest size between 1 and 64. *)
Theorem lrng_get_pool_drain_policy
    (X : extern) (fuel : nat) (requested : Z) (drain : bool) (s : lrng_state) :
  0 < irq_entropy_bits (irq_info (st_pool s)) < 2 ^ 20 ->
  0 <= requested < 2 ^ 32 ->
  (drain = false -> requested + LRNG_EMERG_ENTROPY < 2 ^ 32) ->
  (forall bits out s',
     lrng_get_pool X fuel requested drain s = Returns (bits, out, s') ->
     (drain = false ->
        lrng_avail_entropy (st_pool s) < requested + LRNG_EMERG_ENTROPY ->
        bits = 0 /\ out = [] /\ st_trace s' = st_trace s) /\
     (drain = false -> bits <= requested) /\
     (drain = true ->
        bits <= Z.min (lrng_avail_entropy (st_pool s)) requested) /\
     0 <= bits /\ bits mod 8 = 0) /\
  (0 < u32 (x_digestsize X (pdrng_crypto_cb (st_pdrng s))
             (lrng_hash (st_pool s))) <= 64 ->
   (32 <= fuel)%nat ->
   returned (lrng_get_pool X fuel requested drain s) = true).
Proof.
  intros Hieb Hreq Hwrap. split.
  - intros bits out s' E.
    destruct (lrng_get_pool_spec X fuel requested drain s bits out s'
                Hieb Hreq Hwrap E) as (B & M & D & N & _).
    split; [intros Hd; apply (N Hd)|].
    split.
    { intros Hd. destruct (N Hd) as (N1 & N2).
      destruct (Z_lt_le_dec (lrng_avail_entropy (st_pool s))
                  (requested + LRNG_EMERG_ENTROPY)) as [Hl | Hg].
      - destruct (N1 Hl) as (-> & _). lia.
      - apply N2. exact Hg. }
    split; [exact D|]. split; [apply B|exact M].
  - apply lrng_get_pool_returns.
Qed.

Lemma lrng_get_pool_drain_policy_witness :
  pool_read_summary
    (lrng_get_pool (const_extern 0 [1; 2; 3] 64) 32
       LRNG_DRNG_SECURITY_STRENGTH_BITS false (lrng_state_with_events 700))
  = Some (0, 700).
Proof.
  destruct (lrng_get_pool_drain_policy (const_extern 0 [1; 2; 3] 64) 32
              LRNG_DRNG_SECURITY_STRENGTH_BITS false
              (lrng_state_with_events 700)) as (H & _).
  - by_evaluation.
  - by_evaluation.
  - intros _. by_evaluation.
  - destruct (lrng_get_pool (const_extern 0 [1; 2; 3] 64) 32
                LRNG_DRNG_SECURITY_STRENGTH_BITS false
                (lrng_state_with_events 700)) as [[[b o] s1]| |] eqn:E.
    + destruct (H b o s1 eq_refl) as (H1 & _).
      destruct H1 as (Hb & _); [reflexivity | vm_compute; reflexivity |].
      apply (f_equal pool_read_summary) in E. rewrite <- E. reflexivity.
    + vm_compute in E. discriminate E.
    + vm_compute in E. discriminate E.
Defined.

(** A request so large that its sum with the emergency reserve wraps around
    passes the non-draining check of [lrng_get_pool] on an empty pool; the
    callers in [lrng_base.c] ask for the security strength only. *)
Example lrng_get_pool_wrapping_request :
  pool_read_summary
    (lrng_get_pool (const_extern 0 [1; 2; 3] 64) 32
       (2 ^ 32 - 512) false (lrng_state_with_events 0))
  = Some (256, 3840).
Proof. reflexivity. Qed.

(** ** The seeding state machine of the primary DRNG *)

Lemma fold_emit_ready l s :
  fold_left (fun s' rdy => emit (Ev_ready_func rdy) s') l s
  = with_trace (st_trace s ++ map Ev_ready_func l) s.
Proof.
  revert s. induction l as [|a l IH]; intros s; cbn [fold_left map].
  - destruct s; unfold with_trace; cbn. rewrite app_nil_r. reflexivity.
  - rewrite IH. destruct s; unfold with_trace, emit; cbn.
    rewrite <- app_assoc. reflexivity.
Qed.

Lemma lrng_process_ready_list_eq s :
  lrng_process_ready_list s
  = with_ready_list []
      (with_trace (st_trace s ++ map Ev_ready_func (st_ready_list s)) s).
Proof. unfold lrng_process_ready_list. rewrite fold_emit_ready. reflexivity. Qed.

(** The two flags and the reseed threshold after [lrng_pdrng_init_ops]. *)
Lemma lrng_pdrng_init_ops_cases entropy_bits s :
  let s' := lrng_pdrng_init_ops entropy_bits s in
  let target bits := atomic_set (lrng_entropy_to_data (st_pool s) bits) in
  (pdrng_fully_seeded (st_pdrng s) = true /\ s' = s)
  \/ (pdrng_fully_seeded (st_pdrng s) = false /\
      LRNG_DRNG_SECURITY_STRENGTH_BITS <= entropy_bits /\
      pdrng_fully_seeded (st_pdrng s') = true /\
      pdrng_min_seeded (st_pdrng s') = true /\
      num_events_thresh (irq_info (st_pool s'))
        = target LRNG_DRNG_SECURITY_STRENGTH_BITS /\
      st_ready_list s' = [] /\
      st_trace s' = st_trace s ++ [Ev_invalidate_batched_entropy]
                      ++ map Ev_ready_func (st_ready_list s)
                      ++ [Ev_wake_init_wait])
  \/ (pdrng_fully_seeded (st_pdrng s) = false /\
      pdrng_min_seeded (st_pdrng s) = false /\
      LRNG_MIN_SEED_ENTROPY_BITS <= entropy_bits
        < LRNG_DRNG_SECURITY_STRENGTH_BITS /\
      pdrng_fully_seeded (st_pdrng s') = false /\
      pdrng_min_seeded (st_pdrng s') = true /\
      num_events_thresh (irq_info (st_pool s'))
        = target LRNG_DRNG_SECURITY_STRENGTH_BITS /\
      st_ready_list s' = [] /\
      st_trace s' = st_trace s ++ [Ev_invalidate_batched_entropy]
                      ++ map Ev_ready_func (st_ready_list s)
                      ++ [Ev_wake_init_wait])
  \/ (pdrng_fully_seeded (st_pdrng s) = false /\
      pdrng_min_seeded (st_pdrng s) = false /\
      LRNG_INIT_ENTROPY_BITS <= entropy_bits < LRNG_MIN_SEED_ENTROPY_BITS /\
      st_pdrng s' = st_pdrng s /\
      num_events_thresh (irq_info (st_pool s'))
        = target LRNG_MIN_SEED_ENTROPY_BITS /\
      st_ready_list s' = st_ready_list s /\ st_trace s' = st_trace s)
  \/ (pdrng_fully_seeded (st_pdrng s) = false /\
      entropy_bits < LRNG_DRNG_SECURITY_STRENGTH_BITS /\
      (pdrng_min_seeded (st_pdrng s) = true \/
       entropy_bits < LRNG_INIT_ENTROPY_BITS) /\
      s' = s).
Proof.
  cbv zeta. unfold lrng_pdrng_init_ops.
  destruct (pdrng_fully_seeded (st_pdrng s)) eqn:F; [left; auto|].
  right.
  destruct (Z.leb_spec LRNG_DRNG_SECURITY_STRENGTH_BITS entropy_bits) as [H|H].
  { left. unfold wake_up_init_wait, invalidate_batched_entropy.
    rewrite lrng_process_ready_list_eq. cbn.
    rewrite <- !app_assoc. repeat split; auto. }
  right.
  destruct (pdrng_min_seeded (st_pdrng s)) eqn:M; cbn [negb].
  { right; right. repeat split; auto. }
  destruct (Z.leb_spec LRNG_MIN_SEED_ENTROPY_BITS entropy_bits) as [H1|H1].
  { left. unfold wake_up_init_wait, invalidate_batched_entropy.
    rewrite lrng_process_ready_list_eq. cbn. rewrite F.
    rewrite <- !app_assoc. repeat split; auto. }
  right.
  destruct (Z.leb_spec LRNG_INIT_ENTROPY_BITS entropy_bits) as [H2|H2].
  { left. cbn. repeat split; auto. }
  right. repeat split; auto.
Qed.




Lemma lrng_pdrng_init_ops_ieb entropy_bits s :
  irq_entropy_bits (irq_info (st_pool (lrng_pdrng_init_ops entropy_bits s)))
  = irq_entropy_bits (irq_info (st_pool s)).
Proof.
  unfold lrng_pdrng_init_ops, wake_up_init_wait, invalidate_batched_entropy.
  repeat match goal with |- context [if ?b then _ else _] => destruct b end;
    rewrite ?lrng_process_ready_list_eq; reflexivity.
Qed.

(** [lrng_pdrng_init_ops] never lowers the seeding state. *)
Lemma lrng_pdrng_init_ops_forward entropy_bits s :
  seed_rank (seeding_state_of s)
    <= seed_rank (seeding_state_of (lrng_pdrng_init_ops entropy_bits s)).
Proof.
  pose proof (lrng_pdrng_init_ops_cases entropy_bits s) as C. cbv zeta in C.
  destruct C as [(_ & E) | [(_ & _ & F1 & _)
        | [(F0 & M0 & _ & F1 & M1 & _)
        | [(F0 & M0 & _ & P1 & T1 & _) | (_ & _ & _ & E)]]]].
  - rewrite E. lia.
  - unfold seeding_state_of at 2. rewrite F1. cbn.
    destruct (seeding_state_of s); cbn; lia.
  - unfold seeding_state_of. rewrite F0, M0, F1, M1.
    destruct (_ =? _); cbn; lia.
  - unfold seeding_state_of. rewrite P1, F0, M0, T1.
    assert (E : lrng_entropy_to_data
                  (st_pool (lrng_pdrng_init_ops entropy_bits s))
                  LRNG_MIN_SEED_ENTROPY_BITS
                = lrng_entropy_to_data (st_pool s) LRNG_MIN_SEED_ENTROPY_BITS).
    { unfold lrng_entropy_to_data. rewrite lrng_pdrng_init_ops_ieb.
      reflexivity. }
    rewrite E, Z.eqb_refl. destruct (_ =? _); cbn; lia.
  - rewrite E. lia.
Qed.


Lemma ready_funcs_app a b : ready_funcs (a ++ b) = ready_funcs a ++ ready_funcs b.
Proof. unfold ready_funcs. apply flat_map_app. Qed.

Lemma ready_funcs_map l : ready_funcs (map Ev_ready_func l) = l.
Proof.
  induction l as [|a l IH]; cbn; [reflexivity|]. f_equal. exact IH.
Qed.

(** One run of [lrng_pdrng_init_ops] either leaves the callback list alone
    and runs none, or runs all of them and empties the list. *)
Lemma lrng_pdrng_init_ops_ready entropy_bits s :
  let s' := lrng_pdrng_init_ops entropy_bits s in
  (st_ready_list s' = st_ready_list s /\
   ready_funcs (st_trace s') = ready_funcs (st_trace s))
  \/ (st_ready_list s' = [] /\
      ready_funcs (st_trace s')
        = ready_funcs (st_trace s) ++ st_ready_list s).
Proof.
  pose proof (lrng_pdrng_init_ops_cases entropy_bits s) as C. cbv zeta in *.
  destruct C as [(_ & E) | [(_ & _ & _ & _ & _ & L & T)
        | [(_ & _ & _ & _ & _ & _ & L & T)
        | [(_ & _ & _ & _ & _ & L & T) | (_ & _ & _ & E)]]]].
  - left. rewrite E. auto.
  - right. rewrite L, T, !ready_funcs_app, ready_funcs_map. cbn.
    rewrite app_nil_r. auto.
  - right. rewrite L, T, !ready_funcs_app, ready_funcs_map. cbn.
    rewrite app_nil_r. auto.
  - left. rewrite L, T. auto.
  - left. rewrite E. auto.
Qed.

Lemma init_ops_sequence_ready levels :
  forall s, exists fired,
    ready_funcs (st_trace (init_ops_sequence levels s))
      = ready_funcs (st_trace s) ++ fired /\
    (fired = [] \/ fired = st_ready_list s).
Proof.
  induction levels as [|e rest IH]; intros s; cbn [init_ops_sequence].
  - exists []. rewrite app_nil_r. auto.
  - destruct (IH (lrng_pdrng_init_ops e s)) as (fired & Hf & Hc).
    destruct (lrng_pdrng_init_ops_ready e s) as [(L & T) | (L & T)];
      rewrite L, T in *.
    + exists fired. auto.
    + exists (st_ready_list s). split; [|auto].
      rewrite Hf. destruct Hc as [-> | ->]; rewrite app_nil_r; reflexivity.
Qed.






(** ** Switching the crypto callbacks *)

(** C7: when neither the requested nor the active callback set is the
    default ChaCha20 one, [lrng_set_drng_cb] returns [-EINVAL] and the whole
    state, DRNG handles and trace of calls included, is as before. *)
Theorem lrng_set_drng_cb_rejects (X : extern) (cb : Z) (s : lrng_state) :
  cb <> lrng_cc20_crypto_cb ->
  pdrng_crypto_cb (st_pdrng s) <> lrng_cc20_crypto_cb ->
  lrng_set_drng_cb X (Some cb) s = (- EINVAL, s) /\
  fst (lrng_set_drng_cb X (Some cb) s) < 0 /\
  st_pdrng (snd (lrng_set_drng_cb X (Some cb) s)) = st_pdrng s /\
  st_sdrng_init (snd (lrng_set_drng_cb X (Some cb) s)) = st_sdrng_init s /\
  st_sdrng_atomic (snd (lrng_set_drng_cb X (Some cb) s)) = st_sdrng_atomic s /\
  st_sdrng (snd (lrng_set_drng_cb X (Some cb) s)) = st_sdrng s /\
  st_trace (snd (lrng_set_drng_cb X (Some cb) s)) = st_trace s.
Proof.
  intros Hcb Hcur.
  assert (E : lrng_set_drng_cb X (Some cb) s = (- EINVAL, s)).
  { pose proof (proj2 (Z.eqb_neq _ _) Hcb) as B1.
    pose proof (proj2 (Z.eqb_neq _ _) Hcur) as B2.
    unfold lrng_set_drng_cb.
    change (default lrng_cc20_crypto_cb (Some cb)) with cb.
    rewrite B1, B2. reflexivity. }
  rewrite E. cbn [fst snd]. repeat split; try reflexivity.
Qed.

Lemma lrng_set_drng_cb_rejects_witness :
  pdrng_crypto_cb (st_pdrng lrng_switched_state) = 7 /\
  lrng_set_drng_cb (const_extern 5 [] 64) (Some 9) lrng_switched_state
  = (-22, lrng_switched_state).
Proof.
  split; [reflexivity|].
  destruct (lrng_set_drng_cb_rejects (const_extern 5 [] 64) 9
              lrng_switched_state) as (E & _).
  - discriminate.
  - vm_compute. discriminate.
  - exact E.
Defined.

(** The other requests reach [lrng_drngs_switch]: a NULL or default
    argument always, any argument while the default set is active. *)
Lemma lrng_set_drng_cb_accepts X cb s :
  default lrng_cc20_crypto_cb cb = lrng_cc20_crypto_cb \/
  pdrng_crypto_cb (st_pdrng s) = lrng_cc20_crypto_cb ->
  lrng_set_drng_cb X cb s
  = lrng_drngs_switch X (default lrng_cc20_crypto_cb cb) s.
Proof.
  intros H. unfold lrng_set_drng_cb.
  destruct (Z.eqb_spec (default lrng_cc20_crypto_cb cb) lrng_cc20_crypto_cb);
    [reflexivity|].
  destruct (Z.eqb_spec (pdrng_crypto_cb (st_pdrng s)) lrng_cc20_crypto_cb);
    [reflexivity|].
  destruct H; contradiction.
Qed.

(** ** Traces of the DRNG operations *)

Lemma trace_ext_refl Q s : trace_ext Q s s.
Proof. exists []. rewrite app_nil_r. split; reflexivity. Qed.

Lemma trace_ext_same Q s s' : st_trace s' = st_trace s -> trace_ext Q s s'.
Proof. intros E. exists []. rewrite app_nil_r. split; [exact E|reflexivity]. Qed.

Lemma trace_ext_trans Q s1 s2 s3 :
  trace_ext Q s1 s2 -> trace_ext Q s2 s3 -> trace_ext Q s1 s3.
Proof.
  intros (e1 & E1 & Q1) (e2 & E2 & Q2). exists (e1 ++ e2).
  rewrite E2, E1, <- app_assoc, forallb_app, Q1, Q2. split; reflexivity.
Qed.

Lemma trace_ext_emit Q e s s1 :
  st_trace s1 = st_trace s -> Q e = true -> trace_ext Q s (emit e s1).
Proof. intros T H. exists [e]. cbn. rewrite T, H. split; reflexivity. Qed.

Lemma trace_ext_one Q e s s' :
  st_trace s' = st_trace s ++ [e] -> Q e = true -> trace_ext Q s s'.
Proof. intros T H. exists [e]. cbn. rewrite H. auto. Qed.

Lemma trace_ext_snoc Q s s1 s2 :
  trace_ext Q s s1 -> st_trace s2 = st_trace s1 -> trace_ext Q s s2.
Proof. intros (e & E & H) T. exists e. rewrite T. auto. Qed.

Lemma trace_ext_weaken (Q Q' : event -> bool) s s' :
  (forall e, Q e = true -> Q' e = true) -> trace_ext Q s s' -> trace_ext Q' s s'.
Proof.
  intros H (evs & E & F). exists evs. split; [exact E|].
  apply forallb_forall. intros x Hx. apply H.
  rewrite forallb_forall in F. apply F. exact Hx.
Qed.

Lemma trace_hash_pool_loop X fuel :
  forall ds i avail gen out s r out' s',
    lrng_hash_pool_loop X fuel ds i avail gen out s = Returns (r, out', s') ->
    trace_ext is_core_event s s'.
Proof.
  induction fuel as [|fuel IH]; intros ds i avail gen out s r out' s';
    rewrite lrng_hash_pool_loop_unfold;
    destruct ((i <? _) && (0 <? avail)); try discriminate;
    try (intros [= <- <- <-]; apply trace_ext_refl).
  cbv zeta. destruct (negb _).
  - intros [= <- <- <-]. apply trace_ext_emit; reflexivity.
  - intros E. apply IH in E.
    eapply trace_ext_trans; [|exact E]. apply trace_ext_emit; reflexivity.
Qed.

Lemma trace_get_pool X fuel requested drain s r out s' :
  lrng_get_pool X fuel requested drain s = Returns (r, out, s') ->
  trace_ext is_core_event s s'.
Proof.
  unfold lrng_get_pool. cbv zeta.
  set (s0 := with_pool (with_irq_info (set_num_events 0)) s).
  assert (H : forall b n,
    (' (b', o, s1) ← lrng_hash_pool X fuel b s0;
     Returns (lrng_get_pool_out X n b' o s1)) = Returns (r, out, s') ->
    trace_ext is_core_event s s').
  { intros b n. unfold lrng_hash_pool.
    destruct (64 <? _); [discriminate|].
    match goal with
    | |- context [lrng_hash_pool_loop X fuel ?ds ?i ?a ?g ?o ?st] =>
        destruct (lrng_hash_pool_loop X fuel ds i a g o st)
          as [[[g' o'] s1]| |] eqn:L
    end; cbn [mbind outcome_mbind outcome_bind]; try discriminate.
    intros [= <- <- <-]. apply trace_hash_pool_loop in L.
    eapply trace_ext_snoc; [exact L|reflexivity]. }
  destruct drain; [apply H|].
  destruct (_ <? _); [|apply H].
  intros [= <- <- <-]. apply trace_ext_same. reflexivity.
Qed.

Lemma trace_get_arch_loop X n :
  forall s, st_trace (snd (lrng_get_arch_loop X n s)) = st_trace s.
Proof.
  induction n as [|n IH]; intros s; cbn [lrng_get_arch_loop]; [reflexivity|].
  destruct (negb (x_ret X (st_tick s) =? 0)); [rewrite IH; reflexivity|].
  destruct (negb (x_ret X (st_tick (step_tick s)) =? 0));
    [rewrite IH; reflexivity | reflexivity].
Qed.

Lemma trace_get_arch X s : st_trace (snd (lrng_get_arch X s)) = st_trace s.
Proof.
  unfold lrng_get_arch. destruct (st_archrandom s =? 0); [reflexivity|].
  pose proof (trace_get_arch_loop X
    (Z.to_nat (LRNG_DRNG_SECURITY_STRENGTH_BYTES / 8)) s) as T.
  destruct (lrng_get_arch_loop X _ s) as [ok s1]. cbn [snd] in T.
  destruct ok; exact T.
Qed.

Lemma trace_get_jent X len s : st_trace (snd (lrng_get_jent X len s)) = st_trace s.
Proof.
  unfold lrng_get_jent. destruct (_ || _); [reflexivity|].
  destruct (st_jent_initialized s =? 0).
  - destruct (x_ret X (st_tick s) =? 0); cbn; [reflexivity|].
    destruct (negb _); reflexivity.
  - cbn. destruct (negb _); reflexivity.
Qed.

Lemma trace_init_ops entropy_bits s :
  trace_ext is_core_event s (lrng_pdrng_init_ops entropy_bits s).
Proof.
  pose proof (lrng_pdrng_init_ops_cases entropy_bits s) as C. cbv zeta in C.
  assert (K : forall l, forallb is_core_event (map Ev_ready_func l) = true).
  { induction l; [reflexivity | exact IHl]. }
  destruct C as [(_ & E) | [(_ & _ & _ & _ & _ & _ & T)
        | [(_ & _ & _ & _ & _ & _ & _ & T)
        | [(_ & _ & _ & _ & _ & _ & T) | (_ & _ & _ & E)]]]].
  - rewrite E. apply trace_ext_refl.
  - eexists. split; [exact T|]. cbn. rewrite forallb_app, K. reflexivity.
  - eexists. split; [exact T|]. cbn. rewrite forallb_app, K. reflexivity.
  - apply trace_ext_same. exact T.
  - rewrite E. apply trace_ext_refl.
Qed.

Lemma trace_pdrng_generate X outbuflen fe s :
  trace_ext is_core_event s (snd (lrng_pdrng_generate X outbuflen fe s)).
Proof.
  unfold lrng_pdrng_generate, call_generate.
  destruct (fe && _); [apply trace_ext_refl|].
  match goal with |- context [if ?b =? 0 then _ else _] => destruct (b =? 0) end;
    [apply trace_ext_refl|].
  cbn. destruct (negb _); cbn [snd].
  - apply trace_ext_emit; reflexivity.
  - eapply trace_ext_one; reflexivity.
Qed.

Lemma trace_wake_readers s : trace_ext is_core_event s (wake_readers_if_full s).
Proof.
  unfold wake_readers_if_full. destruct (_ && _);
    [apply trace_ext_emit; reflexivity | apply trace_ext_refl].
Qed.

Lemma trace_pdrng_inject X inbuflen entropy_bits outbuf outbuflen fe s :
  trace_ext is_core_event s
    (snd (lrng_pdrng_inject X inbuflen entropy_bits outbuf outbuflen fe s)).
Proof.
  unfold lrng_pdrng_inject, call_env.
  destruct (s32 (x_ret X (st_tick s)) <? 0); cbn [snd].
  - eapply trace_ext_trans; [|apply trace_wake_readers].
    apply trace_ext_emit; reflexivity.
  - match goal with
    | |- context [lrng_pdrng_init_ops ?b ?s1] =>
        pose proof (trace_init_ops b s1) as Ti;
        assert (T1 : trace_ext is_core_event s s1)
          by (eapply trace_ext_one; reflexivity);
        set (s2 := lrng_pdrng_init_ops b s1) in *
    end.
    pose proof (trace_ext_trans _ _ _ _ T1 Ti) as T2.
    destruct (outbuf && negb (outbuflen =? 0)).
    + pose proof (trace_pdrng_generate X outbuflen fe s2) as G.
      destruct (lrng_pdrng_generate X outbuflen fe s2) as [ret s3].
      cbn [snd] in *.
      eapply trace_ext_trans; [|apply trace_wake_readers].
      eapply trace_ext_trans; eassumption.
    + cbn [snd]. eapply trace_ext_trans; [exact T2|apply trace_wake_readers].
Qed.

Lemma trace_seed_locked X fuel outbuflen fe drain s r s' :
  lrng_pdrng_seed_locked X fuel outbuflen fe drain s = Returns (r, s') ->
  trace_ext is_core_event s s'.
Proof.
  unfold lrng_pdrng_seed_locked.
  assert (Tail : forall s1 s2 s3 s4 s5 s6,
    trace_ext is_core_event s s1 ->
    trace_ext is_core_event s1 s2 ->
    st_trace s3 = st_trace s2 ->
    st_trace s4 = st_trace s3 ->
    trace_ext is_core_event (step_tick s4) s5 ->
    s6 = (if lrng_need_entropy s5 then emit Ev_wake_writers s5 else s5) ->
    trace_ext is_core_event s
      (with_pool (with_irq_info (set_reseed_in_progress (atomic_set 0))) s6)).
  { intros s1 s2 s3 s4 s5 s6 T1 T2 T3 T4 T5 ->.
    eapply trace_ext_trans; [exact T1|].
    eapply trace_ext_trans; [exact T2|].
    eapply trace_ext_trans; [apply (trace_ext_same _ s2 (step_tick s4))|].
    { cbn. congruence. }
    eapply trace_ext_trans; [exact T5|].
    destruct (lrng_need_entropy s5).
    - eapply trace_ext_one; reflexivity.
    - apply trace_ext_same. reflexivity. }
  assert (Rest : forall retrieved len1 s1,
    trace_ext is_core_event s s1 ->
    (' (total_entropy_bits, _, s2) ←
        lrng_get_pool X fuel LRNG_DRNG_SECURITY_STRENGTH_BITS drain s1;
      let '(arch_bits, s3) := lrng_get_arch X s2 in
      let total_entropy_bits0 := u32 (total_entropy_bits + arch_bits) in
      let '(jent_bits, s4) :=
        lrng_get_jent X LRNG_DRNG_SECURITY_STRENGTH_BYTES s3 in
      let total_entropy_bits1 := u32 (total_entropy_bits0 + jent_bits) in
      let s5 := step_tick s4 in
      let '(ret, s6) :=
        lrng_pdrng_inject X (3 * LRNG_DRNG_SECURITY_STRENGTH_BYTES + 4)
          total_entropy_bits1 true len1 fe s5 in
      let retrieved0 := if 0 <? ret then s32 (retrieved + ret) else retrieved in
      let s7 := if lrng_need_entropy s6 then emit Ev_wake_writers s6 else s6 in
      Returns (if 0 <=? ret then retrieved0 else ret,
               with_pool (with_irq_info
                 (set_reseed_in_progress (atomic_set 0))) s7))
    = Returns (r, s') ->
    trace_ext is_core_event s s').
  { intros retrieved len1 s1 T1.
    destruct (lrng_get_pool X fuel LRNG_DRNG_SECURITY_STRENGTH_BITS drain s1)
      as [[[tb o] s2]| |] eqn:P; cbn [mbind outcome_mbind outcome_bind];
      try discriminate.
    apply trace_get_pool in P.
    pose proof (trace_get_arch X s2) as A.
    destruct (lrng_get_arch X s2) as [ab s3]. cbn [snd] in A.
    pose proof (trace_get_jent X LRNG_DRNG_SECURITY_STRENGTH_BYTES s3) as J.
    destruct (lrng_get_jent X LRNG_DRNG_SECURITY_STRENGTH_BYTES s3) as [jb s4].
    cbn [snd] in J. cbv zeta.
    match goal with
    | |- context [lrng_pdrng_inject X ?a ?b ?c ?d ?e ?st] =>
        pose proof (trace_pdrng_inject X a b c d e st) as I;
        destruct (lrng_pdrng_inject X a b c d e st) as [ret2 s5]
    end. cbn [snd] in I.
    intros [= _ <-]. eapply Tail; eauto. }
  pose proof (trace_pdrng_generate X outbuflen fe s) as G.
  destruct (negb (Z.shiftr (pdrng_entropy_bits (st_pdrng s)) 3 =? 0)).
  - destruct (lrng_pdrng_generate X outbuflen fe s) as [ret s1]. cbn [snd] in G.
    destruct (0 <? ret); [destruct (u32 ret =? outbuflen)|].
    + intros [= _ <-]. eapply trace_ext_snoc; [exact G|reflexivity].
    + apply Rest. exact G.
    + apply Rest. exact G.
  - apply Rest. apply trace_ext_refl.
Qed.

Lemma trace_pdrng_seed X fuel outbuflen fe drain s r s' :
  lrng_pdrng_seed X fuel outbuflen fe drain s = Returns (r, s') ->
  trace_ext is_core_event s s'.
Proof.
  unfold lrng_pdrng_seed. destruct (negb _).
  - intros [= _ <-]. apply trace_ext_refl.
  - intros E. apply trace_seed_locked in E.
    eapply trace_ext_trans; [|exact E]. apply trace_ext_same. reflexivity.
Qed.

Lemma trace_init_cc20 X s : st_trace (lrng_drngs_init_cc20 X s) = st_trace s.
Proof.
  unfold lrng_drngs_init_cc20. destruct (negb _); [reflexivity|].
  destruct (negb (x_ret X (st_tick s) =? 0)); [reflexivity|].
  cbn. destruct (negb _); reflexivity.
Qed.

Lemma trace_upd_sdrng r f s : st_trace (upd_sdrng r f s) = st_trace s.
Proof.
  unfold upd_sdrng. destruct r as [| |n]; try reflexivity.
  destruct (st_sdrng s) as [tab|]; [|reflexivity].
  destruct (tab !! n) as [[[|d]|]|]; reflexivity.
Qed.

Lemma trace_reseed_due X r s :
  st_trace (snd (lrng_sdrng_reseed_due X r s)) = st_trace s.
Proof. unfold lrng_sdrng_reseed_due. cbn [snd]. apply trace_upd_sdrng. Qed.

Lemma trace_sdrng_inject X r len internal s :
  st_trace (lrng_sdrng_inject X r len internal s)
  = st_trace s ++ [Ev_seeding r len;
                   Ev_drng_seed (sdrng_crypto_cb (get_sdrng r s))
                     (sdrng (get_sdrng r s)) len].
Proof.
  unfold lrng_sdrng_inject, call_env.
  assert (G : get_sdrng r (emit (Ev_seeding r len) s) = get_sdrng r s).
  { destruct r; reflexivity. }
  rewrite G.
  destruct (s32 _ <? 0); [|destruct internal];
    rewrite ?trace_upd_sdrng; cbn; rewrite <- app_assoc; reflexivity.
Qed.

(** ** Seeding of the secondary and the atomic DRNG *)

Lemma atomic_seeding_ok_true l : atomic_seeding_ok true l = true.
Proof.
  induction l as [|e l IH]; [reflexivity|].
  destruct e; cbn; try exact IH. destruct r; cbn; exact IH.
Qed.

Lemma atomic_seeding_ok_mono b l :
  atomic_seeding_ok false l = true -> atomic_seeding_ok b l = true.
Proof. destruct b; [intros _; apply atomic_seeding_ok_true | auto]. Qed.

Lemma atomic_seeding_ok_core b l1 l2 :
  forallb is_core_event l1 = true ->
  atomic_seeding_ok b (l1 ++ l2) = atomic_seeding_ok b l2.
Proof.
  induction l1 as [|e l1 IH]; [reflexivity|]. cbn [forallb app].
  intros H. apply andb_true_iff in H as [He Hl].
  destruct e; cbn in He |- *; try discriminate; apply IH; exact Hl.
Qed.

Lemma atomic_seeding_ok_app b l1 l2 :
  atomic_seeding_ok b l1 = true -> atomic_seeding_ok false l2 = true ->
  atomic_seeding_ok b (l1 ++ l2) = true.
Proof.
  revert b. induction l1 as [|e l1 IH]; intros b H1 H2.
  - apply atomic_seeding_ok_mono. exact H2.
  - destruct e; cbn in H1 |- *; try (apply IH; assumption).
    destruct r; cbn in H1 |- *; try (apply IH; assumption).
    apply andb_true_iff in H1 as [-> H1]. cbn. apply IH; assumption.
Qed.

Lemma atomic_seeding_ok_generate l :
  forallb is_generate_event l = true -> atomic_seeding_ok false l = true.
Proof.
  induction l as [|e l IH]; [reflexivity|]. cbn [forallb].
  intros H. apply andb_true_iff in H as [He Hl].
  destruct e; cbn in He |- *; try discriminate. apply IH. exact Hl.
Qed.

Lemma lrng_sdrng_seed_unfold X fuel ctx r seed_func s :
  lrng_sdrng_seed X (Datatypes.S fuel) ctx r seed_func s =
  (let s := emit (Ev_sdrng_seed r) s in
   ' (ret, s) ← seed_func LRNG_DRNG_SECURITY_STRENGTH_BYTES false
                  (negb (fully_seeded (get_sdrng r s))) s;
   if ret <? 0 then
     if negb (ret =? - EINPROGRESS)
     then Returns (upd_sdrng r (set_requests (atomic_set 1)) s)
     else Returns s
   else
     let s := lrng_sdrng_inject X r ret true s in
     let s := upd_sdrng r (set_force_reseed false) s in
     let s :=
       if LRNG_DRNG_SECURITY_STRENGTH_BYTES <=? ret
       then upd_sdrng r (set_fully_seeded true) s else s in
     if lrng_atomic_reseed_due X r s then
       ' (ret, s) ← lrng_sdrng_get X fuel ctx
                      LRNG_DRNG_SECURITY_STRENGTH_BYTES s;
       if ret <? 0 then Returns s
       else
         let s := lrng_sdrng_inject X Ref_atomic ret true s in
         Returns (with_sdrng_atomic (set_force_reseed false) s)
     else Returns s).
Proof. reflexivity. Qed.

Lemma lrng_sdrng_get_loop_unfold X fuel ctx r outbuflen processed s :
  lrng_sdrng_get_loop X fuel ctx r outbuflen processed s =
  if outbuflen =? 0 then Returns (s32 processed, s)
  else
    match fuel with
    | O => OutOfFuel
    | Datatypes.S fuel' =>
        let todo := min_u32 outbuflen LRNG_DRNG_MAX_REQSIZE in
        let '(due, s) := lrng_sdrng_reseed_due X r s in
        s ← (if due && negb (sdrng_ref_eqb r Ref_atomic)
             then lrng_sdrng_seed X fuel' ctx r (lrng_pdrng_seed X fuel') s
             else Returns s);
        let d := get_sdrng r s in
        let '(ret, s) :=
          call_generate X (sdrng_crypto_cb d) (sdrng d) todo s in
        if ret <=? 0 then Returns (- EFAULT, s)
        else
          lrng_sdrng_get_loop X fuel' ctx r (u32 (outbuflen - ret))
            (u32 (processed + ret)) s
    end.
Proof. destruct fuel; reflexivity. Qed.

Lemma lrng_sdrng_get_unfold X fuel ctx outbuflen s :
  lrng_sdrng_get X (Datatypes.S fuel) ctx outbuflen s =
  if outbuflen =? 0 then Returns (0, s)
  else
    match lrng_sdrng_select ctx (lrng_drngs_init_cc20 X s) with
    | None => Panics
    | Some r =>
        lrng_sdrng_get_loop X fuel ctx r (Z.min outbuflen INT_MAX) 0
          (lrng_drngs_init_cc20 X s)
    end.
Proof. reflexivity. Qed.

(** The traces of [lrng_sdrng_seed], of the generate loop and of
    [lrng_sdrng_get]: a seeding run starts with its own entry, and the
    atomic DRNG is seeded only after a secondary DRNG has been. *)
Lemma sdrng_traces X fuel :
  (forall ctx r f s s',
     r <> Ref_atomic ->
     (forall a b c s0 r0 s1,
        f a b c s0 = Returns (r0, s1) -> trace_ext is_core_event s0 s1) ->
     lrng_sdrng_seed X fuel ctx r f s = Returns s' ->
     exists evs,
       st_trace s' = st_trace s ++ Ev_sdrng_seed r :: evs /\
       atomic_seeding_ok false evs = true) /\
  (forall ctx r len processed s ret s',
     lrng_sdrng_get_loop X fuel ctx r len processed s = Returns (ret, s') ->
     exists evs,
       st_trace s' = st_trace s ++ evs /\ atomic_seeding_ok false evs = true) /\
  (forall ctx len s ret s',
     lrng_sdrng_get X fuel ctx len s = Returns (ret, s') ->
     exists evs,
       st_trace s' = st_trace s ++ evs /\ atomic_seeding_ok false evs = true).
Proof.
  induction fuel as [|fuel (IHseed & IHloop & IHget)].
  { split; [|split].
    - intros; discriminate.
    - intros ctx r len processed s ret s'. rewrite lrng_sdrng_get_loop_unfold.
      destruct (len =? 0); [|discriminate].
      intros [= _ <-]. exists []. rewrite app_nil_r. auto.
    - intros; discriminate. }
  split; [|split].
  - intros ctx r f s s' Hr Hgood. rewrite lrng_sdrng_seed_unfold. cbv zeta.
    set (s0 := emit (Ev_sdrng_seed r) s).
    destruct (f LRNG_DRNG_SECURITY_STRENGTH_BYTES false
                (negb (fully_seeded (get_sdrng r s0))) s0)
      as [[ret s1]| |] eqn:F; cbn [mbind outcome_mbind outcome_bind];
      try discriminate.
    apply Hgood in F. destruct F as (e1 & E1 & Q1).
    assert (T1 : st_trace s1 = st_trace s ++ Ev_sdrng_seed r :: e1).
    { rewrite E1. subst s0. cbn. rewrite <- app_assoc. reflexivity. }
    assert (A1 : forall l, atomic_seeding_ok false
                   (e1 ++ Ev_seeding r ret :: l) = true).
    { intros l. rewrite atomic_seeding_ok_core by exact Q1.
      destruct r; cbn; try apply atomic_seeding_ok_true. contradiction. }
    destruct (ret <? 0).
    { assert (A0 : atomic_seeding_ok false e1 = true).
      { rewrite <- (app_nil_r e1), atomic_seeding_ok_core by exact Q1.
        reflexivity. }
      destruct (negb _); intros [= <-]; exists e1;
        rewrite ?trace_upd_sdrng; auto. }
    set (s2 := lrng_sdrng_inject X r ret true s1).
    set (s3 := upd_sdrng r (set_force_reseed false) s2).
    set (s4 := if LRNG_DRNG_SECURITY_STRENGTH_BYTES <=? ret
               then upd_sdrng r (set_fully_seeded true) s3 else s3).
    assert (T4 : st_trace s4 = st_trace s ++ Ev_sdrng_seed r :: e1 ++
                   [Ev_seeding r ret;
                    Ev_drng_seed (sdrng_crypto_cb (get_sdrng r s1))
                      (sdrng (get_sdrng r s1)) ret]).
    { assert (T3 : st_trace s4 = st_trace s2).
      { subst s4 s3. destruct (_ <=? _); rewrite ?trace_upd_sdrng; reflexivity. }
      rewrite T3. subst s2. rewrite trace_sdrng_inject, T1, <- app_assoc.
      reflexivity. }
    destruct (lrng_atomic_reseed_due X r s4).
    + destruct (lrng_sdrng_get X fuel ctx LRNG_DRNG_SECURITY_STRENGTH_BYTES s4)
        as [[ret2 s5]| |] eqn:G; cbn [mbind outcome_mbind outcome_bind];
        try discriminate.
      apply IHget in G. destruct G as (e2 & E2 & _).
      destruct (ret2 <? 0); intros [= <-].
      * eexists. split.
        -- rewrite E2, T4, <- app_assoc. cbn [app]. rewrite <- app_assoc.
           reflexivity.
        -- apply A1.
      * eexists. split.
        -- cbn [st_trace with_sdrng_atomic]. rewrite trace_sdrng_inject, E2, T4.
           rewrite <- !app_assoc. cbn [app]. rewrite <- !app_assoc.
           reflexivity.
        -- apply A1.
    + intros [= <-]. eexists. split; [exact T4|]. apply A1.
  - intros ctx r len processed s ret s'. rewrite lrng_sdrng_get_loop_unfold.
    destruct (len =? 0).
    { intros [= _ <-]. exists []. rewrite app_nil_r. auto. }
    cbv zeta.
    pose proof (trace_reseed_due X r s) as Td.
    destruct (lrng_sdrng_reseed_due X r s) as [due s1]. cbn [snd] in Td.
    assert (Hseed : forall s2,
      (if due && negb (sdrng_ref_eqb r Ref_atomic)
       then lrng_sdrng_seed X fuel ctx r (lrng_pdrng_seed X fuel) s1
       else Returns s1) = Returns s2 ->
      exists evs, st_trace s2 = st_trace s ++ evs /\
                  atomic_seeding_ok false evs = true).
    { intros s2. destruct (due && negb (sdrng_ref_eqb r Ref_atomic)) eqn:C.
      - intros E. apply IHseed in E.
        + destruct E as (evs & E & A). exists (Ev_sdrng_seed r :: evs).
          rewrite E, Td. auto.
        + apply andb_true_iff in C as [_ C]. intros ->. discriminate C.
        + intros a b c s0 r0 s3. apply trace_pdrng_seed.
      - intros [= <-]. exists []. rewrite app_nil_r. auto. }
    destruct (if due && negb (sdrng_ref_eqb r Ref_atomic)
              then lrng_sdrng_seed X fuel ctx r (lrng_pdrng_seed X fuel) s1
              else Returns s1) as [s2| |] eqn:S;
      cbn [mbind outcome_mbind outcome_bind]; try discriminate.
    destruct (Hseed s2 eq_refl) as (e1 & E1 & A1).
    unfold call_generate.
    set (g := Ev_drng_generate _ _ _).
    destruct (s32 _ <=? 0).
    + intros [= _ <-]. exists (e1 ++ [g]). split.
      * cbn. rewrite E1, <- app_assoc. reflexivity.
      * apply atomic_seeding_ok_app; [exact A1|reflexivity].
    + intros E. apply IHloop in E. destruct E as (e2 & E2 & A2).
      exists (e1 ++ g :: e2). split.
      * rewrite E2. cbn. rewrite E1, <- !app_assoc. reflexivity.
      * apply atomic_seeding_ok_app; [exact A1|exact A2].
  - intros ctx len s ret s'. rewrite lrng_sdrng_get_unfold.
    destruct (len =? 0).
    { intros [= _ <-]. exists []. rewrite app_nil_r. auto. }
    destruct (lrng_sdrng_select ctx (lrng_drngs_init_cc20 X s)) as [r|];
      [|discriminate].
    intros E. apply IHloop in E. destruct E as (evs & E & A).
    exists evs. rewrite E, trace_init_cc20. auto.
Qed.

(** The generate loop on the atomic DRNG: nothing but generate calls, and
    only the request counter of the atomic DRNG changes. *)
Lemma atomic_loop_trace X fuel :
  forall ctx len processed s ret s',
    lrng_sdrng_get_loop X fuel ctx Ref_atomic len processed s
      = Returns (ret, s') ->
    trace_ext is_generate_event s s' /\
    st_pdrng s' = st_pdrng s /\ st_pool s' = st_pool s /\
    st_sdrng_init s' = st_sdrng_init s /\ st_sdrng s' = st_sdrng s /\
    last_seeded (st_sdrng_atomic s') = last_seeded (st_sdrng_atomic s) /\
    force_reseed (st_sdrng_atomic s') = force_reseed (st_sdrng_atomic s) /\
    fully_seeded (st_sdrng_atomic s') = fully_seeded (st_sdrng_atomic s).
Proof.
  induction fuel as [|fuel IH]; intros ctx len processed s ret s';
    rewrite lrng_sdrng_get_loop_unfold; destruct (len =? 0);
    try discriminate;
    try (intros [= _ <-]; split; [apply trace_ext_refl|]; repeat split).
  cbv zeta. unfold lrng_sdrng_reseed_due.
  cbn [sdrng_ref_eqb negb andb upd_sdrng get_sdrng].
  rewrite andb_false_r. cbn [mbind outcome_mbind outcome_bind].
  unfold call_generate.
  set (g := Ev_drng_generate _ _ _).
  destruct (s32 _ <=? 0).
  - intros [= _ <-]. split; [eapply trace_ext_one; reflexivity|].
    repeat split.
  - intros E. apply IH in E.
    destruct E as (T & E1 & E2 & E3 & E4 & E5 & E6 & E7).
    split.
    { eapply trace_ext_trans; [|exact T]. eapply trace_ext_one; reflexivity. }
    rewrite E1, E2, E3, E4, E5, E6, E7. repeat split.
Qed.

(** With a DRNG that delivers at most what it is asked for, the loop on the
    atomic DRNG ends after at most [len] rounds. *)
Lemma atomic_loop_returns X fuel :
  (forall n l, 0 <= l -> s32 (x_gen X n l) <= l) ->
  forall ctx len processed s,
    0 <= len < 2 ^ 32 -> (Z.to_nat len <= fuel)%nat ->
    returned (lrng_sdrng_get_loop X fuel ctx Ref_atomic len processed s) = true.
Proof.
  intros Hgen. induction fuel as [|fuel IH]; intros ctx len processed s Hl Hf;
    rewrite lrng_sdrng_get_loop_unfold;
    destruct (Z.eqb_spec len 0) as [|Hn]; try reflexivity; [lia|].
  cbv zeta. unfold lrng_sdrng_reseed_due.
  cbn [sdrng_ref_eqb negb andb upd_sdrng get_sdrng].
  rewrite andb_false_r. cbn [mbind outcome_mbind outcome_bind].
  unfold call_generate.
  assert (Hm : 0 <= min_u32 len LRNG_DRNG_MAX_REQSIZE <= len).
  { unfold min_u32. rewrite (u32_small len) by lia.
    pose proof (u32_range LRNG_DRNG_MAX_REQSIZE). lia. }
  match goal with
  | |- context [s32 (x_gen X ?n ?l) <=? 0] =>
      pose proof (Hgen n l (proj1 Hm)) as Hg;
      set (ret := s32 (x_gen X n l)) in *
  end.
  destruct (Z.leb_spec ret 0) as [|Hpos]; [reflexivity|].
  apply IH.
  - rewrite u32_small by lia. lia.
  - rewrite u32_small by lia. lia.
Qed.

(** C10: a request served in atomic context runs the generate loop on the
    atomic DRNG, and whatever its request counter, force-reseed flag and
    last seeding time are, the loop makes generate calls only: it never
    enters [lrng_sdrng_seed], seeds no DRNG, and leaves the primary DRNG,
    the pool and the seeding data of the atomic DRNG alone; it returns when
    the DRNG delivers at most what it is asked for.  In every request, of
    any context, and in every run of [lrng_sdrng_seed] on a secondary DRNG,
    whichever function it pulls the seed with, a seeding of the atomic DRNG
    comes after the seeding of a secondary DRNG. *)
Theorem atomic_drng_not_seeded_during_generation
    (X : extern) (fuel : nat) (ctx : call_ctx) (len : Z) (s : lrng_state) :
  ctx_atomic ctx = true ->
  let s0 := if len =? 0 then s else lrng_drngs_init_cc20 X s in
  (forall ret s',
     lrng_sdrng_get X fuel ctx len s = Returns (ret, s') ->
     exists evs,
       st_trace s' = st_trace s ++ evs /\
       forallb is_generate_event evs = true /\
       (forall r, ~ In (Ev_sdrng_seed r) evs) /\
       (forall r n, ~ In (Ev_seeding r n) evs) /\
       (forall cb h n, ~ In (Ev_drng_seed cb h n) evs) /\
       st_pdrng s' = st_pdrng s0 /\
       st_pool s' = st_pool s0 /\
       last_seeded (st_sdrng_atomic s') = last_seeded (st_sdrng_atomic s0) /\
       force_reseed (st_sdrng_atomic s') = force_reseed (st_sdrng_atomic s0)) /\
  ((forall n l, 0 <= l -> s32 (x_gen X n l) <= l) ->
   0 <= len ->
   (Z.to_nat (Z.min len INT_MAX) + 1 <= fuel)%nat ->
   returned (lrng_sdrng_get X fuel ctx len s) = true) /\
  (forall fuel0 ctx0 len0 s1 ret s',
     lrng_sdrng_get X fuel0 ctx0 len0 s1 = Returns (ret, s') ->
     exists evs,
       st_trace s' = st_trace s1 ++ evs /\ atomic_seeding_ok false evs = true) /\
  (forall fuel0 ctx0 r seed_func s1 s',
     r <> Ref_atomic ->
     (forall a b c s2 r0 s3,
        seed_func a b c s2 = Returns (r0, s3) ->
        trace_ext is_core_event s2 s3) ->
     lrng_sdrng_seed X fuel0 ctx0 r seed_func s1 = Returns s' ->
     exists evs,
       st_trace s' = st_trace s1 ++ Ev_sdrng_seed r :: evs /\
       atomic_seeding_ok false evs = true).
Proof.
  intros Hctx s0.
  assert (Sel : forall s1, lrng_sdrng_select ctx s1 = Some Ref_atomic).
  { intros s1. unfold lrng_sdrng_select. rewrite Hctx. reflexivity. }
  split; [|split; [|split]].
  - intros ret s'. destruct fuel as [|fuel]; [discriminate|].
    rewrite lrng_sdrng_get_unfold. subst s0. destruct (len =? 0).
    + intros [= _ <-]. exists []. rewrite app_nil_r.
      repeat split; try reflexivity; intros; cbn; tauto.
    + rewrite Sel. intros E. apply atomic_loop_trace in E.
      destruct E as ((evs & T & Q) & E1 & E2 & _ & _ & E5 & E6 & _).
      exists evs. rewrite trace_init_cc20 in T.
      assert (NG : forall e, is_generate_event e = false -> ~ In e evs).
      { intros e He Hin. rewrite forallb_forall in Q.
        apply Q in Hin. congruence. }
      repeat split; try assumption; intros; apply NG; reflexivity.
  - intros Hgen Hlen Hf. destruct fuel as [|fuel]; [lia|].
    rewrite lrng_sdrng_get_unfold. destruct (len =? 0); [reflexivity|].
    rewrite Sel. apply atomic_loop_returns; [exact Hgen| |lia].
    unfold INT_MAX. lia.
  - intros fuel0 ctx0 len0 s1 ret s'.
    apply (proj2 (proj2 (sdrng_traces X fuel0))).
  - intros fuel0 ctx0 r seed_func s1 s'.
    apply (proj1 (sdrng_traces X fuel0)).
Qed.

Lemma atomic_drng_not_seeded_during_generation_witness :
  force_reseed (st_sdrng_atomic lrng_online_state) = true /\
  returned (lrng_sdrng_get (const_extern 0 [] 64) 17 irq_context 16
              lrng_online_state) = true /\
  request_summary
    (lrng_sdrng_get (const_extern 0 [] 64) 17 irq_context 16
       lrng_online_state)
  = Some (16, [Ev_drng_generate 0 2 16]).
Proof.
  split; [reflexivity|].
  destruct (atomic_drng_not_seeded_during_generation (const_extern 0 [] 64) 17
              irq_context 16 lrng_online_state eq_refl) as (_ & R & _).
  assert (Rt : returned (lrng_sdrng_get (const_extern 0 [] 64) 17 irq_context
                           16 lrng_online_state) = true).
  { apply R.
    - intros n l Hl. unfold const_extern, x_gen.
      pose proof (s32_range l) as Hr.
      destruct (Z_lt_le_dec l (2 ^ 31)); [rewrite s32_small; lia | lia].
    - lia.
    - by_evaluation. }
  split; [exact Rt|]. vm_compute. reflexivity.
Defined.

(** ** The reseed trigger of a secondary DRNG *)

Lemma get_upd_sdrng r f s :
  valid_ref r s = true -> get_sdrng r (upd_sdrng r f s) = f (get_sdrng r s).
Proof.
  destruct r as [| |n]; try reflexivity. cbn.
  destruct (st_sdrng s) as [tab|] eqn:T; [|discriminate].
  destruct (tab !! n) as [[[|d]|]|] eqn:L; try discriminate.
  intros _. cbn. rewrite list_lookup_insert_eq; [reflexivity|].
  apply lookup_lt_Some in L. exact L.
Qed.

Lemma upd_sdrng_clock X r f s :
  st_jiffies (upd_sdrng r f s) = st_jiffies s /\
  reseed_interval X (upd_sdrng r f s) = reseed_interval X s.
Proof.
  unfold reseed_interval, upd_sdrng. destruct r as [| |n]; try (split; reflexivity).
  destruct (st_sdrng s) as [tab|]; [|split; reflexivity].
  destruct (tab !! n) as [[[|d]|]|]; split; reflexivity.
Qed.

(** The reseed condition of the generate loop in arithmetic terms. *)
Lemma lrng_sdrng_reseed_due_iff X r s :
  valid_ref r s = true ->
  fst (lrng_sdrng_reseed_due X r s) = true <->
  (s32 (requests (get_sdrng r s) - 1) = 0 \/
   force_reseed (get_sdrng r s) = true \/
   s64 (last_seeded (get_sdrng r s) + reseed_interval X s - st_jiffies s) < 0).
Proof.
  intros V. unfold lrng_sdrng_reseed_due. cbn [fst].
  rewrite (get_upd_sdrng _ _ _ V).
  destruct (upd_sdrng_clock X r
    (fun d => set_requests (atomic_add (-1) (requests d)) d) s) as (J & I).
  rewrite J, I. cbn [requests force_reseed last_seeded set_requests].
  unfold time_after, atomic_read, atomic_add.
  rewrite !orb_true_iff, Z.eqb_eq, Z.ltb_lt.
  replace (requests (get_sdrng r s) + -1) with (requests (get_sdrng r s) - 1)
    by lia.
  tauto.
Qed.

(** C6: the reseed that is due when exactly the maximum interval has
    elapsed is missed.  The boot-time secondary DRNG with 5 requests left
    and no forced reseed, last seeded at tick 0, is asked for 16 bytes at
    tick 150000, when exactly the maximum interval of 600 s at 250 ticks per
    second has elapsed: the request is served by one generate call and no
    reseed is attempted.  One tick later the reseed is attempted.  With the
    interval set to 0, for which the comment on
    [lrng_sdrng_reseed_max_time] promises a reseeding attempt before every
    generated random number, a request in the tick of the last seeding is
    served without one as well. *)
Lemma reseed_missed_at_interval :
  st_jiffies (lrng_idle_state 5 0 150000)
    - last_seeded (st_sdrng_init (lrng_idle_state 5 0 150000))
  = st_reseed_max_time (lrng_idle_state 5 0 150000)
      * x_HZ (const_extern 0 [] 64) /\
  request_summary
    (lrng_sdrng_get (const_extern 0 [] 64) 40 process_context 16
       (lrng_idle_state 5 0 150000))
  = Some (16, [Ev_drng_generate 0 2 16]) /\
  fst (lrng_sdrng_reseed_due (const_extern 0 [] 64) Ref_init
         (lrng_idle_state 5 0 150000)) = false /\
  fst (lrng_sdrng_reseed_due (const_extern 0 [] 64) Ref_init
         (lrng_idle_state 5 0 150001)) = true /\
  st_reseed_max_time (with_reseed_max_time 0 (lrng_idle_state 5 7 7)) = 0 /\
  st_jiffies (with_reseed_max_time 0 (lrng_idle_state 5 7 7))
    - last_seeded (st_sdrng_init
        (with_reseed_max_time 0 (lrng_idle_state 5 7 7))) = 0 /\
  fst (lrng_sdrng_reseed_due (const_extern 0 [] 64) Ref_init
         (with_reseed_max_time 0 (lrng_idle_state 5 7 7))) = false /\
  request_summary
    (lrng_sdrng_get (const_extern 0 [] 64) 40 process_context 16
       (with_reseed_max_time 0 (lrng_idle_state 5 7 7)))
  = Some (16, [Ev_drng_generate 0 2 16]).
Proof. vm_compute. repeat split; reflexivity. Qed.

(** The reseed condition of the generate loop as the code has it: a
    secondary DRNG (any instance but the atomic one) enters
    [lrng_sdrng_seed] exactly when the decrement of its request counter
    brings it to zero, or its force-reseed flag is set, or more than the
    maximum reseed interval has passed since it was last seeded
    ([time_after], a strict comparison); in every other case the round
    starts with the generate call. *)
Lemma sdrng_reseed_trigger
    (X : extern) (fuel : nat) (ctx : call_ctx) (r : sdrng_ref)
    (len processed : Z) (s : lrng_state) :
  r <> Ref_atomic -> valid_ref r s = true -> len <> 0 ->
  let d := get_sdrng r s in
  let due :=
    s32 (requests d - 1) = 0 \/ force_reseed d = true \/
    s64 (last_seeded d + reseed_interval X s - st_jiffies s) < 0 in
  (fst (lrng_sdrng_reseed_due X r s) = true <-> due) /\
  (forall ret s',
     lrng_sdrng_get_loop X fuel ctx r len processed s = Returns (ret, s') ->
     exists e evs,
       st_trace s' = st_trace s ++ e :: evs /\
       (due -> e = Ev_sdrng_seed r) /\
       (~ due -> is_generate_event e = true)).
Proof.
  intros Hr V Hlen d due.
  pose proof (lrng_sdrng_reseed_due_iff X r s V) as Iff. fold d in Iff.
  split; [exact Iff|].
  intros ret s'. rewrite lrng_sdrng_get_loop_unfold.
  destruct (Z.eqb_spec len 0) as [|_]; [contradiction|].
  destruct fuel as [|fuel]; [discriminate|]. cbv zeta.
  pose proof (trace_reseed_due X r s) as Td.
  destruct (lrng_sdrng_reseed_due X r s) as [b s1]. cbn [fst snd] in Iff, Td.
  assert (Hne : negb (sdrng_ref_eqb r Ref_atomic) = true).
  { destruct r; try reflexivity. contradiction. }
  rewrite Hne, andb_true_r.
  assert (Rest : forall s2 pre,
    st_trace s2 = st_trace s ++ pre ->
    (let d0 := get_sdrng r s2 in
     let '(ret0, s3) :=
       call_generate X (sdrng_crypto_cb d0) (sdrng d0)
         (min_u32 len LRNG_DRNG_MAX_REQSIZE) s2 in
     if ret0 <=? 0 then Returns (- EFAULT, s3)
     else lrng_sdrng_get_loop X fuel ctx r (u32 (len - ret0))
            (u32 (processed + ret0)) s3) = Returns (ret, s') ->
    exists g evs, is_generate_event g = true /\
                  st_trace s' = st_trace s ++ pre ++ g :: evs).
  { intros s2 pre T2. cbv zeta. unfold call_generate.
    set (g := Ev_drng_generate _ _ _).
    destruct (s32 _ <=? 0).
    - intros [= _ <-]. exists g, []. split; [reflexivity|].
      cbn. rewrite T2, <- app_assoc. reflexivity.
    - intros E. apply (proj1 (proj2 (sdrng_traces X fuel))) in E.
      destruct E as (e2 & E2 & _). exists g, e2. split; [reflexivity|].
      rewrite E2. cbn. rewrite T2, <- !app_assoc. reflexivity. }
  destruct b.
  - destruct (lrng_sdrng_seed X fuel ctx r (lrng_pdrng_seed X fuel) s1)
      as [s2| |] eqn:S; cbn [mbind outcome_mbind outcome_bind];
      try discriminate.
    apply (proj1 (sdrng_traces X fuel)) in S;
      [|exact Hr|intros a b c s0 r0 s3; apply trace_pdrng_seed].
    destruct S as (e1 & E1 & _). rewrite Td in E1.
    intros E. apply (Rest s2 (Ev_sdrng_seed r :: e1) E1) in E.
    destruct E as (g & evs & _ & T).
    exists (Ev_sdrng_seed r), (e1 ++ g :: evs). split; [exact T|].
    split; [reflexivity|]. intros N. exfalso. apply N, Iff. reflexivity.
  - cbn [mbind outcome_mbind outcome_bind].
    intros E. apply (Rest s1 []) in E; [|rewrite app_nil_r; exact Td].
    destruct E as (g & evs & G & T).
    exists g, evs. split; [exact T|]. split; [|auto].
    intros D. apply Iff in D. discriminate D.
Qed.

Lemma sdrng_reseed_trigger_witness :
  fst (lrng_sdrng_reseed_due (const_extern 0 [] 64) Ref_init
         (lrng_idle_state 1 0 10)) = true /\
  s32 (requests (get_sdrng Ref_init (lrng_idle_state 1 0 10)) - 1) = 0 /\
  request_summary
    (lrng_sdrng_get (const_extern 0 [] 64) 40 process_context 16
       (lrng_idle_state 1 0 10))
  = Some (16, [Ev_sdrng_seed Ref_init; Ev_drng_seed 0 1 100;
               Ev_drng_generate 0 1 16; Ev_wake_writers;
               Ev_seeding Ref_init 16; Ev_drng_seed 0 2 16;
               Ev_drng_generate 0 2 16]).
Proof.
  destruct (sdrng_reseed_trigger (const_extern 0 [] 64) 40 process_context
              Ref_init 16 0 (lrng_idle_state 1 0 10)) as (Iff & _).
  - discriminate.
  - reflexivity.
  - discriminate.
  - split; [apply Iff; left; reflexivity|]. split; reflexivity.
Defined.

(** * Further properties *)

(** ** Entropy accounting *)

(** X1: for both interrupt rates the code configures, converting an entropy
    amount of up to the pool size into an interrupt count and back gives the
    amount again; converting an interrupt count into entropy and back never
    gives more interrupts than there were. *)
Theorem entropy_data_round_trip (p : lrng_pool) (x : Z) :
  irq_entropy_bits (irq_info p) = LRNG_IRQ_ENTROPY_BITS \/
  irq_entropy_bits (irq_info p)
    = LRNG_IRQ_ENTROPY_BITS * LRNG_IRQ_OVERSAMPLING_FACTOR ->
  0 <= x <= LRNG_POOL_SIZE_BITS * 10 ->
  lrng_data_to_entropy p (lrng_entropy_to_data p x) = x /\
  lrng_entropy_to_data p (lrng_data_to_entropy p x) <= x /\
  0 <= lrng_data_to_entropy p x <= x.
Proof.
  unfold lrng_data_to_entropy, lrng_entropy_to_data, LRNG_IRQ_ENTROPY_BITS,
    LRNG_IRQ_OVERSAMPLING_FACTOR, LRNG_IRQ_ENTROPY_BYTES, LRNG_POOL_SIZE_BITS,
    LRNG_POOL_SIZE_BYTES, LRNG_POOL_SIZE, LRNG_POOL_WORD_BYTES,
    LRNG_DRNG_SECURITY_STRENGTH_BITS, LRNG_DRNG_SECURITY_STRENGTH_BYTES.
  change (32 * 8) with 256. change (256 * 10) with 2560.
  change (128 * 4 * 8 * 10) with 40960.
  intros [-> | ->] Hx.
  - rewrite !(u32_small (x * 256)) by lia. rewrite Z.div_mul by lia.
    rewrite (u32_small (x * 256)) by lia. rewrite Z.div_mul by lia. lia.
  - rewrite (u32_small (x * 2560)) by lia.
    replace (x * 2560) with (10 * x * 256) by lia. rewrite Z.div_mul by lia.
    rewrite (u32_small (10 * x * 256)) by lia.
    replace (10 * x * 256) with (x * 2560) by lia. rewrite Z.div_mul by lia.
    rewrite (u32_small (x * 256)) by lia.
    assert (H0 : 0 <= x * 256 / 2560) by (apply Z.div_pos; lia).
    assert (H1 : x * 256 / 2560 * 10 <= x).
    { pose proof (Z.mul_div_le (x * 256) 2560). lia. }
    rewrite (u32_small (x * 256 / 2560 * 2560)) by lia.
    split; [reflexivity|]. split; [|lia].
    apply Z.div_le_upper_bound; lia.
Qed.

Lemma entropy_data_round_trip_witness :
  lrng_data_to_entropy (st_pool lrng_online_state)
    (lrng_entropy_to_data (st_pool lrng_online_state) 128) = 128.
Proof.
  destruct (entropy_data_round_trip (st_pool lrng_online_state) 128)
    as (H & _); [left; reflexivity | by_evaluation | exact H].
Defined.

(** ** Mixing buffers into the pool *)

Lemma pool_length_lfsr_u32 value p :
  length (pool (lrng_pool_lfsr_u32 value p)) = length (pool p).
Proof. unfold lrng_pool_lfsr_u32. cbn [pool]. apply length_insert. Qed.

Lemma ptr_of_add_steps a k :
  ((a + 67 * k) mod 128 + 67) mod 128 = (a + 67 * (k + 1)) mod 128.
Proof. rewrite Zplus_mod_idemp_l. f_equal. lia. Qed.

Lemma lfsr_bytes_steps buf :
  forall p,
    ptr_of (lrng_pool_lfsr_bytes buf p)
      = (ptr_of p + 67 * Z.of_nat (length buf)) mod 128 /\
    length (pool (lrng_pool_lfsr_bytes buf p)) = length (pool p).
Proof.
  induction buf as [|b rest IH]; intros p; cbn [lrng_pool_lfsr_bytes length].
  - split; [|reflexivity]. rewrite Z.mul_0_r, Z.add_0_r.
    unfold ptr_of, LRNG_POOL_SIZE. change (128 - 1) with (2 ^ 7 - 1).
    rewrite land_mask by lia. change (2 ^ 7) with 128.
    rewrite Z.mod_mod by lia. reflexivity.
  - destruct (IH (lrng_pool_lfsr_u32 b p)) as (E & L).
    rewrite E, L, ptr_of_step, pool_length_lfsr_u32. split; [|reflexivity].
    rewrite Zplus_mod_idemp_l. f_equal. lia.
Qed.

Lemma lfsr_words_steps n :
  forall buf p, length buf = n ->
    ptr_of (lrng_pool_lfsr buf p)
      = (ptr_of p + 67 * (Z.of_nat n / 4 + Z.of_nat n mod 4)) mod 128 /\
    length (pool (lrng_pool_lfsr buf p)) = length (pool p).
Proof.
  induction n as [n IH] using lt_wf_ind; intros buf p Hn.
  destruct buf as [|b0 [|b1 [|b2 [|b3 rest]]]].
  1-4: subst n; cbn [lrng_pool_lfsr];
       match goal with |- context [lrng_pool_lfsr_bytes ?b ?q] =>
         destruct (lfsr_bytes_steps b q) as (E & L); rewrite E, L
       end; split; reflexivity.
  cbn [lrng_pool_lfsr].
  destruct (IH (length rest)) with (buf := rest)
    (p := lrng_pool_lfsr_u32 (le_word b0 b1 b2 b3) p) as (E & L);
    [subst n; cbn [length]; lia | reflexivity |].
  rewrite E, L, ptr_of_step, pool_length_lfsr_u32, Zplus_mod_idemp_l.
  split; [|reflexivity]. subst n. cbn [length].
  replace (Z.of_nat (Datatypes.S (Datatypes.S (Datatypes.S
             (Datatypes.S (length rest))))))
    with (Z.of_nat (length rest) + 1 * 4) by lia.
  rewrite Z.div_add, Z.mod_add by lia. f_equal. lia.
Qed.

(** X2: [lrng_pool_lfsr] mixes a buffer of [n] bytes in [n / 4 + n mod 4]
    steps (whole words first, then the remaining bytes), each of which moves
    the insertion pointer by 67 modulo 128; the pool keeps its size, and
    the interrupt bookkeeping, the event counter included, is untouched. *)
Theorem lrng_pool_lfsr_steps (buf : list Z) (p : lrng_pool) :
  ptr_of (lrng_pool_lfsr buf p)
    = (ptr_of p + 67 * (Z.of_nat (length buf) / 4
                        + Z.of_nat (length buf) mod 4)) mod 128 /\
  length (pool (lrng_pool_lfsr buf p)) = length (pool p) /\
  irq_info (lrng_pool_lfsr buf p) = irq_info p.
Proof.
  destruct (lfsr_words_steps (length buf) buf p eq_refl) as (E & L).
  split; [exact E | split; [exact L | apply irq_info_lfsr]].
Qed.

(** X3: when a buffer is mixed in byte by byte, any two bytes less than 128
    positions apart are written to different pool slots: the stride 67
    walks through all 128 slots before it comes back to one. *)
Theorem lfsr_stride_visits_all_slots (bufi bufj : list Z) (p : lrng_pool) :
  (length bufi < length bufj)%nat ->
  (length bufj < length bufi + 128)%nat ->
  ptr_of (lrng_pool_lfsr_bytes bufi p) <> ptr_of (lrng_pool_lfsr_bytes bufj p).
Proof.
  intros Hlt Hclose.
  rewrite (proj1 (lfsr_bytes_steps bufi p)), (proj1 (lfsr_bytes_steps bufj p)).
  set (i := Z.of_nat (length bufi)). set (j := Z.of_nat (length bufj)).
  assert (Hij : 0 < j - i < 128) by (unfold i, j; lia).
  intros E.
  assert (D : (128 | 67 * (j - i))).
  { apply Z.mod_divide; [lia|].
    replace (67 * (j - i)) with ((ptr_of p + 67 * j) - (ptr_of p + 67 * i))
      by lia.
    rewrite Zminus_mod, E, Z.sub_diag. reflexivity. }
  apply Z.gauss in D; [|reflexivity].
  destruct D as [k Hk]. lia.
Qed.

Lemma lfsr_stride_visits_all_slots_witness :
  ptr_of (lrng_pool_lfsr_bytes [1] (uniform_pool 0))
  <> ptr_of (lrng_pool_lfsr_bytes [1; 2; 3] (uniform_pool 0)).
Proof.
  apply (lfsr_stride_visits_all_slots [1] [1; 2; 3] (uniform_pool 0));
    cbn; lia.
Defined.

(** ** Scheduling of the reseed work *)

Lemma scheduled_count_app a b :
  scheduled_count (a ++ b) = (scheduled_count a + scheduled_count b)%nat.
Proof. unfold scheduled_count. rewrite filter_app, length_app. reflexivity. Qed.

Lemma lrng_pool_mixin_gate n s :
  exists evs,
    st_trace (lrng_pool_mixin n s) = st_trace s ++ evs /\
    ((scheduled_count evs = 0%nat /\
      reseed_gate (lrng_pool_mixin n s) = reseed_gate s) \/
     (scheduled_count evs = 1%nat /\ reseed_gate s = 0 /\
      reseed_gate (lrng_pool_mixin n s) = 1)).
Proof.
  unfold lrng_pool_mixin.
  match goal with
  | |- context [if ?c then emit Ev_wake_readers s else s] =>
      set (s1 := if c then emit Ev_wake_readers s else s)
  end.
  assert (H1 : exists e1, st_trace s1 = st_trace s ++ e1 /\
                 scheduled_count e1 = 0%nat /\ st_pool s1 = st_pool s).
  { subst s1. destruct (_ && _).
    - exists [Ev_wake_readers]. repeat split.
    - exists []. rewrite app_nil_r. repeat split. }
  destruct H1 as (e1 & T1 & C1 & P1).
  assert (G1 : reseed_gate s1 = reseed_gate s) by (unfold reseed_gate; congruence).
  cbv zeta.
  destruct (all_online_numa_node_seeded (st_pool s1)); [eauto 6|].
  destruct (atomic_read (st_pdrng_avail s1) =? 0); [eauto 6|].
  destruct (_ <? _); [eauto 6|].
  destruct (Z.eqb_spec (atomic_read (reseed_in_progress (irq_info (st_pool s1)))) 0)
    as [Hz|Hnz]; cbn [negb]; [|eauto 6].
  exists (e1 ++ [Ev_schedule_seed_work]). split.
  - cbn. rewrite T1, <- app_assoc. reflexivity.
  - right. rewrite scheduled_count_app, C1. repeat split.
    rewrite <- G1. exact Hz.
Qed.

Lemma add_interrupt_randomness_gate fips e irq irq_flags s s' :
  add_interrupt_randomness fips e irq irq_flags s = Returns s' ->
  exists evs,
    st_trace s' = st_trace s ++ evs /\
    ((scheduled_count evs = 0%nat /\ reseed_gate s' = reseed_gate s) \/
     (scheduled_count evs = 1%nat /\ reseed_gate s = 0 /\ reseed_gate s' = 1)).
Proof.
  unfold add_interrupt_randomness. cbv zeta.
  destruct (ev_raw_store e).
  { intros [= <-]. exists []. rewrite app_nil_r.
    split; [reflexivity | left; split; reflexivity]. }
  set (s1 := with_pool (lrng_pool_lfsr_u32 (u32 (ev_now_time e))) s).
  set (s2 := if negb (irq_highres_timer (irq_info (st_pool s1)))
             then irq_lowres_mix e irq irq_flags s1 else s1).
  assert (I2 : irq_info (st_pool s2) = irq_info (st_pool s)).
  { subst s2. destruct (negb _); [rewrite irq_info_lowres|]; reflexivity. }
  assert (T2 : st_trace s2 = st_trace s).
  { subst s2. destruct (negb _); [|reflexivity].
    unfold irq_lowres_mix. destruct (ev_regs e); [|reflexivity].
    cbv zeta. destruct (_ || _); reflexivity. }
  destruct (lrng_irq_stuck_cases fips (irq_info (st_pool s2))
              (u32 (ev_now_time e)))
    as [(E & _) | [(i' & E & _ & _ & U) | (i' & E & _ & U)]];
    rewrite E; cbn [mbind outcome_mbind outcome_bind]; try discriminate.
  - cbn [Z.eqb]. intros [= <-]. exists []. rewrite app_nil_r. split.
    + exact T2.
    + left. split; [reflexivity|]. unfold reseed_gate. cbn.
      destruct U as (_ & _ & _ & _ & _ & R & _). rewrite R, I2. reflexivity.
  - cbn [Z.eqb]. intros [= <-].
    match goal with
    | |- context [lrng_pool_mixin ?n ?x] =>
        destruct (lrng_pool_mixin_gate n x) as (evs & T & G);
        set (s3 := x) in *
    end.
    assert (G3 : reseed_gate s3 = reseed_gate s).
    { unfold reseed_gate. subst s3. cbn.
      destruct U as (_ & _ & _ & _ & _ & R & _). rewrite R, I2. reflexivity. }
    exists evs. split.
    + rewrite T. subst s3. cbn. rewrite T2. reflexivity.
    + rewrite <- G3. exact G.
Qed.

(** X4: however many interrupts arrive, and whatever they carry, the reseed
    work is scheduled at most once as long as the work function has not run:
    the interrupt that schedules it finds [reseed_in_progress] at 0 and
    sets it, and an interrupt that finds it set schedules nothing and
    leaves it as it is. *)
Theorem irq_run_schedules_once
    (fips : bool) (evs : list (irq_event * Z * Z)) (s s' : lrng_state) :
  irq_run fips evs s = Returns s' ->
  exists tr,
    st_trace s' = st_trace s ++ tr /\
    (scheduled_count tr <= 1)%nat /\
    (reseed_gate s <> 0 ->
       scheduled_count tr = 0%nat /\ reseed_gate s' = reseed_gate s) /\
    (scheduled_count tr = 1%nat -> reseed_gate s = 0 /\ reseed_gate s' = 1).
Proof.
  revert s. induction evs as [|[[e irq] fl] rest IH]; intros s; cbn [irq_run].
  - intros [= <-]. exists []. rewrite app_nil_r. cbn.
    repeat split; try lia; discriminate.
  - destruct (add_interrupt_randomness fips e irq fl s) as [s1| |] eqn:A;
      cbn [mbind outcome_mbind outcome_bind]; try discriminate.
    intros R. apply add_interrupt_randomness_gate in A.
    destruct A as (e1 & T1 & G1). apply IH in R.
    destruct R as (e2 & T2 & L2 & N2 & O2).
    exists (e1 ++ e2). rewrite scheduled_count_app.
    split; [rewrite T2, T1, <- app_assoc; reflexivity|].
    destruct G1 as [(C1 & G1) | (C1 & Z1 & G1)].
    + rewrite C1, G1 in *. cbn [Nat.add].
      split; [exact L2|]. split; [exact N2 | exact O2].
    + assert (Hn : reseed_gate s1 <> 0) by lia.
      destruct (N2 Hn) as (C2 & G2). rewrite C1, C2, G2, G1, Z1.
      repeat split; try lia.
Qed.

Lemma irq_run_schedules_once_witness :
  exists tr,
    st_trace (state_after
      (irq_run false [(irq_at 5, 1, 0); (irq_at 17, 1, 0); (irq_at 40, 1, 0)]
         (lrng_state_with_events 31)))
    = st_trace (lrng_state_with_events 31) ++ tr /\
    (scheduled_count tr <= 1)%nat.
Proof.
  assert (H : irq_run false
                [(irq_at 5, 1, 0); (irq_at 17, 1, 0); (irq_at 40, 1, 0)]
                (lrng_state_with_events 31)
              = Returns (state_after
                  (irq_run false
                     [(irq_at 5, 1, 0); (irq_at 17, 1, 0); (irq_at 40, 1, 0)]
                     (lrng_state_with_events 31))))
    by (vm_compute; reflexivity).
  destruct (irq_run_schedules_once _ _ _ _ H) as (tr & T & L & _).
  exists tr. split; assumption.
Defined.

(** ** Seeding of the primary DRNG *)

(** The ways through [lrng_pdrng_seed_locked]: the request is served from
    the entropy the primary DRNG holds, or the noise sources are read and
    injected, after nothing or a part was served. *)
Lemma lrng_pdrng_seed_locked_cases X fuel len fe drain s ret s' :
  lrng_pdrng_seed_locked X fuel len fe drain s = Returns (ret, s') ->
  (exists s1,
     Z.shiftr (pdrng_entropy_bits (st_pdrng s)) 3 <> 0 /\
     lrng_pdrng_generate X len fe s = (ret, s1) /\
     0 < ret /\ u32 ret = len /\ s' = release_reseed_gate s1)
  \/
  (exists retrieved len1 s1 tb o s2 ab s3 jb s4 ret2 s5,
     ((s1 = s /\ retrieved = 0 /\ len1 = len /\
       Z.shiftr (pdrng_entropy_bits (st_pdrng s)) 3 = 0)
      \/ (exists r1, lrng_pdrng_generate X len fe s = (r1, s1) /\
            r1 <= 0 /\ retrieved = 0 /\ len1 = len)
      \/ (lrng_pdrng_generate X len fe s = (retrieved, s1) /\
          0 < retrieved /\ u32 retrieved <> len /\
          len1 = u32 (len - retrieved))) /\
     lrng_get_pool X fuel LRNG_DRNG_SECURITY_STRENGTH_BITS drain s1
       = Returns (tb, o, s2) /\
     lrng_get_arch X s2 = (ab, s3) /\
     lrng_get_jent X LRNG_DRNG_SECURITY_STRENGTH_BYTES s3 = (jb, s4) /\
     lrng_pdrng_inject X (3 * LRNG_DRNG_SECURITY_STRENGTH_BYTES + 4)
       (u32 (u32 (tb + ab) + jb)) true len1 fe (step_tick s4) = (ret2, s5) /\
     ret = (if 0 <=? ret2
            then (if 0 <? ret2 then s32 (retrieved + ret2) else retrieved)
            else ret2) /\
     s' = release_reseed_gate
            (if lrng_need_entropy s5 then emit Ev_wake_writers s5 else s5)).
Proof.
  unfold lrng_pdrng_seed_locked.
  assert (Rest : forall retrieved len1 s1,
    (s1 = s /\ retrieved = 0 /\ len1 = len /\
       Z.shiftr (pdrng_entropy_bits (st_pdrng s)) 3 = 0)
      \/ (exists r1, lrng_pdrng_generate X len fe s = (r1, s1) /\
            r1 <= 0 /\ retrieved = 0 /\ len1 = len)
      \/ (lrng_pdrng_generate X len fe s = (retrieved, s1) /\
          0 < retrieved /\ u32 retrieved <> len /\
          len1 = u32 (len - retrieved)) ->
    (' (total_entropy_bits, _, s2) ←
        lrng_get_pool X fuel LRNG_DRNG_SECURITY_STRENGTH_BITS drain s1;
      let '(arch_bits, s3) := lrng_get_arch X s2 in
      let total_entropy_bits0 := u32 (total_entropy_bits + arch_bits) in
      let '(jent_bits, s4) :=
        lrng_get_jent X LRNG_DRNG_SECURITY_STRENGTH_BYTES s3 in
      let total_entropy_bits1 := u32 (total_entropy_bits0 + jent_bits) in
      let s5 := step_tick s4 in
      let '(ret, s6) :=
        lrng_pdrng_inject X (3 * LRNG_DRNG_SECURITY_STRENGTH_BYTES + 4)
          total_entropy_bits1 true len1 fe s5 in
      let retrieved0 := if 0 <? ret then s32 (retrieved + ret) else retrieved in
      let s7 := if lrng_need_entropy s6 then emit Ev_wake_writers s6 else s6 in
      Returns (if 0 <=? ret then retrieved0 else ret,
               with_pool (with_irq_info
                 (set_reseed_in_progress (atomic_set 0))) s7))
    = Returns (ret, s') ->
    exists retrieved len1 s1 tb o s2 ab s3 jb s4 ret2 s5,
     ((s1 = s /\ retrieved = 0 /\ len1 = len /\
       Z.shiftr (pdrng_entropy_bits (st_pdrng s)) 3 = 0)
      \/ (exists r1, lrng_pdrng_generate X len fe s = (r1, s1) /\
            r1 <= 0 /\ retrieved = 0 /\ len1 = len)
      \/ (lrng_pdrng_generate X len fe s = (retrieved, s1) /\
          0 < retrieved /\ u32 retrieved <> len /\
          len1 = u32 (len - retrieved))) /\
     lrng_get_pool X fuel LRNG_DRNG_SECURITY_STRENGTH_BITS drain s1
       = Returns (tb, o, s2) /\
     lrng_get_arch X s2 = (ab, s3) /\
     lrng_get_jent X LRNG_DRNG_SECURITY_STRENGTH_BYTES s3 = (jb, s4) /\
     lrng_pdrng_inject X (3 * LRNG_DRNG_SECURITY_STRENGTH_BYTES + 4)
       (u32 (u32 (tb + ab) + jb)) true len1 fe (step_tick s4) = (ret2, s5) /\
     ret = (if 0 <=? ret2
            then (if 0 <? ret2 then s32 (retrieved + ret2) else retrieved)
            else ret2) /\
     s' = release_reseed_gate
            (if lrng_need_entropy s5 then emit Ev_wake_writers s5 else s5)).
  { intros retrieved len1 s1 First.
    destruct (lrng_get_pool X fuel LRNG_DRNG_SECURITY_STRENGTH_BITS drain s1)
      as [[[tb o] s2]| |] eqn:P; cbn [mbind outcome_mbind outcome_bind];
      try discriminate.
    destruct (lrng_get_arch X s2) as [ab s3] eqn:A.
    destruct (lrng_get_jent X LRNG_DRNG_SECURITY_STRENGTH_BYTES s3)
      as [jb s4] eqn:J.
    cbv zeta.
    destruct (lrng_pdrng_inject X (3 * LRNG_DRNG_SECURITY_STRENGTH_BYTES + 4)
                (u32 (u32 (tb + ab) + jb)) true len1 fe (step_tick s4))
      as [ret2 s5] eqn:I.
    intros [= <- <-].
    exists retrieved, len1, s1, tb, o, s2, ab, s3, jb, s4, ret2, s5.
    unfold release_reseed_gate. repeat split; try assumption; reflexivity. }
  destruct (Z.eqb_spec (Z.shiftr (pdrng_entropy_bits (st_pdrng s)) 3) 0)
    as [Hz|Hnz]; cbn [negb].
  - intros E. right. apply (Rest 0 len s); [|exact E]. left. auto.
  - destruct (lrng_pdrng_generate X len fe s) as [r1 s1] eqn:G.
    destruct (Z.ltb_spec 0 r1) as [Hpos|Hle].
    + destruct (Z.eqb_spec (u32 r1) len) as [Hfull|Hpart].
      * intros [= <- <-]. left. exists s1. auto.
      * intros E. right. apply (Rest r1 (u32 (len - r1)) s1); [|exact E].
        right. right. auto.
    + intros E. right. apply (Rest 0 len s1); [|exact E].
      right. left. exists r1. auto.
Qed.


Lemma digestsize_generate X len fe s :
  pdrng_crypto_cb (st_pdrng (snd (lrng_pdrng_generate X len fe s)))
    = pdrng_crypto_cb (st_pdrng s) /\
  st_pool (snd (lrng_pdrng_generate X len fe s)) = st_pool s.
Proof.
  unfold lrng_pdrng_generate, call_generate.
  destruct (fe && _); [split; reflexivity|].
  match goal with |- context [if ?b =? 0 then _ else _] => destruct (b =? 0) end;
    [split; reflexivity|].
  cbn. destruct (negb _); split; reflexivity.
Qed.



Lemma lrng_pdrng_generate_frame X len fe s :
  pdrng_fully_seeded (st_pdrng (snd (lrng_pdrng_generate X len fe s)))
    = pdrng_fully_seeded (st_pdrng s) /\
  pdrng_min_seeded (st_pdrng (snd (lrng_pdrng_generate X len fe s)))
    = pdrng_min_seeded (st_pdrng s) /\
  (fe = true -> fst (lrng_pdrng_generate X len fe s) <> 0 ->
   pdrng_fully_seeded (st_pdrng s) = true).
Proof.
  unfold lrng_pdrng_generate, call_generate.
  destruct fe, (pdrng_fully_seeded (st_pdrng s)) eqn:F; cbn [andb negb];
    try (repeat split; try reflexivity; cbn; congruence);
    match goal with |- context [if ?b =? 0 then _ else _] => destruct (b =? 0) end;
    try (repeat split; try reflexivity; cbn; congruence);
    cbn; destruct (negb _); cbn; repeat split; try reflexivity; try congruence.
Qed.

Lemma st_pdrng_wake_readers s : st_pdrng (wake_readers_if_full s) = st_pdrng s.
Proof. unfold wake_readers_if_full. destruct (_ && _); reflexivity. Qed.

Lemma lrng_pdrng_init_ops_keeps_full bits s :
  pdrng_fully_seeded (st_pdrng s) = true -> lrng_pdrng_init_ops bits s = s.
Proof. unfold lrng_pdrng_init_ops. intros ->. reflexivity. Qed.

(** A successful injection that is asked for full-entropy output hands out
    data only from a fully seeded primary DRNG, and a fully seeded primary
    DRNG stays so. *)
Lemma lrng_pdrng_inject_full X inbuflen bits len s :
  let r := lrng_pdrng_inject X inbuflen bits true len true s in
  (pdrng_fully_seeded (st_pdrng s) = true ->
   pdrng_fully_seeded (st_pdrng (snd r)) = true) /\
  (len <> 0 -> 0 < fst r -> pdrng_fully_seeded (st_pdrng (snd r)) = true).
Proof.
  cbv zeta. unfold lrng_pdrng_inject, call_env.
  destruct (Z.ltb_spec (s32 (x_ret X (st_tick s))) 0) as [Hneg|Hok];
    cbn [fst snd].
  { rewrite st_pdrng_wake_readers. cbn. split; [auto | lia]. }
  cbv zeta.
  match goal with
  | |- context [lrng_pdrng_init_ops ?b ?st] => set (s2 := lrng_pdrng_init_ops b st);
      assert (M : pdrng_fully_seeded (st_pdrng s) = true ->
                  pdrng_fully_seeded (st_pdrng s2) = true)
        by (intros F; subst s2; rewrite lrng_pdrng_init_ops_keeps_full;
            cbn; exact F)
  end.
  destruct (Z.eqb_spec len 0) as [->|Hlen]; cbn [andb negb].
  { cbn [fst snd]. rewrite st_pdrng_wake_readers. split; [exact M | congruence]. }
  pose proof (lrng_pdrng_generate_frame X len true s2) as (F1 & _ & F3).
  destruct (lrng_pdrng_generate X len true s2) as [r3 s3].
  cbn [fst snd] in *. rewrite st_pdrng_wake_readers, F1. split; [exact M|].
  intros _ Hpos. apply F3; [reflexivity | lia].
Qed.

Lemma st_pdrng_hash_pool_loop X fuel :
  forall ds i avail gen out s r out' s',
    lrng_hash_pool_loop X fuel ds i avail gen out s = Returns (r, out', s') ->
    st_pdrng s' = st_pdrng s.
Proof.
  induction fuel as [|fuel IH]; intros ds i avail gen out s r out' s';
    rewrite lrng_hash_pool_loop_unfold;
    destruct ((i <? _) && (0 <? avail)); try discriminate;
    try (intros [= <- <- <-]; reflexivity).
  cbv zeta. destruct (negb _).
  - intros [= <- <- <-]. reflexivity.
  - intros E. apply IH in E. rewrite E. reflexivity.
Qed.

Lemma st_pdrng_get_pool X fuel requested drain s r out s' :
  lrng_get_pool X fuel requested drain s = Returns (r, out, s') ->
  st_pdrng s' = st_pdrng s.
Proof.
  unfold lrng_get_pool. cbv zeta.
  set (s0 := with_pool (with_irq_info (set_num_events 0)) s).
  assert (H : forall b n,
    (' (b', o, s1) ← lrng_hash_pool X fuel b s0;
     Returns (lrng_get_pool_out X n b' o s1)) = Returns (r, out, s') ->
    st_pdrng s' = st_pdrng s).
  { intros b n. unfold lrng_hash_pool.
    destruct (64 <? _); [discriminate|].
    match goal with
    | |- context [lrng_hash_pool_loop X fuel ?ds ?i ?a ?g ?o ?st] =>
        destruct (lrng_hash_pool_loop X fuel ds i a g o st)
          as [[[g' o'] s1]| |] eqn:L
    end; cbn [mbind outcome_mbind outcome_bind]; try discriminate.
    intros [= <- <- <-]. apply st_pdrng_hash_pool_loop in L.
    cbn. exact L. }
  destruct drain; [apply H|].
  destruct (_ <? _); [|apply H].
  intros [= <- <- <-]. reflexivity.
Qed.

Lemma st_pdrng_get_arch_loop X n :
  forall s, st_pdrng (snd (lrng_get_arch_loop X n s)) = st_pdrng s.
Proof.
  induction n as [|n IH]; intros s; cbn [lrng_get_arch_loop]; [reflexivity|].
  destruct (negb (x_ret X (st_tick s) =? 0)); [rewrite IH; reflexivity|].
  destruct (negb (x_ret X (st_tick (step_tick s)) =? 0));
    [rewrite IH; reflexivity | reflexivity].
Qed.

Lemma st_pdrng_get_arch X s : st_pdrng (snd (lrng_get_arch X s)) = st_pdrng s.
Proof.
  unfold lrng_get_arch. destruct (st_archrandom s =? 0); [reflexivity|].
  pose proof (st_pdrng_get_arch_loop X
    (Z.to_nat (LRNG_DRNG_SECURITY_STRENGTH_BYTES / 8)) s) as T.
  destruct (lrng_get_arch_loop X _ s) as [ok s1]. cbn [snd] in T.
  destruct ok; exact T.
Qed.

Lemma st_pdrng_get_jent X len s : st_pdrng (snd (lrng_get_jent X len s)) = st_pdrng s.
Proof.
  unfold lrng_get_jent. destruct (_ || _); [reflexivity|].
  destruct (st_jent_initialized s =? 0).
  - destruct (x_ret X (st_tick s) =? 0); cbn; [reflexivity|].
    destruct (negb _); reflexivity.
  - cbn. destruct (negb _); reflexivity.
Qed.

Lemma lrng_pdrng_seed_locked_full X fuel len drain s ret s' :
  0 < len < 2 ^ 32 ->
  lrng_pdrng_seed_locked X fuel len true drain s = Returns (ret, s') ->
  0 < ret -> pdrng_fully_seeded (st_pdrng s') = true.
Proof.
  intros Hlen E Hpos. apply lrng_pdrng_seed_locked_cases in E.
  destruct E as [(s1 & _ & G & _ & _ & ->)
    | (retrieved & len1 & s1 & tb & o & s2 & ab & s3 & jb & s4 & ret2 & s5 &
       First & P & A & J & I & -> & ->)].
  - pose proof (lrng_pdrng_generate_frame X len true s) as (F1 & _ & F3).
    rewrite G in F1, F3. cbn [fst snd] in *. cbn. rewrite F1.
    apply F3; [reflexivity | lia].
  - assert (S4 : st_pdrng (step_tick s4) = st_pdrng s1).
    { apply st_pdrng_get_pool in P.
      pose proof (st_pdrng_get_arch X s2) as A'. rewrite A in A'.
      pose proof (st_pdrng_get_jent X LRNG_DRNG_SECURITY_STRENGTH_BYTES s3) as J'.
      rewrite J in J'. cbn [snd] in *. cbn. congruence. }
    pose proof (lrng_pdrng_inject_full X
      (3 * LRNG_DRNG_SECURITY_STRENGTH_BYTES + 4) (u32 (u32 (tb + ab) + jb))
      len1 (step_tick s4)) as (M & D). cbv zeta in M, D.
    rewrite I in M, D. cbn [fst snd] in M, D.
    assert (K : pdrng_fully_seeded (st_pdrng s5) = true).
    { destruct (Z.ltb_spec 0 ret2) as [Hr2|Hr2].
      - apply D; [|exact Hr2].
        destruct First as [(_ & _ & -> & _) | [(r1 & _ & _ & _ & ->)
                          | (_ & Hr & Hne & ->)]]; try lia.
        intros Hz. apply Hne.
        pose proof (u32_range retrieved).
        assert (u32 (len - u32 retrieved) = 0)
          by (rewrite u32_sub_idem_r; exact Hz).
        unfold u32 in *. apply Z.mod_divide in H0; [|lia].
        destruct H0 as [k Hk]. lia.
      - assert (Hret : 0 < retrieved).
        { destruct (Z.leb_spec 0 ret2); [|lia].
          destruct (Z.ltb_spec 0 ret2); lia. }
        apply M. rewrite S4.
        destruct First as [(_ & -> & _) | [(r1 & _ & _ & -> & _)
                          | (G & _ & _ & _)]]; try lia.
        pose proof (lrng_pdrng_generate_frame X len true s) as (F1 & _ & F3).
        rewrite G in F1, F3. cbn [fst snd] in *. rewrite F1.
        apply F3; [reflexivity | lia]. }
    unfold release_reseed_gate. destruct (lrng_need_entropy s5); cbn; exact K.
Qed.

(** X6: [lrng_pdrng_get], the reader behind /dev/random, hands out data only
    from a fully seeded primary DRNG: whenever it returns a positive byte
    count the primary DRNG is fully seeded.  It never passes
    [-EINPROGRESS] on: a seeding in progress reads as 0 bytes. *)
Theorem lrng_pdrng_get_full_entropy
    (X : extern) (fuel : nat) (len : Z) (s : lrng_state) (ret : Z)
    (s' : lrng_state) :
  0 < len < 2 ^ 32 ->
  lrng_pdrng_get X fuel len s = Returns (ret, s') ->
  ret <> - EINPROGRESS /\
  (0 < ret -> pdrng_fully_seeded (st_pdrng s') = true) /\
  (reseed_gate (lrng_drngs_init_cc20 X s) <> 0 -> ret = 0).
Proof.
  intros Hlen. unfold lrng_pdrng_get.
  destruct (Z.eqb_spec len 0) as [|_]; [lia|]. cbv zeta.
  set (s0 := lrng_drngs_init_cc20 X s).
  destruct (lrng_pdrng_seed X fuel len true true s0) as [[r s1]| |] eqn:E;
    cbn [mbind outcome_mbind outcome_bind]; try discriminate.
  assert (Busy : reseed_gate s0 <> 0 -> r = - EINPROGRESS).
  { intros Hb. unfold lrng_pdrng_seed in E. unfold reseed_gate in Hb.
    destruct (Z.eqb_spec
      (atomic_read (reseed_in_progress (irq_info (st_pool s0)))) 0);
      [contradiction|]. cbn [negb] in E. congruence. }
  assert (Full : 0 < r -> pdrng_fully_seeded (st_pdrng s1) = true).
  { intros Hr. unfold lrng_pdrng_seed in E. destruct (negb _).
    - injection E as <- _. unfold EINPROGRESS in Hr. lia.
    - eapply lrng_pdrng_seed_locked_full; eassumption. }
  destruct (Z.ltb_spec 0 r) as [Hr|Hr].
  - intros [= <- <-]. split; [unfold EINPROGRESS; lia|]. split; [exact Full|].
    intros Hb. apply Busy in Hb. unfold EINPROGRESS in Hb. lia.
  - destruct (Z.eqb_spec r (- EINPROGRESS)) as [Hp|Hp].
    + intros [= <- <-]. split; [unfold EINPROGRESS; lia|].
      split; [lia | reflexivity].
    + intros [= <- <-]. split; [exact Hp|]. split; [lia|].
      intros Hb. apply Busy in Hb. contradiction.
Qed.

Lemma lrng_pdrng_get_full_entropy_witness :
  pdrng_fully_seeded (st_pdrng (lrng_state_with_events 1000)) = false /\
  fst (result_of (lrng_pdrng_get (const_extern 0 [1; 2; 3] 64) 32 16
                    (lrng_state_with_events 1000))) = 16 /\
  pdrng_fully_seeded (st_pdrng (snd (result_of
    (lrng_pdrng_get (const_extern 0 [1; 2; 3] 64) 32 16
       (lrng_state_with_events 1000))))) = true.
Proof.
  assert (H : lrng_pdrng_get (const_extern 0 [1; 2; 3] 64) 32 16
                (lrng_state_with_events 1000)
              = Returns
                  (fst (result_of
                     (lrng_pdrng_get (const_extern 0 [1; 2; 3] 64) 32 16
                        (lrng_state_with_events 1000))),
                   snd (result_of
                     (lrng_pdrng_get (const_extern 0 [1; 2; 3] 64) 32 16
                        (lrng_state_with_events 1000)))))
    by (vm_compute; reflexivity).
  destruct (lrng_pdrng_get_full_entropy (const_extern 0 [1; 2; 3] 64) 32 16
              _ _ _ ltac:(split; reflexivity) H)
    as (_ & F & _).
  split; [reflexivity|]. split; [vm_compute; reflexivity|].
  apply F. vm_compute. reflexivity.
Defined.

(** ** Boot-time initialisation and the fast noise sources *)

(** X7: [lrng_drngs_init_cc20] runs once.  On its first run it probes the
    cycle counter up to twice and fixes the entropy rate of an interrupt:
    256 interrupts per 256 bits with a high-resolution timer, ten times as
    many without one, in which case the stuck test is switched off as well.
    It leaves all three DRNGs unseeded with a reseed forced, marks the
    primary DRNG available, and every later run changes nothing. *)
Theorem lrng_drngs_init_cc20_once (X : extern) (s : lrng_state) :
  let s' := lrng_drngs_init_cc20 X s in
  let i := irq_info (st_pool s) in
  let i' := irq_info (st_pool s') in
  (st_pdrng_avail s <> 0 -> s' = s) /\
  (st_pdrng_avail s = 0 ->
     st_pdrng_avail s' = 1 /\
     ((x_ret X (st_tick s) <> 0 \/ x_ret X (Datatypes.S (st_tick s)) <> 0) ->
      irq_highres_timer i' = true /\ stuck_test i' = stuck_test i /\
      irq_entropy_bits i' = 256) /\
     (x_ret X (st_tick s) = 0 /\ x_ret X (Datatypes.S (st_tick s)) = 0 ->
      irq_highres_timer i' = irq_highres_timer i /\ stuck_test i' = false /\
      irq_entropy_bits i' = 2560) /\
     0 < irq_entropy_bits i' < 2 ^ 20 /\
     st_pdrng s' = mk_pdrng (pdrng (st_pdrng s)) (pdrng_crypto_cb (st_pdrng s))
                     false false 0 /\
     st_sdrng_init s' = lrng_sdrng_reset (st_jiffies s) (st_sdrng_init s) /\
     st_sdrng_atomic s' = lrng_sdrng_reset (st_jiffies s) (st_sdrng_atomic s) /\
     force_reseed (st_sdrng_init s') = true /\
     force_reseed (st_sdrng_atomic s') = true /\
     pool (st_pool s') = pool (st_pool s) /\
     num_events i' = num_events i /\
     st_trace s' = st_trace s) /\
  (forall X', lrng_drngs_init_cc20 X' s' = s').
Proof.
  cbv zeta. unfold lrng_drngs_init_cc20, atomic_read.
  destruct (Z.eqb_spec (st_pdrng_avail s) 0) as [Hz|Hnz]; cbn [negb].
  - split; [intros Hn; contradiction|]. split.
    + intros _.
      destruct (Z.eqb_spec (x_ret X (st_tick s)) 0) as [H1|H1]; cbn [negb].
      * cbn [st_tick step_tick].
        destruct (Z.eqb_spec (x_ret X (Datatypes.S (st_tick s))) 0) as [H2|H2];
          cbn [negb]; cbn.
        -- repeat split; intros; try reflexivity; try lia; exfalso; tauto.
        -- repeat split; intros; try reflexivity; try lia; exfalso; tauto.
      * cbn. repeat split; intros; try reflexivity; try lia; exfalso; tauto.
    + intros X'.
      destruct (negb (x_ret X (st_tick s) =? 0));
        [|destruct (negb (x_ret X (st_tick (step_tick s)) =? 0))];
        reflexivity.
  - split; [reflexivity|]. split; [intros Hz; contradiction|].
    intros X'. destruct (Z.eqb_spec (st_pdrng_avail s) 0);
      [contradiction | reflexivity].
Qed.

Lemma lrng_get_arch_loop_result X n :
  forall s,
    (fst (lrng_get_arch_loop X n s) = true /\
     st_archrandom (snd (lrng_get_arch_loop X n s)) = st_archrandom s) \/
    (fst (lrng_get_arch_loop X n s) = false /\
     st_archrandom (snd (lrng_get_arch_loop X n s)) = 0).
Proof.
  induction n as [|n IH]; intros s; cbn [lrng_get_arch_loop].
  - left. split; reflexivity.
  - destruct (negb (x_ret X (st_tick s) =? 0)); [exact (IH (step_tick s))|].
    destruct (negb (x_ret X (st_tick (step_tick s)) =? 0));
      [exact (IH (step_tick (step_tick s)))|].
    right. split; reflexivity.
Qed.

Lemma st_tick_step s : st_tick (step_tick s) = Datatypes.S (st_tick s).
Proof. reflexivity. Qed.

Lemma lrng_get_arch_loop_reads X n :
  forall s,
    let r := lrng_get_arch_loop X n s in
    let t0 := st_tick s in
    let t1 := st_tick (snd r) in
    if fst r then
      (t0 + n <= t1 <= t0 + 2 * n)%nat /\
      (forall t, (t0 <= t)%nat -> (Datatypes.S t < t1)%nat ->
         ~ (x_ret X t = 0 /\ x_ret X (Datatypes.S t) = 0)) /\
      ((0 < n)%nat -> x_ret X (t1 - 1)%nat <> 0)
    else
      (t0 + 2 <= t1 <= t0 + 2 * n)%nat /\
      x_ret X (t1 - 2)%nat = 0 /\ x_ret X (t1 - 1)%nat = 0.
Proof.
  induction n as [|n IH]; intros s; cbv zeta; cbn [lrng_get_arch_loop].
  { cbn [fst snd]. split; [lia|]. split; [intros; lia | intros; lia]. }
  destruct (Z.eqb_spec (x_ret X (st_tick s)) 0) as [Z0|N0]; cbn [negb].
  2:{ specialize (IH (step_tick s)). cbv zeta in IH.
      rewrite st_tick_step in IH.
      destruct (lrng_get_arch_loop X n (step_tick s)) as [ok s1].
      cbn [fst snd] in *. destruct ok.
      - destruct IH as (R & P & L). split; [lia|]. split.
        + intros t Ht Hlt [A B].
          destruct (Nat.eq_dec t (st_tick s)) as [->|Hne]; [contradiction|].
          apply (P t); [lia | exact Hlt | auto].
        + intros _. destruct n as [|n].
          * replace (st_tick s1 - 1)%nat with (st_tick s) by lia. exact N0.
          * apply L. lia.
      - destruct IH as (R & A & B). split; [lia | auto]. }
  rewrite st_tick_step.
  destruct (Z.eqb_spec (x_ret X (Datatypes.S (st_tick s))) 0) as [Z1|N1];
    cbn [negb].
  2:{ specialize (IH (step_tick (step_tick s))). cbv zeta in IH.
      rewrite !st_tick_step in IH.
      destruct (lrng_get_arch_loop X n (step_tick (step_tick s))) as [ok s1].
      cbn [fst snd] in *. destruct ok.
      - destruct IH as (R & P & L). split; [lia|]. split.
        + intros t Ht Hlt [A B].
          destruct (Nat.eq_dec t (st_tick s)) as [->|Hne]; [contradiction|].
          destruct (Nat.eq_dec t (Datatypes.S (st_tick s))) as [->|Hne2];
            [contradiction|].
          apply (P t); [lia | exact Hlt | auto].
        + intros _. destruct n as [|n].
          * replace (st_tick s1 - 1)%nat with (Datatypes.S (st_tick s)) by lia.
            exact N1.
          * apply L. lia.
      - destruct IH as (R & A & B). split; [lia | auto]. }
  cbn [fst snd st_tick with_archrandom step_tick].
  split; [lia|].
  replace (Datatypes.S (Datatypes.S (st_tick s)) - 2)%nat with (st_tick s) by lia.
  replace (Datatypes.S (Datatypes.S (st_tick s)) - 1)%nat
    with (Datatypes.S (st_tick s)) by lia.
  auto.
Qed.

Lemma st_pool_get_arch_loop X n :
  forall s, st_pool (snd (lrng_get_arch_loop X n s)) = st_pool s.
Proof.
  induction n as [|n IH]; intros s; cbn [lrng_get_arch_loop]; [reflexivity|].
  destruct (negb (x_ret X (st_tick s) =? 0)); [exact (IH (step_tick s))|].
  destruct (negb (x_ret X (st_tick (step_tick s)) =? 0));
    [exact (IH (step_tick (step_tick s))) | reflexivity].
Qed.

(** X8: the CPU noise source is credited with at most 256 bits, and only for
    a buffer it has filled completely.  Each of the four words is read with
    the seed instruction and, when that fails, with the plain one.  The
    call credits min(archrandom, 256) exactly when no two consecutive reads
    fail, after four to eight reads the last of which succeeded.  When both
    reads of a word fail the call stops there, credits nothing and sets
    [archrandom] to 0, after which every call returns 0 at once without
    asking the CPU again. *)
Theorem lrng_get_arch_failure_disables (X : extern) (s : lrng_state) :
  0 < st_archrandom s < 2 ^ 32 ->
  let bits := fst (lrng_get_arch X s) in
  let s' := snd (lrng_get_arch X s) in
  let t0 := st_tick s in
  let t1 := st_tick s' in
  0 <= bits <= LRNG_DRNG_SECURITY_STRENGTH_BITS /\
  (bits = Z.min (st_archrandom s) LRNG_DRNG_SECURITY_STRENGTH_BITS /\
   st_archrandom s' = st_archrandom s /\
   (t0 + 4 <= t1 <= t0 + 8)%nat /\
   x_ret X (t1 - 1)%nat <> 0 /\
   (forall t, (t0 <= t)%nat -> (Datatypes.S t < t1)%nat ->
      ~ (x_ret X t = 0 /\ x_ret X (Datatypes.S t) = 0))
   \/ bits = 0 /\ st_archrandom s' = 0 /\
      (t0 + 2 <= t1 <= t0 + 8)%nat /\
      x_ret X (t1 - 2)%nat = 0 /\ x_ret X (t1 - 1)%nat = 0) /\
  (x_ret X t0 = 0 -> x_ret X (Datatypes.S t0) = 0 ->
   bits = 0 /\ st_archrandom s' = 0 /\ t1 = (t0 + 2)%nat) /\
  (st_archrandom s' = 0 -> forall X', lrng_get_arch X' s' = (0, s')) /\
  st_pool s' = st_pool s /\ st_trace s' = st_trace s.
Proof.
  intros Ha. cbv zeta. unfold lrng_get_arch.
  destruct (Z.eqb_spec (st_archrandom s) 0) as [|_]; [lia|].
  pose proof (lrng_get_arch_loop_result X
    (Z.to_nat (LRNG_DRNG_SECURITY_STRENGTH_BYTES / 8)) s) as R.
  pose proof (lrng_get_arch_loop_reads X
    (Z.to_nat (LRNG_DRNG_SECURITY_STRENGTH_BYTES / 8)) s) as Rd.
  pose proof (trace_get_arch_loop X
    (Z.to_nat (LRNG_DRNG_SECURITY_STRENGTH_BYTES / 8)) s) as T.
  pose proof (st_pool_get_arch_loop X
    (Z.to_nat (LRNG_DRNG_SECURITY_STRENGTH_BYTES / 8)) s) as P.
  assert (First : x_ret X (st_tick s) = 0 ->
                  x_ret X (Datatypes.S (st_tick s)) = 0 ->
                  lrng_get_arch_loop X
                    (Z.to_nat (LRNG_DRNG_SECURITY_STRENGTH_BYTES / 8)) s
                  = (false, with_archrandom 0 (step_tick (step_tick s)))).
  { intros Z0 Z1.
    change (Z.to_nat (LRNG_DRNG_SECURITY_STRENGTH_BYTES / 8)) with 4%nat.
    cbn [lrng_get_arch_loop]. rewrite Z0. cbn [Z.eqb negb].
    rewrite st_tick_step, Z1. reflexivity. }
  cbv zeta in Rd.
  change (Z.to_nat (LRNG_DRNG_SECURITY_STRENGTH_BYTES / 8)) with 4%nat in *.
  destruct (lrng_get_arch_loop X 4 s) as [ok s1]. cbn [fst snd] in *.
  assert (M : min_u32 (st_archrandom s) LRNG_DRNG_SECURITY_STRENGTH_BITS
              = Z.min (st_archrandom s) LRNG_DRNG_SECURITY_STRENGTH_BITS).
  { unfold min_u32. rewrite !u32_small; [reflexivity | | lia].
    unfold LRNG_DRNG_SECURITY_STRENGTH_BITS,
      LRNG_DRNG_SECURITY_STRENGTH_BYTES. lia. }
  assert (Off : st_archrandom s1 = 0 -> forall X', lrng_get_arch X' s1 = (0, s1)).
  { intros Z1 X'. unfold lrng_get_arch. rewrite Z1. reflexivity. }
  unfold LRNG_DRNG_SECURITY_STRENGTH_BITS,
    LRNG_DRNG_SECURITY_STRENGTH_BYTES in *.
  destruct R as [(-> & E) | (-> & E)]; cbn [fst snd]; rewrite ?M.
  - destruct Rd as (Rg & Np & Ls).
    split; [lia|]. split.
    { left. split; [reflexivity|]. split; [exact E|].
      split; [lia|]. split; [apply Ls; lia | exact Np]. }
    split.
    { intros Z0 Z1. specialize (First Z0 Z1). discriminate First. }
    split; [exact Off|]. split; assumption.
  - destruct Rd as (Rg & Z2 & Z1).
    split; [lia|]. split.
    { right. split; [reflexivity|]. split; [exact E|].
      split; [lia|]. split; assumption. }
    split.
    { intros Z0 Z1'. specialize (First Z0 Z1'). injection First as ->.
      split; [reflexivity|]. split; [reflexivity|]. cbn. lia. }
    split; [exact Off|]. split; assumption.
Qed.

Lemma lrng_get_arch_failure_disables_witness :
  lrng_get_arch (const_extern 0 [] 64)
    (snd (lrng_get_arch (const_extern 0 [] 64) lrng_online_state))
  = (0, snd (lrng_get_arch (const_extern 0 [] 64) lrng_online_state)).
Proof.
  destruct (lrng_get_arch_failure_disables (const_extern 0 [] 64)
              lrng_online_state ltac:(split; reflexivity))
    as (_ & _ & _ & Off & _).
  apply Off. reflexivity.
Defined.

(** X9: the Jitter RNG is credited with at most eight bits per byte of the
    buffer, and for a buffer of 32 bytes with at most [jitterrng] bits.  When
    its entropy collector cannot be allocated the source is switched off for
    good: every later call returns 0 at once.  A failed read, in contrast,
    credits nothing but leaves the source on. *)
Theorem lrng_get_jent_behaviour (X : extern) (len : Z) (s : lrng_state) :
  0 <= len < 2 ^ 29 ->
  0 <= st_jitterrng s < 2 ^ 32 ->
  let bits := fst (lrng_get_jent X len s) in
  let s' := snd (lrng_get_jent X len s) in
  0 <= bits <= 8 * len /\
  (len = LRNG_DRNG_SECURITY_STRENGTH_BYTES -> bits <= st_jitterrng s) /\
  (st_jent_initialized s' = -1 ->
   forall X' len', lrng_get_jent X' len' s' = (0, s')) /\
  (st_jitterrng s <> 0 -> st_jent_initialized s = 0 ->
   x_ret X (st_tick s) = 0 ->
   bits = 0 /\ st_jent_initialized s' = -1 /\ st_jitterrng s' = 0) /\
  (st_jitterrng s <> 0 -> st_jent_initialized s = 1 ->
   s32 (x_ret X (st_tick s)) <> 0 ->
   bits = 0 /\ st_jent_initialized s' = 1 /\ st_jitterrng s' = st_jitterrng s) /\
  st_pool s' = st_pool s /\ st_trace s' = st_trace s.
Proof.
  intros Hlen Hj. cbv zeta.
  assert (Off : forall s1, st_jent_initialized s1 = -1 ->
                forall X' len', lrng_get_jent X' len' s1 = (0, s1)).
  { intros s1 E X' len'. unfold lrng_get_jent. rewrite E.
    rewrite orb_true_r. reflexivity. }
  assert (Cap : forall e, 0 <= min_u32 e (Z.shiftl len 3) <= 8 * len).
  { intros e. unfold min_u32. rewrite Z.shiftl_mul_pow2 by lia.
    pose proof (u32_range e). rewrite (u32_small (len * 2 ^ 3)) by lia. lia. }
  assert (Cap32 : len = LRNG_DRNG_SECURITY_STRENGTH_BYTES ->
                  min_u32 (st_jitterrng s) (Z.shiftl len 3) <= st_jitterrng s).
  { intros _. unfold min_u32. rewrite (u32_small (st_jitterrng s)) by lia. lia. }
  assert (Main :
    0 <= fst (lrng_get_jent X len s) <= 8 * len /\
    (len = LRNG_DRNG_SECURITY_STRENGTH_BYTES ->
     fst (lrng_get_jent X len s) <= st_jitterrng s) /\
    (st_jitterrng s <> 0 -> st_jent_initialized s = 0 ->
     x_ret X (st_tick s) = 0 ->
     fst (lrng_get_jent X len s) = 0 /\
     st_jent_initialized (snd (lrng_get_jent X len s)) = -1 /\
     st_jitterrng (snd (lrng_get_jent X len s)) = 0) /\
    (st_jitterrng s <> 0 -> st_jent_initialized s = 1 ->
     s32 (x_ret X (st_tick s)) <> 0 ->
     fst (lrng_get_jent X len s) = 0 /\
     st_jent_initialized (snd (lrng_get_jent X len s)) = 1 /\
     st_jitterrng (snd (lrng_get_jent X len s)) = st_jitterrng s) /\
    st_pool (snd (lrng_get_jent X len s)) = st_pool s /\
    st_trace (snd (lrng_get_jent X len s)) = st_trace s).
  { clear Off. unfold lrng_get_jent.
    destruct (Z.eqb_spec (st_jitterrng s) 0) as [Hz|Hnz]; cbn [orb].
    { cbn [fst snd]. repeat split; intros; try lia; try reflexivity; try assumption. }
    destruct (Z.eqb_spec (st_jent_initialized s) (-1)) as [Hm|Hm].
    { cbn [fst snd]. repeat split; intros; try lia; try reflexivity; try assumption. }
    destruct (Z.eqb_spec (st_jent_initialized s) 0) as [H0|H0].
    - destruct (Z.eqb_spec (x_ret X (st_tick s)) 0) as [Hc|Hc];
        cbn [negb fst snd].
      + repeat split; intros; try lia; try reflexivity; try assumption.
      + cbn [st_tick step_tick with_jent_initialized].
        destruct (Z.eqb_spec (s32 (x_ret X (Datatypes.S (st_tick s)))) 0)
          as [Hr|Hr]; cbn [negb fst snd].
        * destruct (Z.eqb_spec len LRNG_DRNG_SECURITY_STRENGTH_BYTES)
            as [He|He]; cbn [negb].
          -- split; [apply Cap|]. split; [exact Cap32|].
             repeat split; intros; try lia; try reflexivity; try assumption.
          -- split; [apply Cap|]. split; [intros; contradiction|].
             repeat split; intros; try lia; try reflexivity; try assumption.
        * repeat split; intros; try lia; try reflexivity; try assumption.
    - cbn [negb fst snd].
      destruct (Z.eqb_spec (s32 (x_ret X (st_tick s))) 0) as [Hr|Hr];
        cbn [negb fst snd].
      + destruct (Z.eqb_spec len LRNG_DRNG_SECURITY_STRENGTH_BYTES)
          as [He|He]; cbn [negb].
        * split; [apply Cap|]. split; [exact Cap32|].
          repeat split; intros; try lia; try reflexivity; try assumption.
        * split; [apply Cap|]. split; [intros; contradiction|].
          repeat split; intros; try lia; try reflexivity; try assumption.
      + repeat split; intros; try lia; try reflexivity; try assumption. }
  destruct Main as (M1 & M2 & M3 & M4 & M5 & M6).
  split; [exact M1|]. split; [exact M2|]. split; [apply Off|].
  split; [exact M3|]. split; [exact M4|]. split; [exact M5 | exact M6].
Qed.

Lemma lrng_get_jent_behaviour_witness :
  fst (lrng_get_jent (const_extern 0 [] 64) 32 lrng_online_state) = 0 /\
  forall X' len',
    lrng_get_jent X' len'
      (snd (lrng_get_jent (const_extern 0 [] 64) 32 lrng_online_state))
    = (0, snd (lrng_get_jent (const_extern 0 [] 64) 32 lrng_online_state)).
Proof.
  destruct (lrng_get_jent_behaviour (const_extern 0 [] 64) 32
              lrng_online_state ltac:(split; [discriminate | reflexivity])
              ltac:(split; [discriminate | reflexivity]))
    as (_ & _ & Off & Fail & _).
  split.
  - apply Fail; [discriminate | reflexivity | reflexivity].
  - apply Off. reflexivity.
Defined.

(** ** Secondary DRNGs *)

Lemma s32_mod_eq a b : a mod 2 ^ 32 = b mod 2 ^ 32 -> s32 a = s32 b.
Proof.
  intros E. unfold s32. f_equal.
  rewrite <- (Zplus_mod_idemp_l a), <- (Zplus_mod_idemp_l b), E. reflexivity.
Qed.

Lemma lrng_sdrng_get_loop_result X fuel :
  forall ctx r out processed s ret s',
    lrng_sdrng_get_loop X fuel ctx r out processed s = Returns (ret, s') ->
    ret = - EFAULT \/ ret = s32 (processed + out).
Proof.
  induction fuel as [|fuel IH]; intros ctx r out processed s ret s';
    rewrite lrng_sdrng_get_loop_unfold;
    destruct (Z.eqb_spec out 0) as [->|Hout]; try discriminate;
    try (intros [= <- _]; right; rewrite Z.add_0_r; reflexivity).
  cbv zeta.
  destruct (lrng_sdrng_reseed_due X r s) as [due s1].
  destruct (if due && negb (sdrng_ref_eqb r Ref_atomic)
            then lrng_sdrng_seed X fuel ctx r (lrng_pdrng_seed X fuel) s1
            else Returns s1) as [s2| |];
    cbn [mbind outcome_mbind outcome_bind]; try discriminate.
  unfold call_generate.
  match goal with |- context [s32 ?g <=? 0] => set (got := s32 g) end.
  destruct (got <=? 0).
  - intros [= <- _]. left. reflexivity.
  - intros E. apply IH in E. destruct E as [E|E]; [left; exact E|].
    right. rewrite E. apply s32_mod_eq. unfold u32.
    rewrite <- Zplus_mod. f_equal. lia.
Qed.

(** X10: a request to the secondary DRNGs is served in full or not at all:
    whichever DRNG serves it, however often it is reseeded on the way and
    whatever the generate calls deliver, [lrng_sdrng_get] returns either
    [-EFAULT] or the requested length, capped at [INT_MAX]. *)
Theorem lrng_sdrng_get_all_or_fault
    (X : extern) (fuel : nat) (ctx : call_ctx) (len : Z) (s : lrng_state)
    (ret : Z) (s' : lrng_state) :
  0 <= len ->
  lrng_sdrng_get X fuel ctx len s = Returns (ret, s') ->
  ret = - EFAULT \/ ret = Z.min len INT_MAX.
Proof.
  intros Hlen. destruct fuel as [|fuel]; [discriminate|].
  rewrite lrng_sdrng_get_unfold.
  destruct (Z.eqb_spec len 0) as [->|Hn].
  { intros [= <- _]. right. reflexivity. }
  destruct (lrng_sdrng_select ctx (lrng_drngs_init_cc20 X s)) as [r|];
    [|discriminate].
  intros E. apply lrng_sdrng_get_loop_result in E.
  destruct E as [E|E]; [left; exact E|]. right. rewrite E.
  apply s32_small. unfold INT_MAX. lia.
Qed.

Lemma lrng_sdrng_get_all_or_fault_witness :
  fst (result_of (lrng_sdrng_get (const_extern 0 [] 64) 40 process_context
                    5000 (lrng_idle_state 5 0 100))) = 5000.
Proof.
  assert (H : lrng_sdrng_get (const_extern 0 [] 64) 40 process_context
                5000 (lrng_idle_state 5 0 100)
              = Returns
                  (fst (result_of
                     (lrng_sdrng_get (const_extern 0 [] 64) 40
                        process_context 5000 (lrng_idle_state 5 0 100))),
                   snd (result_of
                     (lrng_sdrng_get (const_extern 0 [] 64) 40
                        process_context 5000 (lrng_idle_state 5 0 100)))))
    by (vm_compute; reflexivity).
  destruct (lrng_sdrng_get_all_or_fault (const_extern 0 [] 64) 40
              process_context 5000 _ _ _ ltac:(discriminate) H) as [E|E].
  - vm_compute in E. discriminate E.
  - exact E.
Defined.

Lemma get_sdrng_emit r e s : get_sdrng r (emit e s) = get_sdrng r s.
Proof. destruct r; reflexivity. Qed.

Lemma get_sdrng_step_tick r s : get_sdrng r (step_tick s) = get_sdrng r s.
Proof. destruct r; reflexivity. Qed.

Lemma valid_ref_emit_tick r e s :
  valid_ref r (emit e (step_tick s)) = valid_ref r s.
Proof. destruct r; reflexivity. Qed.

(** X11: the bookkeeping of [lrng_sdrng_inject].  When the seed call fails,
    the request counter is set to 1, so that the very next request finds a
    reseed due.  A successful seeding with internal data rearms the counter
    and the timer; a successful seeding with data from user space changes
    neither, so writing to the device cannot postpone a reseed.  The seed
    status and a pending forced reseed stay as they are in each case. *)
Theorem lrng_sdrng_inject_counters
    (X : extern) (r : sdrng_ref) (len : Z) (internal : bool) (s : lrng_state) :
  valid_ref r s = true ->
  let d := get_sdrng r s in
  let d' := get_sdrng r (lrng_sdrng_inject X r len internal s) in
  (s32 (x_ret X (st_tick s)) < 0 ->
     requests d' = 1 /\ last_seeded d' = last_seeded d /\
     forall X',
       fst (lrng_sdrng_reseed_due X' r (lrng_sdrng_inject X r len internal s))
       = true) /\
  (0 <= s32 (x_ret X (st_tick s)) -> internal = true ->
     requests d' = LRNG_DRNG_RESEED_THRESH /\ last_seeded d' = st_jiffies s) /\
  (0 <= s32 (x_ret X (st_tick s)) -> internal = false -> d' = d) /\
  fully_seeded d' = fully_seeded d /\
  force_reseed d' = force_reseed d /\
  sdrng d' = sdrng d /\ sdrng_crypto_cb d' = sdrng_crypto_cb d.
Proof.
  intros Hv. cbv zeta.
  assert (Due : forall s1, valid_ref r s1 = true ->
            requests (get_sdrng r s1) = 1 ->
            forall X', fst (lrng_sdrng_reseed_due X' r s1) = true).
  { intros s1 V R X'. apply lrng_sdrng_reseed_due_iff; [exact V|].
    left. rewrite R. reflexivity. }
  assert (V1 : forall f s1, valid_ref r s1 = true ->
                 valid_ref r (upd_sdrng r f s1) = true).
  { intros f s1. destruct r as [| |n]; try reflexivity.
    cbn. destruct (st_sdrng s1) as [tab|]; [|discriminate].
    destruct (tab !! n) as [[[|d0]|]|] eqn:L; try discriminate.
    intros _. cbn. rewrite list_lookup_insert_eq; [reflexivity|].
    apply lookup_lt_Some in L. exact L. }
  unfold lrng_sdrng_inject, call_env. cbv zeta.
  set (s1 := emit _ (step_tick (emit _ s))).
  assert (Vs : valid_ref r s1 = true).
  { subst s1. rewrite valid_ref_emit_tick. destruct r; exact Hv. }
  assert (Gs : get_sdrng r s1 = get_sdrng r s).
  { subst s1. rewrite get_sdrng_emit, get_sdrng_step_tick, get_sdrng_emit.
    reflexivity. }
  cbn [st_tick emit].
  destruct (Z.ltb_spec (s32 (x_ret X (st_tick s))) 0) as [Hneg|Hok].
  - rewrite get_upd_sdrng by exact Vs. rewrite Gs.
    split; [intros _|split; [lia|split; [lia|]]].
    + split; [reflexivity|]. split; [reflexivity|].
      apply Due; [apply V1; exact Vs|].
      rewrite get_upd_sdrng by exact Vs. reflexivity.
    + repeat split.
  - destruct internal.
    + rewrite get_upd_sdrng by exact Vs. rewrite Gs.
      split; [lia|]. split; [intros _ _; split; reflexivity|].
      split; [discriminate|]. repeat split.
    + rewrite Gs. split; [lia|]. split; [discriminate|].
      split; [reflexivity|]. repeat split.
Qed.

Lemma lrng_sdrng_inject_counters_witness :
  requests (get_sdrng Ref_init
    (lrng_sdrng_inject (const_extern (-5) [] 64) Ref_init 32 true
       lrng_online_state)) = 1.
Proof.
  destruct (lrng_sdrng_inject_counters (const_extern (-5) [] 64) Ref_init 32
              true lrng_online_state eq_refl) as (F & _).
  destruct F as (R & _); [reflexivity | exact R].
Defined.

(** ** The entropy estimate of the primary DRNG *)

Lemma lrng_pdrng_generate_budget X len fe s :
  pdrng_budget_ok s ->
  let r := lrng_pdrng_generate X len fe s in
  pdrng_budget_ok (snd r) /\
  pdrng_entropy_bits (st_pdrng (snd r)) <= pdrng_entropy_bits (st_pdrng s) /\
  (st_trace (snd r) = st_trace s /\ fst r = 0 /\
   st_pdrng (snd r) = st_pdrng s
   \/ exists n,
        st_trace (snd r)
          = st_trace s ++ [Ev_drng_generate (pdrng_crypto_cb (st_pdrng s))
                             (pdrng (st_pdrng s)) n] /\
        0 < n <= u32 len /\
        (pdrng_min_seeded (st_pdrng s) = true ->
         8 * n <= pdrng_entropy_bits (st_pdrng s) /\
         (u32 (fst r) = n ->
          pdrng_entropy_bits (st_pdrng (snd r))
            = pdrng_entropy_bits (st_pdrng s) - 8 * n)) /\
        (pdrng_min_seeded (st_pdrng s) = false ->
         8 * n <= LRNG_MIN_SEED_ENTROPY_BITS) /\
        (u32 (fst r) <> n -> st_pdrng (snd r) = st_pdrng s)).
Proof.
  unfold pdrng_budget_ok, LRNG_DRNG_SECURITY_STRENGTH_BITS,
    LRNG_DRNG_SECURITY_STRENGTH_BYTES. intros B. cbv zeta.
  unfold lrng_pdrng_generate, call_generate.
  set (e := pdrng_entropy_bits (st_pdrng s)) in *.
  destruct (fe && _).
  { cbn [fst snd]. fold e. split; [exact B|]. split; [lia|]. left. auto. }
  set (n := if pdrng_min_seeded (st_pdrng s)
            then min_u32 len (Z.shiftr e 3)
            else min_u32 len (Z.shiftr LRNG_MIN_SEED_ENTROPY_BITS 3)).
  assert (Hn : (0 <= n <= u32 len /\ 8 * n <= 256) /\
               (pdrng_min_seeded (st_pdrng s) = true -> 8 * n <= e) /\
               (pdrng_min_seeded (st_pdrng s) = false ->
                8 * n <= LRNG_MIN_SEED_ENTROPY_BITS)).
  { pose proof (u32_range len). subst n. unfold min_u32.
    rewrite !Z.shiftr_div_pow2 by lia. change (2 ^ 3) with 8.
    assert (0 <= e / 8 <= 32).
    { split; [apply Z.div_pos; lia | apply Z.div_le_upper_bound; lia]. }
    assert (8 * (e / 8) <= e) by (apply Z.mul_div_le; lia).
    destruct (pdrng_min_seeded (st_pdrng s)).
    - rewrite (u32_small (e / 8)) by lia.
      repeat split; intros; try lia; discriminate.
    - unfold LRNG_MIN_SEED_ENTROPY_BITS. change (128 / 8) with 16.
      rewrite (u32_small 16) by lia.
      repeat split; intros; try lia; discriminate. }
  destruct Hn as ((Hn1 & Hn8) & Hn2 & Hn3).
  destruct (Z.eqb_spec n 0) as [Hz|Hnz].
  { cbn [fst snd]. fold e. split; [exact B|]. split; [lia|]. left. auto. }
  set (ret := s32 (x_gen X (st_tick s) n)).
  destruct (Z.eqb_spec (u32 ret) n) as [Hfull|Hpart]; cbn [negb fst snd].
  - assert (Hbits : u32 (Z.shiftl ret 3) = 8 * n).
    { rewrite Z.shiftl_mul_pow2 by lia. change (2 ^ 3) with 8.
      unfold u32 in *. rewrite <- Zmult_mod_idemp_l, Hfull.
      rewrite Z.mod_small; lia. }
    cbn [st_pdrng with_pdrng emit step_tick pdrng_entropy_bits
         set_pdrng_entropy_bits]. fold e. rewrite Hbits.
    assert (Hsub : u32 (e - Z.shiftl ret 3) = u32 (e - 8 * n)).
    { rewrite <- Hbits. symmetry. apply u32_sub_idem_r. }
    rewrite Hsub.
    assert (Hnew : 8 * n < e -> u32 (e - 8 * n) = e - 8 * n)
      by (intros; apply u32_small; lia).
    destruct (Z.ltb_spec (8 * n) e) as [Hlt|Hge].
    + rewrite Hnew by exact Hlt. split; [lia|]. split; [lia|].
      right. exists n. split; [reflexivity|]. split; [lia|].
      split; [|split; [exact Hn3 | contradiction]].
      intros Hm. split; [auto | reflexivity].
    + split; [lia|]. split; [lia|].
      right. exists n. split; [reflexivity|]. split; [lia|].
      split; [|split; [exact Hn3 | contradiction]].
      intros Hm. specialize (Hn2 Hm). split; [exact Hn2 | lia].
  - cbn [st_pdrng emit step_tick]. fold e. split; [exact B|].
    split; [lia|]. right. exists n. split; [reflexivity|]. split; [lia|].
    split; [|split; [exact Hn3 | reflexivity]].
    intros Hm. split; [auto | contradiction].
Qed.

Lemma pdrng_entropy_bits_init_ops bits s :
  pdrng_entropy_bits (st_pdrng (lrng_pdrng_init_ops bits s))
  = pdrng_entropy_bits (st_pdrng s).
Proof.
  unfold lrng_pdrng_init_ops, wake_up_init_wait.
  destruct (pdrng_fully_seeded (st_pdrng s)); [reflexivity|].
  destruct (_ <=? _);
    [cbn [st_pdrng emit]; rewrite lrng_process_ready_list_eq; reflexivity|].
  destruct (negb _); [|reflexivity].
  destruct (_ <=? _);
    [cbn [st_pdrng emit]; rewrite lrng_process_ready_list_eq; reflexivity|].
  destruct (_ <=? _); reflexivity.
Qed.

Lemma lrng_pdrng_inject_budget X inbuflen bits outbuf len fe s :
  pdrng_budget_ok s ->
  pdrng_budget_ok (snd (lrng_pdrng_inject X inbuflen bits outbuf len fe s)).
Proof.
  intros B. unfold lrng_pdrng_inject, call_env.
  destruct (s32 (x_ret X (st_tick s)) <? 0); cbn [snd].
  { unfold pdrng_budget_ok. rewrite st_pdrng_wake_readers. exact B. }
  cbv zeta.
  match goal with
  | |- context [lrng_pdrng_init_ops ?b ?st] =>
      set (s2 := lrng_pdrng_init_ops b st);
      assert (B2 : pdrng_budget_ok s2)
  end.
  { unfold pdrng_budget_ok. subst s2. rewrite pdrng_entropy_bits_init_ops.
    cbn. unfold min_u32.
    match goal with |- context [Z.min (u32 ?a) (u32 ?b)] =>
      pose proof (u32_range a); pose proof (u32_range b);
      assert (u32 b = b) by reflexivity
    end. lia. }
  destruct (outbuf && negb (len =? 0)).
  - pose proof (lrng_pdrng_generate_budget X len fe s2 B2) as (G & _).
    cbv zeta in G. destruct (lrng_pdrng_generate X len fe s2) as [r3 s3].
    cbn [snd] in *. unfold pdrng_budget_ok in *.
    rewrite st_pdrng_wake_readers. exact G.
  - cbn [snd]. unfold pdrng_budget_ok in *.
    rewrite st_pdrng_wake_readers. exact B2.
Qed.

Lemma lrng_pdrng_seed_locked_budget X fuel len fe drain s ret s' :
  pdrng_budget_ok s ->
  lrng_pdrng_seed_locked X fuel len fe drain s = Returns (ret, s') ->
  pdrng_budget_ok s'.
Proof.
  intros B E. apply lrng_pdrng_seed_locked_cases in E.
  pose proof (lrng_pdrng_generate_budget X len fe s B) as (G & _).
  cbv zeta in G.
  destruct E as [(s1 & _ & E1 & _ & _ & ->)
    | (retrieved & len1 & s1 & tb & o & s2 & ab & s3 & jb & s4 & ret2 & s5 &
       First & P & A & J & I & _ & ->)].
  - rewrite E1 in G. exact G.
  - assert (B1 : pdrng_budget_ok s1).
    { destruct First as [(-> & _) | [(r1 & E1 & _) | (E1 & _)]];
        [exact B | rewrite E1 in G; exact G | rewrite E1 in G; exact G]. }
    assert (B4 : pdrng_budget_ok (step_tick s4)).
    { apply st_pdrng_get_pool in P.
      pose proof (st_pdrng_get_arch X s2) as A'. rewrite A in A'.
      pose proof (st_pdrng_get_jent X LRNG_DRNG_SECURITY_STRENGTH_BYTES s3) as J'.
      rewrite J in J'. cbn [snd] in *. unfold pdrng_budget_ok in *. cbn.
      rewrite J', A', P. exact B1. }
    pose proof (lrng_pdrng_inject_budget X
      (3 * LRNG_DRNG_SECURITY_STRENGTH_BYTES + 4) (u32 (u32 (tb + ab) + jb))
      true len1 fe (step_tick s4) B4) as B5.
    rewrite I in B5. cbn [snd] in B5.
    unfold release_reseed_gate. destruct (lrng_need_entropy s5); exact B5.
Qed.

(** X12: the entropy estimate of the primary DRNG stays between 0 and 256
    bits through every operation on it: generating, injecting (which caps
    the sum at 256), the seeding from the noise sources and the
    [/dev/random] read.  A minimally seeded primary DRNG is never asked for
    more bytes than its estimate covers, and each byte it delivers takes
    eight bits off the estimate; before that, a single request is limited to
    16 bytes. *)
Theorem pdrng_entropy_budget (X : extern) (s : lrng_state) :
  pdrng_budget_ok s ->
  (forall len fe,
     let r := lrng_pdrng_generate X len fe s in
     pdrng_budget_ok (snd r) /\
     pdrng_entropy_bits (st_pdrng (snd r)) <= pdrng_entropy_bits (st_pdrng s) /\
     (st_trace (snd r) = st_trace s /\ fst r = 0 /\
      st_pdrng (snd r) = st_pdrng s
      \/ exists n,
           st_trace (snd r)
             = st_trace s ++ [Ev_drng_generate (pdrng_crypto_cb (st_pdrng s))
                                (pdrng (st_pdrng s)) n] /\
           0 < n <= u32 len /\
           (pdrng_min_seeded (st_pdrng s) = true ->
            8 * n <= pdrng_entropy_bits (st_pdrng s) /\
            (u32 (fst r) = n ->
             pdrng_entropy_bits (st_pdrng (snd r))
               = pdrng_entropy_bits (st_pdrng s) - 8 * n)) /\
           (pdrng_min_seeded (st_pdrng s) = false ->
            8 * n <= LRNG_MIN_SEED_ENTROPY_BITS) /\
           (u32 (fst r) <> n -> st_pdrng (snd r) = st_pdrng s))) /\
  (forall inbuflen bits outbuf len fe,
     pdrng_budget_ok
       (snd (lrng_pdrng_inject X inbuflen bits outbuf len fe s))) /\
  (forall fuel len fe drain ret s',
     lrng_pdrng_seed X fuel len fe drain s = Returns (ret, s') ->
     pdrng_budget_ok s') /\
  (forall fuel len ret s',
     lrng_pdrng_get X fuel len s = Returns (ret, s') -> pdrng_budget_ok s').
Proof.
  intros B.
  assert (Seed : forall s0 fuel len fe drain ret s',
    pdrng_budget_ok s0 ->
    lrng_pdrng_seed X fuel len fe drain s0 = Returns (ret, s') ->
    pdrng_budget_ok s').
  { intros s0 fuel len fe drain ret s' B0. unfold lrng_pdrng_seed.
    destruct (negb _).
    - intros [= _ <-]. exact B0.
    - apply lrng_pdrng_seed_locked_budget. exact B0. }
  split; [intros len fe; apply lrng_pdrng_generate_budget; exact B|].
  split; [intros; apply lrng_pdrng_inject_budget; exact B|].
  split; [intros fuel len fe drain ret s'; apply Seed; exact B|].
  intros fuel len ret s'. unfold lrng_pdrng_get.
  destruct (len =? 0); [intros [= _ <-]; exact B|]. cbv zeta.
  assert (B0 : pdrng_budget_ok (lrng_drngs_init_cc20 X s)).
  { unfold lrng_drngs_init_cc20. destruct (negb _); [exact B|].
    destruct (negb (x_ret X (st_tick s) =? 0));
      [|destruct (negb (x_ret X (st_tick (step_tick s)) =? 0))];
      unfold pdrng_budget_ok; cbn; unfold LRNG_DRNG_SECURITY_STRENGTH_BITS,
        LRNG_DRNG_SECURITY_STRENGTH_BYTES; lia. }
  destruct (lrng_pdrng_seed X fuel len true true (lrng_drngs_init_cc20 X s))
    as [[r s1]| |] eqn:E; cbn [mbind outcome_mbind outcome_bind];
    try discriminate.
  apply Seed in E; [|exact B0].
  destruct (0 <? r); [|destruct (r =? - EINPROGRESS)];
    intros [= _ <-]; exact E.
Qed.

Lemma pdrng_entropy_budget_witness :
  pdrng_budget_ok
    (snd (lrng_pdrng_inject (const_extern 0 [] 64) 100 4000 false 0 false
            lrng_online_state)) /\
  pdrng_entropy_bits (st_pdrng
    (snd (lrng_pdrng_inject (const_extern 0 [] 64) 100 4000 false 0 false
            lrng_online_state))) = 256.
Proof.
  assert (B : pdrng_budget_ok lrng_online_state)
    by (split; [discriminate | discriminate]).
  destruct (pdrng_entropy_budget (const_extern 0 [] 64) lrng_online_state B)
    as (_ & I & _).
  split; [apply I | reflexivity].
Defined.

(** ** Switching the DRNG implementation *)

Lemma upd_sdrng_frame r f s :
  st_pdrng (upd_sdrng r f s) = st_pdrng s /\
  st_pool (upd_sdrng r f s) = st_pool s /\
  st_pdrng_avail (upd_sdrng r f s) = st_pdrng_avail s /\
  st_online (upd_sdrng r f s) = st_online s /\
  (r <> Ref_atomic -> st_sdrng_atomic (upd_sdrng r f s) = st_sdrng_atomic s).
Proof.
  destruct r as [| |n]; cbn.
  - repeat split.
  - repeat split. intros H. contradiction.
  - destruct (st_sdrng s) as [tab|]; [|repeat split].
    destruct (tab !! n) as [[[|d]|]|]; repeat split.
Qed.

Lemma lrng_sdrng_switch_frame X r cb s :
  r <> Ref_atomic ->
  st_pdrng (lrng_sdrng_switch X r cb s) = st_pdrng s /\
  st_pool (lrng_sdrng_switch X r cb s) = st_pool s /\
  st_pdrng_avail (lrng_sdrng_switch X r cb s) = st_pdrng_avail s /\
  st_online (lrng_sdrng_switch X r cb s) = st_online s /\
  st_sdrng_atomic (lrng_sdrng_switch X r cb s) = st_sdrng_atomic s.
Proof.
  intros Hr. unfold lrng_sdrng_switch, call_env_ptr, call_generate, call_env.
  destruct (IS_ERR _); [repeat split|]. cbv zeta.
  match goal with
  | |- context [if ?c then (true, ?a) else ?b] =>
      assert (F : st_pdrng (snd (if c then (true, a) else b)) = st_pdrng s /\
                  st_pool (snd (if c then (true, a) else b)) = st_pool s /\
                  st_pdrng_avail (snd (if c then (true, a) else b))
                    = st_pdrng_avail s /\
                  st_online (snd (if c then (true, a) else b)) = st_online s /\
                  st_sdrng_atomic (snd (if c then (true, a) else b))
                    = st_sdrng_atomic s);
      [destruct c; [repeat split|]; cbn;
       match goal with
       | |- context [if ?c2 then _ else _] => destruct c2; repeat split
       end
      | destruct (if c then (true, a) else b) as [reset s1] ]
  end.
  cbn [snd] in F. destruct F as (F1 & F2 & F3 & F4 & F5).
  set (s2 := if reset then upd_sdrng r (lrng_sdrng_reset (st_jiffies s1)) s1
             else s1).
  assert (G : st_pdrng s2 = st_pdrng s /\ st_pool s2 = st_pool s /\
              st_pdrng_avail s2 = st_pdrng_avail s /\
              st_online s2 = st_online s /\
              st_sdrng_atomic s2 = st_sdrng_atomic s).
  { subst s2. destruct reset; [|auto].
    destruct (upd_sdrng_frame r (lrng_sdrng_reset (st_jiffies s1)) s1)
      as (U1 & U2 & U3 & U4 & U5).
    rewrite U1, U2, U3, U4, U5 by exact Hr. auto. }
  destruct G as (G1 & G2 & G3 & G4 & G5).
  match goal with
  | |- context [upd_sdrng r ?f s2] =>
      destruct (upd_sdrng_frame r f s2) as (U1 & U2 & U3 & U4 & U5)
  end.
  destruct (negb _); cbn [st_pdrng st_pool st_pdrng_avail st_online
                          st_sdrng_atomic emit];
    rewrite U1, U2, U3, U4, U5 by exact Hr; auto.
Qed.

Lemma node_ref_not_atomic s node r : node_ref s node = Some r -> r <> Ref_atomic.
Proof.
  unfold node_ref. destruct (st_sdrng s) as [tab|]; [|discriminate].
  destruct (tab !! node) as [[[|d]|]|]; intros [= <-]; discriminate.
Qed.

Lemma lrng_sdrng_switch_nodes_frame X cb nodes :
  forall s,
    st_pdrng (lrng_sdrng_switch_nodes X nodes cb s) = st_pdrng s /\
    st_pool (lrng_sdrng_switch_nodes X nodes cb s) = st_pool s /\
    st_pdrng_avail (lrng_sdrng_switch_nodes X nodes cb s) = st_pdrng_avail s /\
    st_online (lrng_sdrng_switch_nodes X nodes cb s) = st_online s /\
    st_sdrng_atomic (lrng_sdrng_switch_nodes X nodes cb s) = st_sdrng_atomic s.
Proof.
  induction nodes as [|node rest IH]; intros s; cbn [lrng_sdrng_switch_nodes];
    [repeat split|].
  destruct (node_ref s node) as [r|] eqn:N; [|apply IH].
  destruct (lrng_sdrng_switch_frame X r cb s (node_ref_not_atomic _ _ _ N))
    as (F1 & F2 & F3 & F4 & F5).
  destruct (IH (lrng_sdrng_switch X r cb s)) as (I1 & I2 & I3 & I4 & I5).
  rewrite I1, I2, I3, I4, I5. auto.
Qed.

(** X13: a switch of the DRNG implementation that cannot allocate what it
    needs changes nothing.  When the new primary DRNG cannot be allocated,
    the error is returned and no other call is made; when the hash cannot
    be allocated, the new primary DRNG is handed back to the callback set it
    came from.  In both cases the DRNGs, the pool and its hash stay as they
    were. *)
Theorem lrng_drngs_switch_alloc_failure (X : extern) (cb : Z) (s : lrng_state) :
  let r := lrng_drngs_switch X cb s in
  let unchanged :=
    st_pdrng (snd r) = st_pdrng s /\ st_pool (snd r) = st_pool s /\
    st_sdrng_init (snd r) = st_sdrng_init s /\
    st_sdrng_atomic (snd r) = st_sdrng_atomic s /\
    st_sdrng (snd r) = st_sdrng s /\
    st_pdrng_avail (snd r) = st_pdrng_avail s in
  (x_ret X (st_tick s) < 0 ->
   fst r = x_ret X (st_tick s) /\ unchanged /\
   st_trace (snd r) = st_trace s ++ [Ev_drng_alloc cb]) /\
  (0 <= x_ret X (st_tick s) -> x_ret X (Datatypes.S (st_tick s)) < 0 ->
   fst r = x_ret X (Datatypes.S (st_tick s)) /\ unchanged /\
   st_trace (snd r)
     = st_trace s ++ [Ev_drng_alloc cb; Ev_hash_alloc cb;
                      Ev_drng_dealloc cb (x_ret X (st_tick s))]).
Proof.
  cbv zeta. unfold lrng_drngs_switch, call_env_ptr, IS_ERR.
  cbn [st_tick emit step_tick].
  destruct (Z.ltb_spec (x_ret X (st_tick s)) 0) as [H1|H1].
  - split; [|intros; lia]. intros _. cbn. repeat split.
  - split; [intros; lia|]. intros _ H2.
    destruct (Z.ltb_spec (x_ret X (Datatypes.S (st_tick s))) 0); [|lia].
    cbn. repeat split. rewrite <- !app_assoc. reflexivity.
Qed.

(** X14: a switch that gets its allocations returns 0, installs the new
    primary DRNG and hash with the new callback set, marks the LRNG
    available, and leaves the pool contents, the interrupt bookkeeping and
    the atomic DRNG alone.  The seed status of the primary DRNG is carried
    over exactly when the LRNG had been initialised, the old DRNG delivered
    a seed and the new one accepted it; in every other case the primary
    DRNG starts unseeded with an entropy estimate of 0. *)
Theorem lrng_drngs_switch_success (X : extern) (cb : Z) (s : lrng_state) :
  0 <= x_ret X (st_tick s) ->
  0 <= x_ret X (Datatypes.S (st_tick s)) ->
  let r := lrng_drngs_switch X cb s in
  let t := st_tick s in
  let carried :=
    st_pdrng_avail s <> 0 /\
    0 <= s32 (x_gen X (2 + t)%nat LRNG_DRNG_SECURITY_STRENGTH_BYTES) /\
    0 <= s32 (x_ret X (3 + t)%nat) in
  fst r = 0 /\
  pdrng (st_pdrng (snd r)) = x_ret X t /\
  pdrng_crypto_cb (st_pdrng (snd r)) = cb /\
  lrng_hash (st_pool (snd r)) = x_ret X (Datatypes.S t) /\
  st_pdrng_avail (snd r) = 1 /\
  pool (st_pool (snd r)) = pool (st_pool s) /\
  irq_info (st_pool (snd r)) = irq_info (st_pool s) /\
  st_sdrng_atomic (snd r) = st_sdrng_atomic s /\
  (carried ->
   pdrng_fully_seeded (st_pdrng (snd r)) = pdrng_fully_seeded (st_pdrng s) /\
   pdrng_min_seeded (st_pdrng (snd r)) = pdrng_min_seeded (st_pdrng s) /\
   pdrng_entropy_bits (st_pdrng (snd r)) = pdrng_entropy_bits (st_pdrng s)) /\
  (~ carried ->
   pdrng_fully_seeded (st_pdrng (snd r)) = false /\
   pdrng_min_seeded (st_pdrng (snd r)) = false /\
   pdrng_entropy_bits (st_pdrng (snd r)) = 0).
Proof.
  intros H1 H2. cbv zeta.
  unfold lrng_drngs_switch, call_env_ptr, call_generate, call_env, IS_ERR.
  cbn [st_tick emit step_tick].
  destruct (Z.ltb_spec (x_ret X (st_tick s)) 0); [lia|].
  destruct (Z.ltb_spec (x_ret X (Datatypes.S (st_tick s))) 0); [lia|].
  cbv zeta.
  match goal with
  | |- context [match st_sdrng ?st with Some _ => _ | None => _ end] =>
      set (s5 := st)
  end.
  match goal with
  | |- context [match st_sdrng s5 with Some _ => ?a | None => ?b end] =>
      assert (F : st_pdrng (match st_sdrng s5 with Some _ => a | None => b end)
                    = st_pdrng s5 /\
                  st_pool (match st_sdrng s5 with Some _ => a | None => b end)
                    = st_pool s5 /\
                  st_sdrng_atomic
                    (match st_sdrng s5 with Some _ => a | None => b end)
                    = st_sdrng_atomic s5)
  end.
  { destruct (st_sdrng s5).
    - destruct (lrng_sdrng_switch_nodes_frame X cb (st_online s5) s5)
        as (F1 & F2 & _ & _ & F5). auto.
    - destruct (lrng_sdrng_switch_frame X Ref_init cb s5 ltac:(discriminate))
        as (F1 & F2 & _ & _ & F5). auto. }
  destruct F as (F1 & F2 & F3).
  cbn [fst snd st_pdrng st_pool st_sdrng_atomic st_pdrng_avail
       with_pdrng_avail].
  rewrite F1, F2, F3. subst s5. unfold atomic_read.
  change (2 + st_tick s)%nat with (Datatypes.S (Datatypes.S (st_tick s))).
  change (3 + st_tick s)%nat
    with (Datatypes.S (Datatypes.S (Datatypes.S (st_tick s)))).
  destruct (Z.ltb_spec
    (s32 (x_gen X (Datatypes.S (Datatypes.S (st_tick s)))
            LRNG_DRNG_SECURITY_STRENGTH_BYTES)) 0) as [G|G].
  - cbn. destruct (Z.eqb_spec (st_pdrng_avail s) 0); cbn;
      repeat split; intros; try reflexivity; try lia; exfalso; tauto.
  - cbn [st_tick emit step_tick].
    destruct (Z.ltb_spec
      (s32 (x_ret X (Datatypes.S (Datatypes.S (Datatypes.S (st_tick s))))))
      0) as [S|S].
    + cbn. destruct (Z.eqb_spec (st_pdrng_avail s) 0); cbn;
        repeat split; intros; try reflexivity; try lia; exfalso; tauto.
    + cbn. destruct (Z.eqb_spec (st_pdrng_avail s) 0); cbn;
        repeat split; intros; try reflexivity; try lia; exfalso; tauto.
Qed.

Lemma lrng_drngs_switch_success_witness :
  pdrng_fully_seeded (st_pdrng
    (snd (lrng_drngs_switch (const_extern 5 [] 64) 7
            lrng_fully_seeded_state))) = true /\
  pdrng_crypto_cb (st_pdrng
    (snd (lrng_drngs_switch (const_extern 5 [] 64) 7
            lrng_fully_seeded_state))) = 7.
Proof.
  destruct (lrng_drngs_switch_success (const_extern 5 [] 64) 7
              lrng_fully_seeded_state ltac:(discriminate)
              ltac:(discriminate))
    as (_ & _ & C & _ & _ & _ & _ & _ & K & _).
  split; [|exact C].
  destruct K as (K & _); [|rewrite K; reflexivity].
  split; [discriminate|]. split; discriminate.
Defined.

(** ** What seeding and generating leave alone *)

Lemma pool_config_lfsr_bytes buf :
  forall p, pool_config (lrng_pool_lfsr_bytes buf p) = pool_config p.
Proof.
  induction buf as [|b rest IH]; intros p; cbn [lrng_pool_lfsr_bytes];
    [reflexivity | rewrite IH; reflexivity].
Qed.

Lemma pool_config_lfsr n :
  forall buf p, length buf = n ->
    pool_config (lrng_pool_lfsr buf p) = pool_config p.
Proof.
  induction n as [n IH] using lt_wf_ind; intros buf p Hn.
  destruct buf as [|b0 [|b1 [|b2 [|b3 rest]]]];
    try apply pool_config_lfsr_bytes.
  cbn [lrng_pool_lfsr].
  rewrite (IH (length rest)) with (buf := rest);
    [reflexivity | subst n; cbn [length]; lia | reflexivity].
Qed.

Lemma config_with_pool f s :
  pool_config (f (st_pool s)) = pool_config (st_pool s) ->
  config_of (with_pool f s) = config_of s.
Proof.
  unfold pool_config, config_of. cbn. intros [= -> -> ->]. reflexivity.
Qed.

Lemma config_hash_pool_loop X fuel :
  forall ds i avail gen out s r out' s',
    lrng_hash_pool_loop X fuel ds i avail gen out s = Returns (r, out', s') ->
    config_of s' = config_of s.
Proof.
  induction fuel as [|fuel IH]; intros ds i avail gen out s r out' s';
    rewrite lrng_hash_pool_loop_unfold;
    destruct ((i <? _) && (0 <? avail)); try discriminate;
    try (intros [= <- <- <-]; reflexivity).
  cbv zeta. destruct (negb _).
  - intros [= <- <- <-]. reflexivity.
  - intros E. apply IH in E. rewrite E.
    rewrite config_with_pool; [reflexivity|].
    eapply pool_config_lfsr. reflexivity.
Qed.

Lemma config_get_pool X fuel requested drain s r out s' :
  lrng_get_pool X fuel requested drain s = Returns (r, out, s') ->
  config_of s' = config_of s.
Proof.
  unfold lrng_get_pool. cbv zeta.
  set (s0 := with_pool (with_irq_info (set_num_events 0)) s).
  assert (H : forall b n,
    (' (b', o, s1) ← lrng_hash_pool X fuel b s0;
     Returns (lrng_get_pool_out X n b' o s1)) = Returns (r, out, s') ->
    config_of s' = config_of s).
  { intros b n. unfold lrng_hash_pool.
    destruct (64 <? _); [discriminate|].
    match goal with
    | |- context [lrng_hash_pool_loop X fuel ?ds ?i ?a ?g ?o ?st] =>
        destruct (lrng_hash_pool_loop X fuel ds i a g o st)
          as [[[g' o'] s1]| |] eqn:L
    end; cbn [mbind outcome_mbind outcome_bind]; try discriminate.
    intros [= <- <- <-]. apply config_hash_pool_loop in L.
    transitivity (config_of s1); [reflexivity | exact L]. }
  destruct drain; [apply H|].
  destruct (_ <? _); [|apply H].
  intros [= <- <- <-]. reflexivity.
Qed.

Lemma config_get_arch_loop X n :
  forall s, config_of (snd (lrng_get_arch_loop X n s)) = config_of s.
Proof.
  induction n as [|n IH]; intros s; cbn [lrng_get_arch_loop]; [reflexivity|].
  destruct (negb (x_ret X (st_tick s) =? 0)); [rewrite IH; reflexivity|].
  destruct (negb (x_ret X (st_tick (step_tick s)) =? 0));
    [rewrite IH; reflexivity | reflexivity].
Qed.

Lemma config_get_arch X s : config_of (snd (lrng_get_arch X s)) = config_of s.
Proof.
  unfold lrng_get_arch. destruct (st_archrandom s =? 0); [reflexivity|].
  pose proof (config_get_arch_loop X
    (Z.to_nat (LRNG_DRNG_SECURITY_STRENGTH_BYTES / 8)) s) as T.
  destruct (lrng_get_arch_loop X _ s) as [ok s1]. cbn [snd] in T.
  destruct ok; exact T.
Qed.

Lemma config_get_jent X len s : config_of (snd (lrng_get_jent X len s)) = config_of s.
Proof.
  unfold lrng_get_jent. destruct (_ || _); [reflexivity|].
  destruct (st_jent_initialized s =? 0).
  - destruct (x_ret X (st_tick s) =? 0); cbn; [reflexivity|].
    destruct (negb _); reflexivity.
  - cbn. destruct (negb _); reflexivity.
Qed.

Lemma config_init_ops bits s :
  config_of (lrng_pdrng_init_ops bits s) = config_of s.
Proof.
  unfold lrng_pdrng_init_ops, wake_up_init_wait.
  destruct (pdrng_fully_seeded (st_pdrng s)); [reflexivity|].
  destruct (_ <=? _); [rewrite lrng_process_ready_list_eq; reflexivity|].
  destruct (negb _); [|reflexivity].
  destruct (_ <=? _); [rewrite lrng_process_ready_list_eq; reflexivity|].
  destruct (_ <=? _); reflexivity.
Qed.

Lemma config_generate X len fe s :
  config_of (snd (lrng_pdrng_generate X len fe s)) = config_of s.
Proof.
  unfold lrng_pdrng_generate, call_generate.
  destruct (fe && _); [reflexivity|].
  match goal with |- context [if ?b =? 0 then _ else _] => destruct (b =? 0) end;
    [reflexivity|].
  cbn. destruct (negb _); reflexivity.
Qed.

Lemma config_wake_readers s : config_of (wake_readers_if_full s) = config_of s.
Proof. unfold wake_readers_if_full. destruct (_ && _); reflexivity. Qed.

Lemma config_pdrng_inject X inbuflen bits outbuf len fe s :
  config_of (snd (lrng_pdrng_inject X inbuflen bits outbuf len fe s))
  = config_of s.
Proof.
  unfold lrng_pdrng_inject, call_env.
  destruct (s32 (x_ret X (st_tick s)) <? 0); cbn [snd].
  { rewrite config_wake_readers. reflexivity. }
  cbv zeta.
  match goal with
  | |- context [lrng_pdrng_init_ops ?b ?st] =>
      pose proof (config_init_ops b st) as Ci;
      set (s2 := lrng_pdrng_init_ops b st) in *
  end.
  destruct (outbuf && negb (len =? 0)).
  - pose proof (config_generate X len fe s2) as G.
    destruct (lrng_pdrng_generate X len fe s2) as [r3 s3]. cbn [snd] in *.
    rewrite config_wake_readers, G, Ci. reflexivity.
  - cbn [snd]. rewrite config_wake_readers, Ci. reflexivity.
Qed.

Lemma config_seed_locked X fuel len fe drain s ret s' :
  lrng_pdrng_seed_locked X fuel len fe drain s = Returns (ret, s') ->
  config_of s' = config_of s.
Proof.
  intros E. apply lrng_pdrng_seed_locked_cases in E.
  pose proof (config_generate X len fe s) as G.
  destruct E as [(s1 & _ & E1 & _ & _ & ->)
    | (retrieved & len1 & s1 & tb & o & s2 & ab & s3 & jb & s4 & ret2 & s5 &
       First & P & A & J & I & _ & ->)].
  - rewrite E1 in G. exact G.
  - assert (C1 : config_of s1 = config_of s).
    { destruct First as [(-> & _) | [(r1 & E1 & _) | (E1 & _)]];
        [reflexivity | rewrite E1 in G; exact G | rewrite E1 in G; exact G]. }
    apply config_get_pool in P.
    pose proof (config_get_arch X s2) as A'. rewrite A in A'.
    pose proof (config_get_jent X LRNG_DRNG_SECURITY_STRENGTH_BYTES s3) as J'.
    rewrite J in J'.
    pose proof (config_pdrng_inject X
      (3 * LRNG_DRNG_SECURITY_STRENGTH_BYTES + 4) (u32 (u32 (tb + ab) + jb))
      true len1 fe (step_tick s4)) as I'.
    rewrite I in I'. cbn [snd] in *.
    transitivity (config_of s5);
      [unfold release_reseed_gate; destruct (lrng_need_entropy s5); reflexivity|].
    rewrite I'. transitivity (config_of s4); [reflexivity|]. congruence.
Qed.

Lemma config_pdrng_seed X fuel len fe drain s ret s' :
  lrng_pdrng_seed X fuel len fe drain s = Returns (ret, s') ->
  config_of s' = config_of s.
Proof.
  unfold lrng_pdrng_seed. destruct (negb _).
  - intros [= _ <-]. reflexivity.
  - intros E. apply config_seed_locked in E. exact E.
Qed.

Lemma config_upd_sdrng r f s : config_of (upd_sdrng r f s) = config_of s.
Proof.
  destruct r as [| |n]; cbn; try reflexivity.
  destruct (st_sdrng s) as [tab|]; [|reflexivity].
  destruct (tab !! n) as [[[|d]|]|]; reflexivity.
Qed.

Lemma config_sdrng_inject X r len internal s :
  config_of (lrng_sdrng_inject X r len internal s) = config_of s.
Proof.
  unfold lrng_sdrng_inject, call_env. cbv zeta.
  destruct (_ <? 0); [rewrite config_upd_sdrng; reflexivity|].
  destruct internal; [rewrite config_upd_sdrng; reflexivity | reflexivity].
Qed.

Lemma config_init_cc20 X s : config_of (lrng_drngs_init_cc20 X s) = config_of s.
Proof.
  unfold lrng_drngs_init_cc20. destruct (negb _); [reflexivity|].
  destruct (negb (x_ret X (st_tick s) =? 0));
    [|destruct (negb (x_ret X (st_tick (step_tick s)) =? 0))]; reflexivity.
Qed.

Lemma config_sdrng X fuel :
  (forall ctx r f s s',
     (forall a b c s0 r0 s1,
        f a b c s0 = Returns (r0, s1) -> config_of s1 = config_of s0) ->
     lrng_sdrng_seed X fuel ctx r f s = Returns s' ->
     config_of s' = config_of s) /\
  (forall ctx r len processed s ret s',
     lrng_sdrng_get_loop X fuel ctx r len processed s = Returns (ret, s') ->
     config_of s' = config_of s) /\
  (forall ctx len s ret s',
     lrng_sdrng_get X fuel ctx len s = Returns (ret, s') ->
     config_of s' = config_of s).
Proof.
  induction fuel as [|fuel (IHseed & IHloop & IHget)].
  { split; [|split].
    - intros; discriminate.
    - intros ctx r len processed s ret s'. rewrite lrng_sdrng_get_loop_unfold.
      destruct (len =? 0); [|discriminate].
      intros [= _ <-]. reflexivity.
    - intros; discriminate. }
  split; [|split].
  - intros ctx r f s s' Hgood. rewrite lrng_sdrng_seed_unfold. cbv zeta.
    set (s0 := emit (Ev_sdrng_seed r) s).
    destruct (f LRNG_DRNG_SECURITY_STRENGTH_BYTES false
                (negb (fully_seeded (get_sdrng r s0))) s0)
      as [[ret s1]| |] eqn:F; cbn [mbind outcome_mbind outcome_bind];
      try discriminate.
    apply Hgood in F.
    assert (C1 : config_of s1 = config_of s) by (rewrite F; reflexivity).
    destruct (ret <? 0).
    { destruct (negb _); intros [= <-]; rewrite ?config_upd_sdrng; exact C1. }
    set (s2 := lrng_sdrng_inject X r ret true s1).
    set (s3 := upd_sdrng r (set_force_reseed false) s2).
    set (s4 := if LRNG_DRNG_SECURITY_STRENGTH_BYTES <=? ret
               then upd_sdrng r (set_fully_seeded true) s3 else s3).
    assert (C4 : config_of s4 = config_of s).
    { subst s4 s3 s2. destruct (_ <=? _);
        rewrite ?config_upd_sdrng, config_sdrng_inject; exact C1. }
    destruct (lrng_atomic_reseed_due X r s4).
    + destruct (lrng_sdrng_get X fuel ctx LRNG_DRNG_SECURITY_STRENGTH_BYTES s4)
        as [[ret2 s5]| |] eqn:G; cbn [mbind outcome_mbind outcome_bind];
        try discriminate.
      apply IHget in G.
      destruct (ret2 <? 0); intros [= <-].
      * congruence.
      * transitivity (config_of (lrng_sdrng_inject X Ref_atomic ret2 true s5));
          [reflexivity|]. rewrite config_sdrng_inject. congruence.
    + intros [= <-]. exact C4.
  - intros ctx r len processed s ret s'. rewrite lrng_sdrng_get_loop_unfold.
    destruct (len =? 0).
    { intros [= _ <-]. reflexivity. }
    cbv zeta.
    assert (Cd : config_of (snd (lrng_sdrng_reseed_due X r s)) = config_of s).
    { unfold lrng_sdrng_reseed_due. cbn [snd]. apply config_upd_sdrng. }
    destruct (lrng_sdrng_reseed_due X r s) as [due s1]. cbn [snd] in Cd.
    destruct (if due && negb (sdrng_ref_eqb r Ref_atomic)
              then lrng_sdrng_seed X fuel ctx r (lrng_pdrng_seed X fuel) s1
              else Returns s1) as [s2| |] eqn:S;
      cbn [mbind outcome_mbind outcome_bind]; try discriminate.
    assert (C2 : config_of s2 = config_of s).
    { destruct (due && negb (sdrng_ref_eqb r Ref_atomic)).
      - apply IHseed in S; [congruence|].
        intros a b c s0 r0 s3. apply config_pdrng_seed.
      - injection S as <-. exact Cd. }
    unfold call_generate.
    destruct (s32 _ <=? 0).
    + intros [= _ <-]. exact C2.
    + intros E. apply IHloop in E. rewrite E. exact C2.
  - intros ctx len s ret s'. rewrite lrng_sdrng_get_unfold.
    destruct (len =? 0).
    { intros [= _ <-]. reflexivity. }
    destruct (lrng_sdrng_select ctx (lrng_drngs_init_cc20 X s)) as [r|];
      [|discriminate].
    intros E. apply IHloop in E. rewrite E. apply config_init_cc20.
Qed.

Lemma config_of_fields s s' :
  config_of s' = config_of s ->
  st_reseed_max_time s' = st_reseed_max_time s /\
  st_jiffies s' = st_jiffies s /\
  st_online s' = st_online s /\
  all_online_numa_node_seeded (st_pool s')
    = all_online_numa_node_seeded (st_pool s) /\
  numa_drngs (st_pool s') = numa_drngs (st_pool s) /\
  st_write_wakeup_bits s' = st_write_wakeup_bits s /\
  st_read_wakeup_bits s' = st_read_wakeup_bits s /\
  st_read_sleeper s' = st_read_sleeper s /\
  lrng_hash (st_pool s') = lrng_hash (st_pool s) /\
  pdrng (st_pdrng s') = pdrng (st_pdrng s) /\
  pdrng_crypto_cb (st_pdrng s') = pdrng_crypto_cb (st_pdrng s).
Proof.
  unfold config_of. intros H.
  injection H as H1 H2 H3 H4 H5 H6 H7 H8 H9 H10 H11. auto 12.
Qed.

(** X15: reading random numbers and seeding change no setting.  Whatever
    [lrng_sdrng_get], [lrng_pdrng_get], [lrng_pdrng_seed] and
    [lrng_sdrng_seed] do to the pool and the DRNGs, they leave the reseed
    interval, the clock, the set of online nodes, the NUMA bookkeeping of the
    pool, the wake-up thresholds, the pool hash and the handle and callback
    set of the primary DRNG as they were. *)
Theorem requests_keep_configuration (X : extern) (fuel : nat) (s : lrng_state) :
  (forall ctx len ret s',
     lrng_sdrng_get X fuel ctx len s = Returns (ret, s') ->
     config_of s' = config_of s) /\
  (forall len ret s',
     lrng_pdrng_get X fuel len s = Returns (ret, s') ->
     config_of s' = config_of s) /\
  (forall len fe drain ret s',
     lrng_pdrng_seed X fuel len fe drain s = Returns (ret, s') ->
     config_of s' = config_of s) /\
  (forall ctx r s',
     lrng_sdrng_seed X fuel ctx r (lrng_pdrng_seed X fuel) s = Returns s' ->
     config_of s' = config_of s) /\
  (forall s', config_of s' = config_of s ->
     st_reseed_max_time s' = st_reseed_max_time s /\
     st_jiffies s' = st_jiffies s /\
     st_online s' = st_online s /\
     all_online_numa_node_seeded (st_pool s')
       = all_online_numa_node_seeded (st_pool s) /\
     numa_drngs (st_pool s') = numa_drngs (st_pool s) /\
     st_write_wakeup_bits s' = st_write_wakeup_bits s /\
     st_read_wakeup_bits s' = st_read_wakeup_bits s /\
     st_read_sleeper s' = st_read_sleeper s /\
     lrng_hash (st_pool s') = lrng_hash (st_pool s) /\
     pdrng (st_pdrng s') = pdrng (st_pdrng s) /\
     pdrng_crypto_cb (st_pdrng s') = pdrng_crypto_cb (st_pdrng s)).
Proof.
  destruct (config_sdrng X fuel) as (Cseed & _ & Cget).
  split; [intros ctx len ret s'; apply Cget|].
  split.
  { intros len ret s'. unfold lrng_pdrng_get.
    destruct (len =? 0); [intros [= _ <-]; reflexivity|]. cbv zeta.
    destruct (lrng_pdrng_seed X fuel len true true (lrng_drngs_init_cc20 X s))
      as [[r s1]| |] eqn:E; cbn [mbind outcome_mbind outcome_bind];
      try discriminate.
    apply config_pdrng_seed in E. rewrite config_init_cc20 in E.
    destruct (0 <? r); [|destruct (r =? - EINPROGRESS)];
      intros [= _ <-]; exact E. }
  split; [intros len fe drain ret s'; apply config_pdrng_seed|].
  split.
  { intros ctx r s'. apply Cseed.
    intros a b c s0 r0 s1. apply config_pdrng_seed. }
  intros s'. apply config_of_fields.
Qed.

Lemma first_unseeded_node_none nodes s :
  first_unseeded_node nodes s = None ->
  forall node r,
    In node nodes -> node_ref s node = Some r ->
    fully_seeded (get_sdrng r s) = true.
Proof.
  induction nodes as [|n rest IH]; cbn [first_unseeded_node In];
    [intros _ node r []|].
  destruct (node_ref s n) as [r0|] eqn:N.
  - destruct (fully_seeded (get_sdrng r0 s)) eqn:F; cbn [negb];
      [|discriminate].
    intros E node r [<-|Hin] Hr; [congruence | eapply IH; eassumption].
  - intros E node r [<-|Hin] Hr; [congruence | eapply IH; eassumption].
Qed.

Lemma _lrng_sdrng_seed_work_config X fuel ctx r node s s' :
  _lrng_sdrng_seed_work X fuel ctx r node s = Returns s' ->
  exists t,
    (t = st_reseed_max_time s \/ t = s32 (st_reseed_max_time s + 100)) /\
    config_of s' = config_of (with_reseed_max_time t s).
Proof.
  unfold _lrng_sdrng_seed_work.
  destruct (lrng_sdrng_seed X fuel ctx r (lrng_pdrng_seed_locked X fuel) s)
    as [s1| |] eqn:S; cbn [mbind outcome_mbind outcome_bind]; try discriminate.
  destruct (config_sdrng X fuel) as (Cseed & _).
  apply Cseed in S;
    [|intros a b c s0 r0 s2; apply config_seed_locked].
  pose proof (config_of_fields _ _ S) as (F1 & _).
  assert (K : forall t a b, config_of a = config_of b ->
            config_of (with_reseed_max_time t a)
            = config_of (with_reseed_max_time t b)).
  { intros t a b. unfold config_of. cbn. intros [= ? ? ? ? ? ? ? ? ? ? ?].
    congruence. }
  destruct (fully_seeded (get_sdrng r s1)); cbv zeta.
  - intros [= <-]. exists (s32 (st_reseed_max_time s + 100)).
    split; [right; reflexivity|].
    match goal with
    | |- context [upd_sdrng r ?f s1] =>
        pose proof (config_upd_sdrng r f s1) as U;
        pose proof (config_of_fields _ _ U) as (U1 & _);
        rewrite U1, F1
    end.
    apply K. congruence.
  - intros [= <-]. exists (st_reseed_max_time s). split; [left; reflexivity|].
    rewrite S. unfold config_of. cbn. reflexivity.
Qed.

(** X16: the reseed work function.  Whatever the seeding does, the function
    clears [reseed_in_progress] before it returns, so that the next
    interrupt above the threshold can schedule it again.  It raises
    [all_online_numa_node_seeded] only when the per-node table exists and
    the DRNG of every online node is fully seeded; without the table the
    flag is never set.  A run lengthens the reseed interval by 100 seconds
    or leaves it, and changes no other setting. *)
Theorem lrng_sdrng_seed_work_outcome
    (X : extern) (fuel : nat) (ctx : call_ctx) (s s' : lrng_state) :
  lrng_sdrng_seed_work X fuel ctx s = Returns s' ->
  reseed_gate s' = 0 /\
  (all_online_numa_node_seeded (st_pool s') = true ->
   all_online_numa_node_seeded (st_pool s) = true \/
   (st_sdrng s <> None /\
    forall node r,
      In node (st_online s) -> node_ref s node = Some r ->
      fully_seeded (get_sdrng r s) = true)) /\
  (st_sdrng s = None ->
   all_online_numa_node_seeded (st_pool s')
     = all_online_numa_node_seeded (st_pool s)) /\
  (st_reseed_max_time s' = st_reseed_max_time s \/
   st_reseed_max_time s' = s32 (st_reseed_max_time s + 100)) /\
  st_online s' = st_online s /\ st_jiffies s' = st_jiffies s /\
  lrng_hash (st_pool s') = lrng_hash (st_pool s).
Proof.
  unfold lrng_sdrng_seed_work.
  assert (Work : forall r node s1,
    _lrng_sdrng_seed_work X fuel ctx r node s = Returns s1 ->
    all_online_numa_node_seeded (st_pool s1)
      = all_online_numa_node_seeded (st_pool s) /\
    (st_reseed_max_time s1 = st_reseed_max_time s \/
     st_reseed_max_time s1 = s32 (st_reseed_max_time s + 100)) /\
    st_online s1 = st_online s /\ st_jiffies s1 = st_jiffies s /\
    lrng_hash (st_pool s1) = lrng_hash (st_pool s)).
  { intros r node s1 W. apply _lrng_sdrng_seed_work_config in W.
    destruct W as (t & Ht & C). apply config_of_fields in C.
    destruct C as (C1 & C2 & C3 & C4 & _ & _ & _ & _ & C9 & _).
    cbn in C1, C2, C3, C4, C9.
    split; [exact C4|]. split; [rewrite C1; exact Ht|]. auto. }
  destruct (st_sdrng s) as [tab|] eqn:T.
  - destruct (first_unseeded_node (st_online s) s) as [[r node]|] eqn:F.
    + destruct (_lrng_sdrng_seed_work X fuel ctx r (Z.of_nat node) s)
        as [s1| |] eqn:W; cbn [mbind outcome_mbind outcome_bind];
        try discriminate.
      intros [= <-]. apply Work in W. destruct W as (W1 & W2 & W3 & W4 & W5).
      split; [reflexivity|]. cbn.
      split; [rewrite W1; auto|]. split; [discriminate|].
      split; [exact W2|]. auto.
    + cbn [mbind outcome_mbind outcome_bind]. intros [= <-].
      split; [reflexivity|]. cbn.
      split.
      { intros _. right. split; [discriminate|].
        apply first_unseeded_node_none. exact F. }
      split; [discriminate|]. split; [left; reflexivity|]. auto.
  - destruct (negb (fully_seeded (st_sdrng_init s))).
    + destruct (_lrng_sdrng_seed_work X fuel ctx Ref_init 0 s)
        as [s1| |] eqn:W; cbn [mbind outcome_mbind outcome_bind];
        try discriminate.
      intros [= <-]. apply Work in W. destruct W as (W1 & W2 & W3 & W4 & W5).
      split; [reflexivity|]. cbn.
      split; [rewrite W1; auto|]. split; [intros _; exact W1|].
      split; [exact W2|]. auto.
    + cbn [mbind outcome_mbind outcome_bind]. intros [= <-].
      split; [reflexivity|]. cbn.
      split; [auto|]. split; [reflexivity|]. split; [left; reflexivity|]. auto.
Qed.

Lemma lrng_sdrng_seed_work_outcome_witness :
  reseed_gate (state_after
    (lrng_sdrng_seed_work (const_extern 0 [1; 2; 3] 64) 40 process_context
       (lrng_state_with_events 1000))) = 0 /\
  st_reseed_max_time (state_after
    (lrng_sdrng_seed_work (const_extern 0 [1; 2; 3] 64) 40 process_context
       (lrng_state_with_events 1000))) = 700.
Proof.
  assert (H : lrng_sdrng_seed_work (const_extern 0 [1; 2; 3] 64) 40
                process_context (lrng_state_with_events 1000)
              = Returns (state_after
                  (lrng_sdrng_seed_work (const_extern 0 [1; 2; 3] 64) 40
                     process_context (lrng_state_with_events 1000))))
    by (vm_compute; reflexivity).
  destruct (lrng_sdrng_seed_work_outcome _ _ _ _ _ H) as (G & _).
  split; [exact G | vm_compute; reflexivity].
Defined.

(** ** Writing to the devices *)

Lemma lrng_drng_write_loop_unfold X fuel count eb ret s :
  lrng_drng_write_loop X fuel count eb ret s =
  if 0 <? count then
    match fuel with
    | O => OutOfFuel
    | Datatypes.S fuel' =>
        if negb (x_ret X (st_tick s) =? 0) then Returns (None, step_tick s)
        else
          lrng_drng_write_loop X fuel' (count - Z.min count 64)
            (u32 (eb - min_u32 (Z.shiftl (Z.min count 64) 3) eb))
            (ret + Z.min count 64)
            (snd (lrng_pdrng_inject X (Z.min count 64)
                    (min_u32 (Z.shiftl (Z.min count 64) 3) eb) false 0 false
                    (step_tick s)))
    end
  else Returns (Some ret, s).
Proof. destruct fuel; reflexivity. Qed.

Lemma lrng_drng_write_loop_result X fuel :
  forall count eb ret s w s',
    0 <= count ->
    lrng_drng_write_loop X fuel count eb ret s = Returns (w, s') ->
    w = None \/ w = Some (ret + count).
Proof.
  induction fuel as [|fuel IH]; intros count eb ret s w s' Hc;
    rewrite lrng_drng_write_loop_unfold;
    destruct (Z.ltb_spec 0 count) as [Hpos|Hz]; try discriminate;
    try (intros [= <- _]; right; f_equal; lia).
  destruct (negb _); [intros [= <- _]; left; reflexivity|].
  intros E. apply IH in E; [|lia].
  destruct E as [E|E]; [left; exact E|]. right. rewrite E. f_equal. lia.
Qed.




Lemma lrng_pdrng_init_ops_frame bits s :
  sdrngs_of (lrng_pdrng_init_ops bits s) = sdrngs_of s /\
  pool (st_pool (lrng_pdrng_init_ops bits s)) = pool (st_pool s) /\
  num_events (irq_info (st_pool (lrng_pdrng_init_ops bits s)))
    = num_events (irq_info (st_pool s)).
Proof.
  unfold lrng_pdrng_init_ops, wake_up_init_wait.
  destruct (pdrng_fully_seeded (st_pdrng s)); [repeat split|].
  destruct (_ <=? _);
    [rewrite lrng_process_ready_list_eq; repeat split|].
  destruct (negb _); [|repeat split].
  destruct (_ <=? _);
    [rewrite lrng_process_ready_list_eq; repeat split|].
  destruct (_ <=? _); repeat split.
Qed.

(** An injection that asks for no output: the estimate grows by at most the
    entropy claimed, the secondary DRNGs and the pool are not touched. *)
Lemma lrng_pdrng_inject_plain X n e s :
  pdrng_budget_ok s -> 0 <= e < 2 ^ 32 -> 0 <= n <= 64 ->
  let s' := snd (lrng_pdrng_inject X n e false 0 false s) in
  pdrng_budget_ok s' /\
  pdrng_entropy_bits (st_pdrng s) <= pdrng_entropy_bits (st_pdrng s')
    <= pdrng_entropy_bits (st_pdrng s) + e /\
  sdrngs_of s' = sdrngs_of s /\
  pool (st_pool s') = pool (st_pool s) /\
  num_events (irq_info (st_pool s')) = num_events (irq_info (st_pool s)).
Proof.
  intros B He Hn. cbv zeta.
  split; [apply lrng_pdrng_inject_budget; exact B|].
  unfold pdrng_budget_ok, LRNG_DRNG_SECURITY_STRENGTH_BITS,
    LRNG_DRNG_SECURITY_STRENGTH_BYTES in B.
  unfold lrng_pdrng_inject, call_env.
  assert (W : forall s0, sdrngs_of (wake_readers_if_full s0) = sdrngs_of s0 /\
                st_pool (wake_readers_if_full s0) = st_pool s0).
  { intros s0. unfold wake_readers_if_full. destruct (_ && _); split; reflexivity. }
  destruct (s32 (x_ret X (st_tick s)) <? 0); cbn [snd andb].
  { destruct (W (emit (Ev_drng_seed (pdrng_crypto_cb (st_pdrng s))
                         (pdrng (st_pdrng s)) n) (step_tick s))) as (W1 & W2).
    rewrite st_pdrng_wake_readers, W1, W2. cbn. repeat split; lia. }
  cbv zeta.
  match goal with
  | |- context [lrng_pdrng_init_ops ?b ?st] =>
      destruct (lrng_pdrng_init_ops_frame b st) as (F1 & F2 & F3);
      pose proof (pdrng_entropy_bits_init_ops b st) as F4;
      set (s2 := lrng_pdrng_init_ops b st) in *
  end.
  destruct (W s2) as (W1 & W2).
  rewrite st_pdrng_wake_readers, W1, W2, F1, F2, F3, F4. cbn.
  unfold min_u32.
  match goal with
  | |- context [Z.min (u32 e) (u32 ?m)] =>
      assert (0 <= u32 m <= 512)
        by (rewrite Z.shiftl_mul_pow2 by lia; change (2 ^ 3) with 8;
            rewrite u32_small; lia);
      set (m' := u32 m) in *
  end.
  rewrite (u32_small e) by lia.
  assert (Hs : u32 (pdrng_entropy_bits (st_pdrng s) + Z.min e m')
               = pdrng_entropy_bits (st_pdrng s) + Z.min e m').
  { apply u32_small. lia. }
  rewrite Hs. change (u32 LRNG_DRNG_SECURITY_STRENGTH_BITS) with 256.
  repeat split; lia.
Qed.

Lemma lrng_drng_write_loop_effects X fuel :
  forall count eb ret s w s',
    pdrng_budget_ok s -> 0 <= eb < 2 ^ 32 ->
    lrng_drng_write_loop X fuel count eb ret s = Returns (w, s') ->
    pdrng_budget_ok s' /\
    pdrng_entropy_bits (st_pdrng s) <= pdrng_entropy_bits (st_pdrng s')
      <= pdrng_entropy_bits (st_pdrng s) + eb /\
    sdrngs_of s' = sdrngs_of s /\
    pool (st_pool s') = pool (st_pool s) /\
    num_events (irq_info (st_pool s')) = num_events (irq_info (st_pool s)).
Proof.
  induction fuel as [|fuel IH]; intros count eb ret s w s' B He;
    rewrite lrng_drng_write_loop_unfold;
    destruct (Z.ltb_spec 0 count) as [Hpos|Hz]; try discriminate;
    try (intros [= _ <-]; repeat split; try apply B; lia).
  destruct (negb _).
  { intros [= _ <-]. cbn. repeat split; try apply B; lia. }
  set (ent := min_u32 (Z.shiftl (Z.min count 64) 3) eb).
  assert (Hent : 0 <= ent <= eb).
  { unfold ent, min_u32.
    pose proof (u32_range (Z.shiftl (Z.min count 64) 3)).
    rewrite (u32_small eb) by lia. lia. }
  assert (B0 : pdrng_budget_ok (step_tick s)) by exact B.
  destruct (lrng_pdrng_inject_plain X (Z.min count 64) ent (step_tick s) B0
              ltac:(lia) ltac:(lia)) as (B1 & E1 & S1 & P1 & N1).
  cbv zeta in B1, E1, S1, P1, N1.
  intros E. apply IH in E; [|exact B1|rewrite u32_small; lia].
  destruct E as (B2 & E2 & S2 & P2 & N2).
  rewrite u32_small in E2 by lia.
  change (st_pdrng (step_tick s)) with (st_pdrng s) in E1.
  split; [exact B2|]. split; [lia|].
  rewrite S2, P2, N2, S1, P1, N1. repeat split.
Qed.

Lemma node_ref_upd_sdrng r f s node :
  node_ref (upd_sdrng r f s) node = node_ref s node.
Proof.
  destruct r as [| |n]; try reflexivity. unfold node_ref, upd_sdrng.
  destruct (st_sdrng s) as [tab|] eqn:T; [|rewrite T; reflexivity].
  destruct (tab !! n) as [[[|d]|]|] eqn:L; try (rewrite T; reflexivity).
  cbn. destruct (Nat.eq_dec node n) as [->|Hne].
  - rewrite list_lookup_insert_eq by (apply lookup_lt_Some in L; exact L).
    rewrite L. reflexivity.
  - rewrite list_lookup_insert_ne by congruence. reflexivity.
Qed.

Lemma force_reseed_upd_sdrng r r' s :
  force_reseed (get_sdrng r s) = true ->
  force_reseed (get_sdrng r (upd_sdrng r' (set_force_reseed true) s)) = true.
Proof.
  destruct r' as [| |n'].
  - destruct r as [| |n]; cbn; intros H; try assumption; try reflexivity.
    all: destruct (st_sdrng s) as [tab|]; try reflexivity; try assumption.
    all: destruct (tab !! n) as [[[|d]|]|]; try reflexivity; try assumption.
  - destruct r as [| |n]; cbn; intros H; try assumption; try reflexivity.
    all: destruct (st_sdrng s) as [tab|]; try reflexivity; try assumption.
    all: destruct (tab !! n) as [[[|d]|]|]; try reflexivity; try assumption.
  - unfold upd_sdrng.
    destruct (st_sdrng s) as [tab|] eqn:T; [|intros; assumption].
    destruct (tab !! n') as [[[|d']|]|] eqn:L'; try (intros; assumption).
    destruct r as [| |n]; cbn; try (intros; assumption).
    rewrite T. destruct (Nat.eq_dec n n') as [->|Hne].
    + rewrite list_lookup_insert_eq by (apply lookup_lt_Some in L'; exact L').
      reflexivity.
    + rewrite list_lookup_insert_ne by congruence. intros; assumption.
Qed.

Lemma force_reseed_nodes_frame nodes :
  forall s,
    st_pdrng (force_reseed_nodes nodes s) = st_pdrng s /\
    st_pool (force_reseed_nodes nodes s) = st_pool s /\
    st_online (force_reseed_nodes nodes s) = st_online s /\
    (forall node, node_ref (force_reseed_nodes nodes s) node = node_ref s node) /\
    (forall r, force_reseed (get_sdrng r s) = true ->
               force_reseed (get_sdrng r (force_reseed_nodes nodes s)) = true).
Proof.
  induction nodes as [|n rest IH]; intros s; cbn [force_reseed_nodes].
  { repeat split; auto. }
  destruct (node_ref s n) as [r0|]; [|apply IH].
  destruct (IH (upd_sdrng r0 (set_force_reseed true) s))
    as (I1 & I2 & I3 & I4 & I5).
  destruct (upd_sdrng_frame r0 (set_force_reseed true) s)
    as (U1 & U2 & _ & U4 & _).
  rewrite I1, I2, I3, U1, U2, U4.
  split; [reflexivity|]. split; [reflexivity|]. split; [reflexivity|]. split.
  - intros node. rewrite I4. apply node_ref_upd_sdrng.
  - intros r Hr. apply I5. apply force_reseed_upd_sdrng. exact Hr.
Qed.

Lemma node_ref_valid s node r : node_ref s node = Some r -> valid_ref r s = true.
Proof.
  unfold node_ref, valid_ref. destruct (st_sdrng s) as [tab|]; [|discriminate].
  destruct (tab !! node) as [[[|d]|]|] eqn:L; intros [= <-];
    [reflexivity | rewrite L; reflexivity].
Qed.

Lemma force_reseed_nodes_sets nodes :
  forall s node r,
    In node nodes -> node_ref s node = Some r ->
    force_reseed (get_sdrng r (force_reseed_nodes nodes s)) = true.
Proof.
  induction nodes as [|n rest IH]; intros s node r []; cbn [force_reseed_nodes].
  - subst n. intros N. rewrite N.
    destruct (force_reseed_nodes_frame rest
                (upd_sdrng r (set_force_reseed true) s)) as (_ & _ & _ & _ & K).
    apply K. rewrite get_upd_sdrng by (eapply node_ref_valid; exact N).
    reflexivity.
  - intros N. destruct (node_ref s n) as [r0|] eqn:N0.
    + apply (IH _ node r); [assumption|]. rewrite node_ref_upd_sdrng. exact N.
    + apply (IH _ node r); assumption.
Qed.

(** X18: what a write does to the generator.  The data goes into the
    primary DRNG, not into the entropy pool, whose words and event count
    stay as they are.  The entropy estimate of the primary DRNG never
    shrinks, grows by at most the entropy claimed, and stays within 0 to
    256 bits; a write that claims no entropy, as every ordinary write to
    the devices does, leaves the estimate as it is.  Such a write, when
    it succeeds, forces a reseed of the secondary DRNGs: of the boot-time
    DRNG alone, the atomic DRNG left as it is, while the per-node table
    does not exist, and of the DRNG of every online node and the atomic
    DRNG once it does.  A write that claims entropy forces no reseed. *)
Theorem lrng_drng_write_common_effects
    (X : extern) (fuel : nat) (count eb : Z) (s : lrng_state)
    (ret : Z) (s' : lrng_state) :
  pdrng_budget_ok s -> 0 <= eb < 2 ^ 32 ->
  lrng_drng_write_common X fuel count eb s = Returns (ret, s') ->
  pdrng_budget_ok s' /\
  pdrng_entropy_bits (st_pdrng s) <= pdrng_entropy_bits (st_pdrng s')
    <= pdrng_entropy_bits (st_pdrng s) + eb /\
  pool (st_pool s') = pool (st_pool s) /\
  num_events (irq_info (st_pool s')) = num_events (irq_info (st_pool s)) /\
  (eb <> 0 -> sdrngs_of s' = sdrngs_of s) /\
  (eb = 0 -> 0 <= ret -> st_sdrng s = None ->
   force_reseed (st_sdrng_init s') = true /\
   st_sdrng_atomic s' = st_sdrng_atomic s) /\
  (eb = 0 -> 0 <= ret -> st_sdrng s <> None ->
   force_reseed (st_sdrng_atomic s') = true /\
   forall node r,
     In node (st_online s) -> node_ref s' node = Some r ->
     force_reseed (get_sdrng r s') = true).
Proof.
  intros B He. unfold lrng_drng_write_common, atomic_read.
  destruct (st_pdrng_avail s =? 0).
  { intros [= <- <-]. unfold EAGAIN.
    repeat split; intros; try apply B; try lia. }
  cbv zeta.
  destruct (lrng_drng_write_loop X fuel (Z.min count INT_MAX) eb 0 s)
    as [[w s1]| |] eqn:L; cbn [mbind outcome_mbind outcome_bind];
    try discriminate.
  apply lrng_drng_write_loop_effects in L; [|exact B|exact He].
  destruct L as (B1 & E1 & S1 & P1 & N1).
  unfold pdrng_budget_ok in B1 |- *.
  assert (S1' := S1). unfold sdrngs_of in S1'.
  injection S1' as Si Sa St So Sv.
  destruct w as [n|].
  2:{ intros [= <- <-]. unfold EFAULT.
      split; [exact B1|]. split; [exact E1|]. split; [exact P1|].
      split; [exact N1|]. split; [intros _; exact S1|].
      split; intros; lia. }
  destruct (Z.eqb_spec eb 0) as [Hz|Hnz].
  - destruct (st_sdrng s1) as [tab|] eqn:T.
    + intros [= <- <-].
      destruct (force_reseed_nodes_frame (st_online s1) s1)
        as (F1 & F2 & F3 & F4 & F5).
      cbn [st_pdrng st_pool with_sdrng_atomic]. rewrite F1, F2.
      split; [exact B1|]. split; [exact E1|]. split; [exact P1|].
      split; [exact N1|]. split; [intros; contradiction|].
      split; [intros _ _ Hn; congruence|].
      intros _ _ _. split; [reflexivity|].
      intros node r Hin Hr.
      assert (Hr1 : node_ref s1 node = Some r).
      { rewrite <- (F4 node). exact Hr. }
      pose proof (force_reseed_nodes_sets (st_online s1) s1 node r
                    ltac:(rewrite So; exact Hin) Hr1) as K.
      pose proof (node_ref_not_atomic _ _ _ Hr1) as Hna.
      destruct r; [exact K | contradiction | exact K].
    + intros [= <- <-]. cbn.
      split; [exact B1|]. split; [exact E1|]. split; [exact P1|].
      split; [exact N1|]. split; [intros; contradiction|].
      split; [intros _ _ _; split; [reflexivity | exact Sa]|].
      intros _ _ Hn. congruence.
  - intros [= <- <-].
    split; [exact B1|]. split; [exact E1|]. split; [exact P1|].
    split; [exact N1|]. split; [intros _; exact S1|].
    split; intros; contradiction.
Qed.

Lemma lrng_drng_write_common_effects_witness :
  force_reseed (st_sdrng_init (lrng_idle_state 5 0 100)) = false /\
  force_reseed (st_sdrng_init (snd (result_of
    (lrng_drng_write (const_extern 0 [] 64) 3 130
       (lrng_idle_state 5 0 100))))) = true.
Proof.
  assert (H : lrng_drng_write_common (const_extern 0 [] 64) 3 130 0
                (lrng_idle_state 5 0 100)
              = Returns
                  (fst (result_of
                     (lrng_drng_write (const_extern 0 [] 64) 3 130
                        (lrng_idle_state 5 0 100))),
                   snd (result_of
                     (lrng_drng_write (const_extern 0 [] 64) 3 130
                        (lrng_idle_state 5 0 100)))))
    by (vm_compute; reflexivity).
  destruct (lrng_drng_write_common_effects (const_extern 0 [] 64) 3 130 0
              (lrng_idle_state 5 0 100) _ _
              ltac:(split; discriminate)
              ltac:(split; [discriminate | reflexivity]) H)
    as (_ & _ & _ & _ & _ & K & _).
  split; [reflexivity|].
  apply K; [reflexivity | vm_compute; discriminate | reflexivity].
Defined.

(** ** The ioctl interface *)

Lemma lrng_avail_entropy_set p e :
  irq_entropy_bits (irq_info p) = LRNG_IRQ_ENTROPY_BITS \/
  irq_entropy_bits (irq_info p)
    = LRNG_IRQ_ENTROPY_BITS * LRNG_IRQ_OVERSAMPLING_FACTOR ->
  0 <= e <= LRNG_POOL_SIZE_BITS ->
  lrng_avail_entropy
    (with_irq_info
       (set_num_events (atomic_set (lrng_entropy_to_data p e))) p) = e.
Proof.
  unfold lrng_avail_entropy, lrng_data_to_entropy, lrng_entropy_to_data,
    atomic_read_u32, atomic_read, atomic_set, min_u32,
    LRNG_IRQ_ENTROPY_BITS, LRNG_IRQ_ENTROPY_BYTES,
    LRNG_IRQ_OVERSAMPLING_FACTOR, LRNG_POOL_SIZE_BITS, LRNG_POOL_SIZE_BYTES,
    LRNG_POOL_SIZE, LRNG_POOL_WORD_BYTES, LRNG_DRNG_SECURITY_STRENGTH_BITS,
    LRNG_DRNG_SECURITY_STRENGTH_BYTES.
  cbn [irq_info with_irq_info num_events set_num_events irq_entropy_bits].
  intros [-> | ->] He.
  - rewrite (u32_small (e * (32 * 8))) by lia.
    rewrite Z.div_mul by lia. rewrite u32_s32, !(u32_small e) by lia.
    rewrite (u32_small (e * (32 * 8))) by lia.
    rewrite Z.div_mul by lia. rewrite !u32_small by lia. lia.
  - rewrite (u32_small (e * (32 * 8 * 10))) by lia.
    replace (e * (32 * 8 * 10)) with (e * 10 * (32 * 8)) by lia.
    rewrite Z.div_mul by lia. rewrite u32_s32, (u32_small (e * 10)) by lia.
    rewrite (u32_small (e * 10 * (32 * 8))) by lia.
    replace (e * 10 * (32 * 8)) with (e * (32 * 8 * 10)) by lia.
    rewrite Z.div_mul by lia. rewrite !u32_small by lia. lia.
Qed.

Lemma clamp_pool_bits_spec x :
  (if LRNG_POOL_SIZE_BITS <? (if x <? 0 then 0 else x)
   then LRNG_POOL_SIZE_BITS else (if x <? 0 then 0 else x))
  = clamp_pool_bits x /\
  0 <= clamp_pool_bits x <= LRNG_POOL_SIZE_BITS.
Proof.
  unfold clamp_pool_bits, LRNG_POOL_SIZE_BITS, LRNG_POOL_SIZE_BYTES,
    LRNG_POOL_SIZE, LRNG_POOL_WORD_BYTES.
  destruct (Z.ltb_spec x 0) as [Hx|Hx].
  - destruct (Z.ltb_spec (128 * 4 * 8) 0); lia.
  - destruct (Z.ltb_spec (128 * 4 * 8) x); lia.
Qed.


(** X20: the privileged commands on the entropy count.  With either of the
    two interrupt rates the code configures, [RNDADDTOENTCNT] adds its
    argument to the available entropy and limits the sum to the range from
    0 to the pool size, so that a following [RNDGETENTCNT] reads exactly
    that; an argument so large that the [int] sum wraps around empties the
    count.  [RNDZAPENTCNT] and [RNDCLEARPOOL] set the count to 0.  These
    commands change the event counter only: the pool words and the DRNGs
    stay as they are. *)
Theorem lrng_ioctl_entropy_count
    (X : extern) (fuel : nat) (a : ioctl_arg) (v : Z) (s : lrng_state) :
  irq_entropy_bits (irq_info (st_pool s)) = LRNG_IRQ_ENTROPY_BITS \/
  irq_entropy_bits (irq_info (st_pool s))
    = LRNG_IRQ_ENTROPY_BITS * LRNG_IRQ_OVERSAMPLING_FACTOR ->
  arg_int0 a = Some v -> - 2 ^ 31 <= v < 2 ^ 31 ->
  exists s1 s2,
    lrng_ioctl X fuel true RNDADDTOENTCNT a s = Returns (0, None, s1) /\
    (v < 2 ^ 31 - lrng_avail_entropy (st_pool s) ->
     lrng_avail_entropy (st_pool s1)
       = clamp_pool_bits (lrng_avail_entropy (st_pool s) + v)) /\
    (2 ^ 31 - lrng_avail_entropy (st_pool s) <= v ->
     lrng_avail_entropy (st_pool s1) = 0) /\
    lrng_ioctl X fuel true RNDGETENTCNT (mk_ioctl_arg None None true) s1
      = Returns (0, Some (lrng_avail_entropy (st_pool s1)), s1) /\
    lrng_ioctl X fuel true RNDZAPENTCNT a s = Returns (0, None, s2) /\
    lrng_ioctl X fuel true RNDCLEARPOOL a s = Returns (0, None, s2) /\
    lrng_avail_entropy (st_pool s2) = 0 /\
    pool (st_pool s1) = pool (st_pool s) /\
    pool (st_pool s2) = pool (st_pool s) /\
    st_pdrng s1 = st_pdrng s /\ st_pdrng s2 = st_pdrng s /\
    sdrngs_of s1 = sdrngs_of s /\ sdrngs_of s2 = sdrngs_of s /\
    st_trace s1 = st_trace s /\ st_trace s2 = st_trace s.
Proof.
  intros Hrate Ha Hv.
  pose proof (lrng_avail_entropy_range (st_pool s)) as R.
  set (av := lrng_avail_entropy (st_pool s)) in *.
  cbn [lrng_ioctl negb]. rewrite Ha. cbv zeta.
  fold av. rewrite (s32_small av), (s32_small v) by lia.
  set (sum := s32 (av + v)).
  destruct (clamp_pool_bits_spec sum) as (-> & He).
  set (e := clamp_pool_bits sum) in *.
  assert (Hclamp : v < 2 ^ 31 - av -> e = clamp_pool_bits (av + v)).
  { intros Hs. unfold e, sum. rewrite s32_small by lia. reflexivity. }
  assert (Hwrap : 2 ^ 31 - av <= v -> e = 0).
  { intros Hs. assert (Hneg : sum < 0).
    { unfold sum, s32.
      replace (av + v + 2 ^ 31) with (av + v - 2 ^ 31 + 1 * 2 ^ 32) by lia.
      rewrite Z.mod_add by lia. rewrite Z.mod_small; lia. }
    unfold e, clamp_pool_bits, LRNG_POOL_SIZE_BITS, LRNG_POOL_SIZE_BYTES,
      LRNG_POOL_SIZE, LRNG_POOL_WORD_BYTES. lia. }
  assert (A1 : forall x, 0 <= x <= LRNG_POOL_SIZE_BITS ->
    lrng_avail_entropy (st_pool
      (with_pool (fun p => with_irq_info
         (set_num_events (atomic_set (lrng_entropy_to_data p x))) p) s)) = x).
  { intros x Hx. apply (lrng_avail_entropy_set (st_pool s) x Hrate Hx). }
  assert (A0 : lrng_avail_entropy (st_pool
      (with_pool (with_irq_info (set_num_events (atomic_set 0))) s)) = 0).
  { unfold lrng_avail_entropy, lrng_data_to_entropy, min_u32. cbn.
    rewrite Z.div_0_l; [reflexivity|].
    destruct Hrate as [-> | ->]; discriminate. }
  eexists _, _. split; [reflexivity|].
  rewrite (A1 e He), A0.
  split; [exact Hclamp|]. split; [exact Hwrap|].
  split.
  { unfold LRNG_POOL_SIZE_BITS, LRNG_POOL_SIZE_BYTES, LRNG_POOL_SIZE,
      LRNG_POOL_WORD_BYTES in He. rewrite s32_small by lia. reflexivity. }
  repeat split.
Qed.

Lemma lrng_ioctl_entropy_count_witness :
  exists s1,
    lrng_ioctl (const_extern 0 [] 64) 0 true RNDADDTOENTCNT
      (mk_ioctl_arg (Some 5000) None false) (lrng_state_with_events 100)
    = Returns (0, None, s1) /\
    lrng_avail_entropy (st_pool s1) = 4096.
Proof.
  destruct (lrng_ioctl_entropy_count (const_extern 0 [] 64) 0
              (mk_ioctl_arg (Some 5000) None false) 5000
              (lrng_state_with_events 100)
              ltac:(left; reflexivity) eq_refl
              ltac:(split; [discriminate | reflexivity]))
    as (s1 & s2 & E & C & _).
  exists s1. split; [exact E|]. rewrite C; reflexivity.
Defined.

Lemma lrng_drng_write_common_estimate X fuel count eb s ret s' :
  pdrng_budget_ok s -> 0 <= eb < 2 ^ 32 -> 0 <= count ->
  lrng_drng_write_common X fuel count eb s = Returns (ret, s') ->
  pdrng_budget_ok s' /\
  pdrng_entropy_bits (st_pdrng s) <= pdrng_entropy_bits (st_pdrng s')
    <= pdrng_entropy_bits (st_pdrng s) + eb /\
  pool (st_pool s') = pool (st_pool s) /\
  num_events (irq_info (st_pool s')) = num_events (irq_info (st_pool s)) /\
  (ret = - EAGAIN \/ ret = - EFAULT \/ ret = Z.min count INT_MAX).
Proof.
  intros B He Hc. unfold lrng_drng_write_common, atomic_read.
  destruct (st_pdrng_avail s =? 0).
  { intros [= <- <-]. repeat split; try apply B; try lia; auto. }
  cbv zeta.
  destruct (lrng_drng_write_loop X fuel (Z.min count INT_MAX) eb 0 s)
    as [[w s1]| |] eqn:L; cbn [mbind outcome_mbind outcome_bind];
    try discriminate.
  assert (Hc' : 0 <= Z.min count INT_MAX) by (unfold INT_MAX; lia).
  pose proof (lrng_drng_write_loop_result X fuel _ _ _ _ _ _ Hc' L) as Rw.
  apply lrng_drng_write_loop_effects in L; [|exact B|exact He].
  destruct L as (B1 & E1 & S1 & P1 & N1).
  unfold pdrng_budget_ok in B1 |- *.
  destruct w as [n|].
  2:{ intros [= <- <-]. repeat split; try apply B1; try apply E1;
        try assumption; auto. }
  assert (Hn : n = Z.min count INT_MAX)
    by (destruct Rw as [Rw|Rw]; [discriminate | injection Rw as ->; lia]).
  destruct (eb =? 0); [destruct (st_sdrng s1) as [tab|]|]; intros [= <- <-].
  - destruct (force_reseed_nodes_frame (st_online s1) s1) as (F1 & F2 & _).
    cbn [st_pdrng st_pool with_sdrng_atomic]. rewrite F1, F2.
    repeat split; try apply B1; try apply E1; try assumption; auto.
  - cbn. repeat split; try apply B1; try apply E1; try assumption; auto.
  - repeat split; try apply B1; try apply E1; try assumption; auto.
Qed.

(** What a block is credited with when the seed call succeeds. *)
Lemma lrng_pdrng_inject_credit X n e s :
  pdrng_budget_ok s -> 0 <= e < 2 ^ 32 -> 0 <= n <= 64 ->
  0 <= s32 (x_ret X (st_tick s)) ->
  pdrng_entropy_bits (st_pdrng (snd (lrng_pdrng_inject X n e false 0 false s)))
  = Z.min (pdrng_entropy_bits (st_pdrng s) + Z.min e (8 * n))
          LRNG_DRNG_SECURITY_STRENGTH_BITS.
Proof.
  intros B He Hn Hok.
  unfold pdrng_budget_ok, LRNG_DRNG_SECURITY_STRENGTH_BITS,
    LRNG_DRNG_SECURITY_STRENGTH_BYTES in *.
  unfold lrng_pdrng_inject, call_env.
  destruct (Z.ltb_spec (s32 (x_ret X (st_tick s))) 0) as [|_]; [lia|].
  cbn [snd andb]. cbv zeta.
  match goal with
  | |- context [lrng_pdrng_init_ops ?b ?st] =>
      pose proof (pdrng_entropy_bits_init_ops b st) as F4;
      set (s2 := lrng_pdrng_init_ops b st) in *
  end.
  rewrite st_pdrng_wake_readers, F4. cbn.
  unfold min_u32.
  assert (Hm : u32 (Z.shiftl n 3) = 8 * n).
  { rewrite Z.shiftl_mul_pow2 by lia. change (2 ^ 3) with 8.
    rewrite u32_small; lia. }
  rewrite Hm, (u32_small e) by lia.
  rewrite (u32_small (pdrng_entropy_bits (st_pdrng s) + Z.min e (8 * n)))
    by lia.
  reflexivity.
Qed.

(** X21: [RNDADDENTROPY] in privileged hands.  A negative entropy count or
    a negative size is refused with [-EINVAL] before anything happens.
    Otherwise the data is written as by [write]: the entropy estimate of
    the primary DRNG never shrinks and stays within 0 to 256 bits, the pool
    is not touched, and the call returns the size, [-EAGAIN] or [-EFAULT].
    For a size below 2^28 bytes the estimate grows by no more than the
    entropy claimed and no more than eight bits per byte of data.  From
    2^28 bytes on [size<<3] wraps as an [int]: for a size from 2^28 to
    below 2^29 the claimed count is dropped and 8 * size, which is more,
    is credited in its place, so that the first block written brings the
    estimate to the full 256 bits whatever was claimed. *)
Theorem lrng_ioctl_add_entropy
    (X : extern) (fuel : nat) (a : ioctl_arg) (ent size : Z)
    (s : lrng_state) :
  arg_int0 a = Some ent -> arg_int1 a = Some size ->
  - 2 ^ 31 <= ent < 2 ^ 31 -> - 2 ^ 31 <= size < 2 ^ 31 ->
  (ent < 0 \/ size < 0 ->
   lrng_ioctl X fuel true RNDADDENTROPY a s = Returns (- EINVAL, None, s)) /\
  (0 <= ent -> 0 <= size -> pdrng_budget_ok s ->
   forall ret out s',
     lrng_ioctl X fuel true RNDADDENTROPY a s = Returns (ret, out, s') ->
     out = None /\
     pdrng_budget_ok s' /\
     pdrng_entropy_bits (st_pdrng s) <= pdrng_entropy_bits (st_pdrng s') /\
     (size < 2 ^ 28 ->
      pdrng_entropy_bits (st_pdrng s')
        <= pdrng_entropy_bits (st_pdrng s) + Z.min ent (8 * size)) /\
     pool (st_pool s') = pool (st_pool s) /\
     num_events (irq_info (st_pool s')) = num_events (irq_info (st_pool s)) /\
     (ret = - EAGAIN \/ ret = - EFAULT \/ ret = size)) /\
  (0 <= ent -> 2 ^ 28 <= size < 2 ^ 29 ->
   ent < 8 * size /\
   lrng_ioctl X fuel true RNDADDENTROPY a s
   = ('(ret, s1) ← lrng_drng_write_common X fuel size (8 * size) s;
      Returns (ret, None, s1)) /\
   (pdrng_budget_ok s -> atomic_read (st_pdrng_avail s) <> 0 ->
    x_ret X (st_tick s) = 0 ->
    0 <= s32 (x_ret X (Datatypes.S (st_tick s))) ->
    forall ret out s',
      lrng_ioctl X fuel true RNDADDENTROPY a s = Returns (ret, out, s') ->
      pdrng_entropy_bits (st_pdrng s') = LRNG_DRNG_SECURITY_STRENGTH_BITS)).
Proof.
  intros A0 A1 He Hs. cbn [lrng_ioctl negb]. rewrite A0, A1. cbv zeta.
  rewrite (s32_small ent), (s32_small size) by lia.
  split; [|split].
  - intros [Hn|Hn].
    + destruct (Z.ltb_spec ent 0); [reflexivity | lia].
    + destruct (Z.ltb_spec ent 0); [reflexivity|].
      destruct (Z.ltb_spec size 0); [reflexivity | lia].
  - intros He0 Hs0 B ret out s'.
    destruct (Z.ltb_spec ent 0); [lia|].
    destruct (Z.ltb_spec size 0); [lia|].
    set (eb := u32 (Z.min ent (s32 (Z.shiftl size 3)))).
    assert (Heb : 0 <= eb < 2 ^ 32) by apply u32_range.
    assert (Hsmall : size < 2 ^ 28 -> eb = Z.min ent (8 * size)).
    { intros Hlt. unfold eb. rewrite Z.shiftl_mul_pow2 by lia.
      change (2 ^ 3) with 8. rewrite (s32_small (size * 8)) by lia.
      rewrite u32_small by lia. f_equal. lia. }
    destruct (lrng_drng_write_common X fuel size eb s)
      as [[r s1]| |] eqn:W; cbn [mbind outcome_mbind outcome_bind];
      try discriminate.
    intros [= <- <- <-].
    apply lrng_drng_write_common_estimate in W; [|exact B|exact Heb|lia].
    destruct W as (B1 & E1 & P1 & N1 & R1).
    split; [reflexivity|]. split; [exact B1|]. split; [lia|].
    split; [intros Hlt; rewrite <- (Hsmall Hlt); lia|].
    split; [exact P1|]. split; [exact N1|].
    replace (Z.min size INT_MAX) with size in R1
      by (unfold INT_MAX; lia). exact R1.
  - intros He0 Hs0.
    destruct (Z.ltb_spec ent 0); [lia|].
    destruct (Z.ltb_spec size 0); [lia|].
    assert (Hw : u32 (Z.min ent (s32 (Z.shiftl size 3))) = 8 * size).
    { rewrite Z.shiftl_mul_pow2 by lia. change (2 ^ 3) with 8.
      assert (Hn : s32 (size * 8) = size * 8 - 2 ^ 32).
      { unfold s32.
        replace (size * 8 + 2 ^ 31) with (size * 8 - 2 ^ 31 + 1 * 2 ^ 32)
          by lia.
        rewrite Z.mod_add by lia. rewrite Z.mod_small by lia. lia. }
      rewrite Hn, Z.min_r by lia. unfold u32.
      replace (size * 8 - 2 ^ 32) with (size * 8 + (-1) * 2 ^ 32) by lia.
      rewrite Z.mod_add by lia. rewrite Z.mod_small by lia. lia. }
    rewrite Hw. split; [lia|]. split; [reflexivity|].
    intros B Av C0 Sd ret out s'.
    unfold lrng_drng_write_common.
    destruct (Z.eqb_spec (atomic_read (st_pdrng_avail s)) 0) as [|_];
      [contradiction|].
    cbv zeta. replace (Z.min size INT_MAX) with size
      by (unfold INT_MAX; lia).
    rewrite lrng_drng_write_loop_unfold.
    destruct (Z.ltb_spec 0 size) as [_|]; [|lia].
    destruct fuel as [|fuel]; [discriminate|].
    rewrite C0. cbn [Z.eqb negb].
    replace (Z.min size 64) with 64 by lia.
    assert (Hm : min_u32 (Z.shiftl 64 3) (8 * size) = 512).
    { unfold min_u32. change (u32 (Z.shiftl 64 3)) with 512.
      rewrite u32_small by lia. lia. }
    rewrite Hm.
    assert (B0 : pdrng_budget_ok (step_tick s)) by exact B.
    pose proof (lrng_pdrng_inject_credit X 64 512 (step_tick s) B0
                  ltac:(lia) ltac:(lia) Sd) as Cr.
    pose proof (lrng_pdrng_inject_plain X 64 512 (step_tick s) B0
                  ltac:(lia) ltac:(lia)) as (B1 & _).
    set (s1 := snd (lrng_pdrng_inject X 64 512 false 0 false (step_tick s)))
      in *.
    assert (Full : pdrng_entropy_bits (st_pdrng s1)
                   = LRNG_DRNG_SECURITY_STRENGTH_BITS).
    { rewrite Cr. unfold pdrng_budget_ok in B0. cbn in B0 |- *.
      unfold LRNG_DRNG_SECURITY_STRENGTH_BITS,
        LRNG_DRNG_SECURITY_STRENGTH_BYTES in *. lia. }
    destruct (lrng_drng_write_loop X fuel (size - 64)
                (u32 (8 * size - 512)) (0 + 64) s1)
      as [[w s2]| |] eqn:L; cbn [mbind outcome_mbind outcome_bind];
      try discriminate.
    apply lrng_drng_write_loop_effects in L;
      [|exact B1|apply u32_range].
    destruct L as (B2 & E2 & _).
    assert (Fin : pdrng_entropy_bits (st_pdrng s2)
                  = LRNG_DRNG_SECURITY_STRENGTH_BITS).
    { unfold pdrng_budget_ok in B2. lia. }
    destruct w as [n|]; [|intros [= _ _ <-]; exact Fin].
    destruct (Z.eqb_spec (8 * size) 0) as [|_]; [lia|].
    intros [= _ _ <-]. exact Fin.
Qed.

Lemma lrng_ioctl_add_entropy_witness :
  lrng_ioctl (const_extern 0 [] 64) 1 true RNDADDENTROPY
    (mk_ioctl_arg (Some (-1)) (Some 16) false) lrng_online_state
  = Returns (-22, None, lrng_online_state) /\
  pdrng_entropy_bits (st_pdrng lrng_online_state) = 0 /\
  exists ret s',
    lrng_ioctl (short_copy_extern (st_tick lrng_online_state + 2)) 2 true
      RNDADDENTROPY (mk_ioctl_arg (Some 0) (Some (2 ^ 28)) false)
      lrng_online_state
    = Returns (ret, None, s') /\
    pdrng_entropy_bits (st_pdrng s') = 256.
Proof.
  split.
  { destruct (lrng_ioctl_add_entropy (const_extern 0 [] 64) 1
                (mk_ioctl_arg (Some (-1)) (Some 16) false) (-1) 16
                lrng_online_state eq_refl eq_refl
                ltac:(split; [discriminate | reflexivity])
                ltac:(split; [discriminate | reflexivity])) as (K & _).
    apply K. left. reflexivity. }
  split; [reflexivity|].
  destruct (lrng_ioctl_add_entropy
              (short_copy_extern (st_tick lrng_online_state + 2)) 2
              (mk_ioctl_arg (Some 0) (Some (2 ^ 28)) false) 0 (2 ^ 28)
              lrng_online_state eq_refl eq_refl
              ltac:(split; [discriminate | reflexivity])
              ltac:(split; [discriminate | reflexivity]))
    as (_ & G & W).
  destruct (W ltac:(discriminate) ltac:(split; [discriminate | reflexivity]))
    as (_ & _ & F).
  assert (B : pdrng_budget_ok lrng_online_state)
    by (split; vm_compute; discriminate).
  destruct (lrng_ioctl (short_copy_extern (st_tick lrng_online_state + 2)) 2
              true RNDADDENTROPY (mk_ioctl_arg (Some 0) (Some (2 ^ 28)) false)
              lrng_online_state) as [[[ret out] s']| |] eqn:H;
    [| vm_compute in H; discriminate | vm_compute in H; discriminate].
  destruct (G ltac:(discriminate) ltac:(discriminate) B ret out s' eq_refl)
    as (-> & _).
  exists ret, s'. split; [reflexivity|].
  apply (F B ltac:(discriminate) eq_refl ltac:(discriminate) ret None s').
  reflexivity.
Defined.

(** ** Page randomisation *)

Lemma page_mask_land ps y :
  0 < ps < 64 -> 0 <= y < 2 ^ 64 ->
  Z.land y (PAGE_MASK ps) = y - y mod 2 ^ ps.
Proof.
  intros Hps Hy. unfold PAGE_MASK, PAGE_SIZE, u64.
  rewrite Z.shiftl_1_l.
  assert (E : Z.lnot (2 ^ ps - 1) mod 2 ^ 64
              = Z.land (Z.lnot (2 ^ ps - 1)) (Z.ones 64))
    by (symmetry; apply Z.land_ones; lia).
  rewrite E, Z.land_assoc, (Z.land_comm y), <- Z.land_assoc.
  rewrite (Z.land_ones y 64), (Z.mod_small y) by lia.
  rewrite Z.land_comm, <- Z.ldiff_land.
  replace (2 ^ ps - 1) with (Z.ones ps) by (rewrite Z.ones_equiv; lia).
  rewrite Z.ldiff_ones_r by lia.
  rewrite Z.shiftr_div_pow2, Z.shiftl_mul_pow2 by lia.
  pose proof (Z.div_mod y (2 ^ ps)). lia.
Qed.

Lemma page_size_divides ps : 0 < ps < 64 -> (2 ^ ps | 2 ^ 64).
Proof.
  intros Hps. exists (2 ^ (64 - ps)). rewrite <- Z.pow_add_r by lia.
  f_equal. lia.
Qed.

Lemma PAGE_ALIGN_aligned ps x :
  0 < ps < 64 -> PAGE_ALIGN ps x mod 2 ^ ps = 0.
Proof.
  intros Hps. unfold PAGE_ALIGN.
  assert (Hp : 0 < 2 ^ ps) by (apply Z.pow_pos_nonneg; lia).
  assert (Hy : 0 <= u64 (x + (PAGE_SIZE ps - 1)) < 2 ^ 64)
    by (apply Z.mod_pos_bound; lia).
  rewrite page_mask_land by assumption.
  rewrite Zminus_mod, Z.mod_mod, Z.sub_diag by lia. reflexivity.
Qed.

Lemma PAGE_ALIGN_spec ps x :
  0 < ps < 64 -> 0 <= x -> x + 2 ^ ps <= 2 ^ 64 ->
  x <= PAGE_ALIGN ps x < x + 2 ^ ps /\
  (x mod 2 ^ ps = 0 -> PAGE_ALIGN ps x = x).
Proof.
  intros Hps Hx Hov. unfold PAGE_ALIGN.
  assert (Hp : 0 < 2 ^ ps) by (apply Z.pow_pos_nonneg; lia).
  assert (Es : PAGE_SIZE ps = 2 ^ ps)
    by (unfold PAGE_SIZE; apply Z.shiftl_1_l).
  rewrite Es.
  assert (Ea : Z.land (u64 (x + (2 ^ ps - 1))) (PAGE_MASK ps)
               = x + (2 ^ ps - 1) - (x + (2 ^ ps - 1)) mod 2 ^ ps).
  { unfold u64. rewrite Z.mod_small by lia. apply page_mask_land; lia. }
  rewrite !Ea.
  pose proof (Z.mod_pos_bound (x + (2 ^ ps - 1)) (2 ^ ps) Hp) as Hm.
  pose proof (Z.mod_pos_bound x (2 ^ ps) Hp) as Hxm.
  assert (Hcase : (x + (2 ^ ps - 1)) mod 2 ^ ps
                  = (x mod 2 ^ ps + (2 ^ ps - 1)) mod 2 ^ ps)
    by (rewrite Zplus_mod_idemp_l; reflexivity).
  split.
  - destruct (Z.eq_dec (x mod 2 ^ ps) 0) as [Hz|Hnz].
    + rewrite Hcase, Hz, Z.add_0_l, (Z.mod_small (2 ^ ps - 1)) by lia. lia.
    + replace (x mod 2 ^ ps + (2 ^ ps - 1))
        with (x mod 2 ^ ps - 1 + 1 * 2 ^ ps) in Hcase by lia.
      rewrite Z.mod_add in Hcase by lia.
      rewrite (Z.mod_small (x mod 2 ^ ps - 1)) in Hcase by lia. lia.
  - intros Hz. rewrite Hcase, Hz, Z.add_0_l, (Z.mod_small (2 ^ ps - 1)) by lia.
    lia.
Qed.

(** X22: [randomize_page] always returns a page-aligned address.  When
    aligning [start] does not overflow and [range] reaches the first page
    boundary at or above [start], the result is that boundary or a later
    one, and unless it is that boundary itself, which is what the function
    falls back to when there is no room for a whole page, the page it names
    lies entirely below [start + range]. *)
Theorem randomize_page_in_range (ps rnd start range : Z) :
  0 < ps < 64 -> 0 <= rnd ->
  0 <= start < 2 ^ 64 -> 0 <= range < 2 ^ 64 ->
  let r := randomize_page ps rnd start range in
  let a := PAGE_ALIGN ps start in
  r mod 2 ^ ps = 0 /\ 0 <= r < 2 ^ 64 /\
  (start + 2 ^ ps <= 2 ^ 64 -> a - start <= range ->
   a <= r /\ (r = a \/ r + 2 ^ ps <= start + range)).
Proof.
  intros Hps Hrnd Hs Hr. cbv zeta.
  assert (Hp : 0 < 2 ^ ps) by (apply Z.pow_pos_nonneg; lia).
  assert (Es : PAGE_SIZE ps = 2 ^ ps)
    by (unfold PAGE_SIZE; apply Z.shiftl_1_l).
  pose proof (page_size_divides ps Hps) as Hdiv.
  pose proof (PAGE_ALIGN_aligned ps start Hps) as Ha0.
  assert (Hab : 0 <= PAGE_ALIGN ps start < 2 ^ 64).
  { unfold PAGE_ALIGN.
    assert (Hy : 0 <= u64 (start + (PAGE_SIZE ps - 1)) < 2 ^ 64)
      by (apply Z.mod_pos_bound; lia).
    rewrite page_mask_land by assumption.
    pose proof (Z.mod_pos_bound (u64 (start + (PAGE_SIZE ps - 1))) (2 ^ ps) Hp).
    pose proof (Z.mod_le (u64 (start + (PAGE_SIZE ps - 1))) (2 ^ ps)
                  ltac:(lia) Hp). lia. }
  (* the common part: an aligned start [a0] and a range [g] *)
  assert (Core : forall a0 g,
    a0 mod 2 ^ ps = 0 -> 0 <= a0 < 2 ^ 64 -> 0 <= g < 2 ^ 64 ->
    let g' := if u64 (ULONG_MAX - g) <? a0 then u64 (ULONG_MAX - a0) else g in
    let res := if Z.shiftr g' ps =? 0 then a0
               else u64 (a0 + u64 (Z.shiftl (rnd mod Z.shiftr g' ps) ps)) in
    res mod 2 ^ ps = 0 /\ 0 <= res < 2 ^ 64 /\
    a0 <= res /\ (res = a0 \/ res + 2 ^ ps <= a0 + g)).
  { intros a0 g Ha Hab0 Hg. cbv zeta.
    assert (E1 : u64 (ULONG_MAX - g) = 2 ^ 64 - 1 - g)
      by (unfold u64, ULONG_MAX; apply Z.mod_small; lia).
    assert (E2 : u64 (ULONG_MAX - a0) = 2 ^ 64 - 1 - a0)
      by (unfold u64, ULONG_MAX; apply Z.mod_small; lia).
    rewrite E1, E2. unfold u64.
    set (g' := if 2 ^ 64 - 1 - g <? a0 then 2 ^ 64 - 1 - a0 else g).
    assert (Hg' : 0 <= g' <= g /\ a0 + g' <= 2 ^ 64 - 1).
    { subst g'. destruct (Z.ltb_spec (2 ^ 64 - 1 - g) a0); lia. }
    rewrite Z.shiftr_div_pow2 by lia.
    destruct (Z.eqb_spec (g' / 2 ^ ps) 0) as [Hz|Hnz].
    { split; [exact Ha|]. split; [lia|]. split; [lia | left; reflexivity]. }
    assert (Hpages : 0 < g' / 2 ^ ps).
    { pose proof (Z.div_pos g' (2 ^ ps) ltac:(lia) Hp). lia. }
    pose proof (Z.mod_pos_bound rnd (g' / 2 ^ ps) Hpages) as Hk.
    set (k := rnd mod (g' / 2 ^ ps)) in *.
    rewrite Z.shiftl_mul_pow2 by lia.
    assert (Hmul : 2 ^ ps * (g' / 2 ^ ps) <= g')
      by (apply Z.mul_div_le; lia).
    assert (Hoff : 0 <= k * 2 ^ ps <= g' - 2 ^ ps) by nia.
    rewrite (Z.mod_small (k * 2 ^ ps)) by lia.
    rewrite (Z.mod_small (a0 + k * 2 ^ ps)) by lia.
    split.
    { rewrite Z.mod_add by lia. exact Ha. }
    split; [lia|]. split; [lia|]. right. lia. }
  unfold randomize_page, PAGE_ALIGNED. rewrite Es.
  rewrite land_mask by lia.
  destruct (Z.eqb_spec (start mod 2 ^ ps) 0) as [Hal|Hnal]; cbn [negb].
  - destruct (Core start range Hal Hs Hr) as (C1 & C2 & C3 & C4).
    split; [exact C1|]. split; [exact C2|].
    intros Hov Hgap.
    destruct (PAGE_ALIGN_spec ps start Hps ltac:(lia) Hov) as (_ & Heq).
    rewrite (Heq Hal). split; [exact C3 | exact C4].
  - set (a := PAGE_ALIGN ps start) in *.
    assert (Hg : 0 <= u64 (range - u64 (a - start)) < 2 ^ 64)
      by (apply Z.mod_pos_bound; lia).
    destruct (Core a (u64 (range - u64 (a - start))) Ha0 Hab Hg)
      as (C1 & C2 & C3 & C4).
    cbv beta iota zeta.
    match type of C1 with ?res mod _ = 0 => set (r := res) in * end.
    split; [exact C1|]. split; [exact C2|].
    intros Hov Hgap.
    destruct (PAGE_ALIGN_spec ps start Hps ltac:(lia) Hov) as (Hrange & _).
    fold a in Hrange.
    assert (Eg : u64 (range - u64 (a - start)) = range - (a - start)).
    { unfold u64. rewrite (Z.mod_small (a - start)) by lia.
      apply Z.mod_small. lia. }
    rewrite Eg in C4. split; [exact C3|].
    destruct C4 as [C4|C4]; [left; exact C4 | right; lia].
Qed.

Lemma randomize_page_in_range_witness :
  randomize_page 12 123456789 4097 (2 ^ 20) mod 2 ^ 12 = 0 /\
  8192 <= randomize_page 12 123456789 4097 (2 ^ 20).
Proof.
  destruct (randomize_page_in_range 12 123456789 4097 (2 ^ 20)
              ltac:(split; reflexivity) ltac:(discriminate)
              ltac:(split; [discriminate | reflexivity])
              ltac:(split; [discriminate | reflexivity]))
    as (A & _ & K).
  split; [exact A|].
  destruct K as (K & _); [vm_compute; discriminate | vm_compute; discriminate|].
  exact K.
Defined.

(** ** Stirring the pool *)

Lemma lrng_pool_lfsr_nonaligned_steps aligned buf p :
  ptr_of (lrng_pool_lfsr_nonaligned aligned buf p)
    = (ptr_of p + 67 * lfsr_steps aligned buf) mod 128 /\
  irq_info (lrng_pool_lfsr_nonaligned aligned buf p) = irq_info p /\
  length (pool (lrng_pool_lfsr_nonaligned aligned buf p)) = length (pool p).
Proof.
  unfold lrng_pool_lfsr_nonaligned, lfsr_steps. destruct aligned.
  - destruct (lfsr_words_steps (length buf) buf p eq_refl) as (E & L).
    split; [exact E|]. split; [apply irq_info_lfsr | exact L].
  - destruct (lfsr_bytes_steps buf p) as (E & L).
    split; [exact E|]. split; [apply irq_info_lfsr_bytes | exact L].
Qed.

Lemma ptr_of_steps_add a j k :
  ((a + 67 * j) mod 128 + 67 * k) mod 128 = (a + 67 * (j + k)) mod 128.
Proof. rewrite Zplus_mod_idemp_l. f_equal. lia. Qed.

(** X23: [add_input_randomness] stirs one word into the pool and credits
    nothing.  An event whose value equals the value remembered from the
    previous event is dropped without any effect.  The remembered value is
    only the low byte, though, while the comparison is on the whole value:
    an event whose value is 256 or more is never dropped, a repetition
    included. *)
Theorem add_input_randomness_filter
    (type code value last_value : Z) (s : lrng_state) :
  0 <= last_value < 256 -> 0 <= value < 2 ^ 32 ->
  let r := add_input_randomness type code value last_value s in
  credit_of (snd r) = credit_of s /\
  (value = last_value -> r = (last_value, s)) /\
  (value <> last_value ->
   fst r = value mod 256 /\
   ptr_of (st_pool (snd r)) = (ptr_of (st_pool s) + 67) mod 128) /\
  (256 <= value ->
   let r2 := add_input_randomness type code value (fst r) (snd r) in
   ptr_of (st_pool (snd r2)) = (ptr_of (st_pool s) + 67 * 2) mod 128).
Proof.
  intros Hl Hv. cbv zeta. unfold add_input_randomness.
  rewrite (u32_small value) by lia.
  destruct (Z.eqb_spec value last_value) as [He|Hne].
  - cbn [fst snd]. split; [reflexivity|]. split; [reflexivity|].
    split; [contradiction | lia].
  - cbn [fst snd]. split; [reflexivity|]. split; [contradiction|].
    split.
    + intros _. split; [reflexivity|]. apply ptr_of_step.
    + intros Hbig.
      assert (Hm : 0 <= value mod 256 < 256)
        by (apply Z.mod_pos_bound; lia).
      destruct (Z.eqb_spec value (value mod 256)) as [E|_]; [lia|].
      cbn [snd st_pool with_pool]. rewrite !ptr_of_step.
      rewrite Zplus_mod_idemp_l. f_equal. lia.
Qed.

Lemma add_input_randomness_filter_witness :
  ptr_of (st_pool (snd (add_input_randomness 1 30 300 44
    (snd (add_input_randomness 1 30 300 0 lrng_online_state)))))
  = (ptr_of (st_pool lrng_online_state) + 67 * 2) mod 128.
Proof.
  destruct (add_input_randomness_filter 1 30 300 0 lrng_online_state
              ltac:(split; [discriminate | reflexivity])
              ltac:(split; [discriminate | reflexivity]))
    as (_ & _ & _ & K).
  apply K. discriminate.
Defined.

Lemma rand_initialize_loop_steps X n :
  forall s,
    credit_of (rand_initialize_loop X n s) = credit_of s /\
    ptr_of (st_pool (rand_initialize_loop X n s))
      = (ptr_of (st_pool s) + 67 * Z.of_nat n) mod 128 /\
    length (pool (st_pool (rand_initialize_loop X n s)))
      = length (pool (st_pool s)).
Proof.
  induction n as [|n IH]; intros s; cbn [rand_initialize_loop].
  { split; [reflexivity|]. split; [|reflexivity].
    rewrite Z.mul_0_r, Z.add_0_r. unfold ptr_of, LRNG_POOL_SIZE.
    change (128 - 1) with (2 ^ 7 - 1). rewrite land_mask by lia.
    change (2 ^ 7) with 128. rewrite Z.mod_mod by lia. reflexivity. }
  assert (Step : forall rand s1,
    credit_of s1 = credit_of s -> st_pool s1 = st_pool s ->
    credit_of (rand_initialize_loop X n
                 (with_pool (lrng_pool_lfsr_u32 rand) s1)) = credit_of s /\
    ptr_of (st_pool (rand_initialize_loop X n
                       (with_pool (lrng_pool_lfsr_u32 rand) s1)))
      = (ptr_of (st_pool s) + 67 * Z.of_nat (Datatypes.S n)) mod 128 /\
    length (pool (st_pool (rand_initialize_loop X n
                             (with_pool (lrng_pool_lfsr_u32 rand) s1))))
      = length (pool (st_pool s))).
  { intros rand s1 C P.
    destruct (IH (with_pool (lrng_pool_lfsr_u32 rand) s1)) as (I1 & I2 & I3).
    rewrite I1, I2, I3. cbn [st_pool with_pool].
    rewrite ptr_of_step, pool_length_lfsr_u32, P.
    split; [rewrite <- C; reflexivity|]. split; [|reflexivity].
    rewrite Zplus_mod_idemp_l. f_equal. lia. }
  cbv zeta.
  destruct (negb (x_ret X (st_tick s) =? 0)); [apply Step; reflexivity|].
  cbn [st_tick step_tick].
  destruct (negb (x_ret X (Datatypes.S (st_tick s)) =? 0));
    apply Step; reflexivity.
Qed.

(** X24: [add_device_randomness] and [rand_initialize] stir the pool and
    credit nothing: the event counter and the rest of the interrupt
    bookkeeping, the seed status and entropy estimate of the primary DRNG,
    the secondary DRNGs, the readiness callbacks and the trace stay as they
    are, and the pool keeps its size.  [add_device_randomness] makes two
    LFSR steps on top of those for its buffer; [rand_initialize] makes one
    for the time, one per pool word, and those for the system name, and
    returns 0. *)
Theorem device_randomness_credits_nothing
    (X : extern) (aligned : bool) (buf : list Z) (s : lrng_state) :
  let s1 := add_device_randomness X aligned buf s in
  let r2 := rand_initialize X aligned buf s in
  credit_of s1 = credit_of s /\
  lrng_avail_entropy (st_pool s1) = lrng_avail_entropy (st_pool s) /\
  ptr_of (st_pool s1)
    = (ptr_of (st_pool s) + 67 * (lfsr_steps aligned buf + 2)) mod 128 /\
  length (pool (st_pool s1)) = length (pool (st_pool s)) /\
  fst r2 = 0 /\
  credit_of (snd r2) = credit_of s /\
  lrng_avail_entropy (st_pool (snd r2)) = lrng_avail_entropy (st_pool s) /\
  ptr_of (st_pool (snd r2))
    = (ptr_of (st_pool s)
       + 67 * (1 + LRNG_POOL_SIZE + lfsr_steps aligned buf)) mod 128 /\
  length (pool (st_pool (snd r2))) = length (pool (st_pool s)).
Proof.
  cbv zeta.
  assert (Avail : forall a b, credit_of a = credit_of b ->
            lrng_avail_entropy (st_pool a) = lrng_avail_entropy (st_pool b)).
  { intros a b. unfold credit_of. intros [= E _].
    unfold lrng_avail_entropy, lrng_data_to_entropy. rewrite E. reflexivity. }
  assert (C1 : credit_of (add_device_randomness X aligned buf s) = credit_of s).
  { unfold add_device_randomness, credit_of. cbn.
    destruct (lrng_pool_lfsr_nonaligned_steps aligned buf (st_pool s))
      as (_ & I & _). rewrite I. reflexivity. }
  split; [exact C1|]. split; [apply Avail; exact C1|].
  split.
  { unfold add_device_randomness. cbn [st_pool with_pool step_tick].
    rewrite !ptr_of_step.
    destruct (lrng_pool_lfsr_nonaligned_steps aligned buf (st_pool s))
      as (E & _). rewrite E.
    repeat (rewrite Zplus_mod_idemp_l || rewrite <- Z.add_assoc).
    f_equal. lia. }
  split.
  { unfold add_device_randomness. cbn [st_pool with_pool step_tick].
    rewrite !pool_length_lfsr_u32.
    apply (lrng_pool_lfsr_nonaligned_steps aligned buf (st_pool s)). }
  split; [reflexivity|].
  unfold rand_initialize. cbv zeta. cbn [fst snd].
  set (s0 := with_pool (lrng_pool_lfsr_u32 (u32 (x_ret X (st_tick s))))
               (step_tick s)).
  destruct (rand_initialize_loop_steps X (Z.to_nat LRNG_POOL_SIZE) s0)
    as (L1 & L2 & L3).
  set (s2 := rand_initialize_loop X (Z.to_nat LRNG_POOL_SIZE) s0) in *.
  destruct (lrng_pool_lfsr_nonaligned_steps aligned buf (st_pool s2))
    as (N1 & N2 & N3).
  assert (C2 : credit_of (with_pool (lrng_pool_lfsr_nonaligned aligned buf) s2)
               = credit_of s).
  { transitivity (credit_of s2); [|rewrite L1; reflexivity].
    unfold credit_of. cbn. rewrite N2. reflexivity. }
  split; [exact C2|]. split; [apply Avail; exact C2|].
  cbn [st_pool with_pool]. rewrite N1, N3, L2, L3.
  subst s0. cbn [st_pool with_pool step_tick].
  rewrite ptr_of_step, pool_length_lfsr_u32.
  split; [|reflexivity].
  repeat (rewrite Zplus_mod_idemp_l || rewrite <- Z.add_assoc). f_equal.
  rewrite Z2Nat.id by (unfold LRNG_POOL_SIZE; lia). lia.
Qed.

(** ** Readiness callbacks *)

Lemma filter_ne_notin (l : list Z) (x : Z) :
  ~ In x l -> filter (fun r => r <> x) l = l.
Proof.
  induction l as [|y l IH]; intros Hn; [reflexivity|].
  rewrite filter_cons. destruct (decide (y <> x)) as [Hy|Hy].
  - rewrite IH; [reflexivity|]. intros Hin. apply Hn. right. exact Hin.
  - exfalso. apply Hn. left. destruct (Z.eq_dec y x); [assumption|].
    contradiction.
Qed.

Lemma filter_ne_not_in (l : list Z) (x : Z) :
  ~ In x (filter (fun r => r <> x) l).
Proof.
  induction l as [|y l IH]; [intros []|].
  rewrite filter_cons. destruct (decide (y <> x)) as [Hy|Hy]; [|exact IH].
  intros [E|Hin]; [contradiction | exact (IH Hin)].
Qed.

Lemma with_ready_list_same s : with_ready_list (st_ready_list s) s = s.
Proof. destruct s; reflexivity. Qed.

(** X25: the life of a readiness callback.  Registration is refused with
    [-EALREADY] once the primary DRNG is minimally seeded and with [-ENOENT]
    when the owning module is going away; neither changes anything.
    Otherwise the callback is put at the head of the list.  Deleting it
    again restores the list, and a callback that has been deleted is never
    run, whatever entropy levels are reached later.  A callback that stays
    registered is run when the primary DRNG first reaches 128 bits, before
    the callbacks registered earlier, and from then on registration is
    refused. *)
Theorem random_ready_callback_lifecycle (rdy : Z) (s : lrng_state) :
  (pdrng_min_seeded (st_pdrng s) = true ->
   forall alive, add_random_ready_callback alive rdy s = (- EALREADY, s)) /\
  (pdrng_min_seeded (st_pdrng s) = false ->
   add_random_ready_callback false rdy s = (- ENOENT, s) /\
   fst (add_random_ready_callback true rdy s) = 0 /\
   st_ready_list (snd (add_random_ready_callback true rdy s))
     = rdy :: st_ready_list s /\
   (~ In rdy (st_ready_list s) ->
    del_random_ready_callback rdy (snd (add_random_ready_callback true rdy s))
    = s)) /\
  (forall levels,
     ~ In rdy (ready_funcs (st_trace s)) ->
     ~ In rdy (ready_funcs (st_trace
         (init_ops_sequence levels (del_random_ready_callback rdy s))))) /\
  (pdrng_min_seeded (st_pdrng s) = false ->
   pdrng_fully_seeded (st_pdrng s) = false ->
   forall bits alive,
     LRNG_MIN_SEED_ENTROPY_BITS <= bits ->
     let s1 := lrng_pdrng_init_ops bits
                 (snd (add_random_ready_callback true rdy s)) in
     ready_funcs (st_trace s1)
       = ready_funcs (st_trace s) ++ rdy :: st_ready_list s /\
     st_ready_list s1 = [] /\
     add_random_ready_callback alive rdy s1 = (- EALREADY, s1)).
Proof.
  unfold add_random_ready_callback. split; [|split; [|split]].
  - intros -> alive. reflexivity.
  - intros ->. cbn [negb fst snd st_ready_list with_ready_list].
    split; [reflexivity|]. split; [reflexivity|]. split; [reflexivity|].
    intros Hn. unfold del_random_ready_callback.
    cbn [st_ready_list with_ready_list].
    rewrite filter_cons. destruct (decide (rdy <> rdy)) as [H|_];
      [contradiction|].
    rewrite filter_ne_notin by exact Hn.
    destruct s; reflexivity.
  - intros levels Hn.
    destruct (init_ops_sequence_ready levels (del_random_ready_callback rdy s))
      as (fired & E & F).
    rewrite E. cbn [del_random_ready_callback st_trace with_ready_list].
    intros Hin. apply in_app_or in Hin. destruct Hin as [Hin|Hin];
      [exact (Hn Hin)|].
    destruct F as [-> | ->]; [exact Hin|].
    cbn [st_ready_list del_random_ready_callback with_ready_list] in Hin.
    exact (filter_ne_not_in _ _ Hin).
  - intros Hmin Hfull bits alive Hbits. rewrite Hmin. cbn [negb snd]. cbv zeta.
    set (s0 := with_ready_list (rdy :: st_ready_list s) s).
    assert (Hm0 : pdrng_min_seeded (st_pdrng s0) = false) by exact Hmin.
    assert (Hf0 : pdrng_fully_seeded (st_pdrng s0) = false) by exact Hfull.
    pose proof (lrng_pdrng_init_ops_cases bits s0) as C. cbv zeta in C.
    unfold LRNG_MIN_SEED_ENTROPY_BITS, LRNG_INIT_ENTROPY_BITS,
      LRNG_DRNG_SECURITY_STRENGTH_BITS, LRNG_DRNG_SECURITY_STRENGTH_BYTES
      in *.
    assert (K : pdrng_min_seeded (st_pdrng (lrng_pdrng_init_ops bits s0)) = true /\
                st_ready_list (lrng_pdrng_init_ops bits s0) = [] /\
                st_trace (lrng_pdrng_init_ops bits s0)
                  = st_trace s0 ++ [Ev_invalidate_batched_entropy]
                      ++ map Ev_ready_func (st_ready_list s0)
                      ++ [Ev_wake_init_wait]).
    { destruct C as [(F & _) | [(_ & _ & _ & M & _ & L & T)
        | [(_ & _ & _ & _ & M & _ & L & T)
        | [(_ & _ & B & _) | (_ & B & [M|B'] & _)]]]];
        try congruence; try lia; auto. }
    destruct K as (K1 & K2 & K3).
    rewrite K1, K2, K3. split; [|split; reflexivity].
    rewrite !ready_funcs_app, ready_funcs_map. cbn.
    rewrite app_nil_r. reflexivity.
Qed.

(** ** Kernel interfaces *)

Lemma get_random_bytes_arch_loop_unfold X fuel nbytes s :
  get_random_bytes_arch_loop X fuel nbytes s =
  if nbytes =? 0 then Returns (nbytes, s)
  else
    match fuel with
    | O => OutOfFuel
    | Datatypes.S fuel' =>
        if x_ret X (st_tick s) =? 0 then Returns (nbytes, step_tick s)
        else get_random_bytes_arch_loop X fuel'
               (s32 (nbytes - Z.min nbytes 8)) (step_tick s)
    end.
Proof. destruct fuel; reflexivity. Qed.

Lemma get_random_bytes_arch_loop_spec X fuel :
  forall nbytes s,
    0 <= nbytes < 2 ^ 31 ->
    (forall left s',
       get_random_bytes_arch_loop X fuel nbytes s = Returns (left, s') ->
       0 <= left <= nbytes /\
       st_trace s' = st_trace s /\ st_pool s' = st_pool s /\
       st_pdrng s' = st_pdrng s /\ sdrngs_of s' = sdrngs_of s /\
       (left <> 0 -> exists n, x_ret X n = 0) /\
       (left = 0 ->
        st_tick s' = (st_tick s + Z.to_nat ((nbytes + 7) / 8))%nat)) /\
    (nbytes <= 8 * Z.of_nat fuel ->
     returned (get_random_bytes_arch_loop X fuel nbytes s) = true).
Proof.
  induction fuel as [|fuel IH]; intros nbytes s Hn;
    rewrite get_random_bytes_arch_loop_unfold;
    destruct (Z.eqb_spec nbytes 0) as [->|Hnz].
  - split; [|reflexivity]. intros left s' [= <- <-].
    repeat split; intros; try lia; try congruence.
    change (Z.to_nat ((0 + 7) / 8)) with 0%nat. rewrite Nat.add_0_r.
    reflexivity.
  - split; [discriminate | lia].
  - split; [|reflexivity]. intros left s' [= <- <-].
    repeat split; intros; try lia; try congruence.
    change (Z.to_nat ((0 + 7) / 8)) with 0%nat. rewrite Nat.add_0_r.
    reflexivity.
  - assert (Hs : s32 (nbytes - Z.min nbytes 8) = nbytes - Z.min nbytes 8)
      by (apply s32_small; lia).
    rewrite Hs.
    destruct (IH (nbytes - Z.min nbytes 8) (step_tick s) ltac:(lia))
      as (I1 & I2).
    split.
    + destruct (Z.eqb_spec (x_ret X (st_tick s)) 0) as [Hz|Hok].
      * intros left s' [= <- <-]. repeat split; try lia.
        intros _. exists (st_tick s). exact Hz.
      * intros left s' E. apply I1 in E.
        destruct E as (E1 & E2 & E3 & E4 & E5 & E6 & E7).
        split; [lia|]. split; [exact E2|]. split; [exact E3|].
        split; [exact E4|]. split; [exact E5|]. split; [exact E6|].
        intros Hl. specialize (E7 Hl). cbn [st_tick step_tick] in E7.
        assert (Hdiv : (nbytes + 7) / 8
                       = (nbytes - Z.min nbytes 8 + 7) / 8 + 1).
        { destruct (Z.le_gt_cases nbytes 8) as [Hle|Hgt].
          - rewrite Z.min_l by lia.
            replace (nbytes - nbytes + 7) with 7 by lia.
            change (7 / 8) with 0.
            assert (1 <= (nbytes + 7) / 8)
              by (apply Z.div_le_lower_bound; lia).
            assert ((nbytes + 7) / 8 < 2)
              by (apply Z.div_lt_upper_bound; lia). lia.
          - rewrite Z.min_r by lia.
            replace (nbytes + 7) with (nbytes - 8 + 7 + 1 * 8) by lia.
            rewrite Z.div_add by lia. reflexivity. }
        assert (0 <= (nbytes - Z.min nbytes 8 + 7) / 8)
          by (apply Z.div_pos; lia).
        lia.
    + intros Hf. destruct (x_ret X (st_tick s) =? 0); [reflexivity|].
      apply I2. lia.
Qed.

(** X26: [get_random_bytes_arch] fills the buffer from the CPU in words of
    eight bytes and leaves the rest to the secondary DRNGs as soon as the
    CPU fails to deliver.  What it returns is the number of bytes the CPU
    did not deliver: 0 when the CPU filled the whole buffer, one read per
    eight bytes and no DRNG involved, the full length when the first
    read fails. *)
Theorem get_random_bytes_arch_return
    (X : extern) (fuel : nat) (ctx : call_ctx) (nbytes : Z) (s : lrng_state)
    (ret : Z) (s' : lrng_state) :
  0 <= nbytes < 2 ^ 31 ->
  get_random_bytes_arch X fuel ctx nbytes s = Returns (ret, s') ->
  0 <= ret <= nbytes /\
  ((forall n, x_ret X n <> 0) ->
   ret = 0 /\ st_trace s' = st_trace s /\ st_pool s' = st_pool s /\
   st_pdrng s' = st_pdrng s /\ sdrngs_of s' = sdrngs_of s /\
   st_tick s' = (st_tick s + Z.to_nat ((nbytes + 7) / 8))%nat) /\
  (nbytes <> 0 -> x_ret X (st_tick s) = 0 -> ret = nbytes) /\
  (ret <> 0 ->
   exists s1 r1,
     st_trace s1 = st_trace s /\
     lrng_sdrng_get X fuel ctx ret s1 = Returns (r1, s')).
Proof.
  intros Hn. unfold get_random_bytes_arch.
  destruct (get_random_bytes_arch_loop_spec X fuel nbytes s Hn) as (Spec & _).
  destruct (get_random_bytes_arch_loop X fuel nbytes s) as [[left s1]| |] eqn:L;
    cbn [mbind outcome_mbind outcome_bind]; try discriminate.
  destruct (Spec left s1 eq_refl) as (S1 & S2 & S3 & S4 & S5 & S6 & S7).
  assert (First : nbytes <> 0 -> x_ret X (st_tick s) = 0 -> left = nbytes).
  { intros Hnz Hz. rewrite get_random_bytes_arch_loop_unfold in L.
    destruct (Z.eqb_spec nbytes 0); [contradiction|].
    destruct fuel; [discriminate|]. rewrite Hz in L. cbn in L. congruence. }
  destruct (Z.eqb_spec left 0) as [Hz|Hnz]; cbn [negb].
  - cbn [mbind outcome_mbind outcome_bind]. intros [= <- <-].
    split; [lia|]. split; [intros _; auto 7|]. split; [exact First|].
    intros H. contradiction.
  - rewrite (u32_small left) by lia.
    destruct (lrng_sdrng_get X fuel ctx left s1) as [[r1 s2]| |] eqn:G;
      cbn [mbind outcome_mbind outcome_bind]; try discriminate.
    intros [= <- <-]. split; [lia|]. split.
    { intros Hall. destruct (S6 Hnz) as (n & Hn0). exfalso.
      exact (Hall n Hn0). }
    split; [exact First|].
    intros _. exists s1, r1. split; [exact S2 | exact G].
Qed.

Lemma get_random_bytes_arch_return_witness :
  fst (result_of (get_random_bytes_arch (const_extern 1 [] 64) 5
                    process_context 20 lrng_online_state)) = 0.
Proof.
  assert (H : get_random_bytes_arch (const_extern 1 [] 64) 5
                process_context 20 lrng_online_state
              = Returns
                  (fst (result_of
                     (get_random_bytes_arch (const_extern 1 [] 64) 5
                        process_context 20 lrng_online_state)),
                   snd (result_of
                     (get_random_bytes_arch (const_extern 1 [] 64) 5
                        process_context 20 lrng_online_state))))
    by (vm_compute; reflexivity).
  destruct (get_random_bytes_arch_return (const_extern 1 [] 64) 5
              process_context 20 lrng_online_state _ _
              ltac:(split; [discriminate | reflexivity]) H)
    as (_ & K & _).
  destruct K as (K & _); [intros n; discriminate | exact K].
Defined.

(** ** Reading from the devices *)

Lemma lrng_read_common_loop_unfold X fuel rd large tmplen nbytes ret s :
  lrng_read_common_loop X fuel rd large tmplen nbytes ret s =
  if nbytes =? 0 then Returns (ret, s)
  else
    match fuel with
    | O => OutOfFuel
    | Datatypes.S fuel' =>
        let '(interrupted, s) :=
          if large then
            if negb (x_ret X (st_tick s) =? 0) then
              (negb (x_ret X (st_tick (step_tick s)) =? 0),
               step_tick (step_tick s))
            else (false, step_tick s)
          else (false, s) in
        if interrupted
        then Returns (if ret =? 0 then - ERESTARTSYS else ret, s)
        else
          '(rc, s) ← rd (min_u32 nbytes tmplen) s;
          if rc <=? 0 then Returns (if rc <? 0 then rc else ret, s)
          else if negb (x_ret X (st_tick s) =? 0)
               then Returns (- EFAULT, step_tick s)
               else lrng_read_common_loop X fuel' rd large tmplen
                      (u64 (nbytes - rc)) (ret + rc) (step_tick s)
    end.
Proof. destruct fuel; reflexivity. Qed.

Lemma lrng_sdrng_get_result X fuel ctx len s ret s' :
  0 <= len ->
  lrng_sdrng_get X fuel ctx len s = Returns (ret, s') ->
  ret = - EFAULT \/ ret = Z.min len INT_MAX.
Proof.
  intros Hlen. destruct fuel as [|fuel]; [discriminate|].
  rewrite lrng_sdrng_get_unfold.
  destruct (Z.eqb_spec len 0) as [->|Hn].
  { intros [= <- _]. right. reflexivity. }
  destruct (lrng_sdrng_select ctx (lrng_drngs_init_cc20 X s)) as [r|];
    [|discriminate].
  intros E. apply lrng_sdrng_get_loop_result in E.
  destruct E as [E|E]; [left; exact E|]. right. rewrite E.
  apply s32_small. unfold INT_MAX. lia.
Qed.

Lemma lrng_read_common_loop_urandom X fuel0 ctx fuel :
  forall large tmplen nbytes ret s r s',
    0 < tmplen <= LRNG_DRNG_MAX_REQSIZE -> 0 <= nbytes < 2 ^ 31 -> 0 <= ret ->
    lrng_read_common_loop X fuel (lrng_sdrng_get X fuel0 ctx) large tmplen
      nbytes ret s = Returns (r, s') ->
    r = ret + nbytes \/ r = - EFAULT \/
    (large = true /\ (r = - ERESTARTSYS \/ (0 < r /\ ret <= r < ret + nbytes))).
Proof.
  unfold LRNG_DRNG_MAX_REQSIZE. change (Z.shiftl 1 12) with 4096.
  induction fuel as [|fuel IH]; intros large tmplen nbytes ret s r s' Ht Hn Hr;
    rewrite lrng_read_common_loop_unfold;
    destruct (Z.eqb_spec nbytes 0) as [->|Hnz]; try discriminate;
    try (intros [= <- _]; left; lia).
  set (pre := if large then _ else _).
  assert (Hpre : fst pre = true -> large = true).
  { subst pre. destruct large; [reflexivity|]. cbn. discriminate. }
  destruct pre as [interrupted s1]. cbn [fst] in Hpre.
  destruct interrupted.
  { intros [= <- _]. right. right. split; [auto|].
    destruct (Z.eqb_spec ret 0); [left; reflexivity | right; lia]. }
  assert (Htodo : 0 < min_u32 nbytes tmplen <= nbytes /\
                  min_u32 nbytes tmplen <= 4096).
  { unfold min_u32. rewrite !u32_small by lia. lia. }
  destruct (lrng_sdrng_get X fuel0 ctx (min_u32 nbytes tmplen) s1)
    as [[rc s2]| |] eqn:G; cbn [mbind outcome_mbind outcome_bind];
    try discriminate.
  apply lrng_sdrng_get_result in G; [|lia].
  assert (Hrc : rc = - EFAULT \/ rc = min_u32 nbytes tmplen).
  { destruct G as [G|G]; [left; exact G|]. right. rewrite G.
    unfold INT_MAX. lia. }
  destruct Hrc as [-> | Hrc].
  { cbn. intros [= <- _]. right. left. reflexivity. }
  destruct (Z.leb_spec rc 0) as [Hle|Hpos]; [lia|].
  destruct (negb _).
  { intros [= <- _]. right. left. reflexivity. }
  intros E.
  assert (Hu : u64 (nbytes - rc) = nbytes - rc)
    by (unfold u64; apply Z.mod_small; lia).
  rewrite Hu in E. apply IH in E; [|lia|lia|lia].
  destruct E as [E | [E | (L & [E | (E1 & E2)])]].
  - left. lia.
  - right. left. exact E.
  - right. right. split; [exact L|]. left. exact E.
  - right. right. split; [exact L|]. right. lia.
Qed.

(** X27: a read from /dev/urandom.  A read of at most [INT_MAX] bytes
    returns the number of bytes asked for, or [-EFAULT] when generating or
    copying to user space fails, a failure that also overrides the bytes
    already delivered.  Only a read larger than 64 bytes that got its
    large buffer looks at pending signals: it alone can end early, with the
    bytes delivered so far or, if there are none, with [-ERESTARTSYS].  A
    read of no bytes returns 0 and does nothing. *)
Theorem lrng_sdrng_read_result
    (X : extern) (fuel : nat) (ctx : call_ctx) (nbytes : Z) (s : lrng_state)
    (ret : Z) (s' : lrng_state) :
  0 <= nbytes < 2 ^ 31 ->
  lrng_sdrng_read X fuel ctx nbytes s = Returns (ret, s') ->
  (nbytes = 0 -> ret = 0 /\ s' = s) /\
  (ret = nbytes \/ ret = - EFAULT \/
   (LRNG_DRNG_BLOCKSIZE < nbytes /\ x_ret X (st_tick s) <> 0 /\
    (ret = - ERESTARTSYS \/ 0 < ret < nbytes))).
Proof.
  intros Hn. unfold lrng_sdrng_read, lrng_read_common, LRNG_DRNG_BLOCKSIZE.
  destruct (Z.eqb_spec nbytes 0) as [->|Hnz].
  { intros [= <- <-]. split; [auto | left; reflexivity]. }
  intros E0. split; [contradiction|]. revert E0.
  assert (Small : forall s0,
    lrng_read_common_loop X fuel (lrng_sdrng_get X fuel ctx) false 64 nbytes 0
      s0 = Returns (ret, s') ->
    ret = nbytes \/ ret = - EFAULT).
  { intros s0 E. apply lrng_read_common_loop_urandom in E;
      [|unfold LRNG_DRNG_MAX_REQSIZE; change (Z.shiftl 1 12) with 4096; lia
       |lia|lia].
    destruct E as [E | [E | (L & _)]]; [left; lia | right; exact E|].
    discriminate. }
  destruct (Z.ltb_spec 64 nbytes) as [Hbig|Hsmall]; cbv beta iota zeta.
  - destruct (Z.eqb_spec (x_ret X (st_tick s)) 0) as [Hm|Hm];
      cbv beta iota zeta.
    + intros E. apply Small in E. destruct E as [E|E]; auto.
    + intros E. apply lrng_read_common_loop_urandom in E; [| |lia|lia].
      * destruct E as [E | [E | (_ & [E | (E1 & E2)])]].
        -- left. lia.
        -- right. left. exact E.
        -- right. right. auto.
        -- right. right. split; [exact Hbig|]. split; [exact Hm|]. right. lia.
      * unfold min_u32, LRNG_DRNG_MAX_REQSIZE.
        change (Z.shiftl 1 12) with 4096. rewrite !u32_small by lia. lia.
  - intros E. apply Small in E. destruct E as [E|E]; auto.
Qed.

Lemma lrng_sdrng_read_result_witness :
  fst (result_of (lrng_sdrng_read (const_extern 0 [] 64) 40 process_context
                    48 (lrng_idle_state 5 0 100))) = 48.
Proof.
  assert (H : lrng_sdrng_read (const_extern 0 [] 64) 40 process_context 48
                (lrng_idle_state 5 0 100)
              = Returns
                  (fst (result_of
                     (lrng_sdrng_read (const_extern 0 [] 64) 40
                        process_context 48 (lrng_idle_state 5 0 100))),
                   snd (result_of
                     (lrng_sdrng_read (const_extern 0 [] 64) 40
                        process_context 48 (lrng_idle_state 5 0 100)))))
    by (vm_compute; reflexivity).
  destruct (lrng_sdrng_read_result (const_extern 0 [] 64) 40 process_context
              48 (lrng_idle_state 5 0 100) _ _
              ltac:(split; [discriminate | reflexivity]) H)
    as (_ & [E | [E | (_ & E & _)]]).
  - exact E.
  - vm_compute in E. discriminate E.
  - exfalso. apply E. reflexivity.
Defined.

(** * The kernel crypto API backend *)

Lemma kc_res_eqb_refl (r : kc_res) : kc_res_eqb r r = true.
Proof. destruct r; simpl; auto using Z.eqb_refl. Qed.

Lemma held_acquire_release (r : kc_res) (evs : list kc_event)
    (acc : list kc_res) :
  held_after (Acquire r :: Release r :: evs) acc = held_after evs acc.
Proof. simpl. now rewrite kc_res_eqb_refl. Qed.

Lemma lrng_kcapi_hash_alloc_cases (E : kcapi_env) (h : String.string) :
  let tfm := kc_alloc_shash E h in
  (tfm < 0 /\ _lrng_kcapi_hash_alloc E (Some h) = (inl tfm, []))
  \/ (0 <= tfm /\ kc_kmalloc_hash E = false
      /\ _lrng_kcapi_hash_alloc E (Some h)
         = (inl (- ENOMEM),
            [Acquire (Res_shash tfm); Release (Res_shash tfm)]))
  \/ (0 <= tfm /\ kc_kmalloc_hash E = true
      /\ _lrng_kcapi_hash_alloc E (Some h)
         = (inr (mk_hash_info tfm),
            [Acquire (Res_shash tfm); Acquire (Res_hash_info tfm)])).
Proof.
  intros tfm. unfold _lrng_kcapi_hash_alloc, IS_ERR. fold tfm.
  destruct (Z.ltb_spec tfm 0) as [L | L]; [left; now split |].
  destruct (kc_kmalloc_hash E); simpl; right; [right | left]; now repeat split.
Qed.

Ltac held_solve :=
  simpl; repeat (rewrite ?kc_res_eqb_refl, ?Z.eqb_refl; simpl);
  try reflexivity.

(** X28 ([lrng_kcapi_drng_alloc]): a missing DRNG name and every name that
    starts with "drbg" or "stdrng" is refused with [-EINVAL] before
    anything is allocated.  Every failure returns a negative error with
    all that was allocated on the way released again; a seed size other
    than 0, 32, 48 and 64 with no seed hash configured fails with
    [-ENOMEM].  On success exactly the resources of the returned object
    are held, [lrng_kcapi_drng_dealloc] releases them all, and the object
    has a seed hash if and only if the DRNG has a seed size, the digest
    size of that hash being the seed size; the hash is the configured one
    or, if none was, sha256, sha384 or sha512 for 32, 48 or 64 bytes. *)
Theorem lrng_kcapi_drng_alloc_outcome (E : kcapi_env)
    (drng_name seed_hash : option String.string) (sec_strength : Z)
    (res : Z + lrng_drng_info) (seed_hash' : option String.string)
    (evs : list kc_event) :
  lrng_kcapi_drng_alloc E drng_name seed_hash sec_strength
    = (res, seed_hash', evs) ->
  ((drng_name = None
    \/ (exists n, drng_name = Some n
          /\ (String.prefix "drbg"%string n = true
              \/ String.prefix "stdrng"%string n = true))) ->
   res = inl (- EINVAL) /\ evs = [] /\ seed_hash' = seed_hash)
  /\ (forall err, res = inl err -> err < 0 /\ held_after evs [] = [])
  /\ (forall n, drng_name = Some n -> seed_hash = None ->
        kc_kmalloc_info E = true -> 0 <= kc_alloc_rng E n ->
        let seedsize := s32 (kc_seedsize E (kc_alloc_rng E n)) in
        seedsize <> 0 -> seedsize <> 32 -> seedsize <> 48 ->
        seedsize <> 64 ->
        String.prefix "drbg"%string n = false ->
        String.prefix "stdrng"%string n = false ->
        res = inl (- ENOMEM) /\ seed_hash' = None)
  /\ (forall d, res = inr d ->
        held_after evs [] = resources_of d
        /\ held_after (evs ++ lrng_kcapi_drng_dealloc d) [] = []
        /\ (exists n, drng_name = Some n /\ kcapi_rng d = kc_alloc_rng E n)
        /\ 0 <= kcapi_rng d
        /\ let seedsize := s32 (kc_seedsize E (kcapi_rng d)) in
           match info_lrng_hash d with
           | None => seedsize = 0 /\ seed_hash' = seed_hash
           | Some h =>
               seedsize <> 0
               /\ _lrng_kcapi_hash_digestsize E h = u32 seedsize
               /\ exists name, seed_hash' = Some name
                    /\ shash_tfm h = kc_alloc_shash E name
                    /\ (seed_hash = None ->
                        (seedsize = 32 /\ name = "sha256"%string)
                        \/ (seedsize = 48 /\ name = "sha384"%string)
                        \/ (seedsize = 64 /\ name = "sha512"%string))
                    /\ (forall c, seed_hash = Some c -> name = c)
           end).
Proof.
  unfold lrng_kcapi_drng_alloc. intros H.
  destruct drng_name as [n |].
  2:{ injection H as <- <- <-.
      split; [intros _; now repeat split |].
      split; [intros err [= <-]; split; [reflexivity | reflexivity] |].
      split; [intros n; discriminate | intros d; discriminate]. }
  destruct (String.prefix "drbg"%string n) eqn:P1.
  { injection H as <- <- <-.
    split; [intros _; now repeat split |].
    split; [intros err [= <-]; split; reflexivity |].
    split; [intros n' [= <-]; intros; congruence
           | intros d; discriminate]. }
  destruct (String.prefix "stdrng"%string n) eqn:P2.
  { injection H as <- <- <-.
    split; [intros _; now repeat split |].
    split; [intros err [= <-]; split; reflexivity |].
    split; [intros n' [= <-]; intros; congruence
           | intros d; discriminate]. }
  split.
  { intros [D | (n' & [= <-] & [D | D])]; congruence. }
  destruct (kc_kmalloc_info E) eqn:K; simpl in H.
  2:{ injection H as <- <- <-.
      split; [intros err [= <-]; split; reflexivity |].
      split; [intros n' _ _ ?; discriminate | intros d; discriminate]. }
  unfold IS_ERR in H.
  destruct (Z.ltb_spec (kc_alloc_rng E n) 0) as [R | R].
  { injection H as <- <- <-.
    split; [intros err [= <-]; split; [exact R | reflexivity] |].
    split; [intros n' [= <-] _ _ ?; lia | intros d; discriminate]. }
  set (rng := kc_alloc_rng E n) in *.
  set (seedsize := s32 (kc_seedsize E rng)) in *.
  destruct (Z.eqb_spec seedsize 0) as [Z0 | Z0]; simpl in H.
  { injection H as <- <- <-.
    split; [intros err; discriminate |].
    split; [intros n' [= <-] _ _ _; simpl; fold rng seedsize; intros; lia |].
    intros d [= <-]. simpl.
    split; [reflexivity |].
    split; [held_solve |].
    split; [exists n; now split |].
    split; [exact R |]. fold seedsize. now split. }
  assert (Hash : forall h,
    (seed_hash = None -> default_seed_hash seedsize = Some h) ->
    (forall c, seed_hash = Some c -> h = c) ->
    match _lrng_kcapi_hash_alloc E (Some h) with
    | (inl err, evs0) =>
        (inl err, Some h,
         [Acquire Res_drng_info; Acquire (Res_rng rng)] ++ evs0
           ++ [Release (Res_rng rng); Release Res_drng_info])
    | (inr lrng_hash, evs0) =>
        if negb (u32 seedsize =? _lrng_kcapi_hash_digestsize E lrng_hash)
        then (inl (- EINVAL), Some h,
              [Acquire Res_drng_info; Acquire (Res_rng rng)] ++ evs0
                ++ _lrng_kcapi_hash_free lrng_hash
                ++ [Release (Res_rng rng); Release Res_drng_info])
        else (inr (mk_drng_info rng (Some lrng_hash)), Some h,
              [Acquire Res_drng_info; Acquire (Res_rng rng)] ++ evs0)
    end = (res, seed_hash', evs) ->
    (forall err, res = inl err -> err < 0 /\ held_after evs [] = [])
    /\ (forall d, res = inr d ->
        held_after evs [] = resources_of d
        /\ held_after (evs ++ lrng_kcapi_drng_dealloc d) [] = []
        /\ (exists n0, Some n = Some n0 /\ kcapi_rng d = kc_alloc_rng E n0)
        /\ 0 <= kcapi_rng d
        /\ let seedsize := s32 (kc_seedsize E (kcapi_rng d)) in
           match info_lrng_hash d with
           | None => seedsize = 0 /\ seed_hash' = seed_hash
           | Some h =>
               seedsize <> 0
               /\ _lrng_kcapi_hash_digestsize E h = u32 seedsize
               /\ exists name, seed_hash' = Some name
                    /\ shash_tfm h = kc_alloc_shash E name
                    /\ (seed_hash = None ->
                        (seedsize = 32 /\ name = "sha256"%string)
                        \/ (seedsize = 48 /\ name = "sha384"%string)
                        \/ (seedsize = 64 /\ name = "sha512"%string))
                    /\ (forall c, seed_hash = Some c -> name = c)
           end)).
  { intros h Hd Hc G.
    destruct (lrng_kcapi_hash_alloc_cases E h)
      as [(T & A) | [(T & KH & A) | (T & KH & A)]];
      rewrite A in G; clear A.
    - injection G as <- <- <-.
      split; [| intros d; discriminate].
      intros err [= <-]. split; [exact T |].
      held_solve.
    - injection G as <- <- <-.
      split; [| intros d; discriminate].
      intros err [= <-]. split; [reflexivity |].
      held_solve.
    - destruct (Z.eqb_spec (u32 seedsize)
                  (_lrng_kcapi_hash_digestsize E
                     (mk_hash_info (kc_alloc_shash E h)))) as [D | D];
        simpl in G; injection G as <- <- <-.
      + split; [intros err; discriminate |].
        intros d [= <-]. simpl.
        split; [reflexivity |].
        split; [held_solve |].
        split; [exists n; now split |].
        split; [exact R |]. fold rng seedsize.
        split; [exact Z0 |]. split; [now symmetry |].
        exists h. split; [reflexivity |]. split; [reflexivity |].
        split; [| exact Hc].
        intros N. specialize (Hd N). unfold default_seed_hash in Hd.
        destruct (Z.eqb_spec seedsize 32);
          [left; split; [assumption | congruence] |].
        destruct (Z.eqb_spec seedsize 48);
          [right; left; split; [assumption | congruence] |].
        destruct (Z.eqb_spec seedsize 64);
          [right; right; split; [assumption | congruence] |].
        discriminate.
      + split; [| intros d; discriminate].
        intros err [= <-]. split; [reflexivity |].
        held_solve. }
  destruct seed_hash as [c |].
  { destruct (Hash c) as (F & S); [discriminate | now intros ? [= <-] | exact H |].
    split; [exact F |].
    split; [intros; discriminate | exact S]. }
  destruct (default_seed_hash seedsize) as [h |] eqn:Dh.
  { destruct (Hash h) as (F & S);
      [reflexivity | intros; discriminate | exact H |].
    split; [exact F |].
    split; [| exact S].
    intros n' [= <-] _ _ _. simpl. fold rng seedsize.
    intros _ N32 N48 N64 _ _. exfalso. unfold default_seed_hash in Dh.
    destruct (Z.eqb_spec seedsize 32); [contradiction |].
    destruct (Z.eqb_spec seedsize 48); [contradiction |].
    destruct (Z.eqb_spec seedsize 64); [contradiction | discriminate]. }
  simpl in H. injection H as <- <- <-.
  split; [intros err [= <-]; split; [reflexivity |] |].
  { held_solve. }
  split; [intros; now split | intros d; discriminate].
Qed.

Lemma lrng_kcapi_drng_alloc_outcome_witness :
  exists d,
    fst (fst (lrng_kcapi_drng_alloc kcapi_sha256_env
                (Some "ansi_cprng"%string) None 32)) = inr d
    /\ info_lrng_hash d = Some (mk_hash_info 9).
Proof.
  assert (H : lrng_kcapi_drng_alloc kcapi_sha256_env
                (Some "ansi_cprng"%string) None 32
              = (inr (mk_drng_info 7 (Some (mk_hash_info 9))),
                 Some "sha256"%string,
                 [Acquire Res_drng_info; Acquire (Res_rng 7);
                  Acquire (Res_shash 9); Acquire (Res_hash_info 9)]))
    by (vm_compute; reflexivity).
  destruct (lrng_kcapi_drng_alloc_outcome kcapi_sha256_env
              (Some "ansi_cprng"%string) None 32 _ _ _ H)
    as (_ & _ & _ & S).
  destruct (S _ eq_refl) as (_ & _ & _ & _ & _).
  exists (mk_drng_info 7 (Some (mk_hash_info 9))).
  split; [now rewrite H | reflexivity].
Defined.

Lemma lrng_kcapi_drng_alloc_success (E : kcapi_env)
    (drng_name seed_hash seed_hash' : option String.string)
    (sec_strength : Z) (d : lrng_drng_info) (evs : list kc_event) :
  lrng_kcapi_drng_alloc E drng_name seed_hash sec_strength
    = (inr d, seed_hash', evs) ->
  match info_lrng_hash d with
  | None => u32 (kc_seedsize E (kcapi_rng d)) = 0
  | Some h =>
      u32 (kc_seedsize E (kcapi_rng d)) <> 0
      /\ _lrng_kcapi_hash_digestsize E h = u32 (kc_seedsize E (kcapi_rng d))
  end.
Proof.
  unfold lrng_kcapi_drng_alloc. intros H.
  destruct drng_name as [n |]; [| discriminate].
  destruct (String.prefix "drbg"%string n); [discriminate |].
  destruct (String.prefix "stdrng"%string n); [discriminate |].
  destruct (kc_kmalloc_info E); [| discriminate]. simpl in H.
  destruct (IS_ERR (kc_alloc_rng E n)); [discriminate |].
  set (rng := kc_alloc_rng E n) in *.
  destruct (Z.eqb_spec (s32 (kc_seedsize E rng)) 0) as [Z0 | Z0]; simpl in H.
  { injection H as <- _ _. simpl. now apply s32_eq_0. }
  assert (N0 : u32 (kc_seedsize E rng) <> 0)
    by (intros C; now apply s32_eq_0 in C).
  assert (Hash : forall h,
    match _lrng_kcapi_hash_alloc E (Some h) with
    | (inl err, evs0) =>
        (inl err, Some h,
         [Acquire Res_drng_info; Acquire (Res_rng rng)] ++ evs0
           ++ [Release (Res_rng rng); Release Res_drng_info])
    | (inr lrng_hash, evs0) =>
        if negb (u32 (s32 (kc_seedsize E rng))
                 =? _lrng_kcapi_hash_digestsize E lrng_hash)
        then (inl (- EINVAL), Some h,
              [Acquire Res_drng_info; Acquire (Res_rng rng)] ++ evs0
                ++ _lrng_kcapi_hash_free lrng_hash
                ++ [Release (Res_rng rng); Release Res_drng_info])
        else (inr (mk_drng_info rng (Some lrng_hash)), Some h,
              [Acquire Res_drng_info; Acquire (Res_rng rng)] ++ evs0)
    end = (inr d, seed_hash', evs) ->
    match info_lrng_hash d with
    | None => u32 (kc_seedsize E (kcapi_rng d)) = 0
    | Some h =>
        u32 (kc_seedsize E (kcapi_rng d)) <> 0
        /\ _lrng_kcapi_hash_digestsize E h
           = u32 (kc_seedsize E (kcapi_rng d))
    end).
  { intros h G.
    destruct (_lrng_kcapi_hash_alloc E (Some h)) as [[err | lh] evs0];
      [discriminate |].
    destruct (Z.eqb_spec (u32 (s32 (kc_seedsize E rng)))
                (_lrng_kcapi_hash_digestsize E lh)) as [D | D];
      simpl in G; [| discriminate].
    injection G as <- _ _. simpl. split; [exact N0 |].
    now rewrite <- D, u32_s32. }
  destruct seed_hash as [c |]; [exact (Hash c H) |].
  destruct (default_seed_hash (s32 (kc_seedsize E rng))) as [h |];
    [exact (Hash h H) | discriminate].
Qed.

(** X29 ([lrng_kcapi_drng_seed_helper], [lrng_kcapi_drng_generate_helper]
    on an object made by [lrng_kcapi_drng_alloc]): generating returns the
    requested length or a negative error, never a short count.  Seeding a
    DRNG that has a seed size resets it only with a digest of exactly
    seed-size bytes, whatever the length of the input, and not at all when
    hashing fails; a seed size above 64 bytes stops in [BUG_ON].  A DRNG
    without seed size is reset with the input as it is.  A return value of
    0 means that the DRNG was reset. *)
Theorem lrng_kcapi_drng_helpers (E : kcapi_env)
    (drng_name seed_hash seed_hash' : option String.string)
    (sec_strength : Z) (d : lrng_drng_info) (evs : list kc_event)
    (inbuflen outbuflen : Z) :
  lrng_kcapi_drng_alloc E drng_name seed_hash sec_strength
    = (inr d, seed_hash', evs) ->
  0 <= outbuflen < 2 ^ 31 ->
  let seedsize := u32 (kc_seedsize E (kcapi_rng d)) in
  (let r := lrng_kcapi_drng_generate_helper E d outbuflen in
   (r = outbuflen \/ r < 0)
   /\ (r < 0 <-> s32 (kc_get_bytes E (kcapi_rng d) outbuflen) < 0))
  /\ (64 < seedsize -> lrng_kcapi_drng_seed_helper E d inbuflen = Panics)
  /\ (seedsize <= 64 ->
      exists ret reset,
        lrng_kcapi_drng_seed_helper E d inbuflen = Returns (ret, reset)
        /\ (forall b, reset = Some b ->
              b = if seedsize =? 0 then inbuflen else seedsize)
        /\ (ret = 0 -> reset <> None)
        /\ (reset = None ->
            seedsize <> 0
            /\ exists h, info_lrng_hash d = Some h
                 /\ ret = s32 (kc_digest E (shash_tfm h) inbuflen)
                 /\ ret <> 0)).
Proof.
  intros A O seedsize.
  apply lrng_kcapi_drng_alloc_success in A. fold seedsize in A.
  split.
  { unfold lrng_kcapi_drng_generate_helper. cbv zeta.
    destruct (Z.ltb_spec (s32 (kc_get_bytes E (kcapi_rng d) outbuflen)) 0)
      as [L | L].
    - split; [now right | tauto].
    - rewrite s32_small by lia. split; [now left | lia]. }
  unfold lrng_kcapi_drng_seed_helper.
  destruct (info_lrng_hash d) as [h |].
  - destruct A as (N0 & D). rewrite D.
    split.
    { intros G. destruct (Z.ltb_spec 64 seedsize); [reflexivity | lia]. }
    intros G. destruct (Z.ltb_spec 64 seedsize); [lia |].
    destruct (Z.eqb_spec seedsize 0) as [C | C]; [contradiction |].
    destruct (Z.eqb_spec (s32 (kc_digest E (shash_tfm h) inbuflen)) 0)
      as [Dg | Dg]; simpl.
    + destruct (Z.eqb_spec (s32 (kc_reset E (kcapi_rng d) seedsize)) 0)
        as [Rs | Rs]; simpl; eexists; eexists;
        (split; [reflexivity |]);
        (split; [intros b [= <-]; reflexivity |]);
        (split; [discriminate | discriminate]).
    + eexists; eexists. split; [reflexivity |].
      split; [discriminate |]. split; [intros; contradiction |].
      intros _. split; [exact C |]. exists h. now repeat split.
  - split; [intros; lia |]. intros _.
    eexists; eexists. split; [reflexivity |].
    rewrite A. simpl.
    split; [intros b [= <-]; reflexivity |].
    split; discriminate.
Qed.

Lemma lrng_kcapi_drng_helpers_witness :
  lrng_kcapi_drng_seed_helper kcapi_sha256_env
    (mk_drng_info 7 (Some (mk_hash_info 9))) 100
  = Returns (0, Some 32).
Proof.
  assert (H : lrng_kcapi_drng_alloc kcapi_sha256_env
                (Some "ansi_cprng"%string) None 32
              = (inr (mk_drng_info 7 (Some (mk_hash_info 9))),
                 Some "sha256"%string,
                 [Acquire Res_drng_info; Acquire (Res_rng 7);
                  Acquire (Res_shash 9); Acquire (Res_hash_info 9)]))
    by (vm_compute; reflexivity).
  destruct (lrng_kcapi_drng_helpers kcapi_sha256_env
              (Some "ansi_cprng"%string) None (Some "sha256"%string) 32
              (mk_drng_info 7 (Some (mk_hash_info 9)))
              [Acquire Res_drng_info; Acquire (Res_rng 7);
               Acquire (Res_shash 9); Acquire (Res_hash_info 9)]
              100 64 H ltac:(split; [discriminate | reflexivity]))
    as (_ & _ & _).
  reflexivity.
Defined.

(** * Allocation of the per-node secondary DRNGs *)

Lemma numa_dealloc_nodes_trace (nodes : list nat)
    (sdrngs : list (option sdrng_slot)) (s : lrng_state) :
  let s' := numa_dealloc_nodes nodes sdrngs s in
  st_trace s'
  = st_trace s
    ++ map (fun p => Ev_drng_dealloc (fst p) (snd p)) (own_handles nodes sdrngs)
  /\ st_sdrng s' = st_sdrng s /\ st_pool s' = st_pool s.
Proof.
  revert s. induction nodes as [| node rest IH]; intros s; simpl.
  { now rewrite app_nil_r. }
  destruct (sdrngs !! node) as [[[| d] |] |]; try apply IH.
  destruct (IH (emit (Ev_drng_dealloc (sdrng_crypto_cb d) (sdrng d)) s))
    as (T & A & P).
  cbv zeta. rewrite T, A, P. simpl. now rewrite <- app_assoc.
Qed.

Lemma numa_alloc_nodes_spec (X : extern) (nodes : list nat) :
  forall used tab s ok tab' s',
  numa_alloc_nodes X nodes used tab s = (ok, tab', s') ->
  NoDup nodes -> Forall (fun n => tab !! n = Some None) nodes ->
  let cb := sdrng_crypto_cb (st_sdrng_init s) in
  (st_sdrng s' = st_sdrng s /\ st_online s' = st_online s
   /\ st_sdrng_init s' = st_sdrng_init s /\ st_jiffies s' = st_jiffies s)
  /\ length tab' = length tab
  /\ (forall n, n ∉ nodes -> tab' !! n = tab !! n)
  /\ exists hs,
       Forall (fun h => 0 <= h) hs
       /\ own_handles nodes tab' = map (pair cb) hs
       /\ u32 (numa_drngs (st_pool s'))
          = u32 (numa_drngs (st_pool s) + Z.of_nat (length hs))
       /\ st_trace s'
          = st_trace s
            ++ repeat (Ev_drng_alloc cb)
                 (length hs + (if ok then 0 else 1))%nat
       /\ if ok
          then (length hs
                = length nodes - (if used then 0 else 1))%nat
               /\ forall n, n ∈ nodes ->
                    (used = false -> hd_error nodes = Some n ->
                     tab' !! n = Some (Some Slot_init))
                    /\ (used = true \/ hd_error nodes <> Some n ->
                        exists d, tab' !! n = Some (Some (Slot_own d))
                          /\ fresh_sdrng cb (st_jiffies s) d)
          else (length hs
                < length nodes - (if used then 0 else 1))%nat.
Proof.
  induction nodes as [| node rest IH]; intros used tab s ok tab' s' H ND FA cb.
  { simpl in H. injection H as <- <- <-.
    split; [now repeat split |]. split; [reflexivity |].
    split; [reflexivity |].
    exists []. simpl. rewrite Z.add_0_r, app_nil_r.
    split; [constructor |]. split; [reflexivity |].
    split; [reflexivity |]. split; [reflexivity |].
    split; [now destruct used |].
    intros n Hn. now apply elem_of_nil in Hn. }
  apply NoDup_cons in ND as (NI & ND).
  apply Forall_cons in FA as (F0 & FA).
  assert (L : (node < length tab)%nat) by (eapply lookup_lt_Some; eauto).
  assert (FA' : forall v,
            Forall (fun n => <[node := v]> tab !! n = Some None) rest).
  { intros v. apply Forall_forall. intros n Hn.
    rewrite list_lookup_insert_ne by (intros ->; contradiction).
    revert n Hn. now apply Forall_forall. }
  simpl in H. destruct used; simpl in H.
  - (* an own object for this node *)
    fold cb in H.
    destruct (IS_ERR (x_ret X (st_tick s))) eqn:Er.
    { injection H as <- <- <-.
      split; [now repeat split |]. split; [reflexivity |].
      split; [reflexivity |].
      exists []. simpl. rewrite Z.add_0_r, F0.
      split; [constructor |].
      assert (O : forall l, Forall (fun n => tab !! n = Some None) l ->
                            own_handles l tab = []).
      { induction l as [| a l IHl]; intros Fl; [reflexivity |].
        apply Forall_cons in Fl as (Fa & Fl). simpl. rewrite Fa. auto. }
      rewrite (O _ FA).
      repeat split; try reflexivity. lia. }
    unfold IS_ERR in Er. apply Z.ltb_ge in Er.
    match type of H with
    | numa_alloc_nodes X rest true ?t ?s1 = _ =>
        destruct (IH true t s1 ok tab' s' H ND (FA' _))
          as ((E1 & E2 & E3 & E4) & Len & Out & hs & Fh & Own & Nu & Tr & Ok)
    end.
    simpl in E1, E2, E3, E4, Nu, Tr, Ok.
    rewrite length_insert in Len.
    assert (At : tab' !! node
                 = Some (Some (Slot_own
                     (lrng_sdrng_reset (st_jiffies s)
                        (mk_sdrng (x_ret X (st_tick s)) cb 0 0 false false))))).
    { rewrite (Out node NI). now apply list_lookup_insert_eq. }
    split; [now repeat split |]. split; [exact Len |].
    split.
    { intros n Hn. apply not_elem_of_cons in Hn as (N1 & N2).
      rewrite (Out n N2). now apply list_lookup_insert_ne. }
    exists (x_ret X (st_tick s) :: hs).
    split; [now constructor |].
    split; [simpl; rewrite At; simpl; now rewrite Own |].
    split.
    { rewrite Nu. unfold u32. simpl length. rewrite Nat2Z.inj_succ.
      rewrite Zplus_mod_idemp_l. f_equal. lia. }
    split.
    { rewrite Tr. simpl. now rewrite <- app_assoc. }
    destruct ok.
    + destruct Ok as (Lh & Each). split; [simpl; lia |].
      intros n Hn. apply elem_of_cons in Hn as [-> | Hn].
      * split; [discriminate |]. intros _.
        eexists. split; [exact At |].
        repeat split; try reflexivity. exact Er.
      * split; [discriminate |]. intros _.
        apply (Each n Hn). now left.
    + simpl. lia.
  - (* the first online node uses the boot-time instance *)
    destruct (IH true _ s ok tab' s' H ND (FA' _))
      as (Fr & Len & Out & hs & Fh & Own & Nu & Tr & Ok).
    rewrite length_insert in Len.
    assert (At : tab' !! node = Some (Some Slot_init)).
    { rewrite (Out node NI). now apply list_lookup_insert_eq. }
    split; [exact Fr |]. split; [exact Len |].
    split.
    { intros n Hn. apply not_elem_of_cons in Hn as (N1 & N2).
      rewrite (Out n N2). now apply list_lookup_insert_ne. }
    exists hs.
    split; [exact Fh |].
    split; [simpl; rewrite At; exact Own |].
    split; [exact Nu |]. split; [exact Tr |].
    destruct ok.
    + destruct Ok as (Lh & Each). split; [simpl; lia |].
      intros n Hn. apply elem_of_cons in Hn as [-> | Hn].
      * split; [intros _ _; exact At |].
        intros [C | C]; [discriminate | now contradiction C].
      * split; [intros _ [= ->]; contradiction |].
        intros _. apply (Each n Hn). now left.
    + simpl. lia.
Qed.

Lemma lrng_drngs_init_cc20_table (X : extern) (s : lrng_state) :
  st_sdrng (lrng_drngs_init_cc20 X s) = st_sdrng s
  /\ st_online (lrng_drngs_init_cc20 X s) = st_online s
  /\ st_jiffies (lrng_drngs_init_cc20 X s) = st_jiffies s.
Proof.
  unfold lrng_drngs_init_cc20. destruct (negb _); [now repeat split |].
  destruct (negb (x_ret X (st_tick s) =? 0));
    [| destruct (negb (x_ret X (st_tick (step_tick s)) =? 0))];
    now repeat split.
Qed.

(** X30 ([_lrng_drngs_numa_alloc]): when the table of per-node DRNGs
    exists already, only the boot-time initialisation runs.  Otherwise the
    call ends in one of two ways.  Either the table is installed: it has
    one entry per possible node, the first online node shares the
    boot-time instance, every other online node has an own DRNG of the
    callback set of the boot-time instance that is not seeded, is flagged
    for reseeding and has the full request budget, offline nodes have no
    entry, and nothing was deallocated.  Or an allocation failed: no
    table is installed and every DRNG allocated before the failure is
    deallocated again, in the order of allocation.  In both cases the
    counter [numa_drngs] has grown by the number of DRNGs allocated; after
    a failure it is not taken back. *)
Theorem lrng_drngs_numa_alloc_outcome (X : extern) (nr_node_ids : nat)
    (s : lrng_state) :
  NoDup (st_online s) ->
  Forall (fun n => (n < nr_node_ids)%nat) (st_online s) ->
  let s0 := lrng_drngs_init_cc20 X s in
  let s' := _lrng_drngs_numa_alloc X nr_node_ids s in
  let cb := sdrng_crypto_cb (st_sdrng_init s0) in
  (st_sdrng s <> None -> s' = s0)
  /\ (st_sdrng s = None ->
      exists hs,
        Forall (fun h => 0 <= h) hs
        /\ u32 (numa_drngs (st_pool s'))
           = u32 (numa_drngs (st_pool s0) + Z.of_nat (length hs))
        /\ match st_sdrng s' with
           | Some tab =>
               length tab = nr_node_ids
               /\ length hs = (length (st_online s) - 1)%nat
               /\ st_trace s'
                  = st_trace s0 ++ repeat (Ev_drng_alloc cb) (length hs)
               /\ (forall n rest, st_online s = n :: rest ->
                     tab !! n = Some (Some Slot_init)
                     /\ forall m, m ∈ rest ->
                          exists d, tab !! m = Some (Some (Slot_own d))
                            /\ fresh_sdrng cb (st_jiffies s) d)
               /\ (forall n, (n < nr_node_ids)%nat -> n ∉ st_online s ->
                     tab !! n = Some None)
           | None =>
               (length hs + 1 < length (st_online s))%nat
               /\ st_trace s'
                  = st_trace s0
                    ++ repeat (Ev_drng_alloc cb) (length hs + 1)
                    ++ map (Ev_drng_dealloc cb) hs
           end).
Proof.
  intros ND FA s0 s' cb.
  destruct (lrng_drngs_init_cc20_table X s) as (T0 & O0 & J0).
  fold s0 in T0, O0, J0.
  unfold s', _lrng_drngs_numa_alloc. fold s0. cbv zeta.
  split.
  { intros N. rewrite <- T0 in N.
    destruct (st_sdrng s0); [reflexivity | contradiction]. }
  intros N. rewrite <- T0 in N. rewrite N.
  destruct (numa_alloc_nodes X (st_online s0) false
              (replicate nr_node_ids None) s0) as [[ok tab] s1] eqn:A.
  apply numa_alloc_nodes_spec in A.
  2:{ now rewrite O0. }
  2:{ rewrite O0. eapply Forall_impl; [exact FA |].
      intros n Hn. now apply lookup_replicate_2. }
  cbv zeta in A. fold cb in A.
  destruct A as ((E1 & E2 & E3 & E4) & Len & Out & hs & Fh & Own & Nu & Tr & Ok).
  rewrite length_replicate in Len. rewrite O0 in *.
  exists hs. split; [exact Fh |].
  destruct ok.
  - rewrite E1, N. simpl.
    split; [exact Nu |].
    destruct Ok as (Lh & Each).
    split; [exact Len |]. split; [exact Lh |].
    split; [now rewrite Tr, Nat.add_0_r |].
    split.
    + intros n rest Eo. rewrite Eo in *.
      apply NoDup_cons in ND as (NI & ND).
      split.
      * apply (Each n); [now left | reflexivity | reflexivity].
      * intros m Hm. rewrite <- J0.
        apply (Each m); [now right |].
        right. intros [= ->]. contradiction.
    + intros n Hn Hno. rewrite (Out n Hno).
      now apply lookup_replicate_2.
  - destruct (numa_dealloc_nodes_trace (st_online s) tab s1) as (Td & Sd & Pd).
    rewrite E2, Sd, E1, N, Pd.
    split; [exact Nu |].
    split; [lia |].
    rewrite Td, Own, Tr, <- app_assoc, map_map. reflexivity.
Qed.

Lemma lrng_drngs_numa_alloc_outcome_witness :
  exists tab,
    st_sdrng (_lrng_drngs_numa_alloc (const_extern 5 [] 64) 2
                lrng_two_node_state) = Some tab
    /\ tab !! 0%nat = Some (Some Slot_init).
Proof.
  destruct (lrng_drngs_numa_alloc_outcome (const_extern 5 [] 64) 2
              lrng_two_node_state
              ltac:(apply (bool_decide_unpack _); vm_compute; reflexivity)
              ltac:(repeat constructor)) as (_ & S).
  destruct (S eq_refl) as (hs & _ & _ & M).
  destruct (st_sdrng (_lrng_drngs_numa_alloc (const_extern 5 [] 64) 2
                        lrng_two_node_state)) as [tab |] eqn:T;
    [| vm_compute in T; discriminate].
  exists tab. split; [reflexivity |].
  destruct M as (_ & _ & _ & Each & _).
  exact (proj1 (Each 0%nat [1%nat] eq_refl)).
Defined.

(** * Forward movement of the seeding state *)




Lemma seed_key_lfsr_u32 v s :
  seed_key (with_pool (lrng_pool_lfsr_u32 v) s) = seed_key s.
Proof. reflexivity. Qed.

















Lemma st_pdrng_avail_init_ops bits s :
  st_pdrng_avail (lrng_pdrng_init_ops bits s) = st_pdrng_avail s.
Proof.
  unfold lrng_pdrng_init_ops, wake_up_init_wait.
  destruct (pdrng_fully_seeded (st_pdrng s)); [reflexivity|].
  destruct (_ <=? _);
    [cbn [st_pdrng_avail emit]; rewrite lrng_process_ready_list_eq; reflexivity|].
  destruct (negb _); [|reflexivity].
  destruct (_ <=? _);
    [cbn [st_pdrng_avail emit]; rewrite lrng_process_ready_list_eq; reflexivity|].
  destruct (_ <=? _); reflexivity.
Qed.

Lemma seed_step_init_ops bits s : seed_step s (lrng_pdrng_init_ops bits s).
Proof.
  split; [apply st_pdrng_avail_init_ops | apply lrng_pdrng_init_ops_forward].
Qed.


































